(** * ComfyUI-Manager: the node-pack version state machine

    A shallow embedding of [comfyui_manager/common/node_package.py] and of
    the [UnifiedManager] class of [comfyui_manager/glob/manager_core.py].

    The pack root ([custom_nodes]) is a tree of directories; the manager
    keeps an index of it that is only as fresh as the last [reload].
    One pack root is modelled (the default one, which every path the
    engine builds starts from); paths are relative to it, compared
    byte for byte, and only directories are kept, each with what the
    engine reads from inside it (git remote, release metadata, project
    name).
    Helpers of the repository that live in modules outside the embedded
    sources ([cnr_utils], [git_utils], [manager_util], the downloader),
    what git does inside a working copy and what the host refuses are
    gathered in the record [Env] and stay abstract; the statements below
    are about every such environment.

    After the engine come the helpers of [manager_core.py] around it:
    [NormalizedKeyDict], the pip requirement checks ([is_blacklisted],
    [is_installed]), the install scripts ([try_install_script],
    [UnifiedManager.execute_install_script]) and the list of installed
    packs ([get_installed_nodepacks]). *)

From Stdlib Require Import String Ascii List Bool Arith NArith ZArith Lia.
Import ListNotations.
Open Scope string_scope.
Open Scope list_scope.

Set Implicit Arguments.

(* ================================================================== *)
(** ** Python string operations used by the sources *)

Module PyStr.

(** [str.lower()], on the ASCII range. *)
Definition lower_ascii (c : ascii) : ascii :=
  let n := nat_of_ascii c in
  if (Nat.leb 65 n && Nat.leb n 90)%bool then ascii_of_nat (n + 32) else c.

Fixpoint lower (s : string) : string :=
  match s with
  | EmptyString => EmptyString
  | String c r => String (lower_ascii c) (lower r)
  end.

(** [sub in s]. *)
Fixpoint contains (sub s : string) : bool :=
  if String.prefix sub s then true
  else match s with
       | EmptyString => false
       | String _ r => contains sub r
       end.

Fixpoint rev_acc (s acc : string) : string :=
  match s with
  | EmptyString => acc
  | String c r => rev_acc r (String c acc)
  end.

Definition rev (s : string) : string := rev_acc s EmptyString.

(** [s.endswith(suf)]. *)
Definition endswith (suf s : string) : bool :=
  String.prefix (rev suf) (rev s).

(** [s[:-n]]. *)
Definition drop_last (n : nat) (s : string) : string :=
  String.substring 0 (String.length s - n) s.

(** [s.split(c)] for a one-character separator: never the empty list. *)
Fixpoint split (c : ascii) (s : string) : list string :=
  match s with
  | EmptyString => [EmptyString]
  | String a r =>
      if Ascii.eqb a c then EmptyString :: split c r
      else match split c r with
           | [] => [String a EmptyString]
           | h :: t => String a h :: t
           end
  end.

(** [s.replace(a, b)] for one-character [a] and [b]. *)
Fixpoint replace (a b : ascii) (s : string) : string :=
  match s with
  | EmptyString => EmptyString
  | String c r => String (if Ascii.eqb c a then b else c) (replace a b r)
  end.

(** The ASCII characters [str.strip()] removes: 9 to 13, 28 to 31, 32. *)
Definition is_space (c : ascii) : bool :=
  let n := nat_of_ascii c in
  (Nat.eqb n 32 || (Nat.leb 9 n && Nat.leb n 13)
   || (Nat.leb 28 n && Nat.leb n 31))%bool.

Fixpoint lstrip (s : string) : string :=
  match s with
  | EmptyString => EmptyString
  | String c r => if is_space c then lstrip r else s
  end.

(** [s.strip()]. *)
Definition strip (s : string) : string := rev (lstrip (rev (lstrip s))).

(** [os.path.basename] on a POSIX path. *)
Definition basename (s : string) : string :=
  List.last (split "/" s) EmptyString.

(** Truth value of an optional string: [None] and [''] are false. *)
Definition truthy (o : option string) : bool :=
  match o with
  | Some s => negb (String.eqb s "")
  | None => false
  end.

End PyStr.

(* ================================================================== *)
(** ** The directory tree under the pack root *)

(** What [cnr_utils.read_cnr_info] returns for a directory. *)
Record CnrInfo := mkCnrInfo {
  cnr_id : string;
  cnr_version : string;
  cnr_url : option string
}.

(** What the sources read from inside one pack directory. *)
Record Meta := mkMeta {
  m_git_url : option string;      (* git_utils.git_url(fullpath) *)
  m_commit_hash : string;         (* git_utils.get_commit_hash(fullpath) *)
  m_cnr_info : option CnrInfo;    (* cnr_utils.read_cnr_info(fullpath) *)
  m_toml_name : option string     (* pyproject.toml, [project] name, when it loads *)
}.

#[local] Unset Elimination Schemes.
Inductive Dir : Type :=
| MkDir (name : string) (meta : Meta) (children : list Dir).
#[local] Set Elimination Schemes.

Definition d_name (d : Dir) : string := match d with MkDir n _ _ => n end.
Definition d_meta (d : Dir) : Meta := match d with MkDir _ m _ => m end.
Definition d_children (d : Dir) : list Dir := match d with MkDir _ _ c => c end.
Definition d_rename (n : string) (d : Dir) : Dir :=
  match d with MkDir _ m c => MkDir n m c end.

(** The children of the pack root, in [os.listdir] order. *)
Definition FS := list Dir.

(** A path below the pack root, as its components. *)
Definition Path := list string.

Definition empty_meta : Meta := mkMeta None "" None None.

Module Fs.

Fixpoint find (n : string) (ds : list Dir) : option Dir :=
  match ds with
  | [] => None
  | d :: r => if String.eqb (d_name d) n then Some d else find n r
  end.

Fixpoint remove_name (n : string) (ds : list Dir) : list Dir :=
  match ds with
  | [] => []
  | d :: r => if String.eqb (d_name d) n then remove_name n r
              else d :: remove_name n r
  end.

Fixpoint with_children (n : string) (f : list Dir -> list Dir)
         (ds : list Dir) : list Dir :=
  match ds with
  | [] => []
  | d :: r =>
      if String.eqb (d_name d) n
      then MkDir (d_name d) (d_meta d) (f (d_children d)) :: r
      else d :: with_children n f r
  end.

(** The directory at a path, if there is one. *)
Fixpoint lookup (p : Path) (ds : list Dir) : option Dir :=
  match p with
  | [] => None
  | n :: rest =>
      match rest with
      | [] => find n ds
      | _ :: _ =>
          match find n ds with
          | Some d => lookup rest (d_children d)
          | None => None
          end
      end
  end.

(** [os.path.exists] for directories. *)
Definition exists_ (p : Path) (ds : list Dir) : bool :=
  match lookup p ds with Some _ => true | None => false end.

(** [os.path.isdir]; the empty path is the pack root itself. *)
Definition isdir (p : Path) (ds : list Dir) : bool :=
  match p with
  | [] => true
  | _ :: _ => exists_ p ds
  end.

(** [shutil.rmtree] of an existing directory. *)
Fixpoint remove (p : Path) (ds : list Dir) : list Dir :=
  match p with
  | [] => ds
  | n :: rest =>
      match rest with
      | [] => remove_name n ds
      | _ :: _ => with_children n (remove rest) ds
      end
  end.

(** Put [d] at path [p], creating the missing parents; a new entry
    comes last in its listing. *)
Fixpoint insert (p : Path) (d : Dir) (ds : list Dir) : list Dir :=
  match p with
  | [] => ds
  | n :: rest =>
      match rest with
      | [] => ds ++ [d_rename n d]
      | _ :: _ =>
          match find n ds with
          | Some _ => with_children n (insert rest d) ds
          | None => ds ++ [MkDir n empty_meta (insert rest d [])]
          end
      end
  end.

Fixpoint path_eqb (p q : Path) : bool :=
  match p, q with
  | [], [] => true
  | a :: p', b :: q' => String.eqb a b && path_eqb p' q'
  | _, _ => false
  end.

Fixpoint is_prefix (p q : Path) : bool :=
  match p, q with
  | [], _ => true
  | a :: p', b :: q' => String.eqb a b && is_prefix p' q'
  | _ :: _, [] => false
  end.

End Fs.

(** Python exceptions that leave an operation. *)
Inductive exn :=
| FileNotFoundError
| PermissionError
| ShutilError
| ValueError
| TypeError
| CalledProcessError
| OutOfFuel.

Inductive res (A : Type) :=
| Ok (a : A)
| Raise (e : exn).
Arguments Ok {A} a.
Arguments Raise {A} e.

Definition rbind {A B} (r : res A) (k : A -> res B) : res B :=
  match r with
  | Ok a => k a
  | Raise e => Raise e
  end.

Notation "x <- r ;; k" := (rbind r (fun x => k))
  (at level 61, r at next level, right associativity).

(** [shutil.move(src, dst)]: into [dst] when it is an existing directory,
    onto [dst] otherwise. *)
Definition shutil_move (src dst : Path) (fs : FS) : res FS :=
  match Fs.lookup src fs with
  | None => Raise FileNotFoundError
  | Some d =>
      if Fs.isdir dst fs then
        if Fs.path_eqb src dst then Ok fs
        else
          let real_dst := dst ++ [List.last src ""] in
          if Fs.exists_ real_dst fs then Raise ShutilError
          else if Fs.is_prefix src real_dst then Raise ShutilError
          else Ok (Fs.insert real_dst d (Fs.remove src fs))
      else
        if Fs.is_prefix src dst then Raise ShutilError
        else Ok (Fs.insert dst d (Fs.remove src fs))
  end.

(** [os.path.join(base, name)], relative to the pack root, for a
    relative [name] without [.] and [..] components. *)
Definition components (name : string) : Path :=
  filter (fun c => negb (String.eqb c "")) (PyStr.split "/" name).

(* ================================================================== *)
(** ** Collaborators outside the embedded sources *)

(** [manager_util.StrictVersion]: a parsed [major.minor.patch]. *)
Definition Ver := (N * N * N)%type.

Definition ver_eqb (a b : Ver) : bool :=
  let '(a1, a2, a3) := a in
  let '(b1, b2, b3) := b in
  (N.eqb a1 b1 && N.eqb a2 b2 && N.eqb a3 b3)%bool.

Definition ver_ltb (a b : Ver) : bool :=
  let '(a1, a2, a3) := a in
  let '(b1, b2, b3) := b in
  (N.ltb a1 b1
   || (N.eqb a1 b1 && (N.ltb a2 b2 || (N.eqb a2 b2 && N.ltb a3 b3))))%bool.

(** A registry entry, as [cnr_utils.get_nodepack] returns it. *)
Record PackInfo := mkPackInfo {
  pi_id : string;
  pi_repository : option string;      (* key 'repository' *)
  pi_latest_version : option string   (* key 'latest_version' *)
}.

(** What [cnr_utils.install_node] returns. *)
Record NodeInfo := mkNodeInfo {
  ni_version : string;
  ni_download_url : option string
}.

(** What [repo_update] finds in the working copy before it pulls. *)
Inductive UpdateCheck :=
| NoDefaultBranch                      (* HEAD is detached and switch_to_default_branch fails *)
| NoRemote                             (* remote_name is None *)
| NotUpdatable (branch_name : string)  (* no ref <remote_name>/<branch_name> *)
| UpToDate                             (* commit_hash == remote_commit_hash *)
| Behind (url : string).               (* they differ; repo.remotes[0].url, or 'unknown repo' *)

Record Env := mkEnv {
  (* cnr_utils / git_utils / manager_util *)
  normalize_package_name : string -> string;
  compact_url : string -> string;
  strict_version : string -> option Ver;       (* None: the constructor raises *)
  get_nodepack : string -> option PackInfo;
  get_nodepack_by_url : string -> option PackInfo;
  install_node : string -> option string -> option NodeInfo;
  (* the steps that write content inside the tree *)
  extract_archive : string -> Path -> FS -> FS * bool;   (* download, extract, .tracking *)
  (* git.Repo.clone_from; [Some e]: it raised, [e] being the text of the exception *)
  git_clone : string -> Path -> FS -> FS * option string;
  checkout_git_commit : Path -> string -> bool;
  (* UnifiedManager.execute_install_script, the dependency step: what it
     returns, or the exception that leaves it *)
  execute_install_script : string -> Path -> bool -> bool -> res bool;
  listdir_is_empty : Dir -> bool;                        (* not os.listdir(path) *)
  is_valid_url : string -> bool;
  security_level : string;                               (* get_config()['security_level'] *)
  (* inside the helper rmtree: the system refuses this attempt of
     shutil.rmtree on the path (a file in use) *)
  rmtree_refused : Path -> nat -> bool;
  exception_str : exn -> string;                         (* str(e) *)
  (* repo_update from git.Repo(repo_path) to the comparison of the two
     commits: it may switch to the default branch and it fetches *)
  git_check_update : Path -> FS -> FS * res UpdateCheck;
  git_pull : Path -> FS -> FS * res unit;
  sys_executable : string;
  (* os.path.exists(context.manager_startup_script_path), at the start *)
  startup_script_path_exists : bool
}.

(** [_FakeStrictVersion] of the test suite, the replica of
    [manager_util.StrictVersion]: decimal fields, missing ones are 0. *)
Module StrictVersion.

Definition digit (c : ascii) : option N :=
  let n := nat_of_ascii c in
  if (Nat.leb 48 n && Nat.leb n 57)%bool then Some (N.of_nat (n - 48)) else None.

Fixpoint int_acc (s : string) (acc : N) : option N :=
  match s with
  | EmptyString => Some acc
  | String c r =>
      match digit c with
      | Some d => int_acc r (acc * 10 + d)%N
      | None => None
      end
  end.

(** [int(s)] on a non-empty string of decimal digits. *)
Definition int (s : string) : option N :=
  match s with
  | EmptyString => None
  | _ => int_acc s 0%N
  end.

Definition parse (s : string) : option Ver :=
  match PyStr.split "." s with
  | [] => None
  | a :: r =>
      match int a with
      | None => None
      | Some major =>
          match r with
          | [] => Some (major, 0%N, 0%N)
          | b :: r' =>
              match int b with
              | None => None
              | Some minor =>
                  match r' with
                  | [] => Some (major, minor, 0%N)
                  | c :: _ =>
                      match int c with
                      | None => None
                      | Some patch => Some (major, minor, patch)
                      end
                  end
              end
          end
      end
  end.

End StrictVersion.

(* ================================================================== *)
(** ** node_package.py *)

Record InstalledNodePackage := mkPkg {
  pk_id : string;
  pk_fullpath : Path;
  pk_disabled : bool;
  pk_version : string;
  pk_repo_url : option string
}.

Definition is_unknown (p : InstalledNodePackage) : bool :=
  String.eqb (pk_version p) "unknown".

Definition is_nightly (p : InstalledNodePackage) : bool :=
  String.eqb (pk_version p) "nightly".

Definition is_from_cnr (p : InstalledNodePackage) : bool :=
  negb (is_unknown p) && negb (is_nightly p).

Definition pk_is_enabled (p : InstalledNodePackage) : bool := negb (pk_disabled p).

Definition pk_is_disabled (p : InstalledNodePackage) : bool := pk_disabled p.

(** The dictionary [resolve_from_path] hands to [from_fullpath]. *)
Record ResolveInfo := mkResolveInfo {
  ri_id : string;
  ri_ver : string;
  ri_hash : option string;
  ri_url : option string       (* key 'url'; absent from what the manager builds *)
}.

Definition parent_folder_name (fullpath : Path) : string :=
  match List.rev fullpath with
  | _ :: q :: _ => q
  | _ => "custom_nodes"
  end.

Definition module_name_of (fullpath : Path) : string := List.last fullpath "".

(** [InstalledNodePackage.from_fullpath]; [m] is the content found at
    [fullpath]. *)
Definition from_fullpath (fullpath : Path) (m : Meta)
           (resolve_from_path : Meta -> option ResolveInfo)
  : InstalledNodePackage :=
  let parent := parent_folder_name fullpath in
  let module_name := module_name_of fullpath in
  let '(node_id, disabled) :=
    if PyStr.endswith ".disabled" module_name
    then (PyStr.drop_last 9 module_name, true)
    else if String.eqb parent ".disabled"
         then (module_name, true)
         else (module_name, false) in
  let info := resolve_from_path m in
  let '(node_id, version_from_dirname) :=
    if disabled && String.eqb parent ".disabled" && PyStr.contains "@" module_name
    then match PyStr.split "@" module_name with
         | [p0; p1] => (p0, Some (PyStr.replace "_" "." p1))
         | _ => (node_id, None)
         end
    else (node_id, None) in
  match info with
  | None =>
      let version :=
        if PyStr.truthy version_from_dirname
        then match version_from_dirname with Some v => v | None => "unknown" end
        else "unknown" in
      mkPkg node_id fullpath disabled version None
  | Some i =>
      let node_id := ri_id i in
      let version :=
        if PyStr.truthy version_from_dirname
        then match version_from_dirname with Some v => v | None => ri_ver i end
        else ri_ver i in
      let repo_url :=
        if String.eqb version "nightly" then m_git_url m
        else if PyStr.truthy (ri_url i) then ri_url i
        else None in
      mkPkg node_id fullpath disabled version repo_url
  end.

(* ================================================================== *)
(** ** manager_core.py: the index *)

Definition Index := list (string * list InstalledNodePackage).

Module Idx.

Fixpoint get (k : string) (idx : Index) : option (list InstalledNodePackage) :=
  match idx with
  | [] => None
  | (k', v) :: r => if String.eqb k' k then Some v else get k r
  end.

(** [idx.get(k, [])]. *)
Definition get_list (k : string) (idx : Index) : list InstalledNodePackage :=
  match get k idx with Some l => l | None => [] end.

(** [idx[k].append(p)] on a [defaultdict(list)]. *)
Fixpoint append (k : string) (p : InstalledNodePackage) (idx : Index) : Index :=
  match idx with
  | [] => [(k, [p])]
  | (k', v) :: r =>
      if String.eqb k' k then (k', v ++ [p]) :: r
      else (k', v) :: append k p r
  end.

Definition keys (idx : Index) : list string := map fst idx.

End Idx.

Definition RepoMap := list (string * InstalledNodePackage).

Fixpoint repo_map_set (k : string) (p : InstalledNodePackage) (m : RepoMap) : RepoMap :=
  match m with
  | [] => [(k, p)]
  | (k', v) :: r =>
      if String.eqb k' k then (k', p) :: r else (k', v) :: repo_map_set k p r
  end.

(** The state of a [UnifiedManager] together with the tree it manages
    and the lines of [startup-scripts/install-scripts.txt], the commands
    reserved for the next start. *)
Record Manager := mkManager {
  fs : FS;
  installed_node_packages : Index;
  repo_nodepack_map : RepoMap;
  install_scripts : list (list string)
}.

Section WithEnv.

Variable E : Env.

(** [UnifiedManager.resolve_from_path]. *)
Definition resolve_from_path (m : Meta) : option ResolveInfo :=
  if PyStr.truthy (m_git_url m)
  then match m_git_url m with
       | Some url =>
           Some (mkResolveInfo (compact_url E url) "nightly"
                               (Some (m_commit_hash m)) None)
       | None => None
       end
  else match m_cnr_info m with
       | Some info => Some (mkResolveInfo (cnr_id info) (cnr_version info) None None)
       | None => None
       end.

(** One round of the body shared by the two loops of [reload]. *)
Definition index_package (p : InstalledNodePackage) (st : Index * RepoMap)
  : Index * RepoMap :=
  let '(idx, rm) := st in
  let idx := Idx.append (pk_id p) p idx in
  let idx :=
    if is_from_cnr p
    then let normalized_id := normalize_package_name E (pk_id p) in
         if negb (String.eqb normalized_id (pk_id p))
         then Idx.append normalized_id p idx
         else idx
    else idx in
  let rm :=
    if PyStr.truthy (pk_repo_url p)
    then match pk_repo_url p with
         | Some u => repo_map_set (compact_url E u) p rm
         | None => rm
         end
    else rm in
  (idx, rm).

Definition is_reserved_name (x : string) : bool :=
  String.eqb x "__pycache__" || String.eqb x ".disabled".

Definition scan_enabled (t : FS) : list InstalledNodePackage :=
  map (fun d => from_fullpath [d_name d] (d_meta d) resolve_from_path)
      (filter (fun d => negb (is_reserved_name (d_name d))) t).

Definition scan_disabled (t : FS) : list InstalledNodePackage :=
  match Fs.find ".disabled" t with
  | Some dd =>
      map (fun d => from_fullpath [".disabled"; d_name d] (d_meta d) resolve_from_path)
          (d_children dd)
  | None => []
  end.

Definition build_index (t : FS) : Index * RepoMap :=
  fold_left (fun st p => index_package p st)
            (scan_enabled t ++ scan_disabled t) ([], []).

(** [UnifiedManager.reload]. *)
Definition reload (m : Manager) : Manager :=
  let '(idx, rm) := build_index (fs m) in
  mkManager (fs m) idx rm (install_scripts m).

(** [UnifiedManager.is_url_like]. *)
Definition url_patterns : list string :=
  ["http://"; "https://"; "git@"; "ssh://";
   ".git"; "github.com"; "gitlab.com"; "bitbucket.org"].

Definition is_url_like (packname : string) : bool :=
  existsb (fun pattern => PyStr.contains pattern (PyStr.lower packname)) url_patterns.

(** The first repository URL carried by a package of the list. *)
Fixpoint first_repo_url (packages : list InstalledNodePackage) : option string :=
  match packages with
  | [] => None
  | pkg :: r => if PyStr.truthy (pk_repo_url pkg) then pk_repo_url pkg
                else first_repo_url r
  end.

(** The casing of [packname] kept by the first key [owner/Name] whose
    [Name] normalizes to it. *)
Fixpoint find_original_packname (packname : string) (keys : list string)
  : option string :=
  match keys with
  | [] => None
  | pkg_id :: r =>
      if PyStr.contains "/" pkg_id
      then match PyStr.split "/" pkg_id with
           | [_; pkg_name] =>
               if String.eqb (normalize_package_name E pkg_name) packname
               then Some pkg_name
               else find_original_packname packname r
           | _ => find_original_packname packname r
           end
      else find_original_packname packname r
  end.

(** The local [repo_url] of [_get_packages_by_name_or_url] once both
    of its sources were tried. *)
Definition lookup_repo_url (idx : Index) (packname : string)
           (packages : list InstalledNodePackage) : option string :=
  match first_repo_url packages with
  | Some u => Some u
  | None =>
      let original_packname := find_original_packname packname (Idx.keys idx) in
      let cnr_packname :=
        if PyStr.truthy original_packname
        then match original_packname with Some o => o | None => packname end
        else packname in
      match get_nodepack E cnr_packname with
      | Some pack_info => pi_repository pack_info
      | None => None
      end
  end.

(** [UnifiedManager._get_packages_by_name_or_url]. *)
Definition get_packages_by_name_or_url (m : Manager) (packname : string)
  : list InstalledNodePackage :=
  let idx := installed_node_packages m in
  let packages := Idx.get_list packname idx in
  if negb (is_url_like packname)
  then match lookup_repo_url idx packname packages with
       | Some repo_url =>
           if PyStr.truthy (Some repo_url)
           then packages ++ Idx.get_list (compact_url E repo_url) idx
           else packages
       | None => packages
       end
  else packages.

(** [UnifiedManager.get_active_pack]. *)
Definition get_active_pack (m : Manager) (packname : string)
  : option InstalledNodePackage :=
  List.find pk_is_enabled (get_packages_by_name_or_url m packname).

(** [StrictVersion(a) < StrictVersion(b)]. *)
Definition sv_lt (a b : string) : res bool :=
  match strict_version E a, strict_version E b with
  | Some x, Some y => Ok (ver_ltb x y)
  | _, _ => Raise ValueError
  end.

(** [StrictVersion(a) == StrictVersion(b)]. *)
Definition sv_eq (a b : string) : res bool :=
  match strict_version E a, strict_version E b with
  | Some x, Some y => Ok (ver_eqb x y)
  | _, _ => Raise ValueError
  end.

(** The update of [latest_pack] / [latest_cnr] in the three scans. *)
Definition newer_release (latest : option InstalledNodePackage)
           (x : InstalledNodePackage) : res (option InstalledNodePackage) :=
  match latest with
  | None => Ok (Some x)
  | Some l =>
      b <- sv_lt (pk_version l) (pk_version x) ;;
      Ok (if b then Some x else Some l)
  end.

End WithEnv.

(* ================================================================== *)
(** ** manager_core.py: the resolver *)

Section Resolver.

Variable E : Env.

(** The three candidates [get_inactive_pack] keeps while it scans. *)
Record Candidates := mkCandidates {
  latest_pack : option InstalledNodePackage;
  nightly_pack : option InstalledNodePackage;
  unknown_pack : option InstalledNodePackage
}.

Definition opt_str_eqb (s : string) (o : option string) : bool :=
  match o with Some t => String.eqb s t | None => false end.

(** The loop of [get_inactive_pack]: [inl x] is an early [return x]. *)
Fixpoint get_inactive_scan (version_spec : option string)
         (packages : list InstalledNodePackage) (c : Candidates)
  : res (InstalledNodePackage + Candidates) :=
  match packages with
  | [] => Ok (inr c)
  | x :: r =>
      if pk_is_disabled x then
        if is_unknown x then
          if opt_str_eqb "unknown" version_spec then Ok (inl x)
          else get_inactive_scan version_spec r
                 (mkCandidates (latest_pack c) (nightly_pack c) (Some x))
        else if is_nightly x then
          if opt_str_eqb "nightly" version_spec then Ok (inl x)
          else get_inactive_scan version_spec r
                 (mkCandidates (latest_pack c) (Some x) (unknown_pack c))
        else if is_from_cnr x then
          if opt_str_eqb (pk_version x) version_spec then Ok (inl x)
          else
            l <- newer_release E (latest_pack c) x ;;
            get_inactive_scan version_spec r
              (mkCandidates l (nightly_pack c) (unknown_pack c))
        else get_inactive_scan version_spec r c
      else get_inactive_scan version_spec r c
  end.

(** [UnifiedManager.get_inactive_pack]. *)
Definition get_inactive_pack (m : Manager) (packname : string)
           (version_spec : option string) : res (option InstalledNodePackage) :=
  let packages := get_packages_by_name_or_url E m packname in
  r <- get_inactive_scan version_spec packages (mkCandidates None None None) ;;
  match r with
  | inl x => Ok (Some x)
  | inr c =>
      if opt_str_eqb "latest" version_spec then Ok (latest_pack c)
      else
        match latest_pack c with
        | Some l => Ok (Some l)
        | None =>
            match nightly_pack c with
            | Some n => Ok (Some n)
            | None => Ok (unknown_pack c)
            end
        end
  end.

(** The loop of [resolve_unspecified_version]; with [stop_on_enabled]
    it is the one of the 'inactive' mode, [inl tt] being its early
    [return None]. The pair is [(latest_cnr, nightly)]. *)
Fixpoint resolve_scan (stop_on_enabled : bool)
         (packs : list InstalledNodePackage)
         (acc : option InstalledNodePackage * option InstalledNodePackage)
  : res (unit + option InstalledNodePackage * option InstalledNodePackage) :=
  match packs with
  | [] => Ok (inr acc)
  | x :: r =>
      if stop_on_enabled && pk_is_enabled x then Ok (inl tt)
      else if is_from_cnr x then
        l <- newer_release E (fst acc) x ;;
        resolve_scan stop_on_enabled r (l, snd acc)
      else resolve_scan stop_on_enabled r (fst acc, Some x)
  end.

(** [UnifiedManager.resolve_unspecified_version]. *)
Definition resolve_unspecified_version (m : Manager) (packname : string)
           (guess_mode : option string) : res (option string) :=
  if is_url_like packname then Ok (Some "nightly")
  else if opt_str_eqb "active" guess_mode then
    match get_active_pack E m packname with
    | Some x => Ok (Some (pk_version x))
    | None => Ok None
    end
  else
    let packs := get_packages_by_name_or_url E m packname in
    r <- resolve_scan (opt_str_eqb "inactive" guess_mode) packs (None, None) ;;
    match r with
    | inl _ => Ok None
    | inr (latest_cnr, nightly) =>
        match latest_cnr with
        | Some l => Ok (Some (pk_version l))
        | None =>
            match nightly with
            | Some _ => Ok (Some "nightly")
            | None => Ok None
            end
        end
    end.

(** [UnifiedManager.is_enabled]: the first enabled package decides. *)
Fixpoint is_enabled_scan (version_spec : option string)
         (packs : list InstalledNodePackage) : res bool :=
  match packs with
  | [] => Ok false
  | x :: r =>
      if pk_is_enabled x then
        match version_spec with
        | None => Ok true
        | Some v =>
            if String.eqb v "nightly" then Ok (is_nightly x)
            else if is_from_cnr x then sv_eq E (pk_version x) v
            else Ok false
        end
      else is_enabled_scan version_spec r
  end.

Definition is_enabled (m : Manager) (packname : string)
           (version_spec : option string) : res bool :=
  is_enabled_scan version_spec (get_packages_by_name_or_url E m packname).

(** [UnifiedManager.is_disabled] with a version: some disabled package
    matches it. *)
Fixpoint is_disabled_scan (v : string) (packs : list InstalledNodePackage)
  : res bool :=
  match packs with
  | [] => Ok false
  | x :: r =>
      if pk_is_disabled x then
        if String.eqb v "nightly" then
          if is_nightly x then Ok true else is_disabled_scan v r
        else if is_from_cnr x then
          b <- sv_eq E (pk_version x) v ;;
          if b then Ok true else is_disabled_scan v r
        else is_disabled_scan v r
      else is_disabled_scan v r
  end.

Definition is_disabled (m : Manager) (packname : string)
           (version_spec : option string) : res bool :=
  let packs := get_packages_by_name_or_url E m packname in
  match version_spec with
  | None => Ok (negb (existsb pk_is_enabled packs))
  | Some v => is_disabled_scan v packs
  end.

End Resolver.

(* ================================================================== *)
(** ** manager_core.py: results *)

Inductive Item :=
| ItemMoved (from_path to_path : Path)         (* unified_disable *)
| ItemRemoved (version : string) (fullpath : Path)   (* unified_uninstall *)
| ItemUrl (url : string).                      (* repo_install *)

(** The arguments a [postinstall] closure captured for
    [execute_install_script]. *)
Record Postinstall := mkPostinstall {
  po_url : string;
  po_path : option Path;
  po_instant_execution : bool;
  po_no_deps : bool
}.

(** The [postinstall] closures the engine hands back: one calls
    [execute_install_script], the one of [cnr_switch_version_lazy] calls
    [reserve_cnr_switch(target, zip_url, from_path, to_path, no_deps)]. *)
Inductive Closure :=
| ExecuteInstallScript (p : Postinstall)
| ReserveCnrSwitch (target zip_url : string) (from_path to_path : Path)
                   (no_deps : bool).

(** [ManagedResult]; [postinstall] is [None] for the default
    [lambda: True]. *)
Record ManagedResult := mkResult {
  action : string;
  items : list Item;
  result : bool;
  to_path : option Path;
  msg : option string;
  target_path : option Path;
  target_version : option string;
  postinstall : option Closure;
  ver : option string
}.

Definition new_result (action : string) : ManagedResult :=
  mkResult action [] true None None None None None None.

Definition fail (r : ManagedResult) (m : string) : ManagedResult :=
  mkResult (action r) (items r) false (to_path r) (Some m)
           (target_path r) (target_version r) (postinstall r) (ver r).

Definition with_msg (r : ManagedResult) (m : string) : ManagedResult :=
  mkResult (action r) (items r) (result r) (to_path r) (Some m)
           (target_path r) (target_version r) (postinstall r) (ver r).

Definition with_target_path (r : ManagedResult) (p : Path) : ManagedResult :=
  mkResult (action r) (items r) (result r) (to_path r) (msg r)
           (Some p) (target_version r) (postinstall r) (ver r).

Definition with_target_version (r : ManagedResult) (v : option string) : ManagedResult :=
  mkResult (action r) (items r) (result r) (to_path r) (msg r)
           (target_path r) v (postinstall r) (ver r).

Definition with_postinstall (r : ManagedResult) (p : Closure) : ManagedResult :=
  mkResult (action r) (items r) (result r) (to_path r) (msg r)
           (target_path r) (target_version r) (Some p) (ver r).

Definition with_ver (r : ManagedResult) (v : string) : ManagedResult :=
  mkResult (action r) (items r) (result r) (to_path r) (msg r)
           (target_path r) (target_version r) (postinstall r) (Some v).

Definition with_to_path (r : ManagedResult) (p : Path) : ManagedResult :=
  mkResult (action r) (items r) (result r) (Some p) (msg r)
           (target_path r) (target_version r) (postinstall r) (ver r).

Definition append_item (r : ManagedResult) (i : Item) : ManagedResult :=
  mkResult (action r) (items r ++ [i]) (result r) (to_path r) (msg r)
           (target_path r) (target_version r) (postinstall r) (ver r).

Definition with_action (r : ManagedResult) (a : string) : ManagedResult :=
  mkResult a (items r) (result r) (to_path r) (msg r)
           (target_path r) (target_version r) (postinstall r) (ver r).

(** An operation: the manager after it, and what it returned or raised. *)
Definition Op (A : Type) := (Manager * res A)%type.

Definition set_fs (m : Manager) (t : FS) : Manager :=
  mkManager t (installed_node_packages m) (repo_nodepack_map m) (install_scripts m).

(** [reserve_script]: one more line [[repo_path] + install_cmds]. *)
Definition reserve_script (repo_path : string) (install_cmds : list string)
           (m : Manager) : Manager :=
  mkManager (fs m) (installed_node_packages m) (repo_nodepack_map m)
            (install_scripts m ++ [repo_path :: install_cmds]).

Definition path_str (p : Path) : string := String.concat "/" p.

(** [extract_base_custom_nodes_dir]. *)
Definition extract_base_custom_nodes_dir (x : Path) : Path :=
  if PyStr.endswith ".disabled" (parent_folder_name x)
  then List.removelast (List.removelast x)
  else List.removelast x.

Definition opt_show (o : option string) : string :=
  match o with Some s => s | None => "None" end.

(* ================================================================== *)
(** ** manager_core.py: enable, disable, uninstall *)

Section Engine.

Variable E : Env.

(** The name [unified_enable] gives the restored directory. *)
Definition enable_original_name (m : Manager) (packname : string)
           (from_path : Path) : string :=
  match Fs.lookup from_path (fs m) with
  | Some d =>
      match m_toml_name (d_meta d) with
      | Some n => PyStr.strip n
      | None => packname
      end
  | None => packname
  end.

(** [UnifiedManager.unified_enable]. After the resolution of an absent
    version the source tests [version is None], where [version] is the
    imported module [packaging.version]: the test never holds and has
    no branch here. The destination is not tested before the move. *)
Definition unified_enable (m : Manager) (packname : string)
           (version_spec : option string) : Op ManagedResult :=
  let res_ := new_result "enable" in
  match (match version_spec with
         | None => resolve_unspecified_version E m packname (Some "inactive")
         | Some v => Ok (Some v)
         end) with
  | Raise e => (m, Raise e)
  | Ok version_spec =>
      match is_enabled E m packname version_spec with
      | Raise e => (m, Raise e)
      | Ok true => (m, Ok (with_msg (new_result "skip") "Already enabled"))
      | Ok false =>
          match is_disabled E m packname version_spec with
          | Raise e => (m, Raise e)
          | Ok false => (m, Ok (with_msg (new_result "skip") "Not installed"))
          | Ok true =>
              match get_inactive_pack E m packname version_spec with
              | Raise e => (m, Raise e)
              | Ok None =>
                  match version_spec with
                  | None =>
                      (m, Ok (fail res_ ("Specified inactive nodepack not exists: "
                                           ++ packname)%string))
                  | Some v =>
                      (m, Ok (fail res_ ("Specified inactive nodepack not exists: "
                                           ++ packname ++ "@" ++ v)%string))
                  end
              | Ok (Some inactive_node) =>
                  let from_path := pk_fullpath inactive_node in
                  let base_path := extract_base_custom_nodes_dir from_path in
                  let original_name := enable_original_name m packname from_path in
                  let to_path := base_path ++ components original_name in
                  match shutil_move from_path to_path (fs m) with
                  | Raise e => (m, Raise e)
                  | Ok t => (set_fs m t, Ok (with_target_path res_ to_path))
                  end
              end
          end
      end
  end.

(** [UnifiedManager._get_installed_version]. *)
Definition get_installed_version (m : Manager) (fullpath : Path) : option string :=
  match Fs.lookup fullpath (fs m) with
  | Some d =>
      match m_cnr_info (d_meta d) with
      | Some info => Some (cnr_version info)
      | None => None
      end
  | None => None
  end.

(** The two results of the scan that opens [unified_disable]:
    [(matched, matched_active)]. *)
Definition disable_scan (packages : list InstalledNodePackage)
  : option InstalledNodePackage * option InstalledNodePackage :=
  fold_left (fun acc x => (Some x, if pk_is_enabled x then Some x else snd acc))
            packages (None, None).

(** The directory name [unified_disable] puts before the ['@']. *)
Definition disable_folder_name (packname : string)
           (matched_active : InstalledNodePackage) : string :=
  if is_url_like packname
  then PyStr.lower (module_name_of (pk_fullpath matched_active))
  else
    let base_name :=
      if PyStr.contains "/" packname then PyStr.basename packname else packname in
    normalize_package_name E base_name.

(** The version [unified_disable] puts after the ['@'], dots included. *)
Definition disable_installed_version (m : Manager)
           (matched_active : InstalledNodePackage) : string :=
  let installed_version := get_installed_version m (pk_fullpath matched_active) in
  if negb (PyStr.truthy installed_version)
  then pk_version matched_active
  else match installed_version with
       | Some v => v
       | None => pk_version matched_active
       end.

Definition disable_to_path (m : Manager) (packname : string)
           (matched_active : InstalledNodePackage) : Path :=
  let base_path := extract_base_custom_nodes_dir (pk_fullpath matched_active) in
  base_path ++ [".disabled"]
    ++ components (disable_folder_name packname matched_active ++ "@"
                     ++ PyStr.replace "." "_"
                          (disable_installed_version m matched_active))%string.

(** [UnifiedManager.unified_disable]. *)
Definition unified_disable (m : Manager) (packname : string) : Op ManagedResult :=
  let res_ := new_result "disable" in
  let packages := get_packages_by_name_or_url E m packname in
  match disable_scan packages with
  | (None, _) => (m, Ok (with_msg (new_result "skip") "Not installed"))
  | (Some _, None) => (m, Ok (with_msg (new_result "skip") "Already disabled"))
  | (Some _, Some matched_active) =>
      let to_path := disable_to_path m packname matched_active in
      let t := if Fs.exists_ to_path (fs m) then Fs.remove to_path (fs m) else fs m in
      match shutil_move (pk_fullpath matched_active) to_path t with
      | Raise e => (set_fs m t, Raise e)
      | Ok t' =>
          (set_fs m t',
           Ok (append_item res_ (ItemMoved (pk_fullpath matched_active) to_path)))
      end
  end.

(** One [shutil.rmtree(path)] inside [rmtree]: it raises when there is
    no such directory, and when the system refuses; a refused attempt is
    taken to leave the directory as a scan reads it. *)
Definition shutil_rmtree (attempt : nat) (path : Path) (t : FS) : res FS :=
  if Fs.exists_ path t
  then if rmtree_refused E path attempt then Raise PermissionError
       else Ok (Fs.remove path t)
  else Raise FileNotFoundError.

(** The loop of [rmtree]: [retry_count] more attempts follow a failed
    one, the last failure is raised. *)
Fixpoint rmtree_from (retry_count attempt : nat) (path : Path) (t : FS) : res FS :=
  match shutil_rmtree attempt path t with
  | Ok t' => Ok t'
  | Raise e =>
      match retry_count with
      | O => Raise e
      | S k => rmtree_from k (S attempt) path t
      end
  end.

(** [rmtree]: [retry_count = 3], four attempts in all. *)
Definition rmtree (path : Path) (t : FS) : res FS := rmtree_from 3 0 path t.

(** [try_rmtree]: a directory that cannot be removed now is reserved
    for removal at the next start. *)
Definition try_rmtree (title : string) (fullpath : Path) (m : Manager) : Manager :=
  match rmtree fullpath (fs m) with
  | Ok t => set_fs m t
  | Raise _ => reserve_script title ["#LAZY-DELETE-NODEPACK"; path_str fullpath] m
  end.

(** [UnifiedManager.unified_uninstall]. *)
Definition unified_uninstall (m : Manager) (packname : string) : Op ManagedResult :=
  let res_ := new_result "uninstall" in
  let packages_to_uninstall := get_packages_by_name_or_url E m packname in
  let '(m', r) :=
    fold_left (fun (acc : Manager * ManagedResult) x =>
                 (try_rmtree packname (pk_fullpath x) (fst acc),
                  append_item (snd acc) (ItemRemoved (pk_version x) (pk_fullpath x))))
              packages_to_uninstall (m, res_) in
  if Nat.eqb (List.length (items r)) 0
  then (m', Ok (with_msg (new_result "skip") "Not installed"))
  else (m', Ok r).

End Engine.

(* ================================================================== *)
(** ** manager_core.py: install and version switch *)

(** Operations in sequence: the tree and the index are threaded, an
    exception stops the sequence where it is raised. *)
Definition M (A : Type) := Manager -> Op A.

Definition ret {A} (a : A) : M A := fun m => (m, Ok a).

Definition bind {A B} (c : M A) (k : A -> M B) : M B :=
  fun m =>
    match c m with
    | (m', Ok a) => k a m'
    | (m', Raise e) => (m', Raise e)
    end.

Definition ask {A} (f : Manager -> res A) : M A := fun m => (m, f m).

Definition ask_pure {A} (f : Manager -> A) : M A := fun m => (m, Ok (f m)).

Definition update_fs {A} (f : FS -> FS * A) : M A :=
  fun m => let '(t, a) := f (fs m) in (set_fs m t, Ok a).

(** A step on the tree that may raise, and the tree it leaves. *)
Definition update_fs_res {A} (f : FS -> FS * res A) : M A :=
  fun m => let '(t, a) := f (fs m) in (set_fs m t, a).

Notation "x <~ c ;; k" := (bind c (fun x => k))
  (at level 61, c at next level, right associativity).

(** The keyword arguments every install entry point passes on. *)
Record Flags := mkFlags {
  instant_execution : bool;
  no_deps : bool;
  return_postinstall : bool
}.

Section Install.

Variable E : Env.

(** Calling a [postinstall] closure; without a path the step fails on
    its first [os.path.join]. *)
Definition run_postinstall (p : Postinstall) : res bool :=
  match po_path p with
  | Some path =>
      execute_install_script E (po_url p) path
        (po_instant_execution p) (po_no_deps p)
  | None => Raise TypeError
  end.

(** [rmtree(path)] where the source lets its exception through. *)
Definition rmtree_m (path : Path) : M unit :=
  fun m =>
    match rmtree E path (fs m) with
    | Ok t => (set_fs m t, Ok tt)
    | Raise e => (m, Raise e)
    end.

(** The tail shared by the install entry points:
    [if return_postinstall: return result.with_postinstall(postinstall)]
    [else: if not postinstall(): return result.fail(...)], then [result]. *)
Definition finish_with_postinstall (fl : Flags) (r : ManagedResult)
           (p : Postinstall) (failure : string) : M ManagedResult :=
  if return_postinstall fl then ret (with_postinstall r (ExecuteInstallScript p))
  else
    ok <~ ask (fun _ => run_postinstall p) ;;
    if negb ok then ret (fail r failure) else ret r.

Definition node_info_available (n : option NodeInfo) : option (NodeInfo * string) :=
  match n with
  | Some ni =>
      if PyStr.truthy (ni_download_url ni)
      then match ni_download_url ni with
           | Some u => Some (ni, u)
           | None => None
           end
      else None
  | None => None
  end.

(** [UnifiedManager.cnr_install]. *)
Definition cnr_install (packname : string) (version_spec : option string)
           (fl : Flags) : M ManagedResult :=
  let res_ := new_result "install-cnr" in
  if PyStr.contains "comfyui-manager" (PyStr.lower packname)
  then ret (fail res_ ("ignored: installing '" ++ packname ++ "'")%string)
  else
    match node_info_available (install_node E packname version_spec) with
    | None =>
        ret (fail res_ ("not available node: " ++ packname ++ "@"
                          ++ opt_show version_spec)%string)
    | Some (node_info, download_url) =>
        let install_path := components packname in
        exists_ <~ ask_pure (fun m => Fs.isdir install_path (fs m)) ;;
        if (exists_ : bool)
        then ret (fail res_ ("Install path already exists: "
                               ++ path_str install_path)%string)
        else
          extracted <~ update_fs (fun t =>
              extract_archive E download_url install_path
                (Fs.insert install_path (MkDir "" empty_meta []) t)) ;;
          let res_ := with_to_path res_ install_path in
          if negb extracted
          then
            _ <~ rmtree_m install_path ;;
            ret (fail res_ ("Empty archive file: " ++ packname ++ "@"
                              ++ opt_show version_spec)%string)
          else
            let res_ := with_target_path (with_target_version res_ version_spec)
                                         install_path in
            finish_with_postinstall fl res_
              (mkPostinstall packname (Some install_path)
                             (instant_execution fl) (no_deps fl))
              ("Failed to execute install script: " ++ packname ++ "@"
                 ++ opt_show version_spec)%string
    end.

(** [UnifiedManager.repo_install], with the clone made by
    [git.Repo.clone_from]. The clone and the dependency step run inside
    one [try]: an exception of either ends in a failed result. *)
Definition repo_install (url : string) (repo_path : Path) (fl : Flags)
  : M ManagedResult :=
  let res_ := append_item (new_result "install-git") (ItemUrl url) in
  if PyStr.contains "comfyui-manager" (PyStr.lower url)
  then ret (fail res_ ("ignored: installing '" ++ url ++ "'")%string)
  else if negb (is_valid_url E url)
  then ret (fail res_ ("Invalid git url: " ++ url)%string)
  else
    let url := if PyStr.endswith "/" url then PyStr.drop_last 1 url else url in
    let caught (r : ManagedResult) (e : string) :=
      fail r ("Install(git-clone) error[2]: " ++ url ++ " / " ++ e)%string in
    cloned <~ update_fs (git_clone E url repo_path) ;;
    match cloned with
    | Some e => ret (caught res_ e)
    | None =>
        let res_ := with_target_version (with_target_path res_ repo_path)
                                        (Some "nightly") in
        let p := mkPostinstall url (Some repo_path)
                               (instant_execution fl) (no_deps fl) in
        if return_postinstall fl
        then ret (with_postinstall res_ (ExecuteInstallScript p))
        else
          match run_postinstall p with
          | Ok true => ret res_
          | Ok false => ret (fail res_ ("Failed to execute install script: " ++ url)%string)
          | Raise e => ret (caught res_ (exception_str E e))
          end
    end.

Definition last_component (s : string) : string :=
  List.last (PyStr.split "/" s) "".

(** [UnifiedManager.cnr_switch_version_instant]. *)
Definition cnr_switch_version_instant (packname : string)
           (version_spec : option string) (fl : Flags) : M ManagedResult :=
  let res_ := new_result "switch-cnr" in
  active_node <~ ask_pure (fun m => get_active_pack E m packname) ;;
  inactive_node_any <~ ask (fun m => get_inactive_pack E m packname None) ;;
  let original_packname :=
    match active_node, inactive_node_any with
    | Some a, _ => pk_id a
    | None, Some i => pk_id i
    | None, None => packname
    end in
  let original_packname :=
    if PyStr.contains "/" original_packname
    then last_component original_packname else original_packname in
  match node_info_available (install_node E original_packname version_spec) with
  | None =>
      ret (fail res_ ("not available node: " ++ original_packname ++ "@"
                        ++ opt_show version_spec)%string)
  | Some (node_info, download_url) =>
      let version_spec := ni_version node_info in
      inactive_node <~ ask (fun m => get_inactive_pack E m packname (Some version_spec)) ;;
      let case_a :=
        match inactive_node with
        | Some i => is_from_cnr i && String.eqb (pk_version i) version_spec
        | None => false
        end in
      let failure := ("Failed to execute install script: " ++ packname ++ "@"
                        ++ version_spec)%string in
      let title := (packname ++ "@" ++ version_spec)%string in
      if case_a then
        (* Case A: the requested version is in .disabled/ *)
        active_node <~ ask_pure (fun m => get_active_pack E m packname) ;;
        disabled_ok <~
          match active_node with
          | Some a =>
              disable_result <~ (fun m => unified_disable E m (pk_id a)) ;;
              ret (result disable_result, opt_show (msg disable_result))
          | None => ret (true, "")
          end ;;
        if negb (fst disabled_ok)
        then ret (fail res_ ("Failed to disable current version: "
                               ++ snd disabled_ok)%string)
        else
          enable_result <~ (fun m => unified_enable E m packname (Some version_spec)) ;;
          if negb (result enable_result)
          then ret (fail res_ ("Failed to enable CNR version: " ++ title)%string)
          else
            let install_path := target_path enable_result in
            let res_ :=
              mkResult (action res_) (items res_) (result res_) (to_path res_)
                       (msg res_) install_path (Some version_spec)
                       (postinstall res_) (ver res_) in
            finish_with_postinstall fl res_
              (mkPostinstall title install_path (instant_execution fl) (no_deps fl))
              failure
      else
        (* Case B: download and extract *)
        active_node <~ ask_pure (fun m => get_active_pack E m packname) ;;
        match active_node with
        | None =>
            ret (fail res_ ("Failed to switch version: '" ++ packname
                              ++ "' was not previously installed.")%string)
        | Some a =>
            let install_path := pk_fullpath a in
            is_active_nightly <~
              ask_pure (fun m => Fs.isdir (pk_fullpath a ++ [".git"]) (fs m)) ;;
            disabled_ok <~
              (if (is_active_nightly : bool)
               then
                 disable_result <~ (fun m => unified_disable E m (pk_id a)) ;;
                 ret (result disable_result, opt_show (msg disable_result))
               else ret (true, "")) ;;
            if negb (fst disabled_ok)
            then ret (fail res_ ("Failed to disable Nightly version: "
                                   ++ snd disabled_ok)%string)
            else
              extracted <~ update_fs (extract_archive E download_url install_path) ;;
              if negb extracted
              then
                empty <~ ask (fun m =>
                  match Fs.lookup install_path (fs m) with
                  | Some d => Ok (listdir_is_empty E d)
                  | None => Raise FileNotFoundError
                  end) ;;
                _ <~ (if (empty : bool) then rmtree_m install_path else ret tt) ;;
                ret (fail res_ ("Empty archive file: " ++ title)%string)
              else
                (* the stale files of the previous manifest are removed and
                   .tracking is rewritten inside install_path *)
                let res_ :=
                  with_target_path (with_target_version res_ (Some version_spec))
                                   install_path in
                finish_with_postinstall fl res_
                  (mkPostinstall title (Some install_path)
                                 (instant_execution fl) (no_deps fl))
                  failure
        end
  end.

(** [UnifiedManager.switch_version]. *)
Definition switch_version (packname : string) (mode : option string)
           (fl : Flags) : M ManagedResult :=
  let res_ := new_result "switch-version" in
  if opt_str_eqb "nightly" mode then
    inactive_nightly <~ ask (fun m => get_inactive_pack E m packname (Some "nightly")) ;;
    match inactive_nightly with
    | None =>
        ret (fail res_ ("Nightly version not installed for " ++ packname
                          ++ ". Please install it first.")%string)
    | Some _ =>
        active_node <~ ask_pure (fun m => get_active_pack E m packname) ;;
        disabled_ok <~
          match active_node with
          | Some a =>
              disable_result <~ (fun m => unified_disable E m (pk_id a)) ;;
              ret (result disable_result, opt_show (msg disable_result))
          | None => ret (true, "")
          end ;;
        if negb (fst disabled_ok)
        then ret (fail res_ ("Failed to disable current version: "
                               ++ snd disabled_ok)%string)
        else
          enable_result <~ (fun m => unified_enable E m packname (Some "nightly")) ;;
          if negb (result enable_result)
          then ret (fail res_ ("Failed to enable Nightly version: "
                                 ++ opt_show (msg enable_result))%string)
          else
            let install_path := target_path enable_result in
            let res_ :=
              mkResult (action res_) (items res_) (result res_) (to_path res_)
                       (msg res_) install_path (target_version res_)
                       (postinstall res_) (ver res_) in
            finish_with_postinstall fl res_
              (mkPostinstall (packname ++ "@nightly")%string install_path
                             (instant_execution fl) (no_deps fl))
              ("Failed to execute install script: " ++ packname ++ "@nightly")%string
    end
  else cnr_switch_version_instant packname mode fl.

(** [UnifiedManager.reserve_cnr_switch]: one more line in
    [install-scripts.txt]. It opens the file without creating its
    directory, which is there when it was at the start or when a line
    has been written. Paths are written as they are below the pack
    root, whose own path stands before [sys.executable]. *)
Definition reserve_cnr_switch (target zip_url : string) (from_path to_path : Path)
           (no_deps : bool) : M bool :=
  fun m =>
    if startup_script_path_exists E
       || match install_scripts m with [] => false | _ :: _ => true end
    then (mkManager (fs m) (installed_node_packages m) (repo_nodepack_map m)
            (install_scripts m
               ++ [[target; "#LAZY-CNR-SWITCH-SCRIPT"; zip_url;
                    path_str from_path; path_str to_path;
                    if no_deps then "True" else "False";
                    path_str []; sys_executable E]]),
          Ok true)
    else (m, Raise FileNotFoundError).

(** [UnifiedManager.cnr_switch_version_lazy]. *)
Definition cnr_switch_version_lazy (packname : string)
           (version_spec : option string) (fl : Flags) : M ManagedResult :=
  let res_ := new_result "switch-cnr" in
  match node_info_available (install_node E packname version_spec) with
  | None =>
      ret (fail res_ ("not available node: " ++ packname ++ "@"
                        ++ opt_show version_spec)%string)
  | Some (node_info, zip_url) =>
      let version_spec := ni_version node_info in
      active_node <~ ask_pure (fun m => get_active_pack E m packname) ;;
      match active_node with
      | None =>
          ret (fail res_ ("Failed to switch version: '" ++ packname
                            ++ "' was not previously installed.")%string)
      | Some a =>
          if String.eqb (pk_version a) version_spec
          then ret (with_msg (new_result "skip") "Up to date")
          else
            let from_path := pk_fullpath a in
            let target := packname in
            let to_path := components target in
            if return_postinstall fl
            then ret (with_postinstall res_
                        (ReserveCnrSwitch target zip_url from_path to_path
                                          (no_deps fl)))
            else
              ok <~ reserve_cnr_switch target zip_url from_path to_path (no_deps fl) ;;
              if negb ok
              then ret (fail res_ ("Failed to execute install script: " ++ packname
                                     ++ "@" ++ version_spec)%string)
              else ret res_
      end
  end.

(** [UnifiedManager.cnr_switch_version]. *)
Definition cnr_switch_version (packname : string) (version_spec : option string)
           (fl : Flags) : M ManagedResult :=
  if instant_execution fl
  then cnr_switch_version_instant packname version_spec fl
  else cnr_switch_version_lazy packname version_spec fl.

(** [UnifiedManager.repo_update]; what git does is in
    [git_check_update] and [git_pull]. *)
Definition repo_update (repo_path : Path) (fl : Flags) : M ManagedResult :=
  let res_ := new_result "update-git" in
  has_git <~ ask_pure (fun m => Fs.exists_ (repo_path ++ [".git"]) (fs m)) ;;
  if negb has_git
  then ret (fail res_ ("Path not found: " ++ path_str repo_path)%string)
  else
    checked <~ update_fs_res (git_check_update E repo_path) ;;
    match checked with
    | NoDefaultBranch =>
        ret (fail res_ ("Failed to switch to default branch: "
                          ++ path_str repo_path)%string)
    | NoRemote =>
        ret (fail res_ ("Failed to get remote when installing: "
                          ++ path_str repo_path)%string)
    | NotUpdatable branch_name =>
        ret (fail res_ ("Not updatable branch: " ++ branch_name)%string)
    | UpToDate => ret (with_msg (new_result "skip") "Up to date")
    | Behind url =>
        _ <~ update_fs_res (git_pull E repo_path) ;;
        finish_with_postinstall fl res_
          (mkPostinstall url (Some repo_path) (instant_execution fl) (no_deps fl))
          ("Failed to execute install script: " ++ url)%string
    end.

(** [UnifiedManager.unified_update]. *)
Definition unified_update (packname : string) (fl : Flags) : M ManagedResult :=
  pack <~ ask_pure (fun m => get_active_pack E m packname) ;;
  match pack with
  | None =>
      ret (fail (new_result "update")
             ("Update failed: '" ++ packname ++ "' is not installed.")%string)
  | Some pack =>
      if is_nightly pack
      then
        r <~ repo_update (pk_fullpath pack) fl ;;
        ret (with_ver (with_target_version r (Some "nightly")) "nightly")
      else
        r <~ cnr_switch_version packname None fl ;;
        ret (with_ver r "cnr")
  end.

End Install.

Section InstallById.

Variable E : Env.

(** [UnifiedManager.resolve_node_spec]; [None] is its [return None]. *)
Definition resolve_node_spec (m : Manager) (packname : string)
           (guess_mode : option string)
  : res (option (string * option string * bool)) :=
  let spec := PyStr.split "@" packname in
  match spec with
  | [name; version_spec] =>
      if String.eqb version_spec "latest" then
        match get_nodepack E name with
        | Some info =>
            match pi_latest_version info with
            | Some latest => Ok (Some (name, Some latest, true))
            | None => Ok None
            end
        | None => Ok None
        end
      else Ok (Some (name, Some version_spec, true))
  | _ =>
      let guess_mode :=
        if opt_str_eqb "active" guess_mode || opt_str_eqb "inactive" guess_mode
        then guess_mode else None in
      let name := List.hd "" spec in
      v <- resolve_unspecified_version E m name guess_mode ;;
      Ok (Some (name, v, Nat.ltb 1 (List.length spec)))
  end.

Definition is_hex_digit (c : ascii) : bool :=
  PyStr.contains (String c "") "0123456789abcdef".

Fixpoint all_chars (f : ascii -> bool) (s : string) : bool :=
  match s with
  | EmptyString => true
  | String c r => f c && all_chars f r
  end.

(** A version that looks like a git hash: 40 hexadecimal characters. *)
Definition looks_like_git_hash (v : option string) : bool :=
  match v with
  | Some s =>
      PyStr.truthy v && Nat.eqb (String.length s) 40
      && all_chars is_hex_digit (PyStr.lower s)
  | None => false
  end.

Definition reload_m : M unit := fun m => (reload E m, Ok tt).

(** The loop of [install_by_id] that disables what is enabled. *)
Fixpoint disable_enabled (pkgs : list InstalledNodePackage) : M unit :=
  match pkgs with
  | [] => ret tt
  | pkg :: r =>
      if pk_disabled pkg then disable_enabled r
      else
        _ <~ (fun m => unified_disable E m (pk_id pkg)) ;;
        disable_enabled r
  end.

(** [install_by_id] from "ensure target version" on, for a name that
    is not URL-like. The checkout of [git_hash_for_checkout] acts inside
    the directory it is given and changes neither a directory name nor
    the result that is returned; it leaves no trace in the tree. *)
Definition install_by_id_resolved (packname : string)
           (version_spec : option string)
           (git_hash_for_checkout : option string) (fl : Flags)
  : M ManagedResult :=
  early <~
    match version_spec with
    | Some v => ret (inr (Some v))
    | None =>
        enabled <~ ask (fun m => is_enabled E m packname None) ;;
        if (enabled : bool) then ret (inl (new_result "skip"))
        else
          disabled <~ ask (fun m => is_disabled E m packname None) ;;
          if (disabled : bool) then
            r <~ (fun m => unified_enable E m packname None) ;;
            ret (inl r)
          else
            v <~ ask (fun m => resolve_unspecified_version E m packname None) ;;
            ret (inr v)
    end ;;
  match early with
  | inl r => ret r
  | inr version_spec =>
      _ <~ reload_m ;;
      let packname_for_checks := normalize_package_name E packname in
      already <~ ask (fun m => is_enabled E m packname_for_checks version_spec) ;;
      if (already : bool)
      then ret (with_target_version (new_result "skip") version_spec)
      else
        active_pack <~ ask_pure (fun m => get_active_pack E m packname_for_checks) ;;
        inactive_target <~
          match active_pack with
          | Some _ => ask (fun m => get_inactive_pack E m packname_for_checks version_spec)
          | None => ret None
          end ;;
        disabled_target <~
          match active_pack with
          | Some _ => ret false
          | None => ask (fun m => is_disabled E m packname_for_checks version_spec)
          end ;;
        match active_pack, inactive_target with
        | Some _, Some _ => switch_version E packname_for_checks version_spec fl
        | _, _ =>
            if (disabled_target : bool) then
              enabled <~ ask (fun m => is_enabled E m packname_for_checks None) ;;
              _ <~ (if (enabled : bool)
                    then _ <~ (fun m => unified_disable E m packname_for_checks) ;; ret tt
                    else ret tt) ;;
              (fun m => unified_enable E m packname_for_checks version_spec)
            else if opt_str_eqb "nightly" version_spec then
              match get_nodepack E packname with
              | None =>
                  ret (fail (new_result "fail")
                         ("'" ++ packname
                            ++ "' is not a node pack registered in the registry.")%string)
              | Some pack_info =>
                  match pi_repository pack_info with
                  | None =>
                      ret (fail (new_result "fail")
                             ("No nightly version available for installation for '"
                                ++ packname ++ "'.")%string)
                  | Some repo_url =>
                      _ <~ reload_m ;;
                      let packname_normalized := normalize_package_name E packname in
                      enabled <~ ask (fun m => is_enabled E m packname_normalized None) ;;
                      _ <~ (if (enabled : bool)
                            then _ <~ (fun m => unified_disable E m packname_normalized) ;;
                                 ret tt
                            else ret tt) ;;
                      let to_path := components packname in
                      r <~ repo_install E repo_url to_path fl ;;
                      if negb (result r) then ret r
                      else ret (with_target_version r version_spec)
                  end
              end
            else
              let packname_normalized := normalize_package_name E packname in
              _ <~ reload_m ;;
              enabled_packages <~
                ask_pure (fun m => get_packages_by_name_or_url E m packname_normalized) ;;
              _ <~ disable_enabled enabled_packages ;;
              _ <~ (match enabled_packages with
                    | [] => ret tt
                    | _ :: _ => reload_m
                    end) ;;
              disabled_result <~
                ask (fun m => is_disabled E m packname_normalized version_spec) ;;
              if (disabled_result : bool)
              then (fun m => unified_enable E m packname_normalized version_spec)
              else cnr_install E packname version_spec fl
        end
  end.

(** [UnifiedManager.install_by_id]; the fuel bounds the calls it makes
    to itself for a URL the registry knows. *)
Fixpoint install_by_id (fuel : nat) (packname : string)
         (version_spec : option string) (fl : Flags) : M ManagedResult :=
  match fuel with
  | O => fun m => (m, Raise OutOfFuel)
  | S fuel' =>
      if PyStr.contains "comfyui-manager" (PyStr.lower packname)
      then ret (fail (new_result "skip")
                  ("ignored: installing '" ++ packname ++ "'")%string)
      else
        parsed <~
          (if PyStr.contains "@" packname && negb (is_url_like packname)
           then
             node_spec <~ ask (fun m => resolve_node_spec m packname None) ;;
             match node_spec with
             | Some (parsed_name, parsed_version, _) =>
                 if looks_like_git_hash parsed_version
                 then ret (parsed_name, parsed_version)
                 else ret (packname, None)
             | None => ret (packname, None)
             end
           else ret (packname, None)) ;;
        let '(packname, git_hash_for_checkout) := parsed in
        if is_url_like packname then
          let repo_name := PyStr.basename packname in
          let repo_name :=
            if PyStr.endswith ".git" repo_name
            then PyStr.drop_last 4 repo_name else repo_name in
          match get_nodepack_by_url E (compact_url E packname) with
          | Some cnr_package_info =>
              install_by_id fuel' (pi_id cnr_package_info) (Some "nightly") fl
          | None =>
              if negb (String.eqb (security_level E) "weak")
              then ret (fail (new_result "fail")
                          ("Cannot install from URL '" ++ packname
                             ++ "': security_level must be 'weak' for direct URL installation."
                             ++ " Current level: " ++ security_level E)%string)
              else
                let repo_path := components repo_name in
                r <~ repo_install E packname repo_path fl ;;
                if result r
                then ret (with_ver
                            (with_target_version
                               (with_target_path (with_action r "install-git") repo_path)
                               (Some "nightly"))
                            "nightly")
                else ret r
          end
        else install_by_id_resolved packname version_spec git_hash_for_checkout fl
  end.

End InstallById.

(* ================================================================== *)
(** ** A concrete environment and concrete trees *)

Module Demo.

(** "normalize (lowercase, strip whitespace)", as the comment in
    [unified_disable] describes [cnr_utils.normalize_package_name]. *)
Definition normalize (s : string) : string := PyStr.lower (PyStr.strip s).

(** A registry that knows one pack, published as [Foo] from
    [owner/Foo]; remote URLs are kept compact in these trees. *)
Definition registry (name : string) : option PackInfo :=
  if String.eqb (normalize name) "foo"
  then Some (mkPackInfo "foo" (Some "owner/Foo") (Some "1.0.2"))
  else None.

Definition node (name : string) (v : option string) : option NodeInfo :=
  if String.eqb (normalize name) "foo"
  then Some (mkNodeInfo (match v with Some s => s | None => "1.0.2" end)
                        (Some "https://registry/foo.zip"))
  else None.

(** Extraction that writes the release [foo] [1.0.2] at the given path. *)
Definition extract (url : string) (p : Path) (t : FS) : FS * bool :=
  (Fs.insert p (MkDir "" (mkMeta None "" (Some (mkCnrInfo "foo" "1.0.2" None))
                                 (Some "Foo")) [])
             (Fs.remove p t), true).

(** [manager_core.is_valid_url] on one-line strings: [urlparse] finds
    a scheme and a host, or the string has the SSH form of the regular
    expression [^(.+@|ssh://).+:.+$]. *)
Definition is_scheme_char (c : ascii) : bool :=
  let n := nat_of_ascii c in
  ((Nat.leb 97 n && Nat.leb n 122) || (Nat.leb 65 n && Nat.leb n 90)
   || (Nat.leb 48 n && Nat.leb n 57)
   || Ascii.eqb c "+" || Ascii.eqb c "-" || Ascii.eqb c ".")%bool.

Fixpoint after_scheme (s : string) : option string :=
  match s with
  | EmptyString => None
  | String c r =>
      if Ascii.eqb c ":" then Some r
      else if is_scheme_char c then after_scheme r else None
  end.

Definition has_scheme_and_host (u : string) : bool :=
  match u with
  | String c _ =>
      let n := nat_of_ascii c in
      ((Nat.leb 97 n && Nat.leb n 122) || (Nat.leb 65 n && Nat.leb n 90))
      && match after_scheme u with
         | Some (String "/" (String "/" (String h _))) =>
             negb (Ascii.eqb h "/" || Ascii.eqb h "?" || Ascii.eqb h "#")
         | _ => false
         end
  | EmptyString => false
  end.

(** [.+:.+]: a colon with something on both sides. *)
Fixpoint colon_inside (s : string) : bool :=
  match s with
  | String _ (String c r as t) =>
      (Ascii.eqb c ":" && negb (String.eqb r "")) || colon_inside t
  | _ => false
  end.

Fixpoint at_then_colon (s : string) : bool :=
  match s with
  | String _ (String c r as t) =>
      (Ascii.eqb c "@" && colon_inside r) || at_then_colon t
  | _ => false
  end.

Definition valid_url (u : string) : bool :=
  has_scheme_and_host u
  || at_then_colon u
  || (String.prefix "ssh://" u
      && colon_inside (String.substring 6 (String.length u - 6) u)).

(** The text of an exception, as far as these examples show one. *)
Definition str_of (e : exn) : string :=
  match e with
  | CalledProcessError => "Command returned non-zero exit status 1."
  | FileNotFoundError => "[Errno 2] No such file or directory"
  | PermissionError => "[Errno 13] Permission denied"
  | _ => "error"
  end.

(** [deps] is what the dependency step answers, [refused] the attempts
    of [shutil.rmtree] the system refuses; no clone succeeds and every
    working copy is up to date. *)
Definition env_with (deps : res bool) (refused : Path -> nat -> bool) : Env :=
  mkEnv normalize (fun u => u) StrictVersion.parse
        registry (fun _ => None) node
        extract (fun _ _ t => (t, Some "Cmd('git') failed")) (fun _ _ => false)
        (fun _ _ _ _ => deps)
        (fun d => match d_children d with [] => true | _ => false end)
        valid_url "normal" refused str_of
        (fun _ t => (t, Ok UpToDate)) (fun _ t => (t, Ok tt)) "python" true.

(** [deps_ok] is what the dependency step answers; no removal is
    refused. *)
Definition env (deps_ok : bool) : Env := env_with (Ok deps_ok) (fun _ _ => false).

Definition release (dirname id_ version name : string) : Dir :=
  MkDir dirname (mkMeta None "" (Some (mkCnrInfo id_ version None)) (Some name)) [].

Definition nightly (dirname : string) : Dir :=
  MkDir dirname (mkMeta (Some "owner/Foo") "0a1b2c" None None) [].

Definition plain (dirname : string) : Dir := MkDir dirname empty_meta [].

Definition disabled_dir (ds : list Dir) : Dir := MkDir ".disabled" empty_meta ds.

(** A manager whose index was just rebuilt from [t]. *)
Definition fresh (e : Env) (t : FS) : Manager := reload e (mkManager t [] [] []).

Definition flags (rp : bool) : Flags := mkFlags true false rp.

(** Disabled Releases 1.0.0 and 1.0.2 and a disabled Nightly of one pack. *)
Definition three_inactive : FS :=
  [disabled_dir [release "foo@1_0_0" "foo" "1.0.0" "Foo";
                 release "foo@1_0_2" "foo" "1.0.2" "Foo";
                 nightly "foo@nightly"]].

(** Release 1.0.1 of the pack, enabled, while the index still holds
    the scan made when the directory was at 1.0.0. *)
Definition drifted (e : Env) : Manager :=
  mkManager [release "Foo" "foo" "1.0.1" "Foo"]
            (installed_node_packages (fresh e [release "Foo" "foo" "1.0.0" "Foo"]))
            [] [].

(** Release 1.0.1 enabled while the slot [foo@1_0_1] is already taken
    by another copy. *)
Definition slot_taken : FS :=
  [release "Foo" "foo" "1.0.1" "Foo";
   disabled_dir [release "foo@1_0_1" "foo" "1.0.1" "FooOld"]].

(** An enabled Release with two disabled variants, a Release and the
    Nightly build of the same project, next to an unrelated directory. *)
Definition three_variants : FS :=
  [release "Foo" "foo" "1.0.2" "Foo";
   disabled_dir [release "foo@1_0_1" "foo" "1.0.1" "Foo"; nightly "foo@nightly"];
   plain "other"].

(** One disabled Release in its slot, nothing enabled. *)
Definition one_inactive : FS :=
  [disabled_dir [release "foo@1_0_1" "foo" "1.0.1" "Foo"]; plain "other"].

(** The slot [foo@1_0_1] holding a directory whose metadata has moved
    on to 1.0.2. *)
Definition drifted_slot : FS :=
  [disabled_dir [release "foo@1_0_1" "foo" "1.0.2" "Foo"]].

(** Release 1.0.0 enabled in the directory [foo], Release 1.0.1 of the
    same pack disabled; the project calls itself [Foo]. *)
Definition two_versions : FS :=
  [release "foo" "foo" "1.0.0" "Foo";
   disabled_dir [release "foo@1_0_1" "foo" "1.0.1" "Foo"]].

(** One disabled directory in which nothing is recognized. *)
Definition one_unknown : FS := [disabled_dir [plain "foo"]].

(** A git clone of the repository [url]. *)
Definition clone (dirname url : string) : Dir :=
  MkDir dirname (mkMeta (Some url) "0a1b2c" None None) [].

(** A registry that tells the spellings of a name apart: [Foo] is the
    pack of [owner/Foo], [foo] the one of [other/bar]. *)
Definition registry_by_spelling (name : string) : option PackInfo :=
  if String.eqb name "Foo" then Some (mkPackInfo "Foo" (Some "owner/Foo") None)
  else if String.eqb name "foo" then Some (mkPackInfo "foo" (Some "other/bar") None)
  else None.

Definition env_by_spelling : Env :=
  mkEnv normalize (fun u => u) StrictVersion.parse
        registry_by_spelling (fun _ => None) node
        extract (fun _ _ t => (t, Some "Cmd('git') failed")) (fun _ _ => false)
        (fun _ _ _ _ => Ok true)
        (fun d => match d_children d with [] => true | _ => false end)
        valid_url "normal" (fun _ _ => false) str_of
        (fun _ t => (t, Ok UpToDate)) (fun _ t => (t, Ok tt)) "python" true.

(** The clones of the two repositories, both enabled. *)
Definition two_clones : FS := [clone "Foo" "owner/Foo"; clone "bar" "other/bar"].

(** The security level 'weak', a registry that knows no URL, and clones
    that succeed: the working copy of [url] appears at the path. *)
Definition env_cloning : Env :=
  mkEnv normalize (fun u => u) StrictVersion.parse
        registry (fun _ => None) node
        extract (fun url p t => (Fs.insert p (clone "" url) t, None))
        (fun _ _ => false)
        (fun _ _ _ _ => Ok true)
        (fun d => match d_children d with [] => true | _ => false end)
        valid_url "weak" (fun _ _ => false) str_of
        (fun _ t => (t, Ok UpToDate)) (fun _ t => (t, Ok tt)) "python" true.

End Demo.

(* ================================================================== *)
(** ** Notions used by the statements *)

(** What a successful result of an install or a switch says about the
    dependency step. *)
Definition dependency_step_accounted (E : Env) (fl : Flags) (r : ManagedResult)
  : Prop :=
  (return_postinstall fl = true
   /\ exists p, postinstall r = Some (ExecuteInstallScript p)
                /\ po_path p = target_path r)
  \/ (return_postinstall fl = false
      /\ postinstall r = None
      /\ exists title path,
           target_path r = Some path
           /\ execute_install_script E title path
                (instant_execution fl) (no_deps fl) = Ok true).

(** The name and the version an inactive slot [.disabled/<name>@<tag>]
    carries in its directory name, as [from_fullpath] reads them. *)
Definition slot_tag (fullpath : Path) : option (string * string) :=
  if String.eqb (parent_folder_name fullpath) ".disabled"
     && PyStr.contains "@" (module_name_of fullpath)
  then match PyStr.split "@" (module_name_of fullpath) with
       | [p0; p1] => Some (p0, PyStr.replace "_" "." p1)
       | _ => None
       end
  else None.

(** The id [from_fullpath] starts from: the directory name, without a
    trailing [.disabled]. *)
Definition dirname_id (fullpath : Path) : string :=
  if PyStr.endswith ".disabled" (module_name_of fullpath)
  then PyStr.drop_last 9 (module_name_of fullpath)
  else module_name_of fullpath.

(** A disabled Release instance. *)
Definition disabled_release (x : InstalledNodePackage) : bool :=
  pk_is_disabled x && is_from_cnr x.

(** [l] is a disabled Release of [xs] that no disabled Release of [xs]
    exceeds. *)
Definition highest_release (E : Env) (l : InstalledNodePackage)
           (xs : list InstalledNodePackage) : Prop :=
  In l xs /\ disabled_release l = true
  /\ forall x, In x xs -> disabled_release x = true ->
               sv_lt E (pk_version l) (pk_version x) = Ok false.

(** The priority among the disabled instances [xs]: the highest Release,
    else a Nightly, else an Unknown, else nothing. *)
Definition inactive_choice (E : Env) (xs : list InstalledNodePackage)
           (r : option InstalledNodePackage) : Prop :=
  match r with
  | Some x =>
      In x xs /\ pk_is_disabled x = true
      /\ (if is_from_cnr x then highest_release E x xs
          else (forall y, In y xs -> disabled_release y = false)
               /\ (is_unknown x = true ->
                   forall y, In y xs -> pk_is_disabled y = true -> is_unknown y = true))
  | None => forall y, In y xs -> pk_is_disabled y = false
  end.

(** What the scan of [get_inactive_pack] has gathered from [seen]. *)
Definition candidates_of (E : Env) (seen : list InstalledNodePackage)
           (c : Candidates) : Prop :=
  match latest_pack c with
  | Some l => highest_release E l seen
  | None => forall x, In x seen -> disabled_release x = false
  end
  /\ match nightly_pack c with
     | Some n => In n seen /\ pk_is_disabled n = true /\ is_nightly n = true
     | None => forall x, In x seen -> pk_is_disabled x = true -> is_nightly x = false
     end
  /\ match unknown_pack c with
     | Some u => In u seen /\ pk_is_disabled u = true /\ is_unknown u = true
     | None => forall x, In x seen -> pk_is_disabled x = true -> is_unknown x = false
     end.

(** Every disabled Release of [xs] has a version [StrictVersion] accepts. *)
Definition releases_parse (E : Env) (xs : list InstalledNodePackage) : Prop :=
  forall x, In x xs -> disabled_release x = true ->
            strict_version E (pk_version x) <> None.

(** The version [unified_disable] writes into the slot name of the
    directory [d]: the one its release metadata declares now, and the
    version [cached] in the index only when there is none to read. *)
Definition slot_version (d : Dir) (cached : string) : string :=
  match m_cnr_info (d_meta d) with
  | Some info => if String.eqb (cnr_version info) "" then cached else cnr_version info
  | None => cached
  end.

(** The normalized id in a slot name: of the last component of an
    [owner/repo] id, of the whole id otherwise. *)
Definition normalized_id (E : Env) (packname : string) : string :=
  normalize_package_name E
    (if PyStr.contains "/" packname then PyStr.basename packname else packname).

(** [.disabled/<normalized-id>@<tag>], the tag being the version with
    every '.' replaced by '_'. *)
Definition inactive_slot (E : Env) (packname version : string) : Path :=
  ".disabled"
    :: components (normalized_id E packname ++ "@" ++ PyStr.replace "." "_" version)%string.

(** What [unified_disable] writes before the '@' when it moves the
    directory [dirname]: the normalized id, and for a URL-like id the
    lower-cased name of the directory. *)
Definition slot_name (E : Env) (packname dirname : string) : string :=
  if is_url_like packname then PyStr.lower dirname else normalized_id E packname.

(** Everything [reload] scans, in the order it scans it. *)
Definition scan (E : Env) (t : FS) : list InstalledNodePackage :=
  scan_enabled E t ++ scan_disabled E t.

(** [reload] files the package [p] under the key [k]: its id, and for a
    Release also its normalized id when that differs. *)
Definition indexed_under (E : Env) (k : string) (p : InstalledNodePackage) : bool :=
  String.eqb (pk_id p) k
  || (is_from_cnr p
      && negb (String.eqb (normalize_package_name E (pk_id p)) (pk_id p))
      && String.eqb (normalize_package_name E (pk_id p)) k).

(** The key under which [_get_packages_by_name_or_url] looks for the
    builds of the same upstream project, when it has one. *)
Definition cross_reference (E : Env) (m : Manager) (packname : string)
  : option string :=
  if is_url_like packname then None
  else match lookup_repo_url E (installed_node_packages m) packname
               (Idx.get_list packname (installed_node_packages m)) with
       | Some u => if PyStr.truthy (Some u) then Some (compact_url E u) else None
       | None => None
       end.

(** The tree once every path of [l] was removed, in order. *)
Definition remove_all (l : list InstalledNodePackage) (t : FS) : FS :=
  fold_left (fun t x => Fs.remove (pk_fullpath x) t) l t.

(** [rmtree] gets through on the path when the directory is there: one
    of its four attempts is not refused. *)
Definition removable (E : Env) (p : Path) : bool :=
  negb (forallb (rmtree_refused E p) [0; 1; 2; 3]).

(** [try_rmtree] over the paths of [l], in order. *)
Definition try_rmtree_all (E : Env) (title : string)
           (l : list InstalledNodePackage) (m : Manager) : Manager :=
  fold_left (fun m x => try_rmtree E title (pk_fullpath x) m) l m.

(** The line [try_rmtree] reserves for a directory it did not remove. *)
Definition lazy_delete (title : string) (p : Path) : list string :=
  [title; "#LAZY-DELETE-NODEPACK"; path_str p].

(** What a scan depends on: the names and the contents of a listing. *)
Definition same_entry (d' d : Dir) : Prop :=
  d_name d' = d_name d /\ d_meta d' = d_meta d.

(** The names of the directories in the inactive subtree. *)
Definition inactive_names (t : FS) : list string :=
  match Fs.find ".disabled" t with
  | Some dd => map d_name (d_children dd)
  | None => []
  end.

(** The registry answers alike for every spelling that normalizes to
    the id. *)
Definition registry_ignores_spelling (E : Env) (packname : string) : Prop :=
  forall x, normalize_package_name E x = packname ->
            get_nodepack E x = get_nodepack E packname.

(* ================================================================== *)
(** * manager_core.py: helpers around the engine *)

Unset Implicit Arguments.

(** What a call returns, or the class of the exception that leaves it. *)
Inductive outcome (A : Type) :=
| Returns (a : A)
| Raises (exception : string).
Arguments Returns {A} a.
Arguments Raises {A} exception.

Module Text.

(** [str.isspace] on the ASCII range: tab to carriage return, the four
    separators 0x1c to 0x1f, and the space. *)
Definition isspace (c : ascii) : bool :=
  let n := nat_of_ascii c in
  ((Nat.leb 9 n && Nat.leb n 13) || (Nat.leb 28 n && Nat.leb n 32))%bool.

Fixpoint lstrip (s : string) : string :=
  match s with
  | EmptyString => EmptyString
  | String c r => if isspace c then lstrip r else s
  end.

(** [s.strip()]. *)
Definition strip (s : string) : string :=
  PyStr.rev (lstrip (PyStr.rev (lstrip s))).

(** [s.startswith(p)]. *)
Definition startswith (p s : string) : bool := String.prefix p s.

(** [x in l] for a list or a set of strings. *)
Definition mem (x : string) (l : list string) : bool :=
  existsb (String.eqb x) l.

End Text.

(** A Python [dict] with string keys, in insertion order. *)
Module PyDict.

Definition t (A : Type) := list (string * A).

Fixpoint get {A} (k : string) (d : t A) : option A :=
  match d with
  | [] => None
  | (k', v) :: r => if String.eqb k' k then Some v else get k r
  end.

(** [d[k] = v]: in place for a key that is there, last otherwise. *)
Fixpoint set {A} (k : string) (v : A) (d : t A) : t A :=
  match d with
  | [] => [(k, v)]
  | (k', v') :: r => if String.eqb k' k then (k', v) :: r else (k', v') :: set k v r
  end.

(** [del d[k]] for a key that is there. *)
Definition del {A} (k : string) (d : t A) : t A :=
  filter (fun kv => negb (String.eqb (fst kv) k)) d.

Definition has {A} (k : string) (d : t A) : bool :=
  match get k d with Some _ => true | None => false end.

End PyDict.

(** ** [NormalizedKeyDict] *)

Module NormalizedKeyDict.

Section Values.

Variable V : Type.

Record t := mk {
  _store : PyDict.t V;
  _key_map : PyDict.t string
}.

(** [NormalizedKeyDict()]. *)
Definition empty : t := mk [] [].

(** [_normalize_key], for the string keys the class is used with. *)
Definition _normalize_key (key : string) : string :=
  PyStr.lower (Text.strip key).

(** [d[key] = value]. *)
Definition __setitem__ (key : string) (value : V) (d : t) : t :=
  let norm_key := _normalize_key key in
  let key_map := PyDict.set norm_key key (_key_map d) in
  mk (PyDict.set key value (_store d)) key_map.

(** [d[key]]. *)
Definition __getitem__ (key : string) (d : t) : outcome V :=
  let norm_key := _normalize_key key in
  match PyDict.get norm_key (_key_map d) with
  | None => Raises "KeyError"
  | Some original_key =>
      match PyDict.get original_key (_store d) with
      | Some v => Returns v
      | None => Raises "KeyError"
      end
  end.

(** [del d[key]]; the entry of [_key_map] is popped before [_store] is
    touched. *)
Definition __delitem__ (key : string) (d : t) : t * outcome unit :=
  let norm_key := _normalize_key key in
  match PyDict.get norm_key (_key_map d) with
  | None => (d, Raises "KeyError")
  | Some original_key =>
      let key_map := PyDict.del norm_key (_key_map d) in
      match PyDict.get original_key (_store d) with
      | Some _ => (mk (PyDict.del original_key (_store d)) key_map, Returns tt)
      | None => (mk (_store d) key_map, Raises "KeyError")
      end
  end.

(** [key in d]. *)
Definition __contains__ (key : string) (d : t) : bool :=
  PyDict.has (_normalize_key key) (_key_map d).

(** [d.get(key, default)]. *)
Definition get (key : string) (default : V) (d : t) : outcome V :=
  if __contains__ key d then __getitem__ key d else Returns default.

(** [d.setdefault(key, default)]. *)
Definition setdefault (key : string) (default : V) (d : t) : t * outcome V :=
  if __contains__ key d then (d, __getitem__ key d)
  else (__setitem__ key default d, Returns default).

(** [d.pop(key, default)]; [None] is the default [None] of the source,
    which stands for no default at all. *)
Definition pop (key : string) (default : option V) (d : t) : t * outcome V :=
  if __contains__ key d then
    match __getitem__ key d with
    | Raises e => (d, Raises e)
    | Returns val =>
        match __delitem__ key d with
        | (d', Returns _) => (d', Returns val)
        | (d', Raises e) => (d', Raises e)
        end
    end
  else
    match default with
    | Some v => (d, Returns v)
    | None => (d, Raises "KeyError")
    end.

Definition keys (d : t) : list string := map fst (_store d).

Definition values (d : t) : list V := map snd (_store d).

Definition items (d : t) : list (string * V) := _store d.

Definition __len__ (d : t) : nat := List.length (_store d).

Definition to_dict (d : t) : PyDict.t V := _store d.

(** Every spelling [_key_map] remembers is the one its normalized key
    comes from, and has its value in [_store]. *)
Definition consistent (d : t) : Prop :=
  forall norm_key original_key,
    PyDict.get norm_key (_key_map d) = Some original_key ->
    norm_key = _normalize_key original_key
    /\ PyDict.get original_key (_store d) <> None.

(** The dictionaries the methods can build. *)
Inductive built : t -> Prop :=
| built_empty : built empty
| built_setitem key value d : built d -> built (__setitem__ key value d)
| built_delitem key d : built d -> built (fst (__delitem__ key d))
| built_setdefault key default d : built d -> built (fst (setdefault key default d))
| built_pop key default d : built d -> built (fst (pop key default d)).

End Values.

Arguments empty {V}.
Arguments _store {V} _.
Arguments _key_map {V} _.
Arguments __setitem__ {V} key value d.
Arguments __getitem__ {V} key d.
Arguments __delitem__ {V} key d.
Arguments __contains__ {V} key d.
Arguments get {V} key default d.
Arguments setdefault {V} key default d.
Arguments pop {V} key default d.
Arguments keys {V} d.
Arguments values {V} d.
Arguments items {V} d.
Arguments __len__ {V} d.
Arguments to_dict {V} d.
Arguments consistent {V} d.
Arguments built {V} _.

End NormalizedKeyDict.

(** ** pip requirements: [is_blacklisted], [is_installed] *)

Module Pip.

(** What the two functions read from [cm_global] and [manager_util]. *)
Record Config := mkConfig {
  pip_overrides : PyDict.t string;
  pip_blacklist : list string;
  pip_downgrade_blacklist : list string;
  get_installed_packages : PyDict.t string;   (* name -> installed version *)
  strict_version_of : string -> option Ver    (* StrictVersion(s); None: it raises *)
}.

(** One of [<>!~=]. *)
Definition is_operator_char (c : ascii) : bool :=
  existsb (Ascii.eqb c) ["<"; ">"; "!"; "~"; "="]%char.

(** [[0-9.a-zA-Z]]. *)
Definition is_version_char (c : ascii) : bool :=
  let n := nat_of_ascii c in
  ((Nat.leb 48 n && Nat.leb n 57) || Nat.eqb n 46
   || (Nat.leb 97 n && Nat.leb n 122) || (Nat.leb 65 n && Nat.leb n 90))%bool.

(** [[^ ]]. *)
Definition is_not_space (c : ascii) : bool := negb (Ascii.eqb c " ").

(** The longest prefix of characters of a class, and what follows. *)
Fixpoint span (p : ascii -> bool) (s : string) : string * string :=
  match s with
  | EmptyString => (EmptyString, EmptyString)
  | String c r =>
      if p c then let '(a, b) := span p r in (String c a, b)
      else (EmptyString, s)
  end.

Fixpoint drop_while (p : ascii -> bool) (s : string) : string :=
  match s with
  | EmptyString => EmptyString
  | String c r => if p c then drop_while p r else s
  end.

(** [re.search] for the pattern [([^<>!~=]+)([<>!~=]=?)] followed by a
    third group, any number of characters of the class [third]: the
    three groups of the leftmost match. A match
    starts at the first character that is no operator character, the
    greedy first group runs to the next operator character, and there
    is no match when that run reaches the end of the string. *)
Definition search (third : ascii -> bool) (s : string)
  : option (string * string * string) :=
  let '(name, rest) :=
    span (fun c => negb (is_operator_char c)) (drop_while is_operator_char s) in
  match name, rest with
  | String _ _, String op rest =>
      let '(op, rest) :=
        match rest with
        | String c rest' =>
            if Ascii.eqb c "=" then (String op (String c EmptyString), rest')
            else (String op EmptyString, rest)
        | EmptyString => (String op EmptyString, rest)
        end in
      Some (name, op, fst (span third rest))
  | _, _ => None
  end.

(** [remap_pip_package]. *)
Definition remap_pip_package (P : Config) (pkg : string) : string :=
  match PyDict.get pkg (pip_overrides P) with
  | Some res => res
  | None => pkg
  end.

(** The two versions of a comparison [StrictVersion(a) .. StrictVersion(b)]. *)
Definition versions (P : Config) (a b : string) : outcome (Ver * Ver) :=
  match strict_version_of P a, strict_version_of P b with
  | Some x, Some y => Returns (x, y)
  | _, _ => Raises "ValueError"
  end.

(** The block [if name in cm_global.pip_downgrade_blacklist: ...] the
    two functions share; [Returns true] is its [return True]. *)
Definition downgrade_guard (P : Config) (name : string)
           (m : option (string * string * string)) : outcome bool :=
  if Text.mem name (pip_downgrade_blacklist P) then
    let pips := get_installed_packages P in
    match m with
    | None => Returns (PyDict.has name pips)
    | Some (_, op, required) =>
        if Text.mem op ["<="; "=="; "<"; "~="] then
          match PyDict.get name pips with
          | Some installed =>
              match versions P installed required with
              | Returns (a, b) => Returns (negb (ver_ltb a b))
              | Raises e => Raises e
              end
          | None => Returns false
          end
        else Returns false
    end
  else Returns false.

(** [is_blacklisted]. *)
Definition is_blacklisted (P : Config) (name : string) : outcome bool :=
  let name := Text.strip name in
  let m := search is_not_space name in
  let name := match m with Some (g1, _, _) => g1 | None => name end in
  if Text.mem name (pip_blacklist P) then Returns true
  else downgrade_guard P name m.

(** [is_installed]. *)
Definition is_installed (P : Config) (name : string) : outcome bool :=
  let name := Text.strip name in
  if Text.startswith "#" name then Returns true
  else
    let m := search is_version_char name in
    let name := match m with Some (g1, _, _) => g1 | None => name end in
    if Text.mem name (pip_blacklist P) then Returns true
    else
      match downgrade_guard P name m with
      | Raises e => Raises e
      | Returns true => Returns true
      | Returns false =>
          match PyDict.get (PyStr.lower name) (get_installed_packages P) with
          | None => Returns false
          | Some pkg =>
              match m with
              | None => Returns true
              | Some (_, op, required) =>
                  let still_there :=
                    Returns (PyDict.has (PyStr.lower name) (get_installed_packages P)) in
                  let after_eq :=
                    if String.eqb op "~=" then
                      match versions P pkg required with
                      | Returns (a, b) => if ver_eqb a b then Returns false else still_there
                      | Raises e => Raises e
                      end
                    else still_there in
                  let after_ge :=
                    if String.eqb op "==" then
                      match versions P pkg required with
                      | Returns (a, b) => if ver_ltb a b then Returns false else after_eq
                      | Raises e => Raises e
                      end
                    else after_eq in
                  if Text.mem op [">"; ">="] then
                    match versions P pkg required with
                    | Returns (a, b) => if ver_ltb a b then Returns false else after_ge
                    | Raises e => Raises e
                    end
                  else after_ge
              end
          end
      end.

(** The verdict of [is_installed] on an installed package, by operator:
    whether the installed version [a] sends pip to work for the
    required version [b]. *)
Definition asks_for_install (op : string) (a b : Ver) : bool :=
  if Text.mem op [">"; ">="; "=="] then ver_ltb a b
  else if String.eqb op "~=" then ver_eqb a b
  else false.

(** [name op version] as one requirement: a name without operator
    characters, an operator character with or without ['='] behind it,
    and a version of letters, digits and dots. *)
Definition well_formed (name op version : string) : Prop :=
  name <> EmptyString
  /\ span (fun c => negb (is_operator_char c)) name = (name, EmptyString)
  /\ (exists c, is_operator_char c = true
                /\ (op = String c EmptyString \/ op = String c "="))
  /\ span is_version_char version = (version, EmptyString).

End Pip.

(** ** Install scripts: [try_install_script], [execute_install_script] *)

Module Scripts.

(** What the functions read from the host. *)
Record Host := mkHost {
  pip : Pip.Config;
  sys_executable : string;
  platform_is_windows : bool;          (* platform.system() == "Windows" *)
  always_lazy_install : bool;          (* get_config()['always_lazy_install'] *)
  run_script : list string -> string -> outcome Z;   (* manager_funcs.run_script *)
  make_pip_cmd : list string -> list string          (* manager_util.make_pip_cmd *)
}.

(** [UnifiedManager.processed_install], the lines of
    [install-scripts.txt], and the commands that were run, each with
    its working directory. *)
Record State := mkState {
  processed_install : list string;
  install_scripts : list (list string);
  executed : list (list string * string)
}.

(** [self.processed_install.add(x)]. *)
Definition mark_processed (x : string) (st : State) : State :=
  mkState (if Text.mem x (processed_install st)
           then processed_install st else processed_install st ++ [x])
          (install_scripts st) (executed st).

(** [reserve_script]. *)
Definition reserve_script (repo_path : string) (install_cmds : list string)
           (st : State) : State :=
  mkState (processed_install st)
          (install_scripts st ++ [repo_path :: install_cmds])
          (executed st).

(** [len(cmd) > 0 and cmd[0].startswith('#')]. *)
Definition is_lazy_command (cmd : list string) : bool :=
  match cmd with
  | c :: _ => Text.startswith "#" c
  | [] => false
  end.

(** [ManagerFuncs.run_script], what [manager_funcs] is before anything
    replaces it; [check_call] tells whether the command exits with 0,
    [subprocess.check_call] raising otherwise. *)
Definition ManagerFuncs_run_script (check_call : list string -> string -> bool)
           (cmd : list string) (cwd : string) : outcome Z :=
  if is_lazy_command cmd then Returns 0%Z
  else if check_call cmd cwd then Returns 0%Z
       else Raises "CalledProcessError".

(** The package a pip command installs: [install_cmd[4]] of
    [[_, _, 'pip', 'install', _]], [install_cmd[5]] of
    [[_, _, _, 'pip', 'install', _]]. *)
Definition pip_target (install_cmd : list string) : option string :=
  match install_cmd with
  | [_; _; a; b; pkg] =>
      if String.eqb a "pip" && String.eqb b "install" then Some pkg else None
  | [_; _; _; a; b; pkg] =>
      if String.eqb a "pip" && String.eqb b "install" then Some pkg else None
  | _ => None
  end.

(** [try_install_script]. *)
Definition try_install_script (H : Host) (url repo_path : string)
           (install_cmd : list string) (instant_execution : bool) (st : State)
  : State * outcome bool :=
  if negb instant_execution
     && (is_lazy_command install_cmd || platform_is_windows H || always_lazy_install H)
  then (reserve_script repo_path install_cmd st, Returns true)
  else
    match (match pip_target install_cmd with
           | Some pkg => Pip.is_blacklisted (pip H) pkg
           | None => Returns false
           end) with
    | Raises e => (st, Raises e)
    | Returns true => (st, Returns true)
    | Returns false =>
        let st' := mkState (processed_install st) (install_scripts st)
                           (executed st ++ [(install_cmd, repo_path)]) in
        match run_script H install_cmd repo_path with
        | Raises e => (st', Raises e)
        | Returns code => (st', Returns (Z.eqb code 0))
        end
    end.

(** What [execute_install_script] finds in the repository: the lines of
    [requirements.txt] and whether [install.py] is there. *)
Record RepoFiles := mkRepoFiles {
  requirements_txt : option (list string);
  install_py : bool
}.

(** [os.path.join(a, b)] for a relative [b]. *)
Definition path_join (a b : string) : string :=
  if String.eqb a "" then b
  else if PyStr.endswith "/" a then (a ++ b)%string
       else (a ++ "/" ++ b)%string.

(** The package name a line of [requirements.txt] stands for. *)
Definition package_name_of (H : Host) (line : string) : string :=
  Pip.remap_pip_package (pip H) (Text.strip line).

(** [package_name and not package_name.startswith('#')]. *)
Definition is_requirement (package_name : string) : bool :=
  negb (String.eqb package_name "") && negb (Text.startswith "#" package_name).

(** The loop over the lines of [requirements.txt]; [res] is its local
    of that name. *)
Fixpoint install_requirements (H : Host) (url repo_path : string)
         (instant_execution : bool) (lines : list string) (st : State) (res : bool)
  : State * outcome bool :=
  match lines with
  | [] => (st, Returns res)
  | line :: rest =>
      let package_name := package_name_of H line in
      if is_requirement package_name
         && negb (Text.mem package_name (processed_install st))
      then
        let st := mark_processed package_name st in
        let clean_package_name :=
          Text.strip (List.hd EmptyString (PyStr.split "#" package_name)) in
        let install_cmd := make_pip_cmd H ["install"; clean_package_name] in
        if is_requirement clean_package_name then
          if res then
            match try_install_script H url repo_path install_cmd instant_execution st with
            | (st', Returns b) =>
                install_requirements H url repo_path instant_execution rest st' b
            | (st', Raises e) => (st', Raises e)
            end
          else install_requirements H url repo_path instant_execution rest st false
        else install_requirements H url repo_path instant_execution rest st res
      else install_requirements H url repo_path instant_execution rest st res
  end.

(** [UnifiedManager.execute_install_script]. The repair of broken
    packages that follows the requirements ([PIPFixer.fix_broken]) acts
    on the Python environment and is not part of the state. *)
Definition execute_install_script (H : Host) (url repo_path : string)
           (files : RepoFiles) (instant_execution lazy_mode no_deps : bool)
           (st : State) : State * outcome bool :=
  let install_script_path := path_join repo_path "install.py" in
  if lazy_mode then
    try_install_script H url repo_path ["#LAZY-INSTALL-SCRIPT"; sys_executable H]
                       false st
  else
    match (match requirements_txt files with
           | Some lines =>
               if negb no_deps
               then install_requirements H url repo_path instant_execution lines st true
               else (st, Returns true)
           | None => (st, Returns true)
           end) with
    | (st, Raises e) => (st, Raises e)
    | (st, Returns res) =>
        if install_py files
           && negb (Text.mem install_script_path (processed_install st))
        then
          let st := mark_processed install_script_path st in
          if res
          then try_install_script H url repo_path [sys_executable H; "install.py"]
                                  instant_execution st
          else (st, Returns false)
        else (st, Returns res)
    end.

(** The part of [execute_install_script] before [install.py]. *)
Definition requirements_step (H : Host) (url repo_path : string)
           (files : RepoFiles) (instant_execution no_deps : bool) (st : State)
  : State * outcome bool :=
  match requirements_txt files with
  | Some lines =>
      if negb no_deps
      then install_requirements H url repo_path instant_execution lines st true
      else (st, Returns true)
  | None => (st, Returns true)
  end.

(** A command that was run and did not exit with 0. *)
Definition failed_command (H : Host) (run : list string * string) : Prop :=
  exists code, run_script H (fst run) (snd run) = Returns code /\ code <> 0%Z.

(** A host for the examples: pip commands are [python -m pip ...], the
    package [bad] does not install. *)
Definition sample_host : Host :=
  mkHost (Pip.mkConfig [] [] [] [] StrictVersion.parse)
         "python" false false
         (fun cmd _ => if Text.mem "bad" cmd then Returns 1%Z else Returns 0%Z)
         (fun args => ["python"; "-m"; "pip"] ++ args).

End Scripts.

(** ** The list of installed packs: [get_installed_nodepacks] *)

Module Installed.

(** The tuple [identify_node_pack_from_path] returns: [info[0]],
    [info[1]], [info[2]] and [info[4]]; [info[3]] is always [None]. *)
Record Info := mkInfo {
  i_module_name : string;
  i_ver : string;
  i_cnr_id : string;
  i_aux_id : option string
}.

(** One value of the dictionary [get_installed_nodepacks] returns. *)
Record Entry := mkEntry {
  e_ver : string;
  e_cnr_id : string;
  e_aux_id : option string;
  e_enabled : bool
}.

(** [s.add(x)] on a set of strings. *)
Definition add (x : string) (l : list string) : list string :=
  if Text.mem x l then l else l ++ [x].

Definition nonempty (s : string) : bool := negb (String.eqb s "").

Section Helpers.

(** [cnr_utils.read_cnr_id] and [git_utils.normalize_to_github_id]. *)
Variable read_cnr_id : Meta -> option string.
Variable normalize_to_github_id : string -> option string.

(** [identify_node_pack_from_path]; [m] is the content found at
    [fullpath]. *)
Definition identify_node_pack_from_path (fullpath : Path) (m : Meta) : option Info :=
  let module_name := module_name_of fullpath in
  let module_name :=
    if PyStr.endswith ".git" module_name
    then PyStr.drop_last 4 module_name else module_name in
  match m_git_url m with
  | None =>
      match m_cnr_info m with
      | Some cnr => Some (mkInfo module_name (cnr_version cnr) (cnr_id cnr) None)
      | None => None
      end
  | Some repo_url =>
      let github_id :=
        match normalize_to_github_id repo_url with
        | Some g => g
        | None => PyStr.basename repo_url
        end in
      match read_cnr_id m with
      | Some c => Some (mkInfo module_name (m_commit_hash m) c (Some github_id))
      | None => Some (mkInfo module_name (m_commit_hash m) "" (Some github_id))
      end
  end.

Definition entry_of (info : Info) (enabled : bool) : Entry :=
  mkEntry (i_ver info) (i_cnr_id info) (i_aux_id info) enabled.

(** One round of the first pass, over the active root. *)
Definition first_pass_step
           (acc : PyDict.t Entry * list string * list string) (d : Dir)
  : PyDict.t Entry * list string * list string :=
  let '(res, enabled_cnr_ids, enabled_aux_ids) := acc in
  if is_reserved_name (d_name d) then acc
  else
    match identify_node_pack_from_path [d_name d] (d_meta d) with
    | None => acc
    | Some info =>
        (PyDict.set (i_module_name info) (entry_of info true) res,
         if nonempty (i_cnr_id info)
         then add (PyStr.lower (i_cnr_id info)) enabled_cnr_ids
         else enabled_cnr_ids,
         match i_aux_id info with
         | Some aux => if nonempty aux
                       then add (PyStr.lower aux) enabled_aux_ids
                       else enabled_aux_ids
         | None => enabled_aux_ids
         end)
    end.

(** [aux_id.endswith('/' + cnr_id_lower) or
     aux_id.split('/')[-1].lower() == cnr_id_lower]. *)
Definition aux_matches_cnr (cnr_id_lower aux_id : string) : bool :=
  PyStr.endswith ("/" ++ cnr_id_lower) aux_id
  || String.eqb (PyStr.lower (List.last (PyStr.split "/" aux_id) EmptyString))
                cnr_id_lower.

(** The local [has_enabled_version] of the second pass, once its three
    tests are done. *)
Definition has_enabled_version (info : Info)
           (enabled_cnr_ids enabled_aux_ids : list string) : bool :=
  let by_cnr_id :=
    nonempty (i_cnr_id info)
    && Text.mem (PyStr.lower (i_cnr_id info)) enabled_cnr_ids in
  let by_aux_id :=
    match i_aux_id info with
    | Some aux => nonempty aux && Text.mem (PyStr.lower aux) enabled_aux_ids
    | None => false
    end in
  let found := by_cnr_id || by_aux_id in
  if nonempty (i_cnr_id info) && negb found
  then existsb (aux_matches_cnr (PyStr.lower (i_cnr_id info))) enabled_aux_ids
  else found.

(** [bool(info[2] and not info[4])]. *)
Definition is_cnr (info : Info) : bool :=
  nonempty (i_cnr_id info)
  && negb (match i_aux_id info with Some aux => nonempty aux | None => false end).

(** One round of the second pass, over [.disabled]. *)
Definition second_pass_step (enabled_cnr_ids enabled_aux_ids : list string)
           (acc : list (Info * bool) * list string) (d : Dir)
  : list (Info * bool) * list string :=
  let '(disabled_packages, disabled_cnr_ids) := acc in
  if String.eqb (d_name d) "__pycache__" then acc
  else
    match identify_node_pack_from_path [".disabled"; d_name d] (d_meta d) with
    | None => acc
    | Some info =>
        if has_enabled_version info enabled_cnr_ids enabled_aux_ids then acc
        else
          (disabled_packages ++ [(info, is_cnr info)],
           if nonempty (i_cnr_id info)
           then add (PyStr.lower (i_cnr_id info)) disabled_cnr_ids
           else disabled_cnr_ids)
    end.

(** The local [has_disabled_cnr] of the last loop. *)
Definition has_disabled_cnr (info : Info) (is_cnr : bool)
           (disabled_cnr_ids : list string) : bool :=
  match i_aux_id info with
  | Some aux =>
      if negb is_cnr && nonempty aux then
        let aux_id_lower := PyStr.lower aux in
        let package_name :=
          if PyStr.contains "/" aux_id_lower
          then List.last (PyStr.split "/" aux_id_lower) EmptyString
          else aux_id_lower in
        existsb (fun cnr_id =>
                   String.eqb cnr_id package_name
                   || PyStr.endswith ("/" ++ cnr_id) package_name
                   || String.eqb (List.last (PyStr.split "/" package_name) EmptyString)
                                 cnr_id)
                disabled_cnr_ids
      else false
  | None => false
  end.

(** One round of the last loop, over [disabled_packages]. *)
Definition report_disabled (disabled_cnr_ids : list string)
           (res : PyDict.t Entry) (x : Info * bool) : PyDict.t Entry :=
  if has_disabled_cnr (fst x) (snd x) disabled_cnr_ids then res
  else PyDict.set (i_module_name (fst x)) (entry_of (fst x) false) res.

(** [get_installed_nodepacks], for the pack root [t]. *)
Definition get_installed_nodepacks (t : FS) : PyDict.t Entry :=
  let '(res, enabled_cnr_ids, enabled_aux_ids) :=
    fold_left first_pass_step t ([], [], []) in
  match Fs.find ".disabled" t with
  | Some disabled_dirs =>
      let '(disabled_packages, disabled_cnr_ids) :=
        fold_left (second_pass_step enabled_cnr_ids enabled_aux_ids)
                  (d_children disabled_dirs) ([], []) in
      fold_left (report_disabled disabled_cnr_ids) disabled_packages res
  | None => res
  end.

(** What the first pass has gathered from the directories [seen]:
    every value so far is an enabled one, and the two sets hold the
    ids, in lower case, of every identified directory. *)
Definition gathered (seen : list Dir)
           (acc : PyDict.t Entry * list string * list string) : Prop :=
  let '(res, cnr_ids, aux_ids) := acc in
  (forall k e, PyDict.get k res = Some e -> e_enabled e = true)
  /\ (forall d i, In d seen -> is_reserved_name (d_name d) = false ->
        identify_node_pack_from_path [d_name d] (d_meta d) = Some i ->
        (nonempty (i_cnr_id i) = true ->
         Text.mem (PyStr.lower (i_cnr_id i)) cnr_ids = true)
        /\ (forall aux, i_aux_id i = Some aux -> nonempty aux = true ->
              Text.mem (PyStr.lower aux) aux_ids = true)).

End Helpers.

(** A pack root for the examples: a clone of [owner/Foo] enabled,
    Releases of [foo] and of [bar] disabled. *)
Definition sample_tree : FS :=
  [MkDir "Foo" (mkMeta (Some "https://github.com/owner/Foo") "0a1b2c" None None) [];
   MkDir ".disabled" empty_meta
     [MkDir "foo@1_0_0" (mkMeta None "" (Some (mkCnrInfo "foo" "1.0.0" None)) None) [];
      MkDir "bar@1_0_0" (mkMeta None "" (Some (mkCnrInfo "bar" "1.0.0" None)) None) []]].

End Installed.

(** ** Examples of environments *)

Module Sample.

(** The environment of [Demo] with a registry that also knows the pack
    [foo] by the URL of its repository. *)
Definition env_with_urls : Env :=
  mkEnv Demo.normalize (fun u => u) StrictVersion.parse
        Demo.registry
        (fun u => if String.eqb u "https://github.com/owner/Foo"
                  then Some (mkPackInfo "foo" (Some "owner/Foo") (Some "1.0.2"))
                  else None)
        Demo.node
        Demo.extract (fun _ _ t => (t, Some "Cmd('git') failed")) (fun _ _ => false)
        (fun _ _ _ _ => Ok true)
        (fun d => match d_children d with [] => true | _ => false end)
        Demo.valid_url "normal" (fun _ _ => false) Demo.str_of
        (fun _ t => (t, Ok UpToDate)) (fun _ t => (t, Ok tt)) "python" true.

(** Release 1.0.1 enabled, Release 1.0.0 disabled, no Nightly. *)
Definition release_and_older : FS :=
  [Demo.release "Foo" "foo" "1.0.1" "Foo";
   Demo.disabled_dir [Demo.release "foo@1_0_0" "foo" "1.0.0" "Foo"]].

End Sample.

(** ** The invariant: at most one enabled instance of an id *)

(** The enabled instances of an id: the enabled members of its lookup. *)
Definition enabled_instances (E : Env) (m : Manager) (packname : string)
  : list InstalledNodePackage :=
  filter pk_is_enabled (get_packages_by_name_or_url E m packname).

(** At most one enabled instance of the id: the enabled members of the
    lookup are one directory, which the lookup may list twice. *)
Definition single_active (E : Env) (m : Manager) (packname : string) : Prop :=
  forall x y,
    In x (enabled_instances E m packname) ->
    In y (enabled_instances E m packname) ->
    pk_fullpath x = pk_fullpath y.

(** A rescan files [x] as an instance of the id whose cross-reference
    is [K]. *)
Definition instance_of (E : Env) (packname : string) (K : option string)
           (x : InstalledNodePackage) : bool :=
  indexed_under E packname x
  || match K with Some k => indexed_under E k x | None => false end.

(** The enabled instances of the id in the tree [t] all sit at [p]. *)
Definition at_most_at (E : Env) (packname : string) (K : option string)
           (t : FS) (p : Path) : Prop :=
  forall x, In x (scan_enabled E t) -> pk_is_enabled x = true ->
            instance_of E packname K x = true -> pk_fullpath x = p.

(** The tree [t] holds no enabled instance of the id. *)
Definition none_active (E : Env) (packname : string) (K : option string)
           (t : FS) : Prop :=
  forall x, In x (scan_enabled E t) -> pk_is_enabled x = true ->
            instance_of E packname K x = false.

(** From [t] to [t'] the active root has gained nothing. *)
Definition shrinks (E : Env) (t t' : FS) : Prop :=
  forall x, In x (scan_enabled E t') -> In x (scan_enabled E t).

(** From [t] to [t'] the active root has gained at most the directory
    [h]. *)
Definition grows_at (E : Env) (t t' : FS) (h : string) : Prop :=
  forall x, In x (scan_enabled E t') ->
            In x (scan_enabled E t) \/ pk_fullpath x = [h].

(** The collaborators that write content keep to the path they are
    given: a directory of the active root they leave behind was there
    before, with the same content, or is the first component of that
    path. *)
Definition keeps_to_path (f : Path -> FS -> FS) : Prop :=
  forall p t d',
    In d' (f p t) ->
    (exists d, In d t /\ same_entry d' d) \/ d_name d' = hd "" p.

Definition collaborators_confined (E : Env) : Prop :=
  (forall url, keeps_to_path (fun p t => fst (extract_archive E url p t)))
  /\ (forall url, keeps_to_path (fun p t => fst (git_clone E url p t)))
  /\ keeps_to_path (fun p t => fst (git_check_update E p t))
  /\ keeps_to_path (fun p t => fst (git_pull E p t)).

(** The index of [m] is the one some scan has built. *)
Definition index_of_a_scan (E : Env) (m : Manager) : Prop :=
  exists t, installed_node_packages m = fst (build_index E t).

(** The version of the instance [x] is the one [is_enabled] accepts
    for [v]. *)
Definition has_version (E : Env) (x : InstalledNodePackage) (v : string) : Prop :=
  if String.eqb v "nightly" then is_nightly x = true
  else is_from_cnr x = true /\ sv_eq E (pk_version x) v = Ok true.

(** What a flow of switch or install has reached: the enabled instances
    of the id sit in one directory at most, the index is one a scan has
    built, and a returned value satisfies [ok] in the state reached. *)
Definition flow_post (E : Env) (packname : string) (K : option string)
           (A : Type) (ok : Manager -> A -> Prop) (p : Manager * res A) : Prop :=
  (exists q, at_most_at E packname K (fs (fst p)) q)
  /\ index_of_a_scan E (fst p)
  /\ (forall a, snd p = Ok a -> ok (fst p) a).

(** The state of a flow once no enabled instance of the id is left in
    the active root. *)
Definition cleared (E : Env) (packname : string) (K : option string)
           (m : Manager) : Prop :=
  none_active E packname K (fs m) /\ index_of_a_scan E m.

(** The engine operations on an id. *)
Inductive Operation :=
| OpEnable (version_spec : option string)
| OpDisable
| OpUninstall
| OpSwitch (mode : option string) (fl : Flags)
| OpUpdate (fl : Flags)
| OpInstall (fuel : nat) (version_spec : option string) (fl : Flags).

Definition run (E : Env) (packname : string) (o : Operation) : M ManagedResult :=
  match o with
  | OpEnable version_spec => fun m => unified_enable E m packname version_spec
  | OpDisable => fun m => unified_disable E m packname
  | OpUninstall => fun m => unified_uninstall E m packname
  | OpSwitch mode fl => switch_version E packname mode fl
  | OpUpdate fl => unified_update E packname fl
  | OpInstall fuel version_spec fl => install_by_id E (S fuel) packname version_spec fl
  end.

(** The id whose instances an operation looks up: [install_by_id]
    normalizes the name it is given. *)
Definition looked_up (E : Env) (packname : string) (o : Operation) : string :=
  match o with
  | OpInstall _ _ _ => normalize_package_name E packname
  | _ => packname
  end.

(** Where the operations keep the invariant. [unified_enable]: when no
    instance of the id is enabled, or when [is_enabled] does not answer
    False for the version it is asked for ('nightly' when it is asked
    for none of a URL-like id; an id that is not URL-like and comes
    without a version is always in scope). [install_by_id]: for a plain
    name, which is in its normalized form when no version comes with
    it. *)
Definition in_scope (E : Env) (m : Manager) (packname : string) (o : Operation)
  : Prop :=
  match o with
  | OpEnable version_spec =>
      enabled_instances E m packname = []
      \/ match version_spec with
         | None =>
             is_url_like packname = false
             \/ is_enabled E m packname (Some "nightly") <> Ok false
         | Some v => is_enabled E m packname (Some v) <> Ok false
         end
  | OpInstall _ version_spec _ =>
      PyStr.contains "@" packname = false /\ is_url_like packname = false
      /\ (version_spec = None -> normalize_package_name E packname = packname)
  | _ => True
  end.

(* end of the helpers *)
Set Implicit Arguments.

(* ================================================================== *)
(** * Properties *)

Unset Implicit Arguments.

(** ** disable on an id with nothing enabled *)

Lemma find_app_first {A} (f : A -> bool) (l1 l2 : list A) :
  List.find f (l1 ++ l2)
  = match List.find f l1 with Some x => Some x | None => List.find f l2 end.
Proof.
  induction l1 as [|x l1 IH]; simpl; [reflexivity|].
  destruct (f x); [reflexivity|exact IH].
Qed.

Lemma disable_scan_snoc (l : list InstalledNodePackage) x :
  disable_scan (l ++ [x])
  = (Some x, if pk_is_enabled x then Some x else snd (disable_scan l)).
Proof.
  unfold disable_scan. rewrite fold_left_app. reflexivity.
Qed.

Lemma disable_scan_spec (l : list InstalledNodePackage) :
  disable_scan l
  = (match List.rev l with x :: _ => Some x | [] => None end,
     List.find pk_is_enabled (List.rev l)).
Proof.
  induction l as [|x l IH] using rev_ind.
  - reflexivity.
  - rewrite disable_scan_snoc, rev_app_distr. simpl.
    rewrite IH. simpl. reflexivity.
Qed.

Lemma find_none_of_existsb {A} (f : A -> bool) (l : list A) :
  existsb f l = false -> List.find f l = None.
Proof.
  induction l as [|x l IH]; simpl; [reflexivity|].
  destruct (f x); simpl; [discriminate|exact IH].
Qed.

Lemma existsb_rev {A} (f : A -> bool) (l : list A) :
  existsb f (List.rev l) = existsb f l.
Proof.
  induction l as [|x l IH]; simpl; [reflexivity|].
  rewrite existsb_app, IH. simpl. rewrite orb_false_r. apply orb_comm.
Qed.

(** C7 (amended). When no instance of the id is enabled, [unified_disable]
    changes neither the tree nor the index and returns a 'skip' result
    whose [result] flag is true: with message 'Not installed' when the
    lookup finds no instance at all, 'Already disabled' otherwise. *)
Theorem disable_without_enabled_is_skip :
  forall (E : Env) (m : Manager) (packname : string),
    existsb pk_is_enabled (get_packages_by_name_or_url E m packname) = false ->
    exists r,
      unified_disable E m packname = (m, Ok r)
      /\ action r = "skip"
      /\ result r = true
      /\ msg r = Some (match get_packages_by_name_or_url E m packname with
                       | [] => "Not installed"
                       | _ :: _ => "Already disabled"
                       end).
Proof.
  intros E m packname H.
  unfold unified_disable. rewrite disable_scan_spec.
  rewrite (find_none_of_existsb _ _ (eq_trans (existsb_rev _ _) H)).
  destruct (get_packages_by_name_or_url E m packname) as [|x l] eqn:Hl.
  - simpl. eexists. repeat split; reflexivity.
  - destruct (List.rev (x :: l)) as [|y r] eqn:Hr.
    + apply (f_equal (@List.length _)) in Hr.
      rewrite length_rev in Hr. discriminate.
    + eexists. repeat split; reflexivity.
Qed.

Lemma disable_without_enabled_is_skip_witness :
  exists r,
    unified_disable (Demo.env true)
      (Demo.fresh (Demo.env true)
         [Demo.disabled_dir [Demo.release "foo@1_0_1" "foo" "1.0.1" "Foo"]]) "foo"
    = (Demo.fresh (Demo.env true)
         [Demo.disabled_dir [Demo.release "foo@1_0_1" "foo" "1.0.1" "Foo"]], Ok r)
    /\ action r = "skip" /\ result r = true /\ msg r = Some "Already disabled".
Proof.
  apply (disable_without_enabled_is_skip (Demo.env true)
           (Demo.fresh (Demo.env true)
              [Demo.disabled_dir [Demo.release "foo@1_0_1" "foo" "1.0.1" "Foo"]]) "foo").
  vm_compute. reflexivity.
Defined.

(** C7 as stated is false: on an id without any instance the result of
    [unified_disable] is not an error result. *)
Lemma disable_not_installed_is_not_an_error :
  ~ (forall (E : Env) (m : Manager) (packname : string),
        get_packages_by_name_or_url E m packname = [] ->
        exists r, snd (unified_disable E m packname) = Ok r /\ result r = false).
Proof.
  intros H.
  destruct (H (Demo.env true) (Demo.fresh (Demo.env true) []) "foo" eq_refl)
    as [r [Hr Hf]].
  vm_compute in Hr. inversion Hr; subst. discriminate.
Qed.

(* ------------------------------------------------------------------ *)
(** ** The dependency step after content placement *)

Lemma finish_with_postinstall_inv (E : Env) fl r0 p failure m m' r :
  finish_with_postinstall E fl r0 p failure m = (m', Ok r) ->
  result r = true ->
  (return_postinstall fl = true /\ r = with_postinstall r0 (ExecuteInstallScript p))
  \/ (return_postinstall fl = false /\ r = r0 /\ run_postinstall E p = Ok true).
Proof.
  unfold finish_with_postinstall, bind, ask, ret.
  destruct (return_postinstall fl).
  - intros H _. inversion H; subst. left. split; reflexivity.
  - destruct (run_postinstall E p) as [[|]|e]; simpl; intros H Hr;
      inversion H; subst; try discriminate.
    right. repeat split; reflexivity.
Qed.

Lemma run_postinstall_true (E : Env) title path i n :
  run_postinstall E (mkPostinstall title path i n) = Ok true ->
  exists q, path = Some q /\ execute_install_script E title q i n = Ok true.
Proof.
  unfold run_postinstall. simpl. destruct path as [q|]; [|discriminate].
  intros H. exists q. split; [reflexivity|exact H].
Qed.


Lemma cnr_install_success (E : Env) packname v fl m m' r :
  cnr_install E packname v fl m = (m', Ok r) ->
  result r = true ->
  dependency_step_accounted E fl r.
Proof.
  unfold cnr_install.
  destruct (PyStr.contains "comfyui-manager" (PyStr.lower packname)).
  { unfold ret. intros H Hr. inversion H; subst. discriminate. }
  destruct (node_info_available (install_node E packname v)) as [[ni url]|].
  2:{ unfold ret. intros H Hr. inversion H; subst. discriminate. }
  unfold bind at 1. unfold ask_pure at 1.
  destruct (Fs.isdir (components packname) (fs m)).
  { unfold ret. intros H Hr. inversion H; subst. discriminate. }
  unfold bind at 1. unfold update_fs at 1.
  destruct (extract_archive E url (components packname)
              (Fs.insert (components packname) (MkDir "" empty_meta []) (fs m)))
    as [t extracted].
  destruct extracted; simpl.
  - intros H Hr.
    destruct (finish_with_postinstall_inv _ _ _ _ _ _ _ _ H Hr) as [[Hf Hw]|[Hf [Hw Hp]]].
    + left. split; [assumption|]. subst r. eexists. split; reflexivity.
    + right. split; [assumption|]. subst r. split; [reflexivity|].
      apply run_postinstall_true in Hp. destruct Hp as [q [Hq He]].
      inversion Hq; subst q.
      exists packname, (components packname). split; [reflexivity|assumption].
  - unfold bind, rmtree_m, ret. simpl.
    destruct (rmtree E (components packname) t); intros H Hr;
      inversion H; subst; discriminate.
Qed.

Lemma bind_inv {A B} (c : M A) (k : A -> M B) m m' (b : B) :
  bind c k m = (m', Ok b) ->
  exists m1 a, c m = (m1, Ok a) /\ k a m1 = (m', Ok b).
Proof.
  unfold bind. destruct (c m) as [m1 [a|e]]; intros H.
  - exists m1, a. split; [reflexivity|exact H].
  - discriminate.
Qed.

Ltac bind_step H :=
  let m1 := fresh "m" in
  let a := fresh "a" in
  let Hc := fresh "Hc" in
  apply bind_inv in H; destruct H as (m1 & a & Hc & H).

Ltac failed_result H :=
  unfold ret in H; inversion H; subst; simpl in *; discriminate.

Lemma cnr_switch_version_instant_success (E : Env) packname v fl m m' r :
  cnr_switch_version_instant E packname v fl m = (m', Ok r) ->
  result r = true ->
  dependency_step_accounted E fl r.
Proof.
  unfold cnr_switch_version_instant. intros H Hr.
  bind_step H. bind_step H.
  destruct (node_info_available (install_node E _ v)) as [[ni url]|];
    [|failed_result H].
  bind_step H.
  match type of H with
  | (if ?c then _ else _) _ = _ => destruct c
  end.
  - (* Case A *)
    bind_step H. bind_step H.
    destruct (negb (fst a3)); [failed_result H|].
    bind_step H.
    destruct (negb (result a4)); [failed_result H|].
    destruct (finish_with_postinstall_inv _ _ _ _ _ _ _ _ H Hr) as [[Hf Hw]|[Hf [Hw Hp]]].
    + left. split; [assumption|]. subst r. eexists. split; reflexivity.
    + right. split; [assumption|]. subst r. split; [reflexivity|].
      apply run_postinstall_true in Hp. destruct Hp as [q [Hq He]].
      eexists _, q. split; [exact Hq|exact He].
  - (* Case B *)
    bind_step H.
    destruct a2 as [act|]; [|failed_result H].
    bind_step H. bind_step H.
    destruct (negb (fst a3)); [failed_result H|].
    bind_step H.
    destruct (negb a4).
    + bind_step H. bind_step H. failed_result H.
    + destruct (finish_with_postinstall_inv _ _ _ _ _ _ _ _ H Hr) as [[Hf Hw]|[Hf [Hw Hp]]].
      * left. split; [assumption|]. subst r. eexists. split; reflexivity.
      * right. split; [assumption|]. subst r. split; [reflexivity|].
        apply run_postinstall_true in Hp. destruct Hp as [q [Hq He]].
        inversion Hq; subst q.
        eexists _, _. split; [reflexivity|exact He].
Qed.

(** C8 (amended). A successful result of [cnr_install] or of
    [cnr_switch_version_instant] accounts for the dependency step in one
    of two ways: with [return_postinstall] the step has not run and is
    handed back as the [postinstall] callback for the placed path; without
    it the step has run on the placed path and has succeeded. So in the
    immediate mode a failing dependency step makes the result a failure. *)
Theorem success_accounts_for_dependency_step :
  forall (E : Env) (packname : string) (version_spec : option string)
         (fl : Flags) (m m' : Manager) (r : ManagedResult),
    cnr_install E packname version_spec fl m = (m', Ok r)
    \/ cnr_switch_version_instant E packname version_spec fl m = (m', Ok r) ->
    result r = true ->
    dependency_step_accounted E fl r.
Proof.
  intros E packname v fl m m' r [H|H] Hr.
  - exact (cnr_install_success _ _ _ _ _ _ _ H Hr).
  - exact (cnr_switch_version_instant_success _ _ _ _ _ _ _ H Hr).
Qed.

Lemma success_accounts_for_dependency_step_witness :
  exists m' r,
    cnr_install (Demo.env true) "Foo" (Some "1.0.2") (Demo.flags false)
                (Demo.fresh (Demo.env true) []) = (m', Ok r)
    /\ result r = true
    /\ dependency_step_accounted (Demo.env true) (Demo.flags false) r.
Proof.
  eexists _, _. split; [vm_compute; reflexivity|].
  split; [reflexivity|].
  eapply (success_accounts_for_dependency_step (Demo.env true) "Foo" (Some "1.0.2")
            (Demo.flags false) (Demo.fresh (Demo.env true) [])).
  - left. vm_compute. reflexivity.
  - reflexivity.
Defined.

(** C8 as stated is false: the archive is extracted into the active
    slot, the dependency step fails, and the install reports failure. *)
Lemma failed_dependency_step_fails_install :
  ~ (forall (E : Env) (packname : string) (version_spec : option string)
            (fl : Flags) (m m' : Manager) (r : ManagedResult),
        cnr_install E packname version_spec fl m = (m', Ok r) ->
        target_path r <> None ->
        result r = true).
Proof.
  intros H.
  pose (E := Demo.env false).
  pose (m := Demo.fresh E []).
  destruct (cnr_install E "Foo" (Some "1.0.2") (Demo.flags false) m)
    as [m' [r|e]] eqn:Hc; vm_compute in Hc; inversion Hc; subst.
  specialize (H E "Foo" (Some "1.0.2") (Demo.flags false) m _ _ eq_refl).
  simpl in H. discriminate H. discriminate.
Qed.

(* ------------------------------------------------------------------ *)
(** ** Classification of a directory *)

Lemma from_fullpath_fullpath fullpath m rfp :
  pk_fullpath (from_fullpath fullpath m rfp) = fullpath.
Proof.
  unfold from_fullpath.
  repeat match goal with
         | |- context [if ?c then _ else _] => destruct c
         | |- context [match ?x with _ => _ end] => destruct x
         end; reflexivity.
Qed.

Lemma from_fullpath_untagged fullpath m rfp :
  slot_tag fullpath = None ->
  from_fullpath fullpath m rfp
  = match rfp m with
    | None =>
        mkPkg (dirname_id fullpath) fullpath
              (PyStr.endswith ".disabled" (module_name_of fullpath)
               || String.eqb (parent_folder_name fullpath) ".disabled")
              "unknown" None
    | Some i =>
        mkPkg (ri_id i) fullpath
              (PyStr.endswith ".disabled" (module_name_of fullpath)
               || String.eqb (parent_folder_name fullpath) ".disabled")
              (ri_ver i)
              (if String.eqb (ri_ver i) "nightly" then m_git_url m
               else if PyStr.truthy (ri_url i) then ri_url i else None)
    end.
Proof.
  unfold slot_tag, from_fullpath, dirname_id.
  destruct (PyStr.endswith ".disabled" (module_name_of fullpath));
    destruct (String.eqb (parent_folder_name fullpath) ".disabled");
    destruct (PyStr.contains "@" (module_name_of fullpath)); simpl;
      try (intros _; destruct (rfp m); reflexivity);
      destruct (PyStr.split "@" (module_name_of fullpath)) as [|p0 [|p1 [|p2 l]]];
      try discriminate; intros _; destruct (rfp m); reflexivity.
Qed.

Lemma from_fullpath_tagged fullpath m rfp name tag :
  slot_tag fullpath = Some (name, tag) ->
  tag <> "" ->
  pk_version (from_fullpath fullpath m rfp) = tag
  /\ pk_disabled (from_fullpath fullpath m rfp) = true
  /\ pk_id (from_fullpath fullpath m rfp)
     = match rfp m with Some i => ri_id i | None => name end.
Proof.
  unfold slot_tag, from_fullpath.
  destruct (String.eqb (parent_folder_name fullpath) ".disabled"); simpl;
    [|destruct (PyStr.endswith ".disabled" (module_name_of fullpath)); discriminate].
  destruct (PyStr.contains "@" (module_name_of fullpath)); simpl;
    [|destruct (PyStr.endswith ".disabled" (module_name_of fullpath)); discriminate].
  destruct (PyStr.split "@" (module_name_of fullpath)) as [|p0 [|p1 [|p2 l]]];
    try (destruct (PyStr.endswith ".disabled" (module_name_of fullpath)); discriminate).
  intros H Hne.
  assert (Ht : PyStr.replace "_" "." p1 = tag)
    by (destruct (PyStr.endswith ".disabled" (module_name_of fullpath)); congruence).
  assert (Hn : p0 = name)
    by (destruct (PyStr.endswith ".disabled" (module_name_of fullpath)); congruence).
  assert (Htr : String.eqb (PyStr.replace "_" "." p1) "" = false).
  { rewrite Ht. destruct (String.eqb_spec tag ""); [contradiction|reflexivity]. }
  unfold PyStr.truthy.
  destruct (PyStr.endswith ".disabled" (module_name_of fullpath)); simpl;
    rewrite ?Htr; destruct (rfp m); simpl; rewrite ?Htr; simpl; subst;
      repeat split; reflexivity.
Qed.

(** C5 (amended). [resolve_from_path] checks in this order: a git remote
    gives version 'nightly' and the compact remote URL as id; otherwise
    release metadata gives the declared id and version; otherwise nothing
    is recognized. [from_fullpath] returns a package for every path. For a
    path that is not a tagged inactive slot the package has that id and
    version, and version 'unknown' with the directory name as id when
    nothing is recognized. For a tagged inactive slot
    [.disabled/<name>@<tag>] the version is the tag of the directory name
    ('_' read as '.'), whatever the directory holds, and the id is the
    recognized one, or [<name>] when nothing is recognized. *)
Theorem classification_order :
  forall (E : Env) (fullpath : Path) (m : Meta),
    let p := from_fullpath fullpath m (resolve_from_path E) in
    (* the order of the checks *)
    (forall url, m_git_url m = Some url -> url <> "" ->
       resolve_from_path E m
       = Some (mkResolveInfo (compact_url E url) "nightly" (Some (m_commit_hash m)) None))
    /\ (PyStr.truthy (m_git_url m) = false ->
        forall info, m_cnr_info m = Some info ->
          resolve_from_path E m
          = Some (mkResolveInfo (cnr_id info) (cnr_version info) None None))
    /\ (PyStr.truthy (m_git_url m) = false -> m_cnr_info m = None ->
        resolve_from_path E m = None)
    (* every directory is returned *)
    /\ pk_fullpath p = fullpath
    (* outside the tagged inactive slots *)
    /\ (slot_tag fullpath = None ->
        match resolve_from_path E m with
        | Some i => pk_id p = ri_id i /\ pk_version p = ri_ver i
        | None => pk_id p = dirname_id fullpath /\ is_unknown p = true
        end)
    (* in a tagged inactive slot *)
    /\ (forall name tag, slot_tag fullpath = Some (name, tag) -> tag <> "" ->
        pk_version p = tag
        /\ pk_id p = match resolve_from_path E m with
                     | Some i => ri_id i
                     | None => name
                     end).
Proof.
  intros E fullpath m p.
  refine (conj _ (conj _ (conj _ (conj _ (conj _ _))))).
  - intros url Hu Hne. unfold resolve_from_path. rewrite Hu. simpl.
    destruct (String.eqb_spec url ""); [contradiction|reflexivity].
  - intros Hg info Hi. unfold resolve_from_path. rewrite Hg, Hi. reflexivity.
  - intros Hg Hi. unfold resolve_from_path. rewrite Hg, Hi. reflexivity.
  - apply from_fullpath_fullpath.
  - intros Hs. unfold p. rewrite (from_fullpath_untagged _ _ _ Hs).
    destruct (resolve_from_path E m); simpl; split; reflexivity.
  - intros nm tg Hs Hne.
    destruct (from_fullpath_tagged fullpath m (resolve_from_path E) _ _ Hs Hne)
      as [Hv [_ Hi]].
    split; assumption.
Qed.

(** A release kept in the slot [.disabled/foo@1_0_1] is classified with
    the id of its metadata and the version of the slot name. *)
Lemma classification_order_witness :
  let p := from_fullpath [".disabled"; "foo@1_0_1"]
             (d_meta (Demo.release "foo@1_0_1" "foo" "1.0.2" "Foo"))
             (resolve_from_path (Demo.env true)) in
  pk_version p = "1.0.1" /\ pk_id p = "foo"
  /\ pk_fullpath p = [".disabled"; "foo@1_0_1"].
Proof.
  destruct (classification_order (Demo.env true) [".disabled"; "foo@1_0_1"]
              (d_meta (Demo.release "foo@1_0_1" "foo" "1.0.2" "Foo")))
    as [_ [_ [_ [Hp [_ Ht]]]]].
  destruct (Ht "foo" "1.0.1" eq_refl) as [Hv Hi]; [discriminate|].
  cbv zeta. refine (conj Hv (conj Hi Hp)).
Defined.

(** C5 as stated is false: a git working tree kept in the inactive slot
    [.disabled/foo@1_0_2] is classified with version [1.0.2], not as
    Nightly. *)
Lemma tagged_git_tree_is_not_nightly :
  ~ (forall (E : Env) (fullpath : Path) (m : Meta),
        PyStr.truthy (m_git_url m) = true ->
        is_nightly (from_fullpath fullpath m (resolve_from_path E)) = true).
Proof.
  intros H.
  specialize (H (Demo.env true) [".disabled"; "foo@1_0_2"]
                (mkMeta (Some "owner/Foo") "0a1b2c" None None) eq_refl).
  vm_compute in H. discriminate.
Qed.

(* ------------------------------------------------------------------ *)
(** ** Resolution in the inactive scope *)

Lemma ver_ltb_irrefl (a : Ver) : ver_ltb a a = false.
Proof.
  destruct a as [[a1 a2] a3]. unfold ver_ltb.
  rewrite !N.ltb_irrefl, !N.eqb_refl. reflexivity.
Qed.

Lemma ver_ltb_spec (a b : Ver) :
  ver_ltb a b = true <->
  let '(a1, a2, a3) := a in
  let '(b1, b2, b3) := b in
  (a1 < b1 \/ (a1 = b1 /\ (a2 < b2 \/ (a2 = b2 /\ a3 < b3))))%N.
Proof.
  destruct a as [[a1 a2] a3], b as [[b1 b2] b3]. unfold ver_ltb.
  rewrite !orb_true_iff, !andb_true_iff, !orb_true_iff, !andb_true_iff,
    !N.ltb_lt, !N.eqb_eq.
  reflexivity.
Qed.

(** [b <= a] and [c <= b] give [c <= a]. *)
Lemma ver_not_lt_trans (a b c : Ver) :
  ver_ltb a b = false -> ver_ltb b c = false -> ver_ltb a c = false.
Proof.
  intros H1 H2.
  destruct (ver_ltb a c) eqn:H3; [|reflexivity].
  apply ver_ltb_spec in H3.
  assert (N1 : ~ (ver_ltb a b = true)) by congruence.
  assert (N2 : ~ (ver_ltb b c = true)) by congruence.
  rewrite ver_ltb_spec in N1, N2.
  destruct a as [[a1 a2] a3], b as [[b1 b2] b3], c as [[c1 c2] c3].
  exfalso. lia.
Qed.

(** [a < b] and [c <= a] give [c <= b]. *)
Lemma ver_lt_upper (a b c : Ver) :
  ver_ltb a b = true -> ver_ltb a c = false -> ver_ltb b c = false.
Proof.
  intros H1 H2.
  destruct (ver_ltb b c) eqn:H3; [|reflexivity].
  apply ver_ltb_spec in H1. apply ver_ltb_spec in H3.
  assert (N2 : ~ (ver_ltb a c = true)) by congruence.
  rewrite ver_ltb_spec in N2.
  destruct a as [[a1 a2] a3], b as [[b1 b2] b3], c as [[c1 c2] c3].
  exfalso. lia.
Qed.

Lemma sv_lt_parsed (E : Env) a b :
  strict_version E a <> None -> strict_version E b <> None ->
  exists x y, strict_version E a = Some x /\ strict_version E b = Some y
              /\ sv_lt E a b = Ok (ver_ltb x y).
Proof.
  intros Ha Hb. unfold sv_lt.
  destruct (strict_version E a) as [x|]; [|contradiction].
  destruct (strict_version E b) as [y|]; [|contradiction].
  exists x, y. repeat split.
Qed.

Lemma highest_release_refl_parse (E : Env) l xs :
  highest_release E l xs -> strict_version E (pk_version l) <> None.
Proof.
  intros [Hin [Hd Hmax]] Hn. specialize (Hmax l Hin Hd).
  unfold sv_lt in Hmax. rewrite Hn in Hmax. discriminate.
Qed.

(** One more package for the scan: the new candidates describe
    [seen ++ [x]]. *)
Lemma candidates_step_release (E : Env) seen c x :
  candidates_of E seen c ->
  disabled_release x = true ->
  strict_version E (pk_version x) <> None ->
  exists l, newer_release E (latest_pack c) x = Ok l
    /\ candidates_of E (seen ++ [x])
         (mkCandidates l (nightly_pack c) (unknown_pack c)).
Proof.
  intros [Hl [Hn Hu]] Hx Hp.
  assert (Hxd : pk_is_disabled x = true /\ is_from_cnr x = true)
    by (apply andb_true_iff; exact Hx).
  destruct Hxd as [Hxd Hxc].
  assert (Hxn : is_nightly x = false /\ is_unknown x = false).
  { unfold is_from_cnr in Hxc. apply andb_true_iff in Hxc.
    destruct Hxc as [A B]. apply negb_true_iff in A, B. split; assumption. }
  destruct Hxn as [Hxn Hxu].
  assert (Hrest :
    match nightly_pack c with
    | Some n => In n (seen ++ [x]) /\ pk_is_disabled n = true /\ is_nightly n = true
    | None => forall y, In y (seen ++ [x]) -> pk_is_disabled y = true -> is_nightly y = false
    end
    /\ match unknown_pack c with
       | Some u => In u (seen ++ [x]) /\ pk_is_disabled u = true /\ is_unknown u = true
       | None => forall y, In y (seen ++ [x]) -> pk_is_disabled y = true -> is_unknown y = false
       end).
  { split.
    - destruct (nightly_pack c) as [n|].
      + destruct Hn as [A [B C]]. repeat split; try assumption.
        apply in_or_app. left. exact A.
      + intros y Hy Hyd. apply in_app_or in Hy. destruct Hy as [Hy|[Hy|[]]].
        * apply Hn; assumption.
        * subst y. exact Hxn.
    - destruct (unknown_pack c) as [u|].
      + destruct Hu as [A [B C]]. repeat split; try assumption.
        apply in_or_app. left. exact A.
      + intros y Hy Hyd. apply in_app_or in Hy. destruct Hy as [Hy|[Hy|[]]].
        * apply Hu; assumption.
        * subst y. exact Hxu. }
  unfold newer_release.
  destruct (latest_pack c) as [l|] eqn:Hlc.
  - pose proof (highest_release_refl_parse _ _ _ Hl) as Hlp.
    destruct (sv_lt_parsed E _ _ Hlp Hp) as [vl [vx [Evl [Evx Elt]]]].
    rewrite Elt. simpl.
    destruct Hl as [Hlin [Hld Hlmax]].
    destruct (ver_ltb vl vx) eqn:Hcmp.
    + exists (Some x). split; [reflexivity|].
      split; [|exact Hrest]. simpl.
      split; [apply in_or_app; right; left; reflexivity|].
      split; [exact Hx|].
      intros y Hy Hyd. apply in_app_or in Hy. destruct Hy as [Hy|[Hy|[]]].
      * specialize (Hlmax y Hy Hyd). unfold sv_lt in Hlmax |- *.
        rewrite Evl in Hlmax. rewrite Evx.
        destruct (strict_version E (pk_version y)) as [vy|]; [|discriminate].
        injection Hlmax as Hly. f_equal.
        exact (ver_lt_upper _ _ _ Hcmp Hly).
      * subst y. unfold sv_lt. rewrite Evx, ver_ltb_irrefl. reflexivity.
    + exists (Some l). split; [reflexivity|].
      split; [|exact Hrest]. simpl.
      split; [apply in_or_app; left; exact Hlin|].
      split; [exact Hld|].
      intros y Hy Hyd. apply in_app_or in Hy. destruct Hy as [Hy|[Hy|[]]].
      * apply Hlmax; assumption.
      * subst y. exact Elt.
  - exists (Some x). split; [reflexivity|].
    split; [|exact Hrest]. simpl.
    split; [apply in_or_app; right; left; reflexivity|].
    split; [exact Hx|].
    intros y Hy Hyd. apply in_app_or in Hy. destruct Hy as [Hy|[Hy|[]]].
    + rewrite (Hl y Hy) in Hyd. discriminate.
    + subst y. unfold sv_lt.
      destruct (strict_version E (pk_version x)) as [vx|]; [|contradiction].
      rewrite ver_ltb_irrefl. reflexivity.
Qed.

Lemma highest_release_snoc_other (E : Env) l seen x :
  disabled_release x = false ->
  highest_release E l seen -> highest_release E l (seen ++ [x]).
Proof.
  intros Hx [Hin [Hd Hmax]].
  split; [apply in_or_app; left; exact Hin|]. split; [exact Hd|].
  intros y Hy Hyd. apply in_app_or in Hy. destruct Hy as [Hy|[Hy|[]]].
  - apply Hmax; assumption.
  - subst y. rewrite Hx in Hyd. discriminate.
Qed.

Lemma candidates_step_other (E : Env) seen c x :
  candidates_of E seen c ->
  disabled_release x = false ->
  candidates_of E (seen ++ [x])
    (if pk_is_disabled x
     then if is_unknown x
          then mkCandidates (latest_pack c) (nightly_pack c) (Some x)
          else if is_nightly x
               then mkCandidates (latest_pack c) (Some x) (unknown_pack c)
               else c
     else c).
Proof.
  intros [Hl [Hn Hu]] Hx.
  assert (Hl' : match latest_pack c with
                | Some l => highest_release E l (seen ++ [x])
                | None => forall y, In y (seen ++ [x]) -> disabled_release y = false
                end).
  { destruct (latest_pack c) as [l|].
    - apply highest_release_snoc_other; assumption.
    - intros y Hy. apply in_app_or in Hy. destruct Hy as [Hy|[Hy|[]]].
      + apply Hl; assumption.
      + subst y. exact Hx. }
  assert (Hn' : forall (cond : pk_is_disabled x = true -> is_nightly x = false),
             match nightly_pack c with
             | Some n => In n (seen ++ [x]) /\ pk_is_disabled n = true /\ is_nightly n = true
             | None => forall y, In y (seen ++ [x]) -> pk_is_disabled y = true
                                 -> is_nightly y = false
             end).
  { intros cond. destruct (nightly_pack c) as [n|].
    - destruct Hn as [A [B C]]. repeat split; try assumption.
      apply in_or_app. left. exact A.
    - intros y Hy Hyd. apply in_app_or in Hy. destruct Hy as [Hy|[Hy|[]]].
      + apply Hn; assumption.
      + subst y. apply cond. exact Hyd. }
  assert (Hu' : forall (cond : pk_is_disabled x = true -> is_unknown x = false),
             match unknown_pack c with
             | Some u => In u (seen ++ [x]) /\ pk_is_disabled u = true /\ is_unknown u = true
             | None => forall y, In y (seen ++ [x]) -> pk_is_disabled y = true
                                 -> is_unknown y = false
             end).
  { intros cond. destruct (unknown_pack c) as [u|].
    - destruct Hu as [A [B C]]. repeat split; try assumption.
      apply in_or_app. left. exact A.
    - intros y Hy Hyd. apply in_app_or in Hy. destruct Hy as [Hy|[Hy|[]]].
      + apply Hu; assumption.
      + subst y. apply cond. exact Hyd. }
  assert (Hself : In x (seen ++ [x])) by (apply in_or_app; right; left; reflexivity).
  destruct (pk_is_disabled x) eqn:Hd.
  - destruct (is_unknown x) eqn:Hxu.
    + split; [exact Hl'|]. split.
      * apply Hn'. intros _. unfold is_unknown, is_nightly in *.
        apply String.eqb_eq in Hxu. rewrite Hxu. reflexivity.
      * simpl. repeat split; assumption.
    + destruct (is_nightly x) eqn:Hxn.
      * split; [exact Hl'|]. split.
        -- simpl. repeat split; assumption.
        -- apply Hu'. intros _. reflexivity.
      * unfold disabled_release, is_from_cnr in Hx.
        rewrite Hd, Hxu, Hxn in Hx. discriminate.
  - split; [exact Hl'|]. split.
    + apply Hn'. intros H. discriminate.
    + apply Hu'. intros H. discriminate.
Qed.

(** The scan of [get_inactive_pack] without a version: it returns no
    package early, and its candidates describe the whole list. *)
Lemma get_inactive_scan_none (E : Env) packs :
  forall seen c,
    releases_parse E packs ->
    candidates_of E seen c ->
    exists c', get_inactive_scan E None packs c = Ok (inr c')
               /\ candidates_of E (seen ++ packs) c'.
Proof.
  induction packs as [|x packs IH]; intros seen c Hp Hc.
  - exists c. rewrite app_nil_r. split; [reflexivity|exact Hc].
  - assert (Hp' : releases_parse E packs)
      by (intros y Hy; apply Hp; right; exact Hy).
    replace (seen ++ x :: packs) with ((seen ++ [x]) ++ packs)
      by (rewrite <- app_assoc; reflexivity).
    destruct (disabled_release x) eqn:Hx.
    + destruct (@candidates_step_release E seen c x Hc Hx (Hp x (or_introl eq_refl) Hx))
        as [l [Hl Hc']].
      destruct (IH _ _ Hp' Hc') as [c' [Hs Hc'']].
      exists c'. split; [|exact Hc''].
      unfold disabled_release in Hx. apply andb_true_iff in Hx.
      destruct Hx as [Hd Hcnr].
      unfold is_from_cnr in Hcnr. apply andb_true_iff in Hcnr.
      destruct Hcnr as [A B]. apply negb_true_iff in A, B.
      simpl. rewrite Hd, A, B. unfold is_from_cnr. rewrite A, B. simpl.
      rewrite Hl. simpl. exact Hs.
    + pose proof (@candidates_step_other E seen c x Hc Hx) as Hc'.
      destruct (IH _ _ Hp' Hc') as [c' [Hs Hc'']].
      exists c'. split; [|exact Hc''].
      simpl. rewrite <- Hs.
      destruct (pk_is_disabled x) eqn:Hd; [|reflexivity].
      destruct (is_unknown x) eqn:Hxu; [reflexivity|].
      destruct (is_nightly x) eqn:Hxn; [reflexivity|].
      unfold disabled_release, is_from_cnr in Hx.
      rewrite Hd, Hxu, Hxn in Hx. discriminate.
Qed.

(** With nothing enabled in the list, the loop of
    [resolve_unspecified_version] follows the one of [get_inactive_pack]:
    same latest Release, and a 'nightly' mark for any Nightly or Unknown. *)
Lemma resolve_scan_follows (E : Env) packs :
  forall c acc c',
    existsb pk_is_enabled packs = false ->
    latest_pack c = fst acc ->
    (snd acc = None <-> nightly_pack c = None /\ unknown_pack c = None) ->
    get_inactive_scan E None packs c = Ok (inr c') ->
    exists acc',
      resolve_scan E true packs acc = Ok (inr acc')
      /\ latest_pack c' = fst acc'
      /\ (snd acc' = None <-> nightly_pack c' = None /\ unknown_pack c' = None).
Proof.
  induction packs as [|x packs IH]; intros c acc c' He Hl Hn Hs.
  - simpl in Hs. inversion Hs; subst c'. exists acc. repeat split; tauto.
  - simpl in He. apply orb_false_iff in He. destruct He as [Hx He].
    assert (Hd : pk_is_disabled x = true).
    { unfold pk_is_enabled in Hx. apply negb_false_iff in Hx. exact Hx. }
    simpl in Hs |- *. rewrite Hx. simpl. unfold pk_is_disabled in Hs.
    unfold pk_is_disabled in Hd. rewrite Hd in Hs.
    destruct (is_unknown x) eqn:Hxu.
    + unfold is_from_cnr. rewrite Hxu. simpl.
      refine (IH _ _ _ He _ _ Hs); [exact Hl|].
      simpl. split; [discriminate|intros [_ A]; discriminate].
    + destruct (is_nightly x) eqn:Hxn.
      * unfold is_from_cnr. rewrite Hxu, Hxn. simpl.
        refine (IH _ _ _ He _ _ Hs); [exact Hl|].
        simpl. split; [discriminate|intros [A _]; discriminate].
      * unfold is_from_cnr in Hs |- *. rewrite Hxu, Hxn in Hs |- *. simpl in Hs |- *.
        rewrite <- Hl.
        destruct (newer_release E (latest_pack c) x) as [l|e]; [|discriminate].
        simpl in Hs |- *.
        refine (IH _ _ _ He _ _ Hs); [reflexivity|exact Hn].
Qed.

Lemma inactive_choice_of_candidates (E : Env) packs c :
  candidates_of E packs c ->
  inactive_choice E packs
    (match latest_pack c with
     | Some l => Some l
     | None => match nightly_pack c with
               | Some n => Some n
               | None => unknown_pack c
               end
     end).
Proof.
  intros [Hl [Hn Hu]].
  destruct (latest_pack c) as [l|].
  - destruct Hl as [Hin [Hd Hmax]]. simpl.
    pose proof Hd as Hd'. unfold disabled_release in Hd'.
    apply andb_true_iff in Hd'. destruct Hd' as [A B].
    rewrite B. repeat split; assumption.
  - destruct (nightly_pack c) as [n|].
    + destruct Hn as [Hin [Hd Hnn]]. simpl.
      assert (Hc : is_from_cnr n = false)
        by (unfold is_from_cnr; rewrite Hnn; apply andb_false_r).
      rewrite Hc. repeat split; try assumption.
      intros Hun. unfold is_unknown, is_nightly in *.
      apply String.eqb_eq in Hun, Hnn. congruence.
    + destruct (unknown_pack c) as [u|].
      * destruct Hu as [Hin [Hd Huu]]. simpl.
        assert (Hc : is_from_cnr u = false) by (unfold is_from_cnr; rewrite Huu; reflexivity).
        rewrite Hc. repeat split; try assumption.
        intros _ y Hy Hyd.
        specialize (Hl y Hy). specialize (Hn y Hy Hyd).
        unfold disabled_release, is_from_cnr in Hl. rewrite Hyd, Hn in Hl.
        simpl in Hl. rewrite andb_true_r in Hl. apply negb_false_iff in Hl. exact Hl.
      * simpl. intros y Hy.
        destruct (pk_is_disabled y) eqn:Hyd; [|reflexivity].
        specialize (Hl y Hy). specialize (Hn y Hy Hyd). specialize (Hu y Hy Hyd).
        unfold disabled_release, is_from_cnr in Hl. rewrite Hyd, Hn, Hu in Hl.
        discriminate.
Qed.

(** C4 (amended). When the versions of the disabled Releases parse,
    [get_inactive_pack] without a version returns the instance chosen by
    the priority: a disabled Release that no disabled Release exceeds,
    else a disabled Nightly, else a disabled Unknown (only when every
    disabled instance is Unknown), else nothing. When in addition no
    instance of the id is enabled, [resolve_unspecified_version] in the
    'inactive' mode returns the version of that Release, and the string
    'nightly' when the choice is a Nightly or an Unknown instance. *)
Theorem inactive_resolution_priority :
  forall (E : Env) (m : Manager) (packname : string),
    releases_parse E (get_packages_by_name_or_url E m packname) ->
    exists r,
      get_inactive_pack E m packname None = Ok r
      /\ inactive_choice E (get_packages_by_name_or_url E m packname) r
      /\ (is_url_like packname = false ->
          existsb pk_is_enabled (get_packages_by_name_or_url E m packname) = false ->
          resolve_unspecified_version E m packname (Some "inactive")
          = Ok (match r with
                | Some x => Some (if is_from_cnr x then pk_version x else "nightly")
                | None => None
                end)).
Proof.
  intros E m packname Hp.
  assert (H0 : candidates_of E [] (mkCandidates None None None)).
  { repeat split; simpl; intros x []. }
  destruct (get_inactive_scan_none E _ [] _ Hp H0) as [c' [Hs Hc]].
  simpl in Hc.
  exists (match latest_pack c' with
          | Some l => Some l
          | None => match nightly_pack c' with
                    | Some n => Some n
                    | None => unknown_pack c'
                    end
          end).
  split; [|split].
  - unfold get_inactive_pack. rewrite Hs. simpl.
    destruct (latest_pack c'); [reflexivity|].
    destruct (nightly_pack c'); reflexivity.
  - apply inactive_choice_of_candidates. exact Hc.
  - intros Hu He.
    unfold resolve_unspecified_version. rewrite Hu. simpl.
    destruct (resolve_scan_follows E _ (mkCandidates None None None) (None, None) _
                He eq_refl (conj (fun _ => conj eq_refl eq_refl) (fun _ => eq_refl)) Hs)
      as [[la ni] [Hr [Hla Hni]]].
    rewrite Hr. simpl in *. rewrite Hla.
    destruct Hc as [Hl [Hn Hun]].
    destruct la as [l|].
    + rewrite Hla in Hl. destruct Hl as [_ [Hd _]].
      unfold disabled_release in Hd. apply andb_true_iff in Hd.
      destruct Hd as [_ Hd]. rewrite Hd. reflexivity.
    + destruct (nightly_pack c') as [n|] eqn:En.
      * destruct Hn as [_ [_ Hnn]].
        assert (Hc : is_from_cnr n = false)
          by (unfold is_from_cnr; rewrite Hnn; apply andb_false_r).
        rewrite Hc.
        destruct ni; [reflexivity|].
        destruct (proj1 Hni eq_refl) as [A _]. discriminate.
      * destruct (unknown_pack c') as [u|] eqn:Eu.
        -- destruct Hun as [_ [_ Huu]].
           assert (Hc : is_from_cnr u = false)
             by (unfold is_from_cnr; rewrite Huu; reflexivity).
           rewrite Hc.
           destruct ni; [reflexivity|].
           destruct (proj1 Hni eq_refl) as [_ A]. discriminate.
        -- destruct ni as [n|]; [|reflexivity].
           assert (A : Some n = None) by (apply Hni; split; reflexivity).
           discriminate.
Qed.

Lemma inactive_resolution_priority_witness :
  get_inactive_pack (Demo.env true) (Demo.fresh (Demo.env true) Demo.three_inactive)
                    "foo" None
  = Ok (Some (mkPkg "foo" [".disabled"; "foo@1_0_2"] true "1.0.2" None))
  /\ resolve_unspecified_version (Demo.env true)
       (Demo.fresh (Demo.env true) Demo.three_inactive) "foo" (Some "inactive")
     = Ok (Some "1.0.2").
Proof.
  assert (Hp : releases_parse (Demo.env true)
                 (get_packages_by_name_or_url (Demo.env true)
                    (Demo.fresh (Demo.env true) Demo.three_inactive) "foo")).
  { intros x Hx Hd. vm_compute in Hx.
    destruct Hx as [Hx|[Hx|[Hx|[]]]]; subst x;
      first [discriminate Hd | vm_compute; discriminate]. }
  destruct (@inactive_resolution_priority (Demo.env true)
              (Demo.fresh (Demo.env true) Demo.three_inactive) "foo" Hp)
    as [r [Hr [_ Hres]]].
  assert (Er : r = Some (mkPkg "foo" [".disabled"; "foo@1_0_2"] true "1.0.2" None)).
  { vm_compute in Hr. inversion Hr. reflexivity. }
  subst r. split; [exact Hr|].
  rewrite (Hres eq_refl eq_refl). reflexivity.
Defined.

(** C4 as stated is false for the resolver: an id whose only disabled
    instance is Unknown resolves to the version 'nightly', not to the
    version of that instance. *)
Lemma unknown_only_resolves_to_nightly :
  ~ (forall (E : Env) (m : Manager) (packname : string) (x : InstalledNodePackage),
        inactive_choice E (get_packages_by_name_or_url E m packname) (Some x) ->
        existsb pk_is_enabled (get_packages_by_name_or_url E m packname) = false ->
        resolve_unspecified_version E m packname (Some "inactive")
        = Ok (Some (pk_version x))).
Proof.
  intros H.
  specialize (H (Demo.env true) (Demo.fresh (Demo.env true) Demo.one_unknown) "foo"
                (mkPkg "foo" [".disabled"; "foo"] true "unknown" None)).
  assert (Hc : inactive_choice (Demo.env true)
                 (get_packages_by_name_or_url (Demo.env true)
                    (Demo.fresh (Demo.env true) Demo.one_unknown) "foo")
                 (Some (mkPkg "foo" [".disabled"; "foo"] true "unknown" None))).
  { vm_compute. repeat split; try (left; reflexivity).
    - intros y [Hy|[]]. subst y. reflexivity.
    - intros _ y [Hy|[]] _. subst y. reflexivity. }
  specialize (H Hc eq_refl). vm_compute in H. discriminate.
Qed.

(* ------------------------------------------------------------------ *)
(** ** The directory tree *)

Lemma find_remove_name_same n ds : Fs.find n (Fs.remove_name n ds) = None.
Proof.
  induction ds as [|d r IH]; simpl; [reflexivity|].
  destruct (String.eqb (d_name d) n) eqn:Hn; [exact IH|].
  simpl. rewrite Hn. exact IH.
Qed.

Lemma find_remove_name_other n k ds :
  n <> k -> Fs.find k (Fs.remove_name n ds) = Fs.find k ds.
Proof.
  intros Hne. induction ds as [|d r IH]; simpl; [reflexivity|].
  destruct (String.eqb (d_name d) n) eqn:Hn.
  - apply String.eqb_eq in Hn.
    destruct (String.eqb_spec (d_name d) k); [congruence|exact IH].
  - simpl. destruct (String.eqb (d_name d) k); [reflexivity|exact IH].
Qed.

Lemma find_app n ds es :
  Fs.find n (ds ++ es)
  = match Fs.find n ds with Some d => Some d | None => Fs.find n es end.
Proof.
  induction ds as [|d r IH]; simpl; [reflexivity|].
  destruct (String.eqb (d_name d) n); [reflexivity|exact IH].
Qed.

Lemma find_with_children_same n f ds :
  Fs.find n (Fs.with_children n f ds)
  = match Fs.find n ds with
    | Some d => Some (MkDir (d_name d) (d_meta d) (f (d_children d)))
    | None => None
    end.
Proof.
  induction ds as [|d r IH]; simpl; [reflexivity|].
  destruct (String.eqb (d_name d) n) eqn:Hn; simpl; rewrite Hn;
    [reflexivity|exact IH].
Qed.

Lemma find_with_children_other n k f ds :
  n <> k -> Fs.find k (Fs.with_children n f ds) = Fs.find k ds.
Proof.
  intros Hne. induction ds as [|d r IH]; simpl; [reflexivity|].
  destruct (String.eqb (d_name d) n) eqn:Hn; simpl.
  - apply String.eqb_eq in Hn.
    destruct (String.eqb_spec (d_name d) k); [congruence|reflexivity].
  - destruct (String.eqb (d_name d) k); [reflexivity|exact IH].
Qed.

Lemma find_singleton n m c : Fs.find n [MkDir n m c] = Some (MkDir n m c).
Proof. simpl. rewrite String.eqb_refl. reflexivity. Qed.

Lemma find_name n ds d : Fs.find n ds = Some d -> d_name d = n.
Proof.
  induction ds as [|e r IH]; simpl; [discriminate|].
  destruct (String.eqb_spec (d_name e) n) as [Hn|Hn]; [|exact IH].
  intros H. inversion H; subst. reflexivity.
Qed.

Lemma lookup_nil p : Fs.lookup p [] = None.
Proof. destruct p as [|n [|k q]]; reflexivity. Qed.

Lemma lookup_cons k p t :
  Fs.lookup (k :: p) t
  = match p with
    | [] => Fs.find k t
    | _ :: _ => match Fs.find k t with
                | Some d => Fs.lookup p (d_children d)
                | None => None
                end
    end.
Proof. destruct p; reflexivity. Qed.

(** A removed path is gone. *)
Lemma lookup_remove_same p : forall t, Fs.lookup p (Fs.remove p t) = None.
Proof.
  induction p as [|n rest IH]; intros t; [reflexivity|].
  destruct rest as [|k q].
  - simpl. apply find_remove_name_same.
  - change (Fs.lookup (n :: k :: q) (Fs.remove (n :: k :: q) t))
      with (match Fs.find n (Fs.with_children n (Fs.remove (k :: q)) t) with
            | Some d => Fs.lookup (k :: q) (d_children d)
            | None => None
            end).
    rewrite find_with_children_same.
    destruct (Fs.find n t) as [d|]; [|reflexivity].
    simpl d_children. apply IH.
Qed.

(** Removing below one root entry leaves the other root entries alone. *)
Lemma lookup_remove_other_root n q k p t :
  n <> k -> Fs.lookup (k :: p) (Fs.remove (n :: q) t) = Fs.lookup (k :: p) t.
Proof.
  intros Hne.
  assert (Hf : Fs.find k (Fs.remove (n :: q) t) = Fs.find k t).
  { destruct q as [|c q].
    - simpl. apply find_remove_name_other. exact Hne.
    - change (Fs.remove (n :: c :: q) t)
        with (Fs.with_children n (Fs.remove (c :: q)) t).
      apply find_with_children_other. exact Hne. }
  rewrite !lookup_cons, Hf. reflexivity.
Qed.

(** What was put at a free path is found there, under the last
    component as its name. *)
Lemma lookup_insert_same p d :
  forall t, p <> [] -> Fs.lookup p t = None ->
            Fs.lookup p (Fs.insert p d t) = Some (d_rename (List.last p "") d).
Proof.
  induction p as [|n rest IH]; intros t Hp Hl; [contradiction|].
  destruct rest as [|k q].
  - simpl in *. rewrite find_app, Hl. simpl.
    destruct d as [dn dm dc]. simpl. rewrite String.eqb_refl. reflexivity.
  - change (Fs.lookup (n :: k :: q) t)
      with (match Fs.find n t with
            | Some e => Fs.lookup (k :: q) (d_children e)
            | None => None
            end) in Hl.
    change (List.last (n :: k :: q) "") with (List.last (k :: q) "").
    change (Fs.insert (n :: k :: q) d t)
      with (match Fs.find n t with
            | Some _ => Fs.with_children n (Fs.insert (k :: q) d) t
            | None => t ++ [MkDir n empty_meta (Fs.insert (k :: q) d [])]
            end).
    destruct (Fs.find n t) as [e|] eqn:He.
    + change (Fs.lookup (n :: k :: q) (Fs.with_children n (Fs.insert (k :: q) d) t))
        with (match Fs.find n (Fs.with_children n (Fs.insert (k :: q) d) t) with
              | Some e => Fs.lookup (k :: q) (d_children e)
              | None => None
              end).
      rewrite find_with_children_same, He. cbn [d_children].
      apply IH; [discriminate|exact Hl].
    + change (Fs.lookup (n :: k :: q) (t ++ [MkDir n empty_meta (Fs.insert (k :: q) d [])]))
        with (match Fs.find n (t ++ [MkDir n empty_meta (Fs.insert (k :: q) d [])]) with
              | Some e => Fs.lookup (k :: q) (d_children e)
              | None => None
              end).
      rewrite find_app, He, find_singleton. cbn [d_children].
      apply IH; [discriminate|apply lookup_nil].
Qed.

(** Putting something below one root entry leaves the other root
    entries alone. *)
Lemma lookup_insert_other_root n q k p d t :
  n <> k -> Fs.lookup (k :: p) (Fs.insert (n :: q) d t) = Fs.lookup (k :: p) t.
Proof.
  intros Hne.
  assert (Hf : Fs.find k (Fs.insert (n :: q) d t) = Fs.find k t).
  { destruct q as [|c q].
    - simpl. rewrite find_app. destruct (Fs.find k t); [reflexivity|].
      simpl. destruct d as [dn dm dc]. simpl.
      destruct (String.eqb_spec n k); [contradiction|reflexivity].
    - change (Fs.insert (n :: c :: q) d t)
        with (match Fs.find n t with
              | Some _ => Fs.with_children n (Fs.insert (c :: q) d) t
              | None => t ++ [MkDir n empty_meta (Fs.insert (c :: q) d [])]
              end).
      destruct (Fs.find n t).
      + apply find_with_children_other. exact Hne.
      + rewrite find_app. destruct (Fs.find k t); [reflexivity|].
        simpl. destruct (String.eqb_spec n k); [contradiction|reflexivity]. }
  rewrite !lookup_cons, Hf. reflexivity.
Qed.

(* ------------------------------------------------------------------ *)
(** ** disable on an id with an enabled instance *)

Lemma disable_scan_selected (l : list InstalledNodePackage) a :
  snd (disable_scan l) = Some a ->
  exists x, disable_scan l = (Some x, Some a).
Proof.
  rewrite disable_scan_spec. simpl.
  destruct (List.rev l) as [|y r]; simpl; [discriminate|].
  intros H. exists y. rewrite H. reflexivity.
Qed.

Lemma disable_to_path_root (E : Env) m packname a n :
  pk_fullpath a = [n] ->
  disable_to_path E m packname a
  = ".disabled"
      :: components (disable_folder_name E packname a ++ "@"
                       ++ PyStr.replace "." "_" (disable_installed_version m a))%string.
Proof.
  intros Hp. unfold disable_to_path. rewrite Hp. reflexivity.
Qed.

(** The move made by [unified_disable]: whatever is at the target is
    removed first, then the enabled directory goes there. *)
Lemma unified_disable_moves (E : Env) m packname a n d :
  snd (disable_scan (get_packages_by_name_or_url E m packname)) = Some a ->
  pk_fullpath a = [n] ->
  n <> ".disabled" ->
  Fs.find n (fs m) = Some d ->
  let dst := disable_to_path E m packname a in
  let t0 := if Fs.exists_ dst (fs m) then Fs.remove dst (fs m) else fs m in
  unified_disable E m packname
  = (set_fs m (Fs.insert dst d (Fs.remove [n] t0)),
     Ok (append_item (new_result "disable") (ItemMoved [n] dst)))
  /\ Fs.lookup dst t0 = None
  /\ Fs.find n t0 = Some d.
Proof.
  intros Hs Hp Hn Hd dst t0.
  destruct (disable_scan_selected _ _ Hs) as [x Hx].
  assert (Hdst : exists q, dst = ".disabled" :: q).
  { unfold dst. rewrite (disable_to_path_root E m packname a _ Hp). eexists. reflexivity. }
  destruct Hdst as [q Hq].
  assert (Hnd : ".disabled" <> n) by congruence.
  assert (H0 : Fs.lookup dst t0 = None).
  { unfold t0, Fs.exists_.
    destruct (Fs.lookup dst (fs m)) eqn:Hl; [apply lookup_remove_same|exact Hl]. }
  assert (H1 : Fs.find n t0 = Some d).
  { unfold t0. destruct (Fs.exists_ dst (fs m)); [|exact Hd].
    rewrite Hq.
    pose proof (@lookup_remove_other_root ".disabled" q n [] (fs m) Hnd) as Hr.
    simpl in Hr. simpl. rewrite Hr. exact Hd. }
  split; [|split; assumption].
  unfold unified_disable. rewrite Hx. fold dst. fold t0.
  unfold shutil_move. rewrite Hp.
  change (Fs.lookup [n] t0) with (Fs.find n t0). rewrite H1.
  assert (Hdir : Fs.isdir dst t0 = false).
  { rewrite Hq. unfold Fs.isdir, Fs.exists_. rewrite <- Hq, H0. reflexivity. }
  rewrite Hdir.
  assert (Hpre : Fs.is_prefix [n] dst = false).
  { rewrite Hq. simpl. destruct (String.eqb_spec n ".disabled"); [contradiction|reflexivity]. }
  rewrite Hpre. reflexivity.
Qed.

Lemma moved_source_is_gone n q d t :
  n <> ".disabled" ->
  Fs.lookup [n] (Fs.insert (".disabled" :: q) d (Fs.remove [n] t)) = None.
Proof.
  intros Hn.
  rewrite (@lookup_insert_other_root ".disabled" q n [] d (Fs.remove [n] t))
    by congruence.
  simpl. apply find_remove_name_same.
Qed.

Lemma moved_target_is_there n q d t :
  n <> ".disabled" ->
  Fs.lookup (".disabled" :: q) t = None ->
  Fs.lookup (".disabled" :: q) (Fs.insert (".disabled" :: q) d (Fs.remove [n] t))
  = Some (d_rename (List.last (".disabled" :: q) "") d).
Proof.
  intros Hn Hl.
  apply lookup_insert_same; [discriminate|].
  rewrite (@lookup_remove_other_root n [] ".disabled" q t Hn). exact Hl.
Qed.

Lemma disable_installed_version_slot m a n d :
  pk_fullpath a = [n] ->
  Fs.find n (fs m) = Some d ->
  disable_installed_version m a = slot_version d (pk_version a).
Proof.
  intros Hp Hd. unfold disable_installed_version, get_installed_version, slot_version.
  rewrite Hp. change (Fs.lookup [n] (fs m)) with (Fs.find n (fs m)). rewrite Hd.
  destruct (m_cnr_info (d_meta d)) as [info|]; simpl; [|reflexivity].
  destruct (String.eqb (cnr_version info) ""); reflexivity.
Qed.

(** C6 (amended). [unified_disable] moves the directory of the enabled
    instance it selects from the active root to [.disabled/<name>@<tag>].
    The name is the normalized id (of the last component, for an
    [owner/repo] id) when the id is not URL-like, and the lower-cased
    name of the moved directory when it is. The tag is the version read
    from the release metadata the directory holds at that moment, with
    every '.' replaced by '_'; the version cached in the index is used
    only when no release metadata can be read, which gives 'nightly' for
    a Nightly instance. The index is left as it was. *)
Theorem disable_moves_to_tagged_slot :
  forall (E : Env) (m : Manager) (packname : string)
         (a : InstalledNodePackage) (n : string) (d : Dir),
    snd (disable_scan (get_packages_by_name_or_url E m packname)) = Some a ->
    pk_fullpath a = [n] ->
    n <> ".disabled" ->
    Fs.find n (fs m) = Some d ->
    let tag := PyStr.replace "." "_" (slot_version d (pk_version a)) in
    let to_path := ".disabled" :: components (slot_name E packname n ++ "@" ++ tag)%string in
    exists m',
      unified_disable E m packname
      = (m', Ok (append_item (new_result "disable") (ItemMoved [n] to_path)))
      /\ Fs.lookup [n] (fs m') = None
      /\ Fs.lookup to_path (fs m') = Some (d_rename (List.last to_path "") d)
      /\ installed_node_packages m' = installed_node_packages m
      /\ (is_url_like packname = false ->
          to_path = inactive_slot E packname (slot_version d (pk_version a)))
      /\ (is_url_like packname = true ->
          to_path = ".disabled" :: components (PyStr.lower n ++ "@" ++ tag)%string)
      /\ (forall info, m_cnr_info (d_meta d) = Some info -> cnr_version info <> "" ->
            tag = PyStr.replace "." "_" (cnr_version info))
      /\ (m_cnr_info (d_meta d) = None ->
          tag = PyStr.replace "." "_" (pk_version a)
          /\ (is_nightly a = true -> tag = "nightly")).
Proof.
  intros E m packname a n d Hs Hp Hn Hd tag to_path.
  destruct (unified_disable_moves E m packname _ _ _ Hs Hp Hn Hd) as [Hm [H0 H1]].
  assert (Hdst : disable_to_path E m packname a = to_path).
  { rewrite (disable_to_path_root E m packname a _ Hp).
    unfold to_path, tag, slot_name, normalized_id, disable_folder_name.
    rewrite Hp, (disable_installed_version_slot m a _ _ Hp Hd). reflexivity. }
  rewrite Hdst in Hm, H0.
  eexists. split; [exact Hm|].
  split; [|split; [|split; [|split; [|split; [|split]]]]].
  - simpl fs. apply moved_source_is_gone. exact Hn.
  - simpl fs. apply moved_target_is_there; assumption.
  - reflexivity.
  - intros Hu. unfold to_path, tag, slot_name, inactive_slot. rewrite Hu. reflexivity.
  - intros Hu. unfold to_path, slot_name. rewrite Hu. reflexivity.
  - intros info Hi Hne. unfold tag, slot_version. rewrite Hi.
    destruct (String.eqb_spec (cnr_version info) ""); [contradiction|reflexivity].
  - intros Hi. unfold tag, slot_version. rewrite Hi. split; [reflexivity|].
    intros Hni. unfold is_nightly in Hni. apply String.eqb_eq in Hni.
    rewrite Hni. reflexivity.
Qed.

Lemma disable_moves_to_tagged_slot_witness :
  exists m',
    unified_disable (Demo.env true) (Demo.drifted (Demo.env true)) "foo"
    = (m', Ok (append_item (new_result "disable")
                 (ItemMoved ["Foo"] [".disabled"; "foo@1_0_1"])))
    /\ Fs.lookup ["Foo"] (fs m') = None
    /\ Fs.lookup [".disabled"; "foo@1_0_1"] (fs m')
       = Some (Demo.release "foo@1_0_1" "foo" "1.0.1" "Foo").
Proof.
  destruct (@disable_moves_to_tagged_slot (Demo.env true) (Demo.drifted (Demo.env true))
              "foo" (mkPkg "foo" ["Foo"] false "1.0.0" None) "Foo"
              (Demo.release "Foo" "foo" "1.0.1" "Foo"))
    as [m' [Hm [Hs [Ht _]]]].
  - reflexivity.
  - reflexivity.
  - discriminate.
  - reflexivity.
  - exists m'. split; [exact Hm|]. split; [exact Hs|exact Ht].
Defined.

(** C6 as stated is false for a URL-like id. The clone of
    [https://github.com/owner/Foo] sits in the directory [Foo-dev];
    disable by that URL moves it to [.disabled/foo-dev@nightly], and the
    slot [.disabled/foo@nightly] of the normalized id stays empty. *)
Lemma url_like_id_is_not_disabled_under_its_id :
  ~ (forall (E : Env) (m0 : Manager) (packname : string)
            (a : InstalledNodePackage) (n : string) (d : Dir),
        let m := reload E m0 in
        snd (disable_scan (get_packages_by_name_or_url E m packname)) = Some a ->
        pk_fullpath a = [n] ->
        Fs.find n (fs m) = Some d ->
        Fs.lookup (inactive_slot E packname (slot_version d (pk_version a)))
                  (fs (fst (unified_disable E m packname))) <> None).
Proof.
  intros H.
  specialize (H (Demo.env true)
                (mkManager [Demo.clone "Foo-dev" "https://github.com/owner/Foo"] [] [] [])
                "https://github.com/owner/Foo"
                (mkPkg "https://github.com/owner/Foo" ["Foo-dev"] false "nightly"
                       (Some "https://github.com/owner/Foo"))
                "Foo-dev" (Demo.clone "Foo-dev" "https://github.com/owner/Foo")
                eq_refl eq_refl eq_refl).
  apply H. vm_compute. reflexivity.
Qed.

(** C10. When the slot [unified_disable] computes for the enabled
    directory already exists, the directory found there is removed and
    the enabled directory takes its place; the operation does not fail,
    so the disabled variant that was in the slot is lost. *)
Theorem disable_replaces_existing_slot :
  forall (E : Env) (m : Manager) (packname : string)
         (a : InstalledNodePackage) (n : string) (d old : Dir),
    snd (disable_scan (get_packages_by_name_or_url E m packname)) = Some a ->
    pk_fullpath a = [n] ->
    n <> ".disabled" ->
    Fs.find n (fs m) = Some d ->
    Fs.lookup (disable_to_path E m packname a) (fs m) = Some old ->
    let to_path := disable_to_path E m packname a in
    let after := Fs.insert to_path d (Fs.remove [n] (Fs.remove to_path (fs m))) in
    exists r,
      unified_disable E m packname = (set_fs m after, Ok r)
      /\ action r = "disable"
      /\ result r = true
      /\ items r = [ItemMoved [n] to_path]
      /\ Fs.lookup to_path (Fs.remove to_path (fs m)) = None
      /\ Fs.lookup to_path after = Some (d_rename (List.last to_path "") d)
      /\ Fs.lookup [n] after = None.
Proof.
  intros E m packname a n d old Hs Hp Hn Hd Hold to_path after.
  destruct (unified_disable_moves E m packname _ _ _ Hs Hp Hn Hd) as [Hm [H0 H1]].
  fold to_path in Hm, H0.
  assert (Hex : Fs.exists_ to_path (fs m) = true).
  { unfold Fs.exists_, to_path. rewrite Hold. reflexivity. }
  rewrite Hex in Hm, H0.
  eexists. split; [exact Hm|].
  split; [reflexivity|]. split; [reflexivity|]. split; [reflexivity|].
  split; [exact H0|].
  unfold after, to_path in *.
  rewrite (disable_to_path_root E m packname a _ Hp) in *.
  split.
  - apply moved_target_is_there; assumption.
  - apply moved_source_is_gone. exact Hn.
Qed.

Lemma disable_replaces_existing_slot_witness :
  exists r m',
    unified_disable (Demo.env true) (Demo.fresh (Demo.env true) Demo.slot_taken) "foo"
    = (m', Ok r)
    /\ result r = true
    /\ fs m' = [Demo.disabled_dir [Demo.release "foo@1_0_1" "foo" "1.0.1" "Foo"]].
Proof.
  destruct (@disable_replaces_existing_slot (Demo.env true)
              (Demo.fresh (Demo.env true) Demo.slot_taken) "foo"
              (mkPkg "foo" ["Foo"] false "1.0.1" None) "Foo"
              (Demo.release "Foo" "foo" "1.0.1" "Foo")
              (Demo.release "foo@1_0_1" "foo" "1.0.1" "FooOld"))
    as [r [Hm [_ [Hr _]]]].
  - reflexivity.
  - reflexivity.
  - discriminate.
  - reflexivity.
  - reflexivity.
  - exists r. eexists. split; [exact Hm|]. split; [exact Hr|]. reflexivity.
Defined.

(* ------------------------------------------------------------------ *)
(** ** The index after a rescan *)

Lemma get_list_append k k' p idx :
  Idx.get_list k (Idx.append k' p idx)
  = if String.eqb k' k then Idx.get_list k idx ++ [p] else Idx.get_list k idx.
Proof.
  unfold Idx.get_list.
  induction idx as [|[k0 v] r IH]; simpl.
  - destruct (String.eqb k' k); reflexivity.
  - destruct (String.eqb_spec k0 k') as [He|He].
    + subst k0. simpl. destruct (String.eqb k' k); reflexivity.
    + simpl. destruct (String.eqb_spec k0 k) as [Hk|Hk].
      * subst k0. destruct (String.eqb_spec k' k); [congruence|reflexivity].
      * exact IH.
Qed.

Lemma get_list_index_package (E : Env) k p idx rm :
  Idx.get_list k (fst (index_package E p (idx, rm)))
  = Idx.get_list k idx ++ (if indexed_under E k p then [p] else []).
Proof.
  unfold index_package, indexed_under.
  assert (Hfst : forall (a : Index) (b c : RepoMap) (x : bool),
             fst (a, if x then b else c) = a) by (intros; reflexivity).
  destruct (is_from_cnr p); simpl.
  - destruct (String.eqb_spec (normalize_package_name E (pk_id p)) (pk_id p)) as [Hn|Hn];
      simpl.
    + destruct (PyStr.truthy (pk_repo_url p)); [destruct (pk_repo_url p)|]; simpl;
        rewrite get_list_append; destruct (String.eqb (pk_id p) k);
          rewrite ?app_nil_r; reflexivity.
    + destruct (PyStr.truthy (pk_repo_url p)); [destruct (pk_repo_url p)|]; simpl;
        rewrite !get_list_append;
        destruct (String.eqb_spec (pk_id p) k) as [Hk|Hk];
        destruct (String.eqb_spec (normalize_package_name E (pk_id p)) k) as [Hk'|Hk'];
        simpl; rewrite ?app_nil_r; try reflexivity; congruence.
  - destruct (PyStr.truthy (pk_repo_url p)); [destruct (pk_repo_url p)|]; simpl;
      rewrite get_list_append; rewrite orb_false_r;
      destruct (String.eqb (pk_id p) k); rewrite ?app_nil_r; reflexivity.
Qed.

Lemma get_list_fold (E : Env) k l :
  forall st,
    Idx.get_list k (fst (fold_left (fun st p => index_package E p st) l st))
    = Idx.get_list k (fst st) ++ filter (indexed_under E k) l.
Proof.
  induction l as [|p l IH]; intros [idx rm].
  - simpl. rewrite app_nil_r. reflexivity.
  - cbn [fold_left filter]. rewrite IH, get_list_index_package, <- app_assoc.
    cbn [fst]. destruct (indexed_under E k p); reflexivity.
Qed.

(** After [reload], the list filed under a key holds the scanned
    packages indexed under that key, in scan order. *)
Lemma get_list_reload (E : Env) m k :
  Idx.get_list k (installed_node_packages (reload E m))
  = filter (indexed_under E k) (scan E (fs m)).
Proof.
  unfold reload, build_index, scan.
  pose proof (get_list_fold E k (scan_enabled E (fs m) ++ scan_disabled E (fs m))
                ([], [])) as H.
  destruct (fold_left _ _ _) as [idx rm]. simpl in *. exact H.
Qed.

Lemma fs_reload (E : Env) m : fs (reload E m) = fs m.
Proof.
  unfold reload. destruct (build_index E (fs m)). reflexivity.
Qed.

(** The lookup is the direct hits followed by the cross-referenced ones. *)
Lemma lookup_split (E : Env) m packname :
  get_packages_by_name_or_url E m packname
  = Idx.get_list packname (installed_node_packages m)
    ++ match cross_reference E m packname with
       | Some k => Idx.get_list k (installed_node_packages m)
       | None => []
       end.
Proof.
  unfold get_packages_by_name_or_url, cross_reference.
  destruct (is_url_like packname); simpl; [rewrite app_nil_r; reflexivity|].
  destruct (lookup_repo_url E _ packname _) as [u|]; [|rewrite app_nil_r; reflexivity].
  unfold PyStr.truthy.
  destruct (negb (String.eqb u "")); [reflexivity|rewrite app_nil_r; reflexivity].
Qed.

(** Removal never makes a path appear. *)
Lemma lookup_remove_none q :
  forall p t, Fs.lookup p t = None -> Fs.lookup p (Fs.remove q t) = None.
Proof.
  induction q as [|n q IH]; intros p t Hl; [exact Hl|].
  destruct p as [|k p]; [reflexivity|].
  rewrite lookup_cons in Hl |- *.
  destruct q as [|c q].
  - change (Fs.remove [n] t) with (Fs.remove_name n t).
    destruct (String.eqb_spec n k) as [He|He].
    + subst k. rewrite find_remove_name_same. destruct p; reflexivity.
    + rewrite (find_remove_name_other _ _ _ He). exact Hl.
  - change (Fs.remove (n :: c :: q) t) with (Fs.with_children n (Fs.remove (c :: q)) t).
    destruct (String.eqb_spec n k) as [He|He].
    + subst k. rewrite find_with_children_same.
      destruct (Fs.find n t) as [d|]; [|destruct p; reflexivity].
      destruct p as [|k' p]; [discriminate|].
      cbn [d_children]. apply IH. exact Hl.
    + rewrite (find_with_children_other _ _ _ _ He). exact Hl.
Qed.

Lemma lookup_remove_all_none l :
  forall p t, Fs.lookup p t = None -> Fs.lookup p (remove_all l t) = None.
Proof.
  induction l as [|x l IH]; intros p t Hl; [exact Hl|].
  simpl. apply IH. apply lookup_remove_none. exact Hl.
Qed.

Lemma lookup_remove_all_in l :
  forall x t, In x l -> Fs.lookup (pk_fullpath x) (remove_all l t) = None.
Proof.
  induction l as [|y l IH]; intros x t Hin; [destruct Hin|].
  destruct Hin as [Hx|Hx].
  - subst y. simpl. apply lookup_remove_all_none. apply lookup_remove_same.
  - simpl. apply IH. exact Hx.
Qed.

Lemma find_in n ds d : In d ds -> d_name d = n -> Fs.find n ds <> None.
Proof.
  induction ds as [|e r IH]; intros Hin Hn; [destruct Hin|].
  simpl. destruct (String.eqb_spec (d_name e) n) as [He|He]; [discriminate|].
  destruct Hin as [Hin|Hin]; [subst e; contradiction|].
  apply IH; assumption.
Qed.

Lemma find_some_in n ds d : Fs.find n ds = Some d -> In d ds.
Proof.
  induction ds as [|e r IH]; simpl; [discriminate|].
  destruct (String.eqb (d_name e) n).
  - intros H. inversion H. left. reflexivity.
  - intros H. right. apply IH. exact H.
Qed.

Lemma in_remove_name n ds d : In d (Fs.remove_name n ds) -> In d ds.
Proof.
  induction ds as [|e r IH]; simpl; [tauto|].
  destruct (String.eqb (d_name e) n); simpl; intros H.
  - right. apply IH. exact H.
  - destruct H as [H|H]; [left; exact H|right; apply IH; exact H].
Qed.

Lemma in_with_children n f ds d' :
  In d' (Fs.with_children n f ds) -> exists d, In d ds /\ same_entry d' d.
Proof.
  induction ds as [|e r IH]; simpl; [tauto|].
  destruct (String.eqb (d_name e) n); simpl; intros [H|H].
  - exists e. split; [left; reflexivity|]. subst d'. split; reflexivity.
  - exists d'. split; [right; exact H|split; reflexivity].
  - exists e. split; [left; reflexivity|]. subst d'. split; reflexivity.
  - destruct (IH H) as [d [Hin Hs]]. exists d. split; [right; exact Hin|exact Hs].
Qed.

(** After a removal every entry of a listing was an entry before. *)
Lemma in_remove q ds d' :
  In d' (Fs.remove q ds) -> exists d, In d ds /\ same_entry d' d.
Proof.
  destruct q as [|n [|c q]].
  - intros H. exists d'. split; [exact H|split; reflexivity].
  - intros H. exists d'. split; [apply (in_remove_name _ _ _ H)|split; reflexivity].
  - apply in_with_children.
Qed.

Lemma scan_enabled_in (E : Env) t x :
  In x (scan_enabled E t) <->
  exists d, In d t /\ is_reserved_name (d_name d) = false
            /\ x = from_fullpath [d_name d] (d_meta d) (resolve_from_path E).
Proof.
  unfold scan_enabled. rewrite in_map_iff. split.
  - intros [d [Hx Hd]]. apply filter_In in Hd. destruct Hd as [Hin Hr].
    exists d. apply negb_true_iff in Hr. repeat split; [exact Hin|exact Hr|].
    symmetry. exact Hx.
  - intros [d [Hin [Hr Hx]]]. exists d. split; [symmetry; exact Hx|].
    apply filter_In. split; [exact Hin|]. apply negb_true_iff. exact Hr.
Qed.

Lemma scan_disabled_in (E : Env) t x :
  In x (scan_disabled E t) <->
  exists dd d, Fs.find ".disabled" t = Some dd /\ In d (d_children dd)
               /\ x = from_fullpath [".disabled"; d_name d] (d_meta d)
                                     (resolve_from_path E).
Proof.
  unfold scan_disabled. split.
  - destruct (Fs.find ".disabled" t) as [dd|]; [|intros []].
    rewrite in_map_iff. intros [d [Hx Hd]]. exists dd, d.
    repeat split; [exact Hd|symmetry; exact Hx].
  - intros [dd [d [Hf [Hin Hx]]]]. rewrite Hf. apply in_map_iff.
    exists d. split; [symmetry; exact Hx|exact Hin].
Qed.

(** A scanned package sits on a directory of the tree. *)
Lemma scan_path_exists (E : Env) t x :
  In x (scan E t) -> Fs.lookup (pk_fullpath x) t <> None.
Proof.
  unfold scan. intros H. apply in_app_or in H. destruct H as [H|H].
  - apply scan_enabled_in in H. destruct H as [d [Hin [_ Hx]]]. subst x.
    rewrite from_fullpath_fullpath. simpl. apply (find_in _ _ _ Hin). reflexivity.
  - apply scan_disabled_in in H. destruct H as [dd [d [Hf [Hin Hx]]]]. subst x.
    rewrite from_fullpath_fullpath. rewrite lookup_cons, Hf.
    simpl. apply (find_in _ _ _ Hin). reflexivity.
Qed.

(** Removing a directory adds nothing to what a scan finds. *)
Lemma scan_remove (E : Env) q t x :
  In x (scan E (Fs.remove q t)) -> In x (scan E t).
Proof.
  unfold scan. intros H. apply in_app_or in H. apply in_or_app.
  destruct H as [H|H].
  - left. apply scan_enabled_in in H. destruct H as [d' [Hin [Hr Hx]]].
    destruct (in_remove _ _ _ Hin) as [d [Hd [Hn Hm]]].
    apply scan_enabled_in. exists d. rewrite <- Hn, <- Hm. repeat split; assumption.
  - right. apply scan_disabled_in in H. destruct H as [dd' [d' [Hf [Hin Hx]]]].
    apply scan_disabled_in.
    destruct q as [|n [|c q]].
    + exists dd', d'. repeat split; assumption.
    + change (Fs.remove [n] t) with (Fs.remove_name n t) in Hf.
      destruct (String.eqb_spec n ".disabled") as [He|He].
      * subst n. rewrite find_remove_name_same in Hf. discriminate.
      * rewrite (find_remove_name_other _ _ _ He) in Hf.
        exists dd', d'. repeat split; assumption.
    + change (Fs.remove (n :: c :: q) t)
        with (Fs.with_children n (Fs.remove (c :: q)) t) in Hf.
      destruct (String.eqb_spec n ".disabled") as [He|He].
      * subst n. rewrite find_with_children_same in Hf.
        destruct (Fs.find ".disabled" t) as [dd|]; [|discriminate].
        assert (Hc : d_children dd' = Fs.remove (c :: q) (d_children dd))
          by (injection Hf as Hf; rewrite <- Hf; reflexivity).
        rewrite Hc in Hin.
        destruct (in_remove _ _ _ Hin) as [d [Hd [Hn Hm]]].
        exists dd, d. rewrite <- Hn, <- Hm. repeat split; assumption.
      * rewrite (find_with_children_other _ _ _ _ He) in Hf.
        exists dd', d'. repeat split; assumption.
Qed.

Lemma scan_remove_all (E : Env) l :
  forall t x, In x (scan E (remove_all l t)) -> In x (scan E t).
Proof.
  induction l as [|y l IH]; intros t x H; [exact H|].
  simpl in H. apply IH in H. apply (scan_remove _ _ _ _ H).
Qed.

(* ------------------------------------------------------------------ *)
(** ** uninstall *)

Lemma remove_name_absent n t : Fs.find n t = None -> Fs.remove_name n t = t.
Proof.
  induction t as [|d t IH]; [reflexivity|].
  cbn [Fs.find Fs.remove_name]. destruct (String.eqb (d_name d) n); [discriminate|].
  intros H. rewrite (IH H). reflexivity.
Qed.

Lemma with_children_same n f t :
  (forall d, Fs.find n t = Some d -> f (d_children d) = d_children d) ->
  Fs.with_children n f t = t.
Proof.
  induction t as [|d t IH]; [reflexivity|].
  cbn [Fs.find Fs.with_children]. destruct (String.eqb (d_name d) n).
  - intros H. rewrite (H d eq_refl). destruct d; reflexivity.
  - intros H. rewrite (IH H). reflexivity.
Qed.

Lemma remove_absent p : forall t, Fs.lookup p t = None -> Fs.remove p t = t.
Proof.
  induction p as [|n p IH]; intros t Hl; [reflexivity|].
  destruct p as [|c q].
  - apply remove_name_absent. exact Hl.
  - change (Fs.remove (n :: c :: q) t) with (Fs.with_children n (Fs.remove (c :: q)) t).
    apply with_children_same. intros d Hd. apply IH.
    rewrite lookup_cons, Hd in Hl. exact Hl.
Qed.

(** [rmtree] removes a directory that is there unless every attempt is
    refused; it raises for a directory that is not there. *)
Lemma rmtree_cases (E : Env) p t :
  (Fs.exists_ p t = true /\ removable E p = true /\ rmtree E p t = Ok (Fs.remove p t))
  \/ (Fs.exists_ p t = true /\ removable E p = false
      /\ rmtree E p t = Raise PermissionError)
  \/ (Fs.exists_ p t = false /\ rmtree E p t = Raise FileNotFoundError).
Proof.
  unfold rmtree, removable. cbn [rmtree_from forallb]. unfold shutil_rmtree.
  destruct (Fs.exists_ p t); [|right; right; split; reflexivity].
  destruct (rmtree_refused E p 0); [|left; repeat split].
  destruct (rmtree_refused E p 1); [|left; repeat split].
  destruct (rmtree_refused E p 2); [|left; repeat split].
  destruct (rmtree_refused E p 3); [|left; repeat split].
  right. left. repeat split.
Qed.

(** One [try_rmtree]: the directory leaves the tree, or the line that
    reserves its removal is added; nothing else changes. *)
Lemma try_rmtree_cases (E : Env) title p m :
  installed_node_packages (try_rmtree E title p m) = installed_node_packages m
  /\ ((fs (try_rmtree E title p m) = Fs.remove p (fs m)
       /\ Fs.lookup p (fs (try_rmtree E title p m)) = None
       /\ install_scripts (try_rmtree E title p m) = install_scripts m)
      \/ (fs (try_rmtree E title p m) = fs m
          /\ install_scripts (try_rmtree E title p m)
             = install_scripts m ++ [lazy_delete title p]
          /\ (Fs.exists_ p (fs m) = true -> removable E p = false))).
Proof.
  unfold try_rmtree.
  destruct (rmtree_cases E p (fs m)) as [[Hx [Hr Ho]]|[[Hx [Hr Ho]]|[Hx Ho]]];
    rewrite Ho; (split; [reflexivity|]).
  - left. repeat split. simpl. apply lookup_remove_same.
  - right. repeat split. intros _. exact Hr.
  - right. repeat split. intros H. rewrite Hx in H. discriminate.
Qed.

Lemma try_rmtree_all_index (E : Env) title l :
  forall m, installed_node_packages (try_rmtree_all E title l m)
            = installed_node_packages m.
Proof.
  induction l as [|x l IH]; intros m; [reflexivity|].
  simpl. rewrite IH. apply try_rmtree_cases.
Qed.

(** Nothing appears in the tree, and no reserved line is lost. *)
Lemma try_rmtree_all_keeps (E : Env) title l :
  forall m,
    (forall p, Fs.lookup p (fs m) = None ->
               Fs.lookup p (fs (try_rmtree_all E title l m)) = None)
    /\ (forall c, In c (install_scripts m) ->
                  In c (install_scripts (try_rmtree_all E title l m)))
    /\ (forall x, In x (scan E (fs (try_rmtree_all E title l m))) ->
                  In x (scan E (fs m))).
Proof.
  induction l as [|x l IH]; intros m; [repeat split; auto|].
  simpl. destruct (IH (try_rmtree E title (pk_fullpath x) m)) as [Hl [Hs Hc]].
  destruct (try_rmtree_cases E title (pk_fullpath x) m) as [_ [[Hf [_ Hi]]|[Hf [Hi _]]]].
  - repeat split.
    + intros p Hp. apply Hl. rewrite Hf. apply lookup_remove_none. exact Hp.
    + intros c Hin. apply Hs. rewrite Hi. exact Hin.
    + intros y Hy. apply Hc in Hy. rewrite Hf in Hy. apply (scan_remove _ _ _ _ Hy).
  - repeat split.
    + intros p Hp. apply Hl. rewrite Hf. exact Hp.
    + intros c Hin. apply Hs. rewrite Hi. apply in_or_app. left. exact Hin.
    + intros y Hy. apply Hc in Hy. rewrite Hf in Hy. exact Hy.
Qed.

(** Every directory [try_rmtree] went over is gone or reserved; it is
    gone when [rmtree] gets through on it. *)
Lemma try_rmtree_all_each (E : Env) title l :
  forall m x, In x l ->
    (Fs.lookup (pk_fullpath x) (fs (try_rmtree_all E title l m)) = None
     \/ In (lazy_delete title (pk_fullpath x))
           (install_scripts (try_rmtree_all E title l m)))
    /\ (removable E (pk_fullpath x) = true ->
        Fs.lookup (pk_fullpath x) (fs (try_rmtree_all E title l m)) = None).
Proof.
  induction l as [|y l IH]; intros m x Hin; [destruct Hin|].
  destruct Hin as [Hx|Hx]; [subst y|exact (IH _ x Hx)].
  simpl.
  destruct (try_rmtree_all_keeps E title l (try_rmtree E title (pk_fullpath x) m))
    as [Hl [Hs _]].
  destruct (try_rmtree_cases E title (pk_fullpath x) m) as [_ [[_ [Hg _]]|[Hf [Hi Hr]]]].
  - split; [left|intros _]; apply Hl; exact Hg.
  - split.
    + right. apply Hs. rewrite Hi. apply in_or_app. right. left. reflexivity.
    + intros Hrm. apply Hl. rewrite Hf.
      destruct (Fs.lookup (pk_fullpath x) (fs m)) eqn:Hk; [|reflexivity].
      assert (Hex : Fs.exists_ (pk_fullpath x) (fs m) = true)
        by (unfold Fs.exists_; rewrite Hk; reflexivity).
      rewrite (Hr Hex) in Hrm. discriminate.
Qed.

(** When [rmtree] gets through on every path, the tree is the one with
    all of them removed. *)
Lemma try_rmtree_all_removes (E : Env) title l :
  forall m,
    (forall x, In x l -> removable E (pk_fullpath x) = true) ->
    fs (try_rmtree_all E title l m) = remove_all l (fs m).
Proof.
  induction l as [|x l IH]; intros m Hr; [reflexivity|].
  simpl. rewrite IH by (intros y Hy; apply Hr; right; exact Hy).
  f_equal.
  destruct (try_rmtree_cases E title (pk_fullpath x) m) as [_ [[Hf _]|[Hf [_ Hx]]]];
    [exact Hf|].
  rewrite Hf. symmetry. apply remove_absent.
  destruct (Fs.lookup (pk_fullpath x) (fs m)) eqn:Hk; [|reflexivity].
  assert (Hex : Fs.exists_ (pk_fullpath x) (fs m) = true)
    by (unfold Fs.exists_; rewrite Hk; reflexivity).
  rewrite (Hr x (or_introl eq_refl)) in Hx. specialize (Hx Hex). discriminate.
Qed.

Lemma uninstall_fold (E : Env) title (l : list InstalledNodePackage) :
  forall m r,
    fold_left (fun (acc : Manager * ManagedResult) x =>
                 (try_rmtree E title (pk_fullpath x) (fst acc),
                  append_item (snd acc) (ItemRemoved (pk_version x) (pk_fullpath x))))
              l (m, r)
    = (try_rmtree_all E title l m,
       mkResult (action r)
                (items r ++ map (fun x => ItemRemoved (pk_version x) (pk_fullpath x)) l)
                (result r) (to_path r) (msg r) (target_path r) (target_version r)
                (postinstall r) (ver r)).
Proof.
  induction l as [|x l IH]; intros m r.
  - simpl. rewrite app_nil_r. destruct r; reflexivity.
  - cbn [fold_left fst snd]. rewrite IH. simpl.
    rewrite <- app_assoc. reflexivity.
Qed.

Lemma unified_uninstall_eq (E : Env) m packname :
  unified_uninstall E m packname
  = match get_packages_by_name_or_url E m packname with
    | [] => (m, Ok (with_msg (new_result "skip") "Not installed"))
    | found =>
        (try_rmtree_all E packname found m,
         Ok (mkResult "uninstall"
               (map (fun x => ItemRemoved (pk_version x) (pk_fullpath x)) found)
               true None None None None None None))
    end.
Proof.
  unfold unified_uninstall. rewrite uninstall_fold.
  destruct (get_packages_by_name_or_url E m packname) as [|x l]; reflexivity.
Qed.

Lemma after_uninstall (E : Env) m packname :
  fst (unified_uninstall E m packname)
  = try_rmtree_all E packname (get_packages_by_name_or_url E m packname) m.
Proof.
  rewrite unified_uninstall_eq.
  destruct (get_packages_by_name_or_url E m packname); reflexivity.
Qed.

Lemma filter_nil_of {A} (f : A -> bool) (l : list A) :
  (forall x, In x l -> f x = true -> False) -> filter f l = [].
Proof.
  induction l as [|x l IH]; intros H; [reflexivity|].
  simpl. destruct (f x) eqn:Hf.
  - exfalso. apply (H x); [left; reflexivity|exact Hf].
  - apply IH. intros y Hy. apply H. right. exact Hy.
Qed.

(** A key all of whose packages were matched, and could be removed, has
    none after the uninstall and a rescan. *)
Lemma key_emptied (E : Env) m0 packname k :
  (forall x, In x (get_packages_by_name_or_url E (reload E m0) packname) ->
             removable E (pk_fullpath x) = true) ->
  (forall x, In x (Idx.get_list k (installed_node_packages (reload E m0))) ->
             In x (get_packages_by_name_or_url E (reload E m0) packname)) ->
  Idx.get_list k
    (installed_node_packages
       (reload E (fst (unified_uninstall E (reload E m0) packname)))) = [].
Proof.
  intros Hrm Hsub. rewrite get_list_reload, after_uninstall.
  apply filter_nil_of. intros x Hx Hk.
  pose proof (try_rmtree_all_keeps E packname
                (get_packages_by_name_or_url E (reload E m0) packname) (reload E m0))
    as [_ [_ Hsc]].
  assert (Hx0 : In x (scan E (fs m0))).
  { rewrite <- (fs_reload E m0). apply Hsc. exact Hx. }
  assert (Hfound : In x (get_packages_by_name_or_url E (reload E m0) packname)).
  { apply Hsub. rewrite get_list_reload. apply filter_In. split; assumption. }
  apply (scan_path_exists E _ _ Hx).
  apply (try_rmtree_all_each E packname _ (reload E m0) x Hfound).
  apply Hrm. exact Hfound.
Qed.

Lemma find_original_packname_normalizes (E : Env) packname keys o :
  find_original_packname E packname keys = Some o ->
  normalize_package_name E o = packname.
Proof.
  induction keys as [|k r IH]; simpl; [discriminate|].
  destruct (PyStr.contains "/" k); [|exact IH].
  destruct (PyStr.split "/" k) as [|p0 [|p1 [|p2 l]]]; try exact IH.
  destruct (String.eqb (normalize_package_name E p1) packname) eqn:He;
    [|exact IH].
  intros H. injection H as H. subst o. apply String.eqb_eq. exact He.
Qed.

(** With such a registry, and no repository URL among the direct hits,
    the cross-reference of an id does not depend on the index. *)
Lemma cross_reference_of_registry (E : Env) m packname :
  registry_ignores_spelling E packname ->
  first_repo_url (Idx.get_list packname (installed_node_packages m)) = None ->
  cross_reference E m packname
  = if is_url_like packname then None
    else match get_nodepack E packname with
         | Some pack_info =>
             match pi_repository pack_info with
             | Some u => if PyStr.truthy (Some u) then Some (compact_url E u) else None
             | None => None
             end
         | None => None
         end.
Proof.
  intros Hr Hf. unfold cross_reference, lookup_repo_url. rewrite Hf.
  destruct (is_url_like packname); [reflexivity|].
  destruct (find_original_packname E packname (Idx.keys (installed_node_packages m)))
    as [o|] eqn:Ho; simpl.
  - destruct (negb (String.eqb o ""));
      [rewrite (Hr o (find_original_packname_normalizes E packname _ o Ho))|];
      destruct (get_nodepack E packname) as [pack_info|]; try reflexivity;
      destruct (pi_repository pack_info); reflexivity.
  - destruct (get_nodepack E packname) as [pack_info|]; [|reflexivity].
    destruct (pi_repository pack_info); reflexivity.
Qed.

(** C9 (amended). [unified_uninstall] takes the id alone and goes over
    every instance the lookup returns for it, enabled or disabled. With
    nothing found it returns the 'skip' result 'Not installed' and
    changes nothing; otherwise it returns a successful 'uninstall'
    result that lists every instance found, whether its directory could
    be removed or not. Each of these directories is then gone from the
    tree or reserved for removal at the next start, and it is gone
    whenever [rmtree] gets through on it; no operation puts anything
    into the tree. When [rmtree] gets through on all of them, the tree
    is the former one without them, a rescan files nothing under the id,
    and the lookup for the id is empty provided its cross-reference to a
    repository is the one used before, or none; that is the case when
    the registry answers alike for every spelling of the id and no
    direct hit carried a repository URL. *)
Theorem uninstall_removes_every_instance :
  forall (E : Env) (m0 : Manager) (packname : string),
    let m := reload E m0 in
    let found := get_packages_by_name_or_url E m packname in
    let after := reload E (fst (unified_uninstall E m packname)) in
    (found = [] ->
     unified_uninstall E m packname
     = (m, Ok (with_msg (new_result "skip") "Not installed")))
    /\ (found <> [] ->
        exists r, snd (unified_uninstall E m packname) = Ok r
                  /\ action r = "uninstall" /\ result r = true
                  /\ items r = map (fun x => ItemRemoved (pk_version x) (pk_fullpath x))
                                   found)
    /\ (forall x, In x found ->
          (Fs.lookup (pk_fullpath x) (fs after) = None
           \/ In (lazy_delete packname (pk_fullpath x)) (install_scripts after))
          /\ (removable E (pk_fullpath x) = true ->
              Fs.lookup (pk_fullpath x) (fs after) = None))
    /\ (forall x, In x (scan E (fs after)) -> In x (scan E (fs m)))
    /\ ((forall x, In x found -> removable E (pk_fullpath x) = true) ->
        fs after = remove_all found (fs m)
        /\ (forall x, In x (scan E (fs after)) -> ~ In x found)
        /\ Idx.get_list packname (installed_node_packages after) = []
        /\ (cross_reference E after packname = None
            \/ cross_reference E after packname = cross_reference E m packname ->
            get_packages_by_name_or_url E after packname = [])
        /\ (registry_ignores_spelling E packname ->
            first_repo_url (Idx.get_list packname (installed_node_packages m)) = None ->
            get_packages_by_name_or_url E after packname = [])).
Proof.
  intros E m0 packname m found after.
  assert (Hfs : fs after = fs (try_rmtree_all E packname found m)).
  { unfold after. rewrite fs_reload, after_uninstall. reflexivity. }
  assert (Hsc : install_scripts after = install_scripts (try_rmtree_all E packname found m)).
  { unfold after. rewrite after_uninstall. unfold reload.
    destruct (build_index E _). reflexivity. }
  destruct (try_rmtree_all_keeps E packname found m) as [_ [_ Hscan]].
  refine (conj _ (conj _ (conj _ (conj _ _)))).
  - intros Hf. rewrite unified_uninstall_eq. fold found. rewrite Hf. reflexivity.
  - intros Hf. rewrite unified_uninstall_eq. fold found.
    destruct found as [|x l]; [contradiction|].
    eexists. repeat split.
  - intros x Hx. rewrite Hfs, Hsc. apply try_rmtree_all_each. exact Hx.
  - intros x Hx. rewrite Hfs in Hx. apply Hscan. exact Hx.
  - intros Hrm.
    assert (Hgone : forall x, In x found -> Fs.lookup (pk_fullpath x) (fs after) = None).
    { intros x Hx. rewrite Hfs.
      apply (try_rmtree_all_each E packname found m x Hx). apply Hrm. exact Hx. }
    assert (Hdirect : Idx.get_list packname (installed_node_packages after) = []).
    { apply key_emptied; [exact Hrm|]. intros x Hx. fold m. unfold found.
      rewrite lookup_split. apply in_or_app. left. exact Hx. }
    assert (Hcross : cross_reference E after packname = None
                     \/ cross_reference E after packname = cross_reference E m packname ->
                     get_packages_by_name_or_url E after packname = []).
    { intros Hc. rewrite lookup_split, Hdirect. simpl.
      destruct (cross_reference E after packname) as [k|] eqn:Hk; [|reflexivity].
      destruct Hc as [Hc|Hc]; [discriminate|].
      apply key_emptied; [exact Hrm|]. intros x Hx. fold m. rewrite lookup_split, <- Hc.
      apply in_or_app. right. exact Hx. }
    refine (conj _ (conj _ (conj Hdirect (conj Hcross _)))).
    + rewrite Hfs. apply try_rmtree_all_removes. exact Hrm.
    + intros x Hx Hf. apply (scan_path_exists E _ _ Hx). apply Hgone. exact Hf.
    + intros Hr Hf. apply Hcross. right.
      rewrite (cross_reference_of_registry E m packname Hr Hf).
      apply cross_reference_of_registry; [exact Hr|].
      rewrite Hdirect. reflexivity.
Qed.

Lemma uninstall_removes_every_instance_witness :
  fs (fst (unified_uninstall (Demo.env true)
             (Demo.fresh (Demo.env true) Demo.three_variants) "foo"))
  = [Demo.disabled_dir []; Demo.plain "other"]
  /\ get_packages_by_name_or_url (Demo.env true)
       (reload (Demo.env true)
          (fst (unified_uninstall (Demo.env true)
                  (Demo.fresh (Demo.env true) Demo.three_variants) "foo"))) "foo"
     = [].
Proof.
  destruct (uninstall_removes_every_instance (Demo.env true)
              (mkManager Demo.three_variants [] [] []) "foo")
    as [_ [_ [_ [_ H]]]].
  destruct H as [Hfs [_ [_ [Hl _]]]]; [intros x _; reflexivity|].
  unfold Demo.fresh. split.
  - rewrite fs_reload in Hfs. rewrite Hfs. reflexivity.
  - apply Hl. right. reflexivity.
Defined.

(** C9 as stated is false. The registry tells [Foo], the pack of
    [owner/Foo], from [foo], the pack of [other/bar], and the clones of
    both repositories are installed. The lookup of [foo] takes the
    casing [Foo] from the key [owner/Foo] and finds that clone;
    uninstall(foo) removes it. With the key gone the lookup asks the
    registry for [foo] and returns the clone of [other/bar]. *)
Lemma uninstall_then_lookup_finds_other_project :
  ~ (forall (E : Env) (m0 : Manager) (packname : string),
        let m := reload E m0 in
        let after := reload E (fst (unified_uninstall E m packname)) in
        get_packages_by_name_or_url E after packname = []).
Proof.
  intros H.
  specialize (H Demo.env_by_spelling (mkManager Demo.two_clones [] [] []) "foo").
  vm_compute in H. discriminate H.
Qed.

(* ------------------------------------------------------------------ *)
(** ** enable, then disable *)

Lemma lookup_two_insert r s n d t e :
  Fs.find r t = Some e ->
  Fs.lookup [r; n] (Fs.insert [r; s] d t)
  = Fs.find n (d_children e ++ [d_rename s d]).
Proof.
  intros He.
  change (Fs.insert [r; s] d t)
    with (match Fs.find r t with
          | Some _ => Fs.with_children r (Fs.insert [s] d) t
          | None => t ++ [MkDir r empty_meta (Fs.insert [s] d [])]
          end).
  rewrite He, lookup_cons, find_with_children_same, He. reflexivity.
Qed.

Lemma lookup_two_remove r s n t :
  Fs.lookup [r; n] (Fs.remove [r; s] t)
  = match Fs.find r t with
    | Some e => Fs.find n (Fs.remove_name s (d_children e))
    | None => None
    end.
Proof.
  change (Fs.remove [r; s] t) with (Fs.with_children r (Fs.remove_name s) t).
  rewrite lookup_cons, find_with_children_same.
  destruct (Fs.find r t); reflexivity.
Qed.

Lemma find_root_after_remove_two r s k t :
  Fs.find k (Fs.remove [r; s] t)
  = match Fs.find k t with
    | Some e => Some (if String.eqb r k
                      then MkDir (d_name e) (d_meta e) (Fs.remove_name s (d_children e))
                      else e)
    | None => None
    end.
Proof.
  change (Fs.remove [r; s] t) with (Fs.with_children r (Fs.remove_name s) t).
  destruct (String.eqb_spec r k) as [He|He].
  - subst k. rewrite find_with_children_same. destruct (Fs.find r t); reflexivity.
  - rewrite (find_with_children_other _ _ _ _ He). destruct (Fs.find k t); reflexivity.
Qed.

Lemma d_rename_back s nm dir :
  d_name dir = s -> d_rename s (d_rename nm dir) = dir.
Proof. destruct dir as [n m c]. simpl. intros ->. reflexivity. Qed.

(** The move made by [unified_enable] when the name it restores the
    directory under is free. *)
Lemma unified_enable_moves (E : Env) m packname v d s dir nm :
  is_enabled E m packname (Some v) = Ok false ->
  is_disabled E m packname (Some v) = Ok true ->
  get_inactive_pack E m packname (Some v) = Ok (Some d) ->
  pk_fullpath d = [".disabled"; s] ->
  Fs.lookup [".disabled"; s] (fs m) = Some dir ->
  components (enable_original_name m packname [".disabled"; s]) = [nm] ->
  nm <> ".disabled" ->
  Fs.find nm (fs m) = None ->
  unified_enable E m packname (Some v)
  = (set_fs m (Fs.insert [nm] dir (Fs.remove [".disabled"; s] (fs m))),
     Ok (with_target_path (new_result "enable") [nm])).
Proof.
  intros He Hd Hg Hp Hl Hc Hn Hf.
  unfold unified_enable. rewrite He, Hd, Hg, Hp.
  change (extract_base_custom_nodes_dir [".disabled"; s]) with (@nil string).
  rewrite Hc. simpl app.
  unfold shutil_move. rewrite Hl.
  assert (Hdir : Fs.isdir [nm] (fs m) = false).
  { unfold Fs.isdir, Fs.exists_. simpl. rewrite Hf. reflexivity. }
  rewrite Hdir.
  assert (Hpre : Fs.is_prefix [".disabled"; s] [nm] = false).
  { change (Fs.is_prefix [".disabled"; s] [nm])
      with (String.eqb ".disabled" nm && Fs.is_prefix [s] [])%bool.
    destruct (String.eqb_spec ".disabled" nm); [congruence|reflexivity]. }
  rewrite Hpre. reflexivity.
Qed.

Lemma disable_to_path_slot (E : Env) m packname a n d :
  is_url_like packname = false ->
  pk_fullpath a = [n] ->
  Fs.find n (fs m) = Some d ->
  disable_to_path E m packname a
  = inactive_slot E packname (slot_version d (pk_version a)).
Proof.
  intros Hu Hp Hd.
  rewrite (disable_to_path_root E m packname a _ Hp).
  unfold inactive_slot, normalized_id, disable_folder_name.
  rewrite Hu, (disable_installed_version_slot m a _ _ Hp Hd). reflexivity.
Qed.

Lemma is_enabled_scan_none (E : Env) v l :
  existsb pk_is_enabled l = false -> is_enabled_scan E v l = Ok false.
Proof.
  induction l as [|x l IH]; simpl; [reflexivity|].
  destruct (pk_is_enabled x); simpl; [discriminate|exact IH].
Qed.

Lemma slot_version_rename nm dir cached :
  slot_version (d_rename nm dir) cached = slot_version dir cached.
Proof. destruct dir; reflexivity. Qed.

(** C3 (amended). Take an id that is not URL-like, with a disabled
    instance for the version and no enabled instance, on a freshly
    rebuilt index. If the directory [unified_enable] selects sits in a
    slot [.disabled/<s>], the name it is restored under is a single name
    that is free in the active root, the rescan finds the restored
    directory as the enabled instance [unified_disable] selects, and the
    slot computed for it from the metadata it holds is [.disabled/<s>]
    again (the directory name has not drifted from the metadata), then
    enable followed by disable succeeds and leaves every inactive slot,
    and every directory of the active root, as it was. *)
Theorem enable_then_disable_restores_inactive_set :
  forall (E : Env) (m0 : Manager) (packname v : string)
         (d a : InstalledNodePackage) (s nm : string) (dir : Dir),
    let m := reload E m0 in
    is_url_like packname = false ->
    existsb pk_is_enabled (get_packages_by_name_or_url E m packname) = false ->
    is_disabled E m packname (Some v) = Ok true ->
    get_inactive_pack E m packname (Some v) = Ok (Some d) ->
    pk_fullpath d = [".disabled"; s] ->
    Fs.lookup [".disabled"; s] (fs m) = Some dir ->
    components (enable_original_name m packname [".disabled"; s]) = [nm] ->
    nm <> ".disabled" ->
    Fs.find nm (fs m) = None ->
    let m1 := reload E (fst (unified_enable E m packname (Some v))) in
    snd (disable_scan (get_packages_by_name_or_url E m1 packname)) = Some a ->
    pk_fullpath a = [nm] ->
    inactive_slot E packname (slot_version dir (pk_version a)) = [".disabled"; s] ->
    let m2 := fst (unified_disable E m1 packname) in
    (exists r1 r2,
        snd (unified_enable E m packname (Some v)) = Ok r1 /\ result r1 = true
        /\ snd (unified_disable E m1 packname) = Ok r2 /\ result r2 = true)
    /\ (forall n, Fs.lookup [".disabled"; n] (fs m2) = Fs.lookup [".disabled"; n] (fs m))
    /\ (forall n, n <> ".disabled" -> Fs.find n (fs m2) = Fs.find n (fs m)).
Proof.
  intros E m0 packname v d a s nm dir m Hu Hne Hd Hg Hp Hl Hc Hnm Hfree m1 Hsel Hpa Hslot m2.
  assert (Hen : is_enabled E m packname (Some v) = Ok false)
    by (apply is_enabled_scan_none; exact Hne).
  pose proof (unified_enable_moves E m packname v d s dir nm
                Hen Hd Hg Hp Hl Hc Hnm Hfree) as Hmove.
  set (t := fs m) in *.
  set (t1 := Fs.insert [nm] dir (Fs.remove [".disabled"; s] t)) in *.
  assert (Hfs1 : fs m1 = t1).
  { unfold m1. rewrite fs_reload, Hmove. reflexivity. }
  (* the inactive subtree of the starting tree *)
  rewrite lookup_cons in Hl.
  destruct (Fs.find ".disabled" t) as [e0|] eqn:He0; [|discriminate].
  assert (Hdn : d_name dir = s) by (apply (find_name _ _ _ Hl)).
  (* the tree after enable *)
  assert (Hroot1 : forall k, k <> nm ->
             Fs.find k t1 = Fs.find k (Fs.remove [".disabled"; s] t)).
  { intros k Hk.
    pose proof (lookup_insert_other_root nm [] k [] dir
                  (Fs.remove [".disabled"; s] t) (not_eq_sym Hk)) as H.
    exact H. }
  assert (Hnm1 : Fs.find nm t1 = Some (d_rename nm dir)).
  { unfold t1. change (Fs.insert [nm] dir (Fs.remove [".disabled"; s] t))
      with (Fs.remove [".disabled"; s] t ++ [d_rename nm dir]).
    rewrite find_app, find_root_after_remove_two. fold t in Hfree. rewrite Hfree.
    destruct dir as [dn dm dc]. simpl. rewrite String.eqb_refl. reflexivity. }
  assert (Hslot1 : Fs.lookup [".disabled"; s] t1 = None).
  { assert (Hno : ".disabled" <> nm) by congruence.
    pose proof (lookup_insert_other_root nm [] ".disabled" [s] dir
                  (Fs.remove [".disabled"; s] t) Hnm) as H.
    unfold t1. rewrite H. apply lookup_remove_same. }
  (* disable on the rescanned tree *)
  assert (Hfind1 : Fs.find nm (fs m1) = Some (d_rename nm dir))
    by (rewrite Hfs1; exact Hnm1).
  destruct (unified_disable_moves E m1 packname a nm (d_rename nm dir)
              Hsel Hpa Hnm Hfind1) as [Hdis _].
  rewrite (disable_to_path_slot E m1 packname a nm (d_rename nm dir) Hu Hpa Hfind1)
    in Hdis.
  rewrite slot_version_rename, Hslot, Hfs1 in Hdis.
  unfold Fs.exists_ in Hdis. rewrite Hslot1 in Hdis.
  assert (Hfs2 : fs m2 = Fs.insert [".disabled"; s] (d_rename nm dir) (Fs.remove [nm] t1)).
  { unfold m2. rewrite Hdis. reflexivity. }
  assert (Hd1 : Fs.find ".disabled" (Fs.remove [nm] t1)
                = Some (MkDir (d_name e0) (d_meta e0) (Fs.remove_name s (d_children e0)))).
  { change (Fs.remove [nm] t1) with (Fs.remove_name nm t1).
    rewrite (find_remove_name_other _ _ _ Hnm).
    rewrite (Hroot1 ".disabled" (not_eq_sym Hnm)).
    rewrite find_root_after_remove_two, He0, String.eqb_refl. reflexivity. }
  refine (conj _ (conj _ _)).
  - exists (with_target_path (new_result "enable") [nm]).
    eexists. rewrite Hmove, Hdis. repeat split.
  - intros n. rewrite Hfs2, (lookup_two_insert _ _ _ _ _ _ Hd1).
    cbn [d_children]. rewrite find_app, (d_rename_back _ _ _ Hdn).
    rewrite lookup_cons, He0.
    change (Fs.lookup [n] (d_children e0)) with (Fs.find n (d_children e0)).
    change (Fs.lookup [s] (d_children e0)) with (Fs.find s (d_children e0)) in Hl.
    destruct (String.eqb_spec s n) as [Hsn|Hsn].
    + subst n. rewrite find_remove_name_same. simpl. rewrite Hdn, String.eqb_refl.
      symmetry. exact Hl.
    + rewrite (find_remove_name_other _ _ _ Hsn).
      destruct (Fs.find n (d_children e0)); [reflexivity|].
      simpl. rewrite Hdn. destruct (String.eqb_spec s n); [contradiction|reflexivity].
  - intros n Hn. rewrite Hfs2.
    pose proof (lookup_insert_other_root ".disabled" [s] n [] (d_rename nm dir)
                  (Fs.remove [nm] t1) (not_eq_sym Hn)) as H.
    simpl in H. simpl. rewrite H.
    destruct (String.eqb_spec nm n) as [He|He].
    + subst n. rewrite find_remove_name_same. symmetry. exact Hfree.
    + rewrite (find_remove_name_other _ _ _ He), (Hroot1 n (not_eq_sym He)).
      rewrite find_root_after_remove_two.
      destruct (String.eqb_spec ".disabled" n); [congruence|].
      destruct (Fs.find n t); reflexivity.
Qed.

Lemma enable_then_disable_restores_inactive_set_witness :
  Fs.lookup [".disabled"; "foo@1_0_1"]
    (fs (fst (unified_disable (Demo.env true)
                (reload (Demo.env true)
                   (fst (unified_enable (Demo.env true)
                           (Demo.fresh (Demo.env true) Demo.one_inactive)
                           "foo" (Some "1.0.1"))))
                "foo")))
  = Some (Demo.release "foo@1_0_1" "foo" "1.0.1" "Foo").
Proof.
  assert (Hnm : "Foo" <> ".disabled") by discriminate.
  exact (proj1 (proj2
    (enable_then_disable_restores_inactive_set (Demo.env true)
       (mkManager Demo.one_inactive [] [] []) "foo" "1.0.1"
       (mkPkg "foo" [".disabled"; "foo@1_0_1"] true "1.0.1" None)
       (mkPkg "foo" ["Foo"] false "1.0.1" None)
       "foo@1_0_1" "Foo" (Demo.release "foo@1_0_1" "foo" "1.0.1" "Foo")
       eq_refl eq_refl eq_refl eq_refl eq_refl eq_refl eq_refl Hnm
       eq_refl eq_refl eq_refl eq_refl)) "foo@1_0_1").
Defined.

(** C3 as stated is false: the slot [foo@1_0_1] holds a directory whose
    metadata says 1.0.2; enable then disable puts it back as [foo@1_0_2]. *)
Lemma drifted_slot_is_renamed :
  ~ (forall (E : Env) (m0 : Manager) (packname v : string),
        let m := reload E m0 in
        is_url_like packname = false ->
        existsb pk_is_enabled (get_packages_by_name_or_url E m packname) = false ->
        is_disabled E m packname (Some v) = Ok true ->
        let m1 := reload E (fst (unified_enable E m packname (Some v))) in
        let m2 := fst (unified_disable E m1 packname) in
        forall n, In n (inactive_names (fs m)) -> In n (inactive_names (fs m2))).
Proof.
  intros H.
  specialize (H (Demo.env true) (mkManager Demo.drifted_slot [] [] []) "foo" "1.0.1"
                eq_refl eq_refl eq_refl "foo@1_0_1" (or_introl eq_refl)).
  vm_compute in H. destruct H as [H|[]]. discriminate.
Qed.

(* ------------------------------------------------------------------ *)
(** ** Exits of [install_by_id] *)

(** The exit of [install_by_id] at "the exact target version is already
    enabled". *)
Lemma install_by_id_already_enabled (E : Env) fuel packname v fl m :
  PyStr.contains "comfyui-manager" (PyStr.lower packname) = false ->
  PyStr.contains "@" packname = false ->
  is_url_like packname = false ->
  is_enabled E (reload E m) (normalize_package_name E packname) (Some v) = Ok true ->
  install_by_id E (S fuel) packname (Some v) fl m
  = (reload E m, Ok (with_target_version (new_result "skip") (Some v))).
Proof.
  intros Hm Hat Hu He.
  cbn [install_by_id]. rewrite Hm, Hat. cbn [andb].
  unfold bind at 1. unfold ret at 1. rewrite Hu.
  unfold install_by_id_resolved.
  unfold bind at 1. unfold ret at 1.
  unfold bind at 1. unfold reload_m at 1.
  unfold bind at 1. unfold ask at 1. rewrite He. reflexivity.
Qed.

Lemma install_by_id_ignored (E : Env) fuel packname v fl m m1 r1 :
  install_by_id E (S fuel) packname v fl m = (m1, Ok r1) ->
  result r1 = true ->
  PyStr.contains "comfyui-manager" (PyStr.lower packname) = false.
Proof.
  cbn [install_by_id].
  destruct (PyStr.contains "comfyui-manager" (PyStr.lower packname)); [|reflexivity].
  unfold ret. intros H Hr. inversion H; subst. discriminate.
Qed.

(* ------------------------------------------------------------------ *)
(** ** What a scan finds enabled, and when enable and disable skip *)

Lemma from_fullpath_in_disabled n m rfp :
  pk_disabled (from_fullpath [".disabled"; n] m rfp) = true.
Proof.
  unfold from_fullpath.
  change (parent_folder_name [".disabled"; n]) with ".disabled".
  change (String.eqb ".disabled" ".disabled") with true.
  repeat match goal with
         | |- context [if ?c then _ else _] => destruct c
         | |- context [match ?x with _ => _ end] => destruct x
         end; reflexivity.
Qed.

Lemma scan_disabled_all_disabled (E : Env) t x :
  In x (scan_disabled E t) -> pk_is_enabled x = false.
Proof.
  intros H. apply scan_disabled_in in H. destruct H as [dd [d [_ [_ Hx]]]].
  subst x. unfold pk_is_enabled. rewrite from_fullpath_in_disabled. reflexivity.
Qed.

Lemma lookup_in_scan (E : Env) m0 packname x :
  In x (get_packages_by_name_or_url E (reload E m0) packname) ->
  In x (scan E (fs m0)).
Proof.
  rewrite lookup_split. intros H. apply in_app_or in H.
  destruct H as [H|H].
  - rewrite get_list_reload in H. apply filter_In in H. tauto.
  - destruct (cross_reference E (reload E m0) packname); [|destruct H].
    rewrite get_list_reload in H. apply filter_In in H. tauto.
Qed.

Lemma enabled_in_scan (E : Env) t x :
  In x (scan E t) -> pk_is_enabled x = true ->
  exists n d, pk_fullpath x = [n] /\ n <> ".disabled" /\ Fs.find n t = Some d.
Proof.
  unfold scan. intros H He. apply in_app_or in H. destruct H as [H|H].
  - apply scan_enabled_in in H. destruct H as [d0 [Hin [Hr Hx]]].
    destruct (Fs.find (d_name d0) t) as [d|] eqn:Hf.
    + exists (d_name d0), d. subst x. rewrite from_fullpath_fullpath.
      repeat split; [|exact Hf].
      intros Hn. rewrite Hn in Hr. discriminate.
    + exfalso. apply (find_in _ _ _ Hin eq_refl). exact Hf.
  - rewrite (scan_disabled_all_disabled E t x H) in He. discriminate.
Qed.

Lemma disable_selected_enabled l a :
  snd (disable_scan l) = Some a -> In a l /\ pk_is_enabled a = true.
Proof.
  rewrite disable_scan_spec. simpl. intros H.
  apply find_some in H. destruct H as [Hin He].
  split; [apply in_rev; exact Hin|exact He].
Qed.

Lemma unified_disable_skip (E : Env) m packname :
  snd (disable_scan (get_packages_by_name_or_url E m packname)) = None ->
  fst (unified_disable E m packname) = m.
Proof.
  unfold unified_disable.
  destruct (disable_scan (get_packages_by_name_or_url E m packname)) as [[x|] [a|]];
    simpl; intros H; try discriminate; reflexivity.
Qed.

Lemma resolve_scan_stops (E : Env) l :
  forall acc,
    existsb pk_is_enabled l = true ->
    resolve_scan E true l acc = Ok (inl tt)
    \/ exists e, resolve_scan E true l acc = Raise e.
Proof.
  induction l as [|x l IH]; intros acc H; [discriminate|].
  simpl in H |- *.
  destruct (pk_is_enabled x); simpl; [left; reflexivity|].
  simpl in H.
  destruct (is_from_cnr x).
  - destruct (newer_release E (fst acc) x) as [la|e]; simpl.
    + apply IH. exact H.
    + right. exists e. reflexivity.
  - apply IH. exact H.
Qed.

Lemma is_enabled_scan_any (E : Env) l :
  existsb pk_is_enabled l = true -> is_enabled_scan E None l = Ok true.
Proof.
  induction l as [|x l IH]; simpl; [discriminate|].
  destruct (pk_is_enabled x); simpl; [reflexivity|exact IH].
Qed.

(** [unified_enable] without a version leaves everything as it is when
    an instance of the id is enabled. *)
Lemma enable_unversioned_keeps (E : Env) m packname :
  is_url_like packname = false ->
  existsb pk_is_enabled (get_packages_by_name_or_url E m packname) = true ->
  fst (unified_enable E m packname None) = m.
Proof.
  intros Hu He. unfold unified_enable, resolve_unspecified_version.
  rewrite Hu. simpl opt_str_eqb. cbv iota.
  destruct (resolve_scan_stops E _ (None, None) He) as [Hr|[e Hr]]; rewrite Hr; simpl.
  - unfold is_enabled. rewrite (is_enabled_scan_any E _ He). reflexivity.
  - reflexivity.
Qed.

Lemma lookup_index_only (E : Env) m m' packname :
  installed_node_packages m' = installed_node_packages m ->
  get_packages_by_name_or_url E m' packname = get_packages_by_name_or_url E m packname.
Proof.
  intros H. unfold get_packages_by_name_or_url. rewrite H. reflexivity.
Qed.

(** The active root after the move of [unified_disable], seen from
    another name. *)
Lemma find_after_disable_move n q d t n' :
  n' <> n -> n' <> ".disabled" ->
  Fs.find n' (Fs.insert (".disabled" :: q) d
                (Fs.remove [n]
                   (if Fs.exists_ (".disabled" :: q) t
                    then Fs.remove (".disabled" :: q) t else t)))
  = Fs.find n' t.
Proof.
  intros Hn Hd.
  set (t0 := if Fs.exists_ (".disabled" :: q) t
             then Fs.remove (".disabled" :: q) t else t).
  transitivity (Fs.lookup [n'] (Fs.remove [n] t0)).
  { exact (lookup_insert_other_root ".disabled" q n' [] d (Fs.remove [n] t0)
             (not_eq_sym Hd)). }
  transitivity (Fs.lookup [n'] t0).
  { exact (lookup_remove_other_root n [] n' [] t0 (not_eq_sym Hn)). }
  unfold t0. destruct (Fs.exists_ (".disabled" :: q) t); [|reflexivity].
  exact (lookup_remove_other_root ".disabled" q n' [] t (not_eq_sym Hd)).
Qed.

(* ================================================================== *)
(** * Further properties of the engine *)

(** ** What [reload] files, and where lookups find it *)

Lemma indexed_under_spec (E : Env) k x :
  indexed_under E k x = true
  <-> pk_id x = k
      \/ (is_from_cnr x = true /\ normalize_package_name E (pk_id x) = k).
Proof.
  unfold indexed_under. split.
  - intros H. apply orb_true_iff in H. destruct H as [H|H].
    + left. apply String.eqb_eq. exact H.
    + apply andb_true_iff in H. destruct H as [H Hk].
      apply andb_true_iff in H. destruct H as [Hc _].
      right. split; [exact Hc|apply String.eqb_eq; exact Hk].
  - intros [H|[Hc Hk]].
    + subst k. rewrite String.eqb_refl. reflexivity.
    + rewrite Hc. simpl.
      destruct (String.eqb_spec (pk_id x) k) as [He|He]; [reflexivity|].
      simpl. subst k.
      destruct (String.eqb_spec (normalize_package_name E (pk_id x)) (pk_id x))
        as [Hn|Hn].
      * exfalso. apply He. symmetry. exact Hn.
      * simpl. apply String.eqb_refl.
Qed.

(** The index after [reload] is the tree, nothing more and nothing
    less: a package is filed under a key exactly when it is the
    classification of a directory of the active root other than
    [__pycache__] and [.disabled], or of a directory of [.disabled],
    and the key is its id or, for a Release, its normalized id. What
    the index held before plays no part. *)
Theorem reload_files_the_tree :
  forall (E : Env) (m : Manager) (k : string) (x : InstalledNodePackage),
    In x (Idx.get_list k (installed_node_packages (reload E m)))
    <-> ((exists d, In d (fs m) /\ is_reserved_name (d_name d) = false
                    /\ x = from_fullpath [d_name d] (d_meta d) (resolve_from_path E))
         \/ (exists dd d, Fs.find ".disabled" (fs m) = Some dd /\ In d (d_children dd)
                          /\ x = from_fullpath [".disabled"; d_name d] (d_meta d)
                                   (resolve_from_path E)))
        /\ (pk_id x = k
            \/ (is_from_cnr x = true /\ normalize_package_name E (pk_id x) = k)).
Proof.
  intros E m k x. rewrite get_list_reload, filter_In, indexed_under_spec.
  unfold scan. rewrite in_app_iff, scan_enabled_in, scan_disabled_in.
  reflexivity.
Qed.

Lemma registry_key (E : Env) m packname pack_info r :
  is_url_like packname = false ->
  registry_ignores_spelling E packname ->
  first_repo_url (Idx.get_list packname (installed_node_packages m)) = None ->
  get_nodepack E packname = Some pack_info ->
  pi_repository pack_info = Some r ->
  r <> "" ->
  cross_reference E m packname = Some (compact_url E r).
Proof.
  intros Hu Hr Hf Hg Hp Hne.
  rewrite (cross_reference_of_registry E m packname Hr Hf), Hu, Hg, Hp.
  simpl. destruct (String.eqb_spec r "") as [H|H]; [contradiction|reflexivity].
Qed.

(** A clone of the repository the registry lists for an id is found by
    a lookup of that id: the clone is filed under its compact remote
    URL, and the lookup follows the registry's repository to that key.
    This holds when no direct hit of the id carries a repository URL of
    its own and the registry answers alike for every spelling of the
    id. *)
Theorem clone_is_found_by_registry_id :
  forall (E : Env) (m0 : Manager) (packname : string) (d : Dir)
         (url : string) (pack_info : PackInfo) (r : string),
    let m := reload E m0 in
    In d (fs m0) -> is_reserved_name (d_name d) = false ->
    m_git_url (d_meta d) = Some url -> url <> "" ->
    is_url_like packname = false ->
    registry_ignores_spelling E packname ->
    first_repo_url (Idx.get_list packname (installed_node_packages m)) = None ->
    get_nodepack E packname = Some pack_info ->
    pi_repository pack_info = Some r -> r <> "" ->
    compact_url E r = compact_url E url ->
    let x := from_fullpath [d_name d] (d_meta d) (resolve_from_path E) in
    In x (get_packages_by_name_or_url E m packname)
    /\ pk_id x = compact_url E url
    /\ is_nightly x = true
    /\ pk_repo_url x = Some url.
Proof.
  intros E m0 packname d url pack_info r m Hd Hres Hg Hne Hu Hr Hf Hp Hrepo Hrne Hc x.
  assert (Hrfp : resolve_from_path E (d_meta d)
                 = Some (mkResolveInfo (compact_url E url) "nightly"
                           (Some (m_commit_hash (d_meta d))) None)).
  { unfold resolve_from_path. rewrite Hg. simpl.
    destruct (String.eqb_spec url "") as [H|H]; [contradiction|reflexivity]. }
  assert (Hx : pk_id x = compact_url E url /\ pk_version x = "nightly"
               /\ pk_repo_url x = Some url).
  { unfold x. rewrite from_fullpath_untagged by reflexivity.
    rewrite Hrfp. cbn. rewrite Hg. repeat split; reflexivity. }
  destruct Hx as [Hid [Hv Hurl]].
  refine (conj _ (conj Hid (conj _ Hurl))).
  - rewrite lookup_split.
    rewrite (registry_key E m packname pack_info r Hu Hr Hf Hp Hrepo Hrne).
    apply in_or_app. right. rewrite Hc. unfold m.
    rewrite get_list_reload. apply filter_In. split.
    + unfold scan. apply in_or_app. left. apply scan_enabled_in.
      exists d. repeat split; assumption.
    + apply indexed_under_spec. left. exact Hid.
  - unfold is_nightly. rewrite Hv. reflexivity.
Qed.

Lemma clone_is_found_by_registry_id_witness :
  In (mkPkg "owner/Foo" ["Foo"] false "nightly" (Some "owner/Foo"))
     (get_packages_by_name_or_url (Demo.env true)
        (Demo.fresh (Demo.env true) [Demo.nightly "Foo"]) "foo").
Proof.
  destruct (clone_is_found_by_registry_id (Demo.env true)
              (mkManager [Demo.nightly "Foo"] [] [] []) "foo" (Demo.nightly "Foo")
              "owner/Foo" (mkPackInfo "foo" (Some "owner/Foo") (Some "1.0.2"))
              "owner/Foo") as [H _]; try reflexivity; try discriminate.
  - left. reflexivity.
  - intros x Hx. cbn [get_nodepack Demo.env Demo.env_with normalize_package_name] in *.
    unfold Demo.registry. rewrite Hx. reflexivity.
  - exact H.
Defined.

(** ** The inactive instance a version selects *)

Lemma get_inactive_scan_sound (E : Env) v packs :
  forall c r,
    get_inactive_scan E v packs c = Ok r ->
    match r with
    | inl x => In x packs /\ pk_is_disabled x = true
               /\ exists s, v = Some s /\ pk_version x = s
    | inr c' =>
        (forall y s, In y packs -> pk_is_disabled y = true -> v = Some s ->
                     pk_version y <> s)
        /\ (forall f : Candidates -> option InstalledNodePackage,
              f = latest_pack \/ f = nightly_pack \/ f = unknown_pack ->
              forall x, f c' = Some x ->
                        f c = Some x \/ (In x packs /\ pk_is_disabled x = true))
    end.
Proof.
  induction packs as [|x packs IH]; intros c r H.
  - simpl in H. inversion H; subst. split.
    + intros y s [].
    + intros f _ y Hy. left. exact Hy.
  - simpl in H.
    assert (Hext : forall c0 r0,
               get_inactive_scan E v packs c0 = Ok r0 ->
               (forall s, pk_is_disabled x = true -> v = Some s -> pk_version x <> s) ->
               (forall f : Candidates -> option InstalledNodePackage,
                   f = latest_pack \/ f = nightly_pack \/ f = unknown_pack ->
                   forall z, f c0 = Some z ->
                             f c = Some z \/ (z = x /\ pk_is_disabled x = true)) ->
               match r0 with
               | inl z => In z (x :: packs) /\ pk_is_disabled z = true
                          /\ exists s, v = Some s /\ pk_version z = s
               | inr c' =>
                   (forall y s, In y (x :: packs) -> pk_is_disabled y = true ->
                                v = Some s -> pk_version y <> s)
                   /\ (forall f : Candidates -> option InstalledNodePackage,
                         f = latest_pack \/ f = nightly_pack \/ f = unknown_pack ->
                         forall z, f c' = Some z ->
                                   f c = Some z
                                   \/ (In z (x :: packs) /\ pk_is_disabled z = true))
               end).
    { intros c0 r0 H0 Hx Hc0. specialize (IH c0 r0 H0). destruct r0 as [z|c'].
      - destruct IH as [Hin Hrest]. split; [right; exact Hin|exact Hrest].
      - destruct IH as [Hno Hcand]. split.
        + intros y s [Hy|Hy] Hd Hv; [subst y; apply Hx; assumption|].
          apply (Hno y s Hy Hd Hv).
        + intros f Hf z Hz. destruct (Hcand f Hf z Hz) as [Hz0|[Hin Hd]].
          * destruct (Hc0 f Hf z Hz0) as [Hc|[He Hd]]; [left; exact Hc|].
            right. subst z. split; [left; reflexivity|exact Hd].
          * right. split; [right; exact Hin|exact Hd]. }
    destruct (pk_is_disabled x) eqn:Hd.
    2:{ apply (Hext c r H); [discriminate|]. intros f _ z Hz. left. exact Hz. }
    destruct (is_unknown x) eqn:Hun.
    { destruct (opt_str_eqb "unknown" v) eqn:Hv.
      - inversion H; subst. split; [left; reflexivity|]. split; [exact Hd|].
        destruct v as [s|]; [|discriminate]. exists s. split; [reflexivity|].
        unfold opt_str_eqb in Hv. apply String.eqb_eq in Hv. subst s.
        apply String.eqb_eq. exact Hun.
      - apply (Hext _ r H).
        + intros s _ Hs Hx. subst v s. unfold opt_str_eqb in Hv.
          unfold is_unknown in Hun. apply String.eqb_eq in Hun. rewrite Hun in Hv.
          discriminate.
        + intros f [Hf|[Hf|Hf]] z Hz; subst f; simpl in Hz.
          * left. exact Hz.
          * left. exact Hz.
          * right. inversion Hz; subst. split; reflexivity. }
    destruct (is_nightly x) eqn:Hni.
    { destruct (opt_str_eqb "nightly" v) eqn:Hv.
      - inversion H; subst. split; [left; reflexivity|]. split; [exact Hd|].
        destruct v as [s|]; [|discriminate]. exists s. split; [reflexivity|].
        unfold opt_str_eqb in Hv. apply String.eqb_eq in Hv. subst s.
        apply String.eqb_eq. exact Hni.
      - apply (Hext _ r H).
        + intros s _ Hs Hx. subst v s. unfold opt_str_eqb in Hv.
          unfold is_nightly in Hni. apply String.eqb_eq in Hni. rewrite Hni in Hv.
          discriminate.
        + intros f [Hf|[Hf|Hf]] z Hz; subst f; simpl in Hz.
          * left. exact Hz.
          * right. inversion Hz; subst. split; reflexivity.
          * left. exact Hz. }
    assert (Hcnr : is_from_cnr x = true) by (unfold is_from_cnr; rewrite Hun, Hni; reflexivity).
    rewrite Hcnr in H.
    destruct (opt_str_eqb (pk_version x) v) eqn:Hv.
    { inversion H; subst. split; [left; reflexivity|]. split; [exact Hd|].
      destruct v as [s|]; [|discriminate]. exists s. split; [reflexivity|].
      unfold opt_str_eqb in Hv. apply String.eqb_eq in Hv. exact Hv. }
    destruct (newer_release E (latest_pack c) x) as [l|e] eqn:Hl; simpl in H;
      [|discriminate].
    apply (Hext _ r H).
    + intros s _ Hs Hx. subst v. unfold opt_str_eqb in Hv. rewrite Hx, String.eqb_refl in Hv.
      discriminate.
    + intros f [Hf|[Hf|Hf]] z Hz; subst f; simpl in Hz.
      * unfold newer_release in Hl. destruct (latest_pack c) as [l0|].
        -- destruct (sv_lt E (pk_version l0) (pk_version x)) as [b|e]; simpl in Hl;
             [|discriminate].
           injection Hl as Hl. rewrite <- Hl in Hz. destruct b.
           ++ right. injection Hz as Hz. subst z. split; reflexivity.
           ++ left. exact Hz.
        -- injection Hl as Hl. rewrite <- Hl in Hz. right.
           injection Hz as Hz. subst z. split; reflexivity.
      * left. exact Hz.
      * left. exact Hz.
Qed.

(** Without a disabled instance of the version asked for, the scan of
    [get_inactive_pack] goes as it does when no version is asked. *)
Lemma get_inactive_scan_fallback (E : Env) s packs :
  forall c,
    (forall y, In y packs -> pk_is_disabled y = true -> pk_version y <> s) ->
    get_inactive_scan E (Some s) packs c = get_inactive_scan E None packs c.
Proof.
  induction packs as [|x packs IH]; intros c Hno; [reflexivity|].
  assert (Hrest : forall c0, get_inactive_scan E (Some s) packs c0
                             = get_inactive_scan E None packs c0).
  { intros c0. apply IH. intros y Hy. apply Hno. right. exact Hy. }
  cbn [get_inactive_scan opt_str_eqb].
  destruct (pk_is_disabled x) eqn:Hd; [|apply Hrest].
  assert (Hx : String.eqb (pk_version x) s = false).
  { apply String.eqb_neq. apply Hno; [left; reflexivity|exact Hd]. }
  destruct (is_unknown x) eqn:Hun.
  { unfold is_unknown in Hun. apply String.eqb_eq in Hun. rewrite Hun in Hx.
    rewrite Hx. apply Hrest. }
  destruct (is_nightly x) eqn:Hni.
  { unfold is_nightly in Hni. apply String.eqb_eq in Hni. rewrite Hni in Hx.
    rewrite Hx. apply Hrest. }
  destruct (is_from_cnr x); [|apply Hrest].
  rewrite Hx.
  destruct (newer_release E (latest_pack c) x) as [l|e]; simpl; [apply Hrest|reflexivity].
Qed.

(** What [get_inactive_pack] returns is a disabled instance the lookup
    found. Asked for a version that a disabled instance has, it returns
    an instance of that version; asked for a version (other than
    'latest') that no disabled instance has, it does not fail but
    answers as if no version had been asked: the highest disabled
    Release, else a Nightly, else an Unknown. *)
Theorem inactive_pack_exact_or_fallback :
  forall (E : Env) (m : Manager) (packname : string) (v : option string),
    let found := get_packages_by_name_or_url E m packname in
    (forall x, get_inactive_pack E m packname v = Ok (Some x) ->
       In x found /\ pk_is_disabled x = true
       /\ forall s, v = Some s ->
            (exists y, In y found /\ pk_is_disabled y = true /\ pk_version y = s) ->
            pk_version x = s)
    /\ (forall s, v = Some s -> s <> "latest" ->
          (forall y, In y found -> pk_is_disabled y = true -> pk_version y <> s) ->
          get_inactive_pack E m packname v = get_inactive_pack E m packname None).
Proof.
  intros E m packname v found. split.
  - intros x H. unfold get_inactive_pack in H. fold found in H.
    destruct (get_inactive_scan E v found (mkCandidates None None None)) as [r|e] eqn:Hs;
      simpl in H; [|discriminate].
    pose proof (get_inactive_scan_sound E v found _ _ Hs) as Hsound.
    destruct r as [z|c'].
    + inversion H; subst z. destruct Hsound as [Hin [Hd [s [Hv Hver]]]].
      refine (conj Hin (conj Hd _)). intros s' Hs' _. congruence.
    + destruct Hsound as [Hno Hcand].
      assert (Hmem : forall f : Candidates -> option InstalledNodePackage,
                 f = latest_pack \/ f = nightly_pack \/ f = unknown_pack ->
                 f c' = Some x -> In x found /\ pk_is_disabled x = true).
      { intros f Hf Hx. destruct (Hcand f Hf x Hx) as [Hc|Hc]; [|exact Hc].
        destruct Hf as [Hf|[Hf|Hf]]; subst f; discriminate Hc. }
      assert (Hx : In x found /\ pk_is_disabled x = true).
      { destruct (opt_str_eqb "latest" v).
        - inversion H as [H1]. apply (Hmem latest_pack); [left; reflexivity|exact H1].
        - destruct (latest_pack c') as [l|] eqn:Hl.
          + inversion H; subst l. apply (Hmem latest_pack); [left; reflexivity|exact Hl].
          + destruct (nightly_pack c') as [n|] eqn:Hn.
            * inversion H; subst n.
              apply (Hmem nightly_pack); [right; left; reflexivity|exact Hn].
            * inversion H as [H1].
              apply (Hmem unknown_pack); [right; right; reflexivity|exact H1]. }
      destruct Hx as [Hin Hd]. refine (conj Hin (conj Hd _)).
      intros s Hv [y [Hy [Hyd Hyv]]]. exfalso. apply (Hno y s Hy Hyd Hv Hyv).
  - intros s Hv Hl Hno. subst v. unfold get_inactive_pack. fold found.
    rewrite (get_inactive_scan_fallback E s found _ Hno).
    destruct (get_inactive_scan E None found (mkCandidates None None None)) as [r|e];
      cbn [rbind opt_str_eqb]; [|reflexivity].
    destruct r as [z|c']; [reflexivity|].
    destruct (String.eqb_spec "latest" s) as [He|He]; [|reflexivity].
    exfalso. apply Hl. symmetry. exact He.
Qed.

Lemma inactive_pack_exact_or_fallback_witness :
  get_inactive_pack (Demo.env true) (Demo.fresh (Demo.env true) Demo.three_inactive)
                    "foo" (Some "9.9.9")
  = Ok (Some (mkPkg "foo" [".disabled"; "foo@1_0_2"] true "1.0.2" None)).
Proof.
  destruct (inactive_pack_exact_or_fallback (Demo.env true)
              (Demo.fresh (Demo.env true) Demo.three_inactive) "foo" (Some "9.9.9"))
    as [_ H].
  rewrite (H "9.9.9" eq_refl).
  - vm_compute. reflexivity.
  - discriminate.
  - intros y Hy _. vm_compute in Hy.
    destruct Hy as [Hy|[Hy|[Hy|[]]]]; subst y; discriminate.
Defined.

(** ** What enable and disable change *)

Lemma unified_enable_effect (E : Env) m packname v m' out :
  unified_enable E m packname v = (m', out) ->
  m' = m
  \/ exists x t,
       let dst := extract_base_custom_nodes_dir (pk_fullpath x)
                    ++ components (enable_original_name m packname (pk_fullpath x)) in
       out = Ok (with_target_path (new_result "enable") dst)
       /\ In x (get_packages_by_name_or_url E m packname)
       /\ pk_is_disabled x = true
       /\ shutil_move (pk_fullpath x) dst (fs m) = Ok t
       /\ m' = set_fs m t.
Proof.
  unfold unified_enable. intros H.
  destruct (match v with
            | Some v0 => Ok (Some v0)
            | None => resolve_unspecified_version E m packname (Some "inactive")
            end) as [v'|e]; [|inversion H; left; reflexivity].
  destruct (is_enabled E m packname v') as [[|]|e];
    try (inversion H; left; reflexivity).
  destruct (is_disabled E m packname v') as [[|]|e];
    try (inversion H; left; reflexivity).
  destruct (get_inactive_pack E m packname v') as [[x|]|e] eqn:Hg.
  - destruct (shutil_move _ _ (fs m)) as [t|e] eqn:Hm.
    + right. exists x, t. inversion H; subst.
      pose proof (get_inactive_scan_sound E v' (get_packages_by_name_or_url E m packname)
                    (mkCandidates None None None)) as Hs.
      unfold get_inactive_pack in Hg.
      destruct (get_inactive_scan E v' _ _) as [r|e]; simpl in Hg; [|discriminate].
      specialize (Hs r eq_refl).
      assert (Hx : In x (get_packages_by_name_or_url E m packname)
                   /\ pk_is_disabled x = true).
      { destruct r as [z|c'].
        - inversion Hg; subst z. destruct Hs as [Hin [Hd _]]. split; assumption.
        - destruct Hs as [_ Hc].
          assert (Hmem : forall f : Candidates -> option InstalledNodePackage,
                     f = latest_pack \/ f = nightly_pack \/ f = unknown_pack ->
                     f c' = Some x ->
                     In x (get_packages_by_name_or_url E m packname)
                     /\ pk_is_disabled x = true).
          { intros f Hf Hx. destruct (Hc f Hf x Hx) as [H0|H0]; [|exact H0].
            destruct Hf as [Hf|[Hf|Hf]]; subst f; discriminate H0. }
          destruct (opt_str_eqb "latest" v').
          + inversion Hg as [H1]. apply (Hmem latest_pack); [left; reflexivity|exact H1].
          + destruct (latest_pack c') as [l|] eqn:Hl.
            * inversion Hg; subst l.
              apply (Hmem latest_pack); [left; reflexivity|exact Hl].
            * destruct (nightly_pack c') as [n|] eqn:Hn.
              -- inversion Hg; subst n.
                 apply (Hmem nightly_pack); [right; left; reflexivity|exact Hn].
              -- inversion Hg as [H1].
                 apply (Hmem unknown_pack); [right; right; reflexivity|exact H1]. }
      destruct Hx as [Hin Hd].
      cbv zeta. repeat split; assumption.
    + inversion H. left. reflexivity.
  - destruct v'; inversion H; left; reflexivity.
  - inversion H. left. reflexivity.
Qed.

(** [unified_enable] changes the tree by one move at most: whenever it
    returns anything but a successful 'enable' result, or raises,
    nothing has changed; a successful 'enable' reports as its target
    path the destination of the move of one disabled instance the
    lookup found. The index is never touched. *)
Theorem enable_is_one_move_or_nothing :
  forall (E : Env) (m m' : Manager) (packname : string) (v : option string)
         (out : res ManagedResult),
    unified_enable E m packname v = (m', out) ->
    installed_node_packages m' = installed_node_packages m
    /\ (m' = m
        \/ exists x dst r,
             out = Ok r /\ action r = "enable" /\ result r = true
             /\ target_path r = Some dst
             /\ In x (get_packages_by_name_or_url E m packname)
             /\ pk_is_disabled x = true
             /\ shutil_move (pk_fullpath x) dst (fs m) = Ok (fs m')).
Proof.
  intros E m m' packname v out H.
  destruct (unified_enable_effect E m packname v m' out H) as [Hm|[x [t Hx]]].
  - subst m'. split; [reflexivity|left; reflexivity].
  - cbv zeta in Hx. destruct Hx as [Ho [Hin [Hd [Hmv Hm]]]]. subst m'. split.
    + reflexivity.
    + right. eexists x, _, _. split; [exact Ho|].
      repeat split; try assumption.
Qed.

Lemma enable_is_one_move_or_nothing_witness :
  exists m',
    unified_enable (Demo.env true) (Demo.fresh (Demo.env true) Demo.one_inactive)
                   "foo" (Some "1.0.1")
    = (m', Ok (with_target_path (new_result "enable") ["Foo"]))
    /\ installed_node_packages m'
       = installed_node_packages (Demo.fresh (Demo.env true) Demo.one_inactive).
Proof.
  eexists. split; [vm_compute; reflexivity|].
  apply (enable_is_one_move_or_nothing (Demo.env true)
           (Demo.fresh (Demo.env true) Demo.one_inactive) _ "foo" (Some "1.0.1")
           (Ok (with_target_path (new_result "enable") ["Foo"]))).
  vm_compute. reflexivity.
Defined.

Lemma unified_disable_index (E : Env) m packname :
  installed_node_packages (fst (unified_disable E m packname))
  = installed_node_packages m.
Proof.
  unfold unified_disable.
  destruct (disable_scan _) as [[x|] [a|]]; try reflexivity.
  destruct (shutil_move _ _ _); reflexivity.
Qed.

Lemma unified_uninstall_index (E : Env) m packname :
  installed_node_packages (fst (unified_uninstall E m packname))
  = installed_node_packages m.
Proof.
  rewrite after_uninstall. apply try_rmtree_all_index.
Qed.

Lemma unified_enable_index (E : Env) m packname v :
  installed_node_packages (fst (unified_enable E m packname v))
  = installed_node_packages m.
Proof.
  destruct (unified_enable E m packname v) as [m' out] eqn:H.
  destruct (unified_enable_effect E m packname v m' out H) as [Hm|[x [t Hx]]].
  - subst m'. reflexivity.
  - cbv zeta in Hx. destruct Hx as [_ [_ [_ [_ Hm]]]]. subst m'. reflexivity.
Qed.

(** None of enable, disable and uninstall updates the index: until the
    next [reload] every query answers from the scan made before the
    operation, so that an id still counts as enabled right after its
    directory was moved away or removed. *)
Theorem index_is_stale_until_reload :
  forall (E : Env) (m : Manager) (packname : string) (v : option string)
         (m' : Manager),
    m' = fst (unified_enable E m packname v)
    \/ m' = fst (unified_disable E m packname)
    \/ m' = fst (unified_uninstall E m packname) ->
    installed_node_packages m' = installed_node_packages m
    /\ forall (q : string) (w : option string),
         get_packages_by_name_or_url E m' q = get_packages_by_name_or_url E m q
         /\ get_active_pack E m' q = get_active_pack E m q
         /\ is_enabled E m' q w = is_enabled E m q w
         /\ is_disabled E m' q w = is_disabled E m q w.
Proof.
  intros E m packname v m' H.
  assert (Hi : installed_node_packages m' = installed_node_packages m).
  { destruct H as [H|[H|H]]; subst m'.
    - apply unified_enable_index.
    - apply unified_disable_index.
    - apply unified_uninstall_index. }
  split; [exact Hi|]. intros q w.
  pose proof (lookup_index_only E m m' q Hi) as Hl.
  unfold get_active_pack, is_enabled, is_disabled. rewrite Hl.
  repeat split; reflexivity.
Qed.

Lemma index_is_stale_until_reload_witness :
  is_enabled (Demo.env true)
    (fst (unified_disable (Demo.env true)
            (Demo.fresh (Demo.env true) Demo.three_variants) "foo")) "foo" None
  = Ok true
  /\ Fs.lookup ["Foo"]
       (fs (fst (unified_disable (Demo.env true)
                   (Demo.fresh (Demo.env true) Demo.three_variants) "foo"))) = None.
Proof.
  split; [|vm_compute; reflexivity].
  destruct (index_is_stale_until_reload (Demo.env true)
              (Demo.fresh (Demo.env true) Demo.three_variants) "foo" None
              (fst (unified_disable (Demo.env true)
                      (Demo.fresh (Demo.env true) Demo.three_variants) "foo")))
    as [_ H].
  - right. left. reflexivity.
  - destruct (H "foo" None) as [_ [_ [He _]]]. rewrite He. vm_compute. reflexivity.
Defined.

(** When the directory of the enabled instance the index holds is no
    longer on disk, [unified_disable] raises [FileNotFoundError] out of
    [shutil.move], after it has removed whatever directory was in the
    slot it computed from the cached version. *)
Theorem disable_of_vanished_directory :
  forall (E : Env) (m : Manager) (packname : string) (a : InstalledNodePackage),
    snd (disable_scan (get_packages_by_name_or_url E m packname)) = Some a ->
    Fs.lookup (pk_fullpath a) (fs m) = None ->
    let dst := disable_to_path E m packname a in
    exists m',
      unified_disable E m packname = (m', Raise FileNotFoundError)
      /\ fs m' = (if Fs.exists_ dst (fs m) then Fs.remove dst (fs m) else fs m)
      /\ Fs.lookup dst (fs m') = None
      /\ dst = extract_base_custom_nodes_dir (pk_fullpath a) ++ [".disabled"]
                 ++ components (disable_folder_name E packname a ++ "@"
                                  ++ PyStr.replace "." "_" (pk_version a))%string.
Proof.
  intros E m packname a Hs Hgone dst.
  destruct (disable_scan_selected _ _ Hs) as [x Hx].
  unfold unified_disable. rewrite Hx. fold dst.
  set (t0 := if Fs.exists_ dst (fs m) then Fs.remove dst (fs m) else fs m).
  assert (Hsrc : Fs.lookup (pk_fullpath a) t0 = None).
  { unfold t0. destruct (Fs.exists_ dst (fs m)); [|exact Hgone].
    apply lookup_remove_none. exact Hgone. }
  unfold shutil_move. rewrite Hsrc.
  exists (set_fs m t0). refine (conj eq_refl (conj eq_refl (conj _ _))).
  - simpl. unfold t0. destruct (Fs.exists_ dst (fs m)) eqn:He.
    + apply lookup_remove_same.
    + unfold Fs.exists_ in He. destruct (Fs.lookup dst (fs m)); [discriminate|reflexivity].
  - unfold dst, disable_to_path, disable_installed_version, get_installed_version.
    rewrite Hgone. reflexivity.
Qed.

Lemma disable_of_vanished_directory_witness :
  exists m',
    unified_disable (Demo.env true)
      (mkManager [Demo.disabled_dir [Demo.release "foo@1_0_0" "foo" "1.0.0" "Foo"]]
         (installed_node_packages
            (Demo.fresh (Demo.env true) [Demo.release "Foo" "foo" "1.0.0" "Foo"]))
         [] []) "foo"
    = (m', Raise FileNotFoundError)
    /\ fs m' = [Demo.disabled_dir []].
Proof.
  destruct (disable_of_vanished_directory (Demo.env true)
              (mkManager [Demo.disabled_dir [Demo.release "foo@1_0_0" "foo" "1.0.0" "Foo"]]
                 (installed_node_packages
                    (Demo.fresh (Demo.env true) [Demo.release "Foo" "foo" "1.0.0" "Foo"]))
                 [] []) "foo" (mkPkg "foo" ["Foo"] false "1.0.0" None))
    as [m' [Hr [Hf _]]]; [vm_compute; reflexivity | reflexivity |].
  exists m'. split; [exact Hr|]. rewrite Hf. vm_compute. reflexivity.
Defined.

(** ** Enable of an id without any instance *)

(** An id the lookup finds nothing for counts as disabled ([is_disabled]
    without a version only asks that nothing be enabled). Enabling it
    changes nothing: without a version the answer is a failed 'enable'
    result 'Specified inactive nodepack not exists' for a plain id, and
    the skip 'Not installed' for a URL-like one; with a version it is
    the skip 'Not installed'. *)
Theorem enable_of_absent_id :
  forall (E : Env) (m : Manager) (packname : string),
    get_packages_by_name_or_url E m packname = [] ->
    is_disabled E m packname None = Ok true
    /\ unified_enable E m packname None
       = (m, Ok (if is_url_like packname
                 then with_msg (new_result "skip") "Not installed"
                 else fail (new_result "enable")
                        ("Specified inactive nodepack not exists: " ++ packname)%string))
    /\ forall v, unified_enable E m packname (Some v)
                 = (m, Ok (with_msg (new_result "skip") "Not installed")).
Proof.
  intros E m packname H.
  refine (conj _ (conj _ _)).
  - unfold is_disabled. rewrite H. reflexivity.
  - unfold unified_enable, resolve_unspecified_version.
    destruct (is_url_like packname).
    + unfold is_enabled, is_disabled. rewrite H. reflexivity.
    + cbn [opt_str_eqb]. change (String.eqb "active" "inactive") with false.
      cbv iota. rewrite H. cbn [resolve_scan rbind].
      unfold is_enabled, is_disabled, get_inactive_pack. rewrite H. reflexivity.
  - intros v. unfold unified_enable, is_enabled, is_disabled. rewrite H. reflexivity.
Qed.

Lemma enable_of_absent_id_witness :
  unified_enable (Demo.env true) (Demo.fresh (Demo.env true) Demo.one_inactive)
                 "bar" None
  = (Demo.fresh (Demo.env true) Demo.one_inactive,
     Ok (fail (new_result "enable") "Specified inactive nodepack not exists: bar")).
Proof.
  destruct (enable_of_absent_id (Demo.env true)
              (Demo.fresh (Demo.env true) Demo.one_inactive) "bar")
    as [_ [H _]]; [vm_compute; reflexivity|].
  exact H.
Defined.

(** ** Failures of [cnr_install] *)

(** [cnr_install] refuses, without touching anything, a name that
    contains 'comfyui-manager' in any casing, a pack the registry has no
    download for, and an install path that already exists: the result
    is a failed 'install-cnr' with no target path. *)
Theorem cnr_install_refuses_without_change :
  forall (E : Env) (packname : string) (version_spec : option string)
         (fl : Flags) (m : Manager),
    PyStr.contains "comfyui-manager" (PyStr.lower packname) = true
    \/ node_info_available (install_node E packname version_spec) = None
    \/ Fs.isdir (components packname) (fs m) = true ->
    exists r,
      cnr_install E packname version_spec fl m = (m, Ok r)
      /\ action r = "install-cnr" /\ result r = false
      /\ target_path r = None /\ to_path r = None /\ postinstall r = None.
Proof.
  intros E packname v fl m H. unfold cnr_install.
  destruct (PyStr.contains "comfyui-manager" (PyStr.lower packname)).
  { eexists. split; [reflexivity|]. repeat split. }
  destruct (node_info_available (install_node E packname v)) as [[ni url]|].
  2:{ eexists. split; [reflexivity|]. repeat split. }
  destruct H as [H|[H|H]]; try discriminate.
  unfold bind at 1. unfold ask_pure at 1. rewrite H.
  eexists. split; [reflexivity|]. repeat split.
Qed.

Lemma cnr_install_refuses_without_change_witness :
  exists r,
    cnr_install (Demo.env true) "Foo" (Some "1.0.2") (Demo.flags false)
                (Demo.fresh (Demo.env true) [Demo.plain "Foo"])
    = (Demo.fresh (Demo.env true) [Demo.plain "Foo"], Ok r)
    /\ result r = false.
Proof.
  destruct (cnr_install_refuses_without_change (Demo.env true) "Foo" (Some "1.0.2")
              (Demo.flags false) (Demo.fresh (Demo.env true) [Demo.plain "Foo"]))
    as [r [Hr [_ [Hf _]]]]; [right; right; vm_compute; reflexivity|].
  exists r. split; assumption.
Defined.

Lemma cnr_install_after_download (E : Env) packname v fl m ni url :
  PyStr.contains "comfyui-manager" (PyStr.lower packname) = false ->
  node_info_available (install_node E packname v) = Some (ni, url) ->
  Fs.isdir (components packname) (fs m) = false ->
  cnr_install E packname v fl m
  = let install_path := components packname in
    let extraction :=
      extract_archive E url install_path
        (Fs.insert install_path (MkDir "" empty_meta []) (fs m)) in
    if snd extraction
    then finish_with_postinstall E fl
           (with_target_path
              (with_target_version (with_to_path (new_result "install-cnr") install_path) v)
              install_path)
           (mkPostinstall packname (Some install_path)
                          (instant_execution fl) (no_deps fl))
           ("Failed to execute install script: " ++ packname ++ "@" ++ opt_show v)%string
           (set_fs m (fst extraction))
    else match rmtree E install_path (fst extraction) with
         | Ok t =>
             (set_fs m t,
              Ok (fail (with_to_path (new_result "install-cnr") install_path)
                    ("Empty archive file: " ++ packname ++ "@" ++ opt_show v)%string))
         | Raise e => (set_fs m (fst extraction), Raise e)
         end.
Proof.
  intros Hm Hn He. unfold cnr_install. rewrite Hm, Hn.
  unfold bind at 1. unfold ask_pure at 1. rewrite He.
  unfold bind at 1. unfold update_fs at 1. cbv zeta.
  destruct (extract_archive E url (components packname) _) as [t ok].
  cbn [fst snd]. destruct ok; cbn [negb]; [reflexivity|].
  unfold bind, rmtree_m. cbn [fs set_fs].
  destruct (rmtree E (components packname) t); reflexivity.
Qed.

(** Once [cnr_install] has downloaded, the tree it leaves is the one the
    extraction produced. With the dependency step deferred
    ([return_postinstall]) the result is successful; otherwise the step
    runs and its answer is the result flag, and an exception of the step
    leaves [cnr_install]: in each case the extracted directory stays
    where it was placed. An empty archive makes [cnr_install] remove the
    install path again and fail; an exception of that removal leaves
    [cnr_install] too. *)
Theorem cnr_install_keeps_what_it_extracted :
  forall (E : Env) (packname : string) (version_spec : option string)
         (fl : Flags) (m : Manager) (node_info : NodeInfo) (url : string),
    PyStr.contains "comfyui-manager" (PyStr.lower packname) = false ->
    node_info_available (install_node E packname version_spec)
    = Some (node_info, url) ->
    Fs.isdir (components packname) (fs m) = false ->
    let install_path := components packname in
    let extraction :=
      extract_archive E url install_path
        (Fs.insert install_path (MkDir "" empty_meta []) (fs m)) in
    let run := cnr_install E packname version_spec fl m in
    if snd extraction
    then fst run = set_fs m (fst extraction)
         /\ match (if return_postinstall fl then Ok true
                   else execute_install_script E packname install_path
                          (instant_execution fl) (no_deps fl)) with
            | Ok ok =>
                exists r, snd run = Ok r
                          /\ result r = ok
                          /\ to_path r = Some install_path
                          /\ target_path r = Some install_path
                          /\ target_version r = version_spec
            | Raise e => snd run = Raise e
            end
    else match rmtree E install_path (fst extraction) with
         | Ok t =>
             exists r, run = (set_fs m t, Ok r)
                       /\ result r = false
                       /\ to_path r = Some install_path
                       /\ Fs.lookup install_path t = None
         | Raise e => run = (set_fs m (fst extraction), Raise e)
         end.
Proof.
  intros E packname v fl m ni url Hm Hn He install_path extraction run.
  unfold run. rewrite (cnr_install_after_download E packname v fl m ni url Hm Hn He).
  subst install_path extraction. cbv zeta.
  destruct (extract_archive E url (components packname) _) as [t ok].
  cbn [fst snd]. destruct ok.
  - unfold finish_with_postinstall. destruct (return_postinstall fl).
    + split; [reflexivity|]. eexists. split; [reflexivity|]. repeat split.
    + unfold bind, ask, run_postinstall. cbn [po_path po_url po_instant_execution po_no_deps].
      destruct (execute_install_script E packname (components packname)
                  (instant_execution fl) (no_deps fl)) as [[|]|e];
        cbn [negb]; (split; [reflexivity|]);
        try (eexists; split; [reflexivity|]; repeat split).
      reflexivity.
  - destruct (rmtree_cases E (components packname) t) as [[_ [_ Ho]]|[[_ [_ Ho]]|[_ Ho]]];
      rewrite Ho; try reflexivity.
    eexists. split; [reflexivity|]. repeat split. apply lookup_remove_same.
Qed.

Lemma cnr_install_keeps_what_it_extracted_witness :
  cnr_install (Demo.env_with (Raise CalledProcessError) (fun _ _ => false))
              "Foo" (Some "1.0.2") (Demo.flags false)
              (Demo.fresh (Demo.env true) [])
  = (set_fs (Demo.fresh (Demo.env true) []) [Demo.release "Foo" "foo" "1.0.2" "Foo"],
     Raise CalledProcessError).
Proof.
  pose proof (cnr_install_keeps_what_it_extracted
                (Demo.env_with (Raise CalledProcessError) (fun _ _ => false))
                "Foo" (Some "1.0.2") (Demo.flags false) (Demo.fresh (Demo.env true) [])
                (mkNodeInfo "1.0.2" (Some "https://registry/foo.zip"))
                "https://registry/foo.zip" eq_refl eq_refl eq_refl) as H.
  cbv zeta in H.
  cbn [snd fst Demo.env_with extract_archive Demo.extract return_postinstall Demo.flags
       execute_install_script] in H.
  destruct H as [Hf Hr].
  rewrite (surjective_pairing (cnr_install _ _ _ _ _)), Hf, Hr. reflexivity.
Defined.

(** ** [install_by_id]: refusals and the depth of its recursion *)

(** [install_by_id] refuses without touching anything: a name that
    contains 'comfyui-manager' in any casing (a failed result of action
    'skip'), and a URL the registry does not know while the security
    level is not 'weak'. *)
Theorem install_by_id_refuses_without_change :
  forall (E : Env) (fuel : nat) (packname : string) (version_spec : option string)
         (fl : Flags) (m : Manager),
    PyStr.contains "comfyui-manager" (PyStr.lower packname) = true
    \/ (is_url_like packname = true
        /\ get_nodepack_by_url E (compact_url E packname) = None
        /\ security_level E <> "weak") ->
    exists r,
      install_by_id E (S fuel) packname version_spec fl m = (m, Ok r)
      /\ result r = false
      /\ action r = (if PyStr.contains "comfyui-manager" (PyStr.lower packname)
                     then "skip" else "fail")
      /\ target_path r = None /\ postinstall r = None.
Proof.
  intros E fuel packname v fl m H. cbn [install_by_id].
  destruct (PyStr.contains "comfyui-manager" (PyStr.lower packname)).
  { eexists. split; [reflexivity|]. repeat split. }
  destruct H as [H|[Hu [Hn Hs]]]; [discriminate|].
  eexists. split.
  - rewrite Hu. rewrite andb_false_r. unfold bind at 1. unfold ret at 1.
    apply String.eqb_neq in Hs.
    rewrite Hu, Hn, Hs. cbn [negb]. reflexivity.
  - repeat split.
Qed.

Lemma install_by_id_refuses_without_change_witness :
  exists r,
    install_by_id (Demo.env true) 1 "https://github.com/owner/Bar" None
                  (Demo.flags false) (Demo.fresh (Demo.env true) [])
    = (Demo.fresh (Demo.env true) [], Ok r)
    /\ result r = false.
Proof.
  destruct (install_by_id_refuses_without_change (Demo.env true) 0
              "https://github.com/owner/Bar" None (Demo.flags false)
              (Demo.fresh (Demo.env true) []))
    as [r [Hr [Hf _]]]; [right; repeat split; try reflexivity; discriminate|].
  exists r. split; assumption.
Defined.

(** A plain name: [install_by_id] goes on to its resolved part, whatever
    the fuel. *)
Lemma install_by_id_plain (E : Env) fuel packname v fl m :
  PyStr.contains "@" packname = false ->
  is_url_like packname = false ->
  install_by_id E (S fuel) packname v fl m
  = if PyStr.contains "comfyui-manager" (PyStr.lower packname)
    then (m, Ok (fail (new_result "skip")
                   ("ignored: installing '" ++ packname ++ "'")%string))
    else install_by_id_resolved E packname v None fl m.
Proof.
  intros Hat Hu. cbn [install_by_id].
  destruct (PyStr.contains "comfyui-manager" (PyStr.lower packname)); [reflexivity|].
  rewrite Hat. cbn [andb]. unfold bind at 1. unfold ret at 1. rewrite Hu. reflexivity.
Qed.

(** [install_by_id] calls itself once at most, for a URL the registry
    knows, provided the ids the registry gives for URLs are plain names
    (not URL-like, without '@'): two levels are all it ever needs. *)
Theorem install_by_id_nests_once :
  forall (E : Env) (n : nat) (packname : string) (version_spec : option string)
         (fl : Flags) (m : Manager),
    (forall u pack_info,
        get_nodepack_by_url E u = Some pack_info ->
        is_url_like (pi_id pack_info) = false
        /\ PyStr.contains "@" (pi_id pack_info) = false) ->
    install_by_id E (S (S n)) packname version_spec fl m
    = install_by_id E 2 packname version_spec fl m.
Proof.
  intros E n packname v fl m Hreg.
  change 2 with (S 1).
  remember (S n) as k eqn:Hk. remember 1 as j eqn:Hj.
  cbn [install_by_id].
  destruct (PyStr.contains "comfyui-manager" (PyStr.lower packname)); [reflexivity|].
  unfold bind.
  match goal with
  | |- (let (_, _) := ?c in _) = _ => destruct c as [m1 [[p1 h1]|e]]
  end; [|reflexivity].
  destruct (is_url_like p1); [|reflexivity].
  destruct (get_nodepack_by_url E (compact_url E p1)) as [pack_info|] eqn:Hq;
    [|reflexivity].
  destruct (Hreg _ _ Hq) as [Hu Hat]. subst k j.
  rewrite (install_by_id_plain E n _ _ _ _ Hat Hu).
  rewrite (install_by_id_plain E 0 _ _ _ _ Hat Hu).
  reflexivity.
Qed.

Lemma install_by_id_nests_once_witness :
  install_by_id Sample.env_with_urls 7 "https://github.com/owner/Foo" None
                (Demo.flags false) (Demo.fresh Sample.env_with_urls [])
  = install_by_id Sample.env_with_urls 2 "https://github.com/owner/Foo" None
                  (Demo.flags false) (Demo.fresh Sample.env_with_urls []).
Proof.
  apply (install_by_id_nests_once Sample.env_with_urls 5).
  intros u pack_info H. cbn [get_nodepack_by_url Sample.env_with_urls] in H.
  destruct (String.eqb u "https://github.com/owner/Foo"); [|discriminate H].
  injection H as H. subst pack_info. split; reflexivity.
Defined.

(** ** Node specs *)

Lemma prefix_char c a r :
  String.prefix (String c EmptyString) (String a r) = Ascii.eqb c a.
Proof.
  simpl. destruct (ascii_dec c a) as [He|He].
  - subst. rewrite Ascii.eqb_refl. destruct r; reflexivity.
  - symmetry. apply Ascii.eqb_neq. exact He.
Qed.

Lemma contains_char_cons c a r :
  PyStr.contains (String c EmptyString) (String a r)
  = (Ascii.eqb c a || PyStr.contains (String c EmptyString) r)%bool.
Proof.
  cbn [PyStr.contains]. rewrite prefix_char.
  destruct (Ascii.eqb c a); reflexivity.
Qed.

Lemma split_without_separator c s :
  PyStr.contains (String c EmptyString) s = false -> PyStr.split c s = [s].
Proof.
  induction s as [|a r IH]; intros H; [reflexivity|].
  rewrite contains_char_cons in H. apply orb_false_iff in H. destruct H as [Ha Hr].
  cbn [PyStr.split]. rewrite Ascii.eqb_sym, Ha, (IH Hr). reflexivity.
Qed.

Lemma split_at_separator c a b :
  PyStr.contains (String c EmptyString) a = false ->
  PyStr.split c (a ++ String c b) = a :: PyStr.split c b.
Proof.
  induction a as [|x r IH]; intros H.
  - cbn [String.append PyStr.split]. rewrite Ascii.eqb_refl. reflexivity.
  - rewrite contains_char_cons in H. apply orb_false_iff in H. destruct H as [Hx Hr].
    cbn [String.append PyStr.split]. rewrite Ascii.eqb_sym, Hx, (IH Hr). reflexivity.
Qed.

(** [resolve_node_spec] reads [name@version] back as the name and the
    version, whatever is installed, when neither part contains '@' and
    the version is not 'latest'; [name@latest] becomes the latest
    version the registry has for the name, and is not resolved at all
    when the registry does not know the name or has no latest version
    for it. *)
Theorem node_spec_round_trip :
  forall (E : Env) (m : Manager) (name version : string) (guess_mode : option string),
    PyStr.contains "@" name = false ->
    PyStr.contains "@" version = false ->
    resolve_node_spec E m (name ++ "@" ++ version)%string guess_mode
    = if String.eqb version "latest"
      then match get_nodepack E name with
           | Some info =>
               match pi_latest_version info with
               | Some latest => Ok (Some (name, Some latest, true))
               | None => Ok None
               end
           | None => Ok None
           end
      else Ok (Some (name, Some version, true)).
Proof.
  intros E m name version g Hn Hv. unfold resolve_node_spec.
  change ("@" ++ version)%string with (String "@" version).
  rewrite (split_at_separator "@" name version Hn).
  rewrite (split_without_separator "@" version Hv).
  reflexivity.
Qed.

Lemma node_spec_round_trip_witness :
  resolve_node_spec (Demo.env true) (Demo.fresh (Demo.env true) [])
                    "Foo@latest" None
  = Ok (Some ("Foo", Some "1.0.2", true)).
Proof.
  exact (node_spec_round_trip (Demo.env true) (Demo.fresh (Demo.env true) [])
           "Foo" "latest" None eq_refl eq_refl).
Defined.

(** ** Version switch of an id without any instance *)

Lemma get_inactive_pack_nothing (E : Env) m packname v :
  get_packages_by_name_or_url E m packname = [] ->
  get_inactive_pack E m packname v = Ok None.
Proof.
  intros H. unfold get_inactive_pack. rewrite H. cbn [get_inactive_scan rbind].
  destruct (opt_str_eqb "latest" v); reflexivity.
Qed.

(** Switching the version of an id the lookup finds nothing for fails
    and changes nothing, in every mode: 'Nightly version not installed'
    for the nightly mode, and otherwise 'not available node' when the
    registry has no download for it, or 'was not previously installed'
    when it has. *)
Theorem switch_of_absent_id_fails :
  forall (E : Env) (m : Manager) (packname : string) (mode : option string)
         (fl : Flags),
    get_packages_by_name_or_url E m packname = [] ->
    exists r,
      switch_version E packname mode fl m = (m, Ok r)
      /\ result r = false
      /\ target_path r = None /\ postinstall r = None
      /\ action r = (if opt_str_eqb "nightly" mode
                     then "switch-version" else "switch-cnr")
      /\ (opt_str_eqb "nightly" mode = false ->
          cnr_switch_version_instant E packname mode fl m = (m, Ok r)).
Proof.
  intros E m packname mode fl H. unfold switch_version.
  destruct (opt_str_eqb "nightly" mode).
  - eexists. split.
    + unfold bind at 1. unfold ask at 1.
      rewrite (get_inactive_pack_nothing E m packname _ H). reflexivity.
    + repeat split. discriminate.
  - assert (Hc : exists r, cnr_switch_version_instant E packname mode fl m = (m, Ok r)
                           /\ result r = false /\ target_path r = None
                           /\ postinstall r = None /\ action r = "switch-cnr").
    { unfold cnr_switch_version_instant.
      unfold bind at 1. unfold ask_pure at 1. unfold get_active_pack at 1.
      rewrite H. cbn [List.find].
      unfold bind at 1. unfold ask at 1.
      rewrite (get_inactive_pack_nothing E m packname _ H).
      destruct (node_info_available _) as [[ni url]|].
      - unfold bind at 1. unfold ask at 1.
        rewrite (get_inactive_pack_nothing E m packname _ H).
        unfold bind at 1. unfold ask_pure at 1. unfold get_active_pack at 1.
        rewrite H. cbn [List.find].
        eexists. split; [reflexivity|]. repeat split.
      - eexists. split; [reflexivity|]. repeat split. }
    destruct Hc as [r [Hr [H1 [H2 [H3 H4]]]]].
    exists r. exact (conj Hr (conj H1 (conj H2 (conj H3 (conj H4 (fun _ => Hr)))))).
Qed.

Lemma switch_of_absent_id_fails_witness :
  exists r,
    switch_version (Demo.env true) "foo" (Some "1.0.2") (Demo.flags false)
                   (Demo.fresh (Demo.env true) [Demo.plain "other"])
    = (Demo.fresh (Demo.env true) [Demo.plain "other"], Ok r)
    /\ msg r = Some "Failed to switch version: 'foo' was not previously installed.".
Proof.
  destruct (switch_of_absent_id_fails (Demo.env true)
              (Demo.fresh (Demo.env true) [Demo.plain "other"]) "foo" (Some "1.0.2")
              (Demo.flags false)) as [r [Hr _]]; [vm_compute; reflexivity|].
  exists r. split; [exact Hr|].
  vm_compute in Hr. injection Hr as Hr. subst r. reflexivity.
Defined.

(* ================================================================== *)
(** * Properties of [NormalizedKeyDict] *)

Lemma dict_get_set_same {A} k (v : A) d : PyDict.get k (PyDict.set k v d) = Some v.
Proof.
  induction d as [|[k' v'] r IH]; simpl.
  - rewrite String.eqb_refl. reflexivity.
  - destruct (String.eqb k' k) eqn:He; simpl; rewrite He; [reflexivity|exact IH].
Qed.

Lemma dict_get_set_other {A} k k' (v : A) d :
  k' <> k -> PyDict.get k' (PyDict.set k v d) = PyDict.get k' d.
Proof.
  intros Hne. induction d as [|[k0 v0] r IH]; simpl.
  - destruct (String.eqb_spec k k') as [He|He]; [|reflexivity].
    exfalso. apply Hne. symmetry. exact He.
  - destruct (String.eqb_spec k0 k) as [He|He]; simpl.
    + subst k0. destruct (String.eqb_spec k k') as [He'|He']; [|reflexivity].
      exfalso. apply Hne. symmetry. exact He'.
    + rewrite IH. reflexivity.
Qed.

Lemma dict_get_del_same {A} k (d : PyDict.t A) : PyDict.get k (PyDict.del k d) = None.
Proof.
  unfold PyDict.del. induction d as [|[k0 v0] r IH]; simpl; [reflexivity|].
  destruct (String.eqb k0 k) eqn:He; simpl; [exact IH|]. rewrite He. exact IH.
Qed.

Lemma dict_get_del_other {A} k k' (d : PyDict.t A) :
  k' <> k -> PyDict.get k' (PyDict.del k d) = PyDict.get k' d.
Proof.
  intros Hne. unfold PyDict.del. induction d as [|[k0 v0] r IH]; simpl; [reflexivity|].
  destruct (String.eqb_spec k0 k) as [He|He]; simpl.
  - subst k0. destruct (String.eqb_spec k k') as [He'|He']; [|exact IH].
    exfalso. apply Hne. symmetry. exact He'.
  - rewrite IH. reflexivity.
Qed.

Lemma dict_set_keeps {A} k (v : A) k0 d :
  PyDict.get k0 d <> None -> PyDict.get k0 (PyDict.set k v d) <> None.
Proof.
  intros H. destruct (String.eqb_spec k0 k) as [He|He].
  - subst k0. rewrite dict_get_set_same. discriminate.
  - rewrite dict_get_set_other by exact He. exact H.
Qed.

Lemma dict_get_in {A} k (v : A) d : PyDict.get k d = Some v -> In (k, v) d.
Proof.
  induction d as [|[k0 v0] r IH]; simpl; [discriminate|].
  destruct (String.eqb_spec k0 k) as [He|He].
  - intros H. inversion H; subst. left. reflexivity.
  - intros H. right. apply IH. exact H.
Qed.

Lemma dict_set_in_other {A} k (v : A) k0 v0 d :
  k0 <> k -> In (k0, v0) d -> In (k0, v0) (PyDict.set k v d).
Proof.
  intros Hne. induction d as [|[k1 v1] r IH]; simpl; [intros []|].
  intros [H|H].
  - inversion H; subst.
    destruct (String.eqb_spec k0 k) as [He|He]; [contradiction|left; reflexivity].
  - destruct (String.eqb k1 k); right; [exact H|apply IH; exact H].
Qed.

Lemma dict_del_in_other {A} k k0 (v0 : A) d :
  k0 <> k -> In (k0, v0) d -> In (k0, v0) (PyDict.del k d).
Proof.
  intros Hne H. unfold PyDict.del. apply filter_In. split; [exact H|].
  simpl. apply negb_true_iff. apply String.eqb_neq. exact Hne.
Qed.

Lemma dict_set_new_length {A} k (v : A) d :
  PyDict.has k d = false -> List.length (PyDict.set k v d) = S (List.length d).
Proof.
  unfold PyDict.has. induction d as [|[k0 v0] r IH]; simpl; [reflexivity|].
  destruct (String.eqb k0 k); [discriminate|]. intros H. simpl. rewrite IH; [reflexivity|exact H].
Qed.

Module NKD := NormalizedKeyDict.

Lemma consistent_setitem {V} key (value : V) d :
  NKD.consistent d -> NKD.consistent (NKD.__setitem__ key value d).
Proof.
  intros Hc n k. unfold NKD.__setitem__. cbn [NKD._key_map NKD._store].
  destruct (String.eqb_spec n (NKD._normalize_key key)) as [He|He].
  - subst n. rewrite dict_get_set_same. intros H. inversion H; subst k.
    split; [reflexivity|]. rewrite dict_get_set_same. discriminate.
  - rewrite dict_get_set_other by exact He. intros H.
    destruct (Hc n k H) as [Hn Hs]. split; [exact Hn|].
    apply dict_set_keeps. exact Hs.
Qed.

Lemma consistent_delitem {V} key (d : NKD.t V) :
  NKD.consistent d -> NKD.consistent (fst (NKD.__delitem__ key d)).
Proof.
  intros Hc. unfold NKD.__delitem__.
  destruct (PyDict.get (NKD._normalize_key key) (NKD._key_map d)) as [orig|] eqn:Hk;
    [|exact Hc].
  destruct (Hc _ _ Hk) as [Hn Hs].
  destruct (PyDict.get orig (NKD._store d)) as [v|]; [|contradiction].
  cbn [fst]. intros n k. cbn [NKD._key_map NKD._store].
  destruct (String.eqb_spec n (NKD._normalize_key key)) as [He|He].
  - subst n. rewrite dict_get_del_same. discriminate.
  - rewrite dict_get_del_other by exact He. intros H.
    destruct (Hc n k H) as [Hn' Hs']. split; [exact Hn'|].
    rewrite dict_get_del_other; [exact Hs'|].
    intros Heq. subst k. apply He. rewrite Hn', Hn. reflexivity.
Qed.

Lemma consistent_readable {V} key (d : NKD.t V) :
  NKD.consistent d -> NKD.__contains__ key d = true ->
  exists v, NKD.__getitem__ key d = Returns v.
Proof.
  intros Hc H. unfold NKD.__contains__, PyDict.has in H. unfold NKD.__getitem__.
  destruct (PyDict.get (NKD._normalize_key key) (NKD._key_map d)) as [orig|] eqn:Hk;
    [|discriminate].
  destruct (Hc _ _ Hk) as [_ Hs].
  destruct (PyDict.get orig (NKD._store d)) as [v|]; [|contradiction].
  exists v. reflexivity.
Qed.

Lemma consistent_deletable {V} key (d : NKD.t V) :
  NKD.consistent d -> NKD.__contains__ key d = true ->
  exists d', NKD.__delitem__ key d = (d', Returns tt).
Proof.
  intros Hc H. unfold NKD.__contains__, PyDict.has in H. unfold NKD.__delitem__.
  destruct (PyDict.get (NKD._normalize_key key) (NKD._key_map d)) as [orig|] eqn:Hk;
    [|discriminate].
  destruct (Hc _ _ Hk) as [_ Hs].
  destruct (PyDict.get orig (NKD._store d)) as [v|]; [|contradiction].
  eexists. reflexivity.
Qed.

Lemma consistent_pop {V} key default (d : NKD.t V) :
  NKD.consistent d -> NKD.consistent (fst (NKD.pop key default d)).
Proof.
  intros Hc. unfold NKD.pop.
  destruct (NKD.__contains__ key d) eqn:Hin.
  - destruct (NKD.__getitem__ key d) as [val|e]; [|exact Hc].
    pose proof (consistent_delitem key d Hc) as Hd.
    destruct (NKD.__delitem__ key d) as [d' [u|e]]; exact Hd.
  - destruct default; exact Hc.
Qed.

Lemma built_consistent {V} (d : NKD.t V) : NKD.built d -> NKD.consistent d.
Proof.
  induction 1 as [|key value d _ IH|key d _ IH|key default d _ IH|key default d _ IH].
  - intros n k H. discriminate H.
  - apply consistent_setitem. exact IH.
  - apply consistent_delitem. exact IH.
  - unfold NKD.setdefault. destruct (NKD.__contains__ key d); [exact IH|].
    apply consistent_setitem. exact IH.
  - apply consistent_pop. exact IH.
Qed.

(** On every dictionary the methods can build, [_key_map] and [_store]
    agree, so that a key that is [in] the dictionary can be read and
    deleted without a [KeyError], and [get] never raises. *)
Theorem built_dict_answers_for_its_keys :
  forall (V : Type) (d : NormalizedKeyDict.t V),
    NormalizedKeyDict.built d ->
    NormalizedKeyDict.consistent d
    /\ (forall key,
          NormalizedKeyDict.__contains__ key d = true ->
          (exists v, NormalizedKeyDict.__getitem__ key d = Returns v)
          /\ (exists d', NormalizedKeyDict.__delitem__ key d = (d', Returns tt)))
    /\ (forall key default,
          exists v, NormalizedKeyDict.get key default d = Returns v).
Proof.
  intros V d Hb. pose proof (built_consistent d Hb) as Hc.
  refine (conj Hc (conj _ _)).
  - intros key H. split.
    + apply consistent_readable; assumption.
    + apply consistent_deletable; assumption.
  - intros key default. unfold NKD.get.
    destruct (NKD.__contains__ key d) eqn:H.
    + apply consistent_readable; assumption.
    + exists default. reflexivity.
Qed.

Lemma built_dict_answers_for_its_keys_witness :
  NormalizedKeyDict.get " FOO " 0
    (NormalizedKeyDict.__setitem__ "Foo" 7 NormalizedKeyDict.empty) = Returns 7.
Proof.
  destruct (built_dict_answers_for_its_keys nat
              (NormalizedKeyDict.__setitem__ "Foo" 7 NormalizedKeyDict.empty))
    as [_ [_ H]]; [apply NKD.built_setitem, NKD.built_empty|].
  destruct (H " FOO " 0) as [v Hv]. rewrite Hv.
  vm_compute in Hv. symmetry. exact Hv.
Defined.

(** A value set under one spelling of a key is read back under every
    spelling with the same normal form (same letters up to case, with
    or without surrounding whitespace); on a consistent dictionary the
    keys of another normal form read as before. *)
Theorem setitem_then_getitem :
  forall (V : Type) (d : NormalizedKeyDict.t V) (key key' : string) (value : V),
    (NormalizedKeyDict._normalize_key key' = NormalizedKeyDict._normalize_key key ->
       NormalizedKeyDict.__getitem__ key' (NormalizedKeyDict.__setitem__ key value d)
       = Returns value
       /\ NormalizedKeyDict.__contains__ key'
            (NormalizedKeyDict.__setitem__ key value d) = true)
    /\ (NormalizedKeyDict._normalize_key key' <> NormalizedKeyDict._normalize_key key ->
        NormalizedKeyDict.consistent d ->
        NormalizedKeyDict.__getitem__ key' (NormalizedKeyDict.__setitem__ key value d)
        = NormalizedKeyDict.__getitem__ key' d
        /\ NormalizedKeyDict.__contains__ key'
             (NormalizedKeyDict.__setitem__ key value d)
           = NormalizedKeyDict.__contains__ key' d).
Proof.
  intros V d key key' value. split.
  - intros Hn. unfold NKD.__getitem__, NKD.__contains__, PyDict.has, NKD.__setitem__.
    cbn [NKD._key_map NKD._store]. rewrite Hn, !dict_get_set_same.
    split; reflexivity.
  - intros Hn Hc. unfold NKD.__getitem__, NKD.__contains__, PyDict.has, NKD.__setitem__.
    cbn [NKD._key_map NKD._store]. rewrite dict_get_set_other by exact Hn.
    split; [|reflexivity].
    destruct (PyDict.get (NKD._normalize_key key') (NKD._key_map d)) as [orig|] eqn:Hk;
      [|reflexivity].
    destruct (Hc _ _ Hk) as [Ho _].
    rewrite dict_get_set_other; [reflexivity|].
    intros He. subst orig. apply Hn. exact Ho.
Qed.

Lemma setitem_then_getitem_witness :
  NormalizedKeyDict.__getitem__ "comfyui-foo  "
    (NormalizedKeyDict.__setitem__ "ComfyUI-Foo" 1 NormalizedKeyDict.empty)
  = Returns 1.
Proof.
  destruct (setitem_then_getitem nat NormalizedKeyDict.empty
              "ComfyUI-Foo" "comfyui-foo  " 1) as [H _].
  destruct (H eq_refl) as [Hg _]. exact Hg.
Defined.

(** Deleting a key removes it under every spelling and leaves the keys
    of another normal form as they were; deleting or popping a key that
    is not there raises [KeyError] and changes nothing, unless [pop] is
    given a default, which it then returns. *)
Theorem delitem_removes_every_spelling :
  forall (V : Type) (d : NormalizedKeyDict.t V) (key : string),
    NormalizedKeyDict.consistent d ->
    (NormalizedKeyDict.__contains__ key d = true ->
     exists d' v,
       NormalizedKeyDict.__delitem__ key d = (d', Returns tt)
       /\ NormalizedKeyDict.__getitem__ key d = Returns v
       /\ (forall default, NormalizedKeyDict.pop key default d = (d', Returns v))
       /\ NormalizedKeyDict.consistent d'
       /\ (forall key',
             NormalizedKeyDict._normalize_key key' = NormalizedKeyDict._normalize_key key ->
             NormalizedKeyDict.__contains__ key' d' = false)
       /\ (forall key',
             NormalizedKeyDict._normalize_key key' <> NormalizedKeyDict._normalize_key key ->
             NormalizedKeyDict.__getitem__ key' d' = NormalizedKeyDict.__getitem__ key' d))
    /\ (NormalizedKeyDict.__contains__ key d = false ->
        NormalizedKeyDict.__delitem__ key d = (d, Raises "KeyError")
        /\ NormalizedKeyDict.pop key None d = (d, Raises "KeyError")
        /\ forall v, NormalizedKeyDict.pop key (Some v) d = (d, Returns v)).
Proof.
  intros V d key Hc. split.
  - intros Hin.
    destruct (consistent_readable key d Hc Hin) as [v Hv].
    pose proof (consistent_delitem key d Hc) as Hc'.
    unfold NKD.__contains__, PyDict.has in Hin.
    destruct (PyDict.get (NKD._normalize_key key) (NKD._key_map d)) as [orig|] eqn:Hk;
      [|discriminate].
    destruct (Hc _ _ Hk) as [Ho Hs].
    destruct (PyDict.get orig (NKD._store d)) as [v0|] eqn:Hso; [|contradiction].
    assert (Hd : NKD.__delitem__ key d
                 = (NKD.mk V (PyDict.del orig (NKD._store d))
                      (PyDict.del (NKD._normalize_key key) (NKD._key_map d)),
                    Returns tt)).
    { unfold NKD.__delitem__. rewrite Hk, Hso. reflexivity. }
    rewrite Hd in Hc'. cbn [fst] in Hc'.
    eexists _, v. split; [exact Hd|]. split; [exact Hv|].
    split; [|split; [exact Hc'|split]].
    + intros default. unfold NKD.pop, NKD.__contains__, PyDict.has.
      rewrite Hk, Hv, Hd. reflexivity.
    + intros key' Hn. unfold NKD.__contains__, PyDict.has. cbn [NKD._key_map].
      rewrite Hn, dict_get_del_same. reflexivity.
    + intros key' Hn. unfold NKD.__getitem__. cbn [NKD._key_map NKD._store].
      rewrite dict_get_del_other by exact Hn.
      destruct (PyDict.get (NKD._normalize_key key') (NKD._key_map d)) as [orig'|] eqn:Hk';
        [|reflexivity].
      destruct (Hc _ _ Hk') as [Ho' _].
      rewrite dict_get_del_other; [reflexivity|].
      intros He. subst orig'. apply Hn. rewrite Ho', Ho. reflexivity.
  - intros Hout. unfold NKD.pop. rewrite Hout.
    unfold NKD.__contains__, PyDict.has in Hout. unfold NKD.__delitem__.
    destruct (PyDict.get (NKD._normalize_key key) (NKD._key_map d)); [discriminate|].
    repeat split.
Qed.

Lemma delitem_removes_every_spelling_witness :
  NormalizedKeyDict.__contains__ "FOO"
    (fst (NormalizedKeyDict.__delitem__ "foo"
            (NormalizedKeyDict.__setitem__ "Foo" 1 NormalizedKeyDict.empty))) = false.
Proof.
  destruct (delitem_removes_every_spelling nat
              (NormalizedKeyDict.__setitem__ "Foo" 1 NormalizedKeyDict.empty) "foo")
    as [H _]; [apply consistent_setitem; intros n k Hk; discriminate Hk|].
  destruct (H eq_refl) as [d' [v [Hd [_ [_ [_ [Hs _]]]]]]].
  rewrite Hd. cbn [fst]. apply Hs. reflexivity.
Defined.

(** A key set again under another spelling keeps its first spelling in
    [_store]: the dictionary grows by one entry, [items] still lists the
    old spelling with its old value, which a read no longer returns,
    and after the key is deleted the old spelling is still among [keys]
    though no longer [in] the dictionary. *)
Theorem respelled_key_stays_in_store :
  forall (V : Type) (d : NormalizedKeyDict.t V) (key old : string) (value v0 : V),
    NormalizedKeyDict.consistent d ->
    PyDict.get (NormalizedKeyDict._normalize_key key) (NormalizedKeyDict._key_map d)
    = Some old ->
    old <> key ->
    PyDict.get old (NormalizedKeyDict._store d) = Some v0 ->
    PyDict.has key (NormalizedKeyDict._store d) = false ->
    let d' := NormalizedKeyDict.__setitem__ key value d in
    let d'' := fst (NormalizedKeyDict.__delitem__ key d') in
    NormalizedKeyDict.__len__ d' = S (NormalizedKeyDict.__len__ d)
    /\ In (old, v0) (NormalizedKeyDict.items d')
    /\ NormalizedKeyDict.__getitem__ old d' = Returns value
    /\ In (old, v0) (NormalizedKeyDict.items d'')
    /\ NormalizedKeyDict.__contains__ old d'' = false
    /\ NormalizedKeyDict.__len__ d'' = NormalizedKeyDict.__len__ d.
Proof.
  intros V d key old value v0 Hc Hk Hne Hold Hnew d' d''.
  destruct (Hc _ _ Hk) as [Ho _].
  assert (Hin : In (old, v0) (NKD._store d)) by (apply dict_get_in; exact Hold).
  assert (Hd : NKD.__delitem__ key d'
               = (NKD.mk V (PyDict.del key (NKD._store d'))
                    (PyDict.del (NKD._normalize_key key) (NKD._key_map d')),
                  Returns tt)).
  { unfold NKD.__delitem__, d', NKD.__setitem__. cbn [NKD._key_map NKD._store].
    rewrite !dict_get_set_same. reflexivity. }
  unfold d''. rewrite Hd. cbn [fst].
  unfold NKD.__len__, NKD.items, NKD.__getitem__, NKD.__contains__, PyDict.has.
  unfold d', NKD.__setitem__. cbn [NKD._key_map NKD._store].
  refine (conj _ (conj _ (conj _ (conj _ (conj _ _))))).
  - apply dict_set_new_length. exact Hnew.
  - apply dict_set_in_other; assumption.
  - rewrite <- Ho, !dict_get_set_same. reflexivity.
  - apply dict_del_in_other; [exact Hne|]. apply dict_set_in_other; assumption.
  - rewrite <- Ho, dict_get_del_same. reflexivity.
  - unfold PyDict.has in Hnew. clear - Hnew. unfold PyDict.del.
    induction (NKD._store d) as [|[k0 w0] r IH]; simpl.
    + rewrite String.eqb_refl. reflexivity.
    + simpl in Hnew. destruct (String.eqb k0 key) eqn:He.
      * discriminate.
      * simpl. rewrite He. simpl. rewrite IH; [reflexivity|exact Hnew].
Qed.

Lemma respelled_key_stays_in_store_witness :
  NormalizedKeyDict.items
    (fst (NormalizedKeyDict.__delitem__ "foo"
            (NormalizedKeyDict.__setitem__ "foo" 2
               (NormalizedKeyDict.__setitem__ "Foo" 1 NormalizedKeyDict.empty))))
  = [("Foo", 1)]
  /\ NormalizedKeyDict.__contains__ "Foo"
       (fst (NormalizedKeyDict.__delitem__ "foo"
               (NormalizedKeyDict.__setitem__ "foo" 2
                  (NormalizedKeyDict.__setitem__ "Foo" 1 NormalizedKeyDict.empty))))
     = false.
Proof.
  split; [vm_compute; reflexivity|].
  assert (Hc : NormalizedKeyDict.consistent
                 (NormalizedKeyDict.__setitem__ "Foo" 1 NormalizedKeyDict.empty)).
  { apply consistent_setitem. intros n k Hk. discriminate Hk. }
  assert (Hne : "Foo" <> "foo") by discriminate.
  exact (proj1 (proj2 (proj2 (proj2 (proj2
           (respelled_key_stays_in_store nat
              (NormalizedKeyDict.__setitem__ "Foo" 1 NormalizedKeyDict.empty)
              "foo" "Foo" 2 1 Hc eq_refl Hne eq_refl eq_refl)))))).
Defined.

(* ================================================================== *)
(** * Properties of the pip requirement checks *)

Lemma span_whole_cons p c r :
  Pip.span p (String c r) = (String c r, EmptyString) ->
  p c = true /\ Pip.span p r = (r, EmptyString).
Proof.
  simpl. destruct (p c); [|discriminate].
  destruct (Pip.span p r) as [a b]. intros H. inversion H; subst. split; reflexivity.
Qed.

Lemma span_append_stop p s c r :
  Pip.span p s = (s, EmptyString) -> p c = false ->
  Pip.span p (s ++ String c r) = (s, String c r).
Proof.
  induction s as [|x s IH]; intros Hs Hc.
  - simpl. rewrite Hc. reflexivity.
  - destruct (span_whole_cons p x s Hs) as [Hx Hr].
    cbn [String.append Pip.span]. rewrite Hx, (IH Hr Hc). reflexivity.
Qed.

Lemma span_weaken (p q : ascii -> bool) s :
  (forall c, p c = true -> q c = true) ->
  Pip.span p s = (s, EmptyString) -> Pip.span q s = (s, EmptyString).
Proof.
  intros Hpq. induction s as [|x s IH]; intros Hs; [reflexivity|].
  destruct (span_whole_cons p x s Hs) as [Hx Hr].
  cbn [Pip.span]. rewrite (Hpq x Hx), (IH Hr). reflexivity.
Qed.

Lemma version_char_is_no_operator c :
  Pip.is_version_char c = true -> Ascii.eqb c "=" = false /\ Pip.is_not_space c = true.
Proof.
  destruct c as [[|] [|] [|] [|] [|] [|] [|] [|]]; vm_compute; intros H;
    try discriminate H; split; reflexivity.
Qed.

(** The pattern reads [name op version] back as its three parts. *)
Lemma search_well_formed third name op version :
  Pip.well_formed name op version ->
  (forall c, Pip.is_version_char c = true -> third c = true) ->
  Pip.search third (name ++ op ++ version) = Some (name, op, version).
Proof.
  intros [Hne [Hname [[c [Hc Hop]] Hver]]] Hthird.
  assert (Hv3 : Pip.span third version = (version, EmptyString))
    by (apply (span_weaken Pip.is_version_char); assumption).
  assert (Hshape : exists rest, (op ++ version)%string = String c rest
                                /\ (op = String c EmptyString /\ rest = version
                                    \/ op = String c "=" /\ rest = String "=" version)).
  { destruct Hop as [Hop|Hop]; subst op.
    - exists version. split; [reflexivity|left; split; reflexivity].
    - exists (String "=" version). split; [reflexivity|right; split; reflexivity]. }
  destruct Hshape as [rest [Hrest Hcases]]. rewrite Hrest.
  unfold Pip.search.
  assert (Hdrop : Pip.drop_while Pip.is_operator_char (name ++ String c rest)
                  = (name ++ String c rest)%string).
  { destruct name as [|x name]; [contradiction|].
    destruct (span_whole_cons _ x name Hname) as [Hx _].
    cbn [String.append Pip.drop_while].
    apply negb_true_iff in Hx. rewrite Hx. reflexivity. }
  rewrite Hdrop.
  rewrite (span_append_stop _ name c rest Hname) by (rewrite Hc; reflexivity).
  destruct name as [|x name]; [contradiction|].
  destruct Hcases as [[Ho Hr]|[Ho Hr]]; subst op rest.
  - destruct version as [|y version].
    + reflexivity.
    + destruct (span_whole_cons _ y version Hver) as [Hy _].
      destruct (version_char_is_no_operator y Hy) as [Heq _]. rewrite Heq.
      rewrite Hv3. reflexivity.
  - rewrite Ascii.eqb_refl. rewrite Hv3. reflexivity.
Qed.

Lemma startswith_append p x s t :
  Text.startswith (String p EmptyString) (String x s ++ t)
  = Text.startswith (String p EmptyString) (String x s).
Proof.
  unfold Text.startswith. cbn [String.append]. simpl.
  destruct (ascii_dec p x); [|reflexivity].
  destruct (s ++ t)%string; destruct s; reflexivity.
Qed.

(** For a requirement [name op version] whose name is on neither
    blacklist: a package that is not installed is never reported as
    installed; for a package installed at version [a], [is_installed]
    answers False, which sends pip to work, exactly when [a] is below
    the version required by ['>'], ['>='] or ['=='], or equal to the
    version required by ['~=']. An installed version above an ['==']
    pin therefore counts as installed, and ['<'], ['<='] and ['!=']
    never ask for an install. *)
Theorem installed_requirement_verdict :
  forall (P : Pip.Config) (line name op version : string),
    Text.strip line = (name ++ op ++ version)%string ->
    Pip.well_formed name op version ->
    Text.startswith "#" name = false ->
    Text.mem name (Pip.pip_blacklist P) = false ->
    Text.mem name (Pip.pip_downgrade_blacklist P) = false ->
    (PyDict.get (PyStr.lower name) (Pip.get_installed_packages P) = None ->
     Pip.is_installed P line = Returns false)
    /\ (forall installed a b,
          PyDict.get (PyStr.lower name) (Pip.get_installed_packages P) = Some installed ->
          Pip.strict_version_of P installed = Some a ->
          Pip.strict_version_of P version = Some b ->
          Pip.is_installed P line = Returns (negb (Pip.asks_for_install op a b))).
Proof.
  intros P line name op version Hline Hwf Hhash Hbl Hdg.
  assert (Hs : Pip.search Pip.is_version_char (name ++ op ++ version)
               = Some (name, op, version))
    by (apply search_well_formed; [exact Hwf|auto]).
  assert (Hstart : Text.startswith "#" (name ++ op ++ version) = false).
  { destruct Hwf as [Hne _]. destruct name as [|x name]; [contradiction|].
    rewrite startswith_append. exact Hhash. }
  assert (Hhead : Pip.is_installed P line
                  = match PyDict.get (PyStr.lower name) (Pip.get_installed_packages P) with
                    | None => Returns false
                    | Some pkg =>
                        let still_there :=
                          Returns (PyDict.has (PyStr.lower name)
                                     (Pip.get_installed_packages P)) in
                        let after_eq :=
                          if String.eqb op "~=" then
                            match Pip.versions P pkg version with
                            | Returns (a, b) =>
                                if ver_eqb a b then Returns false else still_there
                            | Raises e => Raises e
                            end
                          else still_there in
                        let after_ge :=
                          if String.eqb op "==" then
                            match Pip.versions P pkg version with
                            | Returns (a, b) =>
                                if ver_ltb a b then Returns false else after_eq
                            | Raises e => Raises e
                            end
                          else after_eq in
                        if Text.mem op [">"; ">="] then
                          match Pip.versions P pkg version with
                          | Returns (a, b) =>
                              if ver_ltb a b then Returns false else after_ge
                          | Raises e => Raises e
                          end
                        else after_ge
                    end).
  { unfold Pip.is_installed. rewrite Hline, Hstart, Hs, Hbl.
    unfold Pip.downgrade_guard. rewrite Hdg. reflexivity. }
  rewrite Hhead. split.
  - intros Hnone. rewrite Hnone. reflexivity.
  - intros installed a b Hpkg Ha Hb. rewrite Hpkg.
    unfold Pip.versions. rewrite Ha, Hb. unfold PyDict.has. rewrite Hpkg.
    unfold Pip.asks_for_install, Text.mem. cbn [existsb].
    destruct (String.eqb_spec op ">") as [H1|H1];
      [subst op; cbn [orb]; destruct (ver_ltb a b); reflexivity|].
    destruct (String.eqb_spec op ">=") as [H2|H2];
      [subst op; cbn [orb]; destruct (ver_ltb a b); reflexivity|].
    cbn [orb].
    destruct (String.eqb_spec op "==") as [H3|H3].
    + subst op. cbn [orb]. destruct (ver_ltb a b); reflexivity.
    + cbn [orb]. destruct (String.eqb op "~="); [|reflexivity].
      destruct (ver_eqb a b); reflexivity.
Qed.

Lemma installed_requirement_verdict_witness :
  Pip.is_installed
    (Pip.mkConfig [] [] [] [("numpy", "2.1.0")] StrictVersion.parse)
    "  numpy==1.26.0" = Returns true.
Proof.
  assert (Hwf : Pip.well_formed "numpy" "==" "1.26.0").
  { repeat split; try discriminate. exists "="%char. split; [reflexivity|].
    right. reflexivity. }
  destruct (installed_requirement_verdict
              (Pip.mkConfig [] [] [] [("numpy", "2.1.0")] StrictVersion.parse)
              "  numpy==1.26.0" "numpy" "==" "1.26.0"
              eq_refl Hwf eq_refl eq_refl eq_refl) as [_ H].
  exact (H "2.1.0" (2, 1, 0)%N (1, 26, 0)%N eq_refl eq_refl eq_refl).
Defined.

Lemma search_bare third name :
  Pip.span (fun c => negb (Pip.is_operator_char c)) name = (name, EmptyString) ->
  Pip.search third name = None.
Proof.
  intros H. unfold Pip.search.
  assert (Hd : Pip.drop_while Pip.is_operator_char name = name).
  { destruct name as [|x name]; [reflexivity|].
    destruct (span_whole_cons _ x name H) as [Hx _].
    cbn [Pip.drop_while]. apply negb_true_iff in Hx. rewrite Hx. reflexivity. }
  rewrite Hd, H. destruct name; reflexivity.
Qed.

(** [is_blacklisted] on a requirement. A name on [pip_blacklist] is
    always blocked. A name on [pip_downgrade_blacklist] that is
    installed at version [a] is blocked for a requirement ['<='], ['=='],
    ['<'] or ['~='] of a version [b] exactly when [a >= b], and never
    for another operator; written without a version it is blocked
    exactly when it is installed. *)
Theorem downgrade_blacklist_blocks :
  forall (P : Pip.Config) (line name : string),
    (forall op version,
        Text.strip line = (name ++ op ++ version)%string ->
        Pip.well_formed name op version ->
        (Text.mem name (Pip.pip_blacklist P) = true ->
         Pip.is_blacklisted P line = Returns true)
        /\ (Text.mem name (Pip.pip_blacklist P) = false ->
            Text.mem name (Pip.pip_downgrade_blacklist P) = true ->
            forall installed a b,
              PyDict.get name (Pip.get_installed_packages P) = Some installed ->
              Pip.strict_version_of P installed = Some a ->
              Pip.strict_version_of P version = Some b ->
              Pip.is_blacklisted P line
              = Returns (Text.mem op ["<="; "=="; "<"; "~="] && negb (ver_ltb a b))))
    /\ (Text.strip line = name ->
        Pip.span (fun c => negb (Pip.is_operator_char c)) name = (name, EmptyString) ->
        Pip.is_blacklisted P line
        = Returns (Text.mem name (Pip.pip_blacklist P)
                   || (Text.mem name (Pip.pip_downgrade_blacklist P)
                       && PyDict.has name (Pip.get_installed_packages P)))).
Proof.
  intros P line name. split.
  - intros op version Hline Hwf.
    assert (Hs : Pip.search Pip.is_not_space (name ++ op ++ version)
                 = Some (name, op, version)).
    { apply search_well_formed; [exact Hwf|].
      intros c Hc. apply (version_char_is_no_operator c Hc). }
    split.
    + intros Hbl. unfold Pip.is_blacklisted. rewrite Hline, Hs, Hbl. reflexivity.
    + intros Hbl Hdg installed a b Hpkg Ha Hb.
      unfold Pip.is_blacklisted. rewrite Hline, Hs, Hbl.
      unfold Pip.downgrade_guard. rewrite Hdg, Hpkg.
      unfold Pip.versions. rewrite Ha, Hb.
      destruct (Text.mem op ["<="; "=="; "<"; "~="]); reflexivity.
  - intros Hline Hbare. unfold Pip.is_blacklisted.
    rewrite Hline, (search_bare _ name Hbare).
    destruct (Text.mem name (Pip.pip_blacklist P)); [reflexivity|].
    unfold Pip.downgrade_guard.
    destruct (Text.mem name (Pip.pip_downgrade_blacklist P)); reflexivity.
Qed.

Lemma downgrade_blacklist_blocks_witness :
  Pip.is_blacklisted
    (Pip.mkConfig [] [] ["torch"] [("torch", "2.3.0")] StrictVersion.parse)
    "torch<=2.1.0" = Returns true
  /\ Pip.is_blacklisted
       (Pip.mkConfig [] [] ["torch"] [("torch", "2.3.0")] StrictVersion.parse)
       "torch>=2.1.0" = Returns false.
Proof.
  assert (Hwf : forall c, Pip.is_operator_char c = true ->
                          Pip.well_formed "torch" (String c "=") "2.1.0").
  { intros c Hc. repeat split; try discriminate. exists c. split; [exact Hc|].
    right. reflexivity. }
  split.
  - destruct (downgrade_blacklist_blocks
                (Pip.mkConfig [] [] ["torch"] [("torch", "2.3.0")] StrictVersion.parse)
                "torch<=2.1.0" "torch") as [H _].
    destruct (H "<=" "2.1.0" eq_refl (Hwf "<"%char eq_refl)) as [_ Hg].
    exact (Hg eq_refl eq_refl "2.3.0" (2, 3, 0)%N (2, 1, 0)%N eq_refl eq_refl eq_refl).
  - destruct (downgrade_blacklist_blocks
                (Pip.mkConfig [] [] ["torch"] [("torch", "2.3.0")] StrictVersion.parse)
                "torch>=2.1.0" "torch") as [H _].
    destruct (H ">=" "2.1.0" eq_refl (Hwf ">"%char eq_refl)) as [_ Hg].
    exact (Hg eq_refl eq_refl "2.3.0" (2, 3, 0)%N (2, 1, 0)%N eq_refl eq_refl eq_refl).
Defined.

(* ================================================================== *)
(** * Properties of the install scripts *)

Lemma try_install_script_processed H url repo cmd instant st :
  Scripts.processed_install (fst (Scripts.try_install_script H url repo cmd instant st))
  = Scripts.processed_install st.
Proof.
  unfold Scripts.try_install_script.
  destruct (negb instant && _); [reflexivity|].
  destruct (match Scripts.pip_target cmd with
            | Some pkg => Pip.is_blacklisted (Scripts.pip H) pkg
            | None => Returns false
            end) as [[|]|e]; try reflexivity.
  destruct (Scripts.run_script H cmd repo); reflexivity.
Qed.

Lemma try_install_script_grows H url repo cmd instant st :
  exists l,
    Scripts.executed (fst (Scripts.try_install_script H url repo cmd instant st))
    = Scripts.executed st ++ l.
Proof.
  unfold Scripts.try_install_script.
  destruct (negb instant && _); [exists []; simpl; rewrite app_nil_r; reflexivity|].
  destruct (match Scripts.pip_target cmd with
            | Some pkg => Pip.is_blacklisted (Scripts.pip H) pkg
            | None => Returns false
            end) as [[|]|e];
    try (exists []; simpl; rewrite app_nil_r; reflexivity).
  exists [(cmd, repo)]. destruct (Scripts.run_script H cmd repo); reflexivity.
Qed.

Lemma try_install_script_false H url repo cmd instant st st' :
  Scripts.try_install_script H url repo cmd instant st = (st', Returns false) ->
  Scripts.executed st' = Scripts.executed st ++ [(cmd, repo)]
  /\ Scripts.failed_command H (cmd, repo).
Proof.
  unfold Scripts.try_install_script.
  destruct (negb instant && _); [discriminate|].
  destruct (match Scripts.pip_target cmd with
            | Some pkg => Pip.is_blacklisted (Scripts.pip H) pkg
            | None => Returns false
            end) as [[|]|e]; try discriminate.
  destruct (Scripts.run_script H cmd repo) as [code|e] eqn:Hr; [|discriminate].
  intros Heq. injection Heq as Hst Hc. subst st'. split; [reflexivity|].
  exists code. split; [exact Hr|]. apply Z.eqb_neq. exact Hc.
Qed.

Lemma mem_mark_processed x y st :
  Text.mem x (Scripts.processed_install (Scripts.mark_processed y st))
  = (Text.mem x (Scripts.processed_install st) || String.eqb x y)%bool.
Proof.
  unfold Scripts.mark_processed. cbn [Scripts.processed_install].
  destruct (Text.mem y (Scripts.processed_install st)) eqn:Hy.
  - destruct (String.eqb_spec x y) as [He|He]; [|rewrite orb_false_r; reflexivity].
    subst x. rewrite Hy. reflexivity.
  - unfold Text.mem. rewrite existsb_app. cbn [existsb]. rewrite orb_false_r.
    reflexivity.
Qed.

(** The loop over the requirements: what it leaves behind. *)
Lemma install_requirements_spec H url repo instant lines :
  forall st res st' b,
    Scripts.install_requirements H url repo instant lines st res = (st', Returns b) ->
    (res = false ->
     b = false /\ Scripts.executed st' = Scripts.executed st)
    /\ (res = true -> b = false ->
        exists pre run,
          Scripts.executed st' = Scripts.executed st ++ pre ++ [run]
          /\ Scripts.failed_command H run)
    /\ (exists l, Scripts.executed st' = Scripts.executed st ++ l)
    /\ (forall x, Text.mem x (Scripts.processed_install st) = true ->
                  Text.mem x (Scripts.processed_install st') = true)
    /\ (forall line, In line lines ->
          Scripts.is_requirement (Scripts.package_name_of H line) = true ->
          Text.mem (Scripts.package_name_of H line) (Scripts.processed_install st') = true).
Proof.
  induction lines as [|line rest IH]; intros st res st' b Hrun.
  - simpl in Hrun. injection Hrun as Hst Hb. subst st' b.
    refine (conj _ (conj _ (conj _ (conj _ _)))).
    + intros Hr. split; [exact Hr|reflexivity].
    + intros Hr Hb. rewrite Hr in Hb. discriminate.
    + exists []. rewrite app_nil_r. reflexivity.
    + intros x Hx. exact Hx.
    + intros l [].
  - cbn [Scripts.install_requirements] in Hrun.
    set (pn := Scripts.package_name_of H line) in *.
    assert (Hskip : forall st0 res0,
               Scripts.install_requirements H url repo instant rest st0 res0
               = (st', Returns b) ->
               (exists l0, Scripts.executed st0 = Scripts.executed st ++ l0
                           /\ (res = false -> l0 = [])
                           /\ (res = true -> res0 = false ->
                               exists pre run, l0 = pre ++ [run]
                                               /\ Scripts.failed_command H run)) ->
               (forall x, Text.mem x (Scripts.processed_install st) = true ->
                          Text.mem x (Scripts.processed_install st0) = true) ->
               (Scripts.is_requirement pn = true ->
                Text.mem pn (Scripts.processed_install st0) = true) ->
               (res = false -> res0 = false) ->
               (res = false -> b = false /\ Scripts.executed st' = Scripts.executed st)
               /\ (res = true -> b = false ->
                   exists pre run,
                     Scripts.executed st' = Scripts.executed st ++ pre ++ [run]
                     /\ Scripts.failed_command H run)
               /\ (exists l, Scripts.executed st' = Scripts.executed st ++ l)
               /\ (forall x, Text.mem x (Scripts.processed_install st) = true ->
                             Text.mem x (Scripts.processed_install st') = true)
               /\ (forall l, In l (line :: rest) ->
                     Scripts.is_requirement (Scripts.package_name_of H l) = true ->
                     Text.mem (Scripts.package_name_of H l)
                              (Scripts.processed_install st') = true)).
    { intros st0 res0 Hrest [l0 [Hl0 [Hsame Hfail]]] Hmono Hpn Hres.
      destruct (IH st0 res0 st' b Hrest) as [I1 [I2 [[l1 I3] [I4 I5]]]].
      refine (conj _ (conj _ (conj _ (conj _ _)))).
      - intros Hr. destruct (I1 (Hres Hr)) as [Hb He]. split; [exact Hb|].
        rewrite He, Hl0.
        rewrite (Hsame Hr), app_nil_r. reflexivity.
      - intros Hr Hb. destruct res0.
        + destruct (I2 eq_refl Hb) as [pre [run [He Hf]]].
          exists (l0 ++ pre), run. split; [|exact Hf].
          rewrite He, Hl0, <- !app_assoc. reflexivity.
        + destruct (I1 eq_refl) as [_ He].
          destruct (Hfail Hr eq_refl) as [pre [run [Hpre Hf]]].
          exists pre, run. split; [|exact Hf]. rewrite He, Hl0, Hpre. reflexivity.
      - exists (l0 ++ l1). rewrite I3, Hl0, app_assoc. reflexivity.
      - intros x Hx. apply I4, Hmono, Hx.
      - intros l [Hl|Hl] Hq.
        + subst l. apply I4, Hpn, Hq.
        + apply I5; assumption. }
    destruct (Scripts.is_requirement pn) eqn:Hq; cbn [andb] in Hrun.
    2:{ apply (Hskip st res Hrun).
        - exists []. rewrite app_nil_r. repeat split; try reflexivity.
          intros Hr Hr0. rewrite Hr in Hr0. discriminate.
        - intros x Hx. exact Hx.
        - discriminate.
        - intros Hr. exact Hr. }
    destruct (Text.mem pn (Scripts.processed_install st)) eqn:Hin; cbn [negb] in Hrun.
    { apply (Hskip st res Hrun).
      - exists []. rewrite app_nil_r. repeat split; try reflexivity.
        intros Hr Hr0. rewrite Hr in Hr0. discriminate.
      - intros x Hx. exact Hx.
      - intros _. exact Hin.
      - intros Hr. exact Hr. }
    assert (Hmark : forall x, Text.mem x (Scripts.processed_install st) = true ->
                      Text.mem x (Scripts.processed_install
                                    (Scripts.mark_processed pn st)) = true).
    { intros x Hx. rewrite mem_mark_processed, Hx. reflexivity. }
    assert (Hpn : Text.mem pn (Scripts.processed_install
                                 (Scripts.mark_processed pn st)) = true).
    { rewrite mem_mark_processed, String.eqb_refl, orb_true_r. reflexivity. }
    destruct (Scripts.is_requirement
                (Text.strip (hd EmptyString (PyStr.split "#" pn)))).
    2:{ apply (Hskip _ res Hrun).
        - exists []. rewrite app_nil_r. repeat split; try reflexivity.
          intros Hr Hr0. rewrite Hr in Hr0. discriminate.
        - exact Hmark.
        - intros _. exact Hpn.
        - intros Hr. exact Hr. }
    set (cmd := Scripts.make_pip_cmd H
                  ["install"; Text.strip (hd EmptyString (PyStr.split "#" pn))]) in *.
    destruct res.
    + destruct (Scripts.try_install_script H url repo cmd instant
                  (Scripts.mark_processed pn st)) as [st1 [b1|e]] eqn:Htry;
        [|discriminate].
      pose proof (try_install_script_processed H url repo cmd instant
                    (Scripts.mark_processed pn st)) as Hp1.
      pose proof (try_install_script_grows H url repo cmd instant
                    (Scripts.mark_processed pn st)) as [l1 Hl1].
      rewrite Htry in Hp1, Hl1. cbn [fst] in Hp1, Hl1.
      apply (Hskip st1 b1 Hrun).
      * exists l1. split; [exact Hl1|]. split.
        -- discriminate.
        -- intros _ Hb1. subst b1.
           destruct (try_install_script_false H url repo _ instant _ _ Htry)
             as [He Hf].
           exists [], (cmd, repo).
           split; [|exact Hf].
           rewrite He in Hl1. apply app_inv_head in Hl1. symmetry. exact Hl1.
      * intros x Hx. rewrite Hp1. apply Hmark, Hx.
      * intros _. rewrite Hp1. exact Hpn.
      * discriminate.
    + apply (Hskip _ false Hrun).
      * exists []. rewrite app_nil_r. repeat split; try reflexivity.
        intros Hr. discriminate.
      * exact Hmark.
      * intros _. exact Hpn.
      * intros _. reflexivity.
Qed.

Lemma install_requirements_noop H url repo instant lines st res :
  (forall line, In line lines ->
     Scripts.is_requirement (Scripts.package_name_of H line) = true ->
     Text.mem (Scripts.package_name_of H line) (Scripts.processed_install st) = true) ->
  Scripts.install_requirements H url repo instant lines st res = (st, Returns res).
Proof.
  induction lines as [|line rest IH]; intros Hall; [reflexivity|].
  cbn [Scripts.install_requirements].
  destruct (Scripts.is_requirement (Scripts.package_name_of H line)) eqn:Hq.
  - rewrite (Hall line (or_introl eq_refl) Hq). cbn [negb andb].
    apply IH. intros l Hl. apply Hall. right. exact Hl.
  - cbn [andb]. apply IH. intros l Hl. apply Hall. right. exact Hl.
Qed.

Lemma requirements_step_spec H url repo files instant no_deps st st' b :
  Scripts.requirements_step H url repo files instant no_deps st = (st', Returns b) ->
  (b = false ->
   exists pre run,
     Scripts.executed st' = Scripts.executed st ++ pre ++ [run]
     /\ Scripts.failed_command H run)
  /\ (exists l, Scripts.executed st' = Scripts.executed st ++ l)
  /\ (forall x, Text.mem x (Scripts.processed_install st) = true ->
                Text.mem x (Scripts.processed_install st') = true)
  /\ (forall lines line,
        Scripts.requirements_txt files = Some lines -> no_deps = false ->
        In line lines ->
        Scripts.is_requirement (Scripts.package_name_of H line) = true ->
        Text.mem (Scripts.package_name_of H line) (Scripts.processed_install st') = true).
Proof.
  unfold Scripts.requirements_step. intros Hrun.
  assert (Htriv : (st, Returns true) = (st', Returns b) ->
                  (b = false ->
                   exists pre run,
                     Scripts.executed st' = Scripts.executed st ++ pre ++ [run]
                     /\ Scripts.failed_command H run)
                  /\ (exists l, Scripts.executed st' = Scripts.executed st ++ l)
                  /\ (forall x, Text.mem x (Scripts.processed_install st) = true ->
                                Text.mem x (Scripts.processed_install st') = true)).
  { intros Heq. injection Heq as Hst Hb. subst st' b.
    refine (conj _ (conj _ _)).
    - discriminate.
    - exists []. rewrite app_nil_r. reflexivity.
    - intros x Hx. exact Hx. }
  destruct (Scripts.requirements_txt files) as [lines|] eqn:Hreq.
  - destruct no_deps; cbn [negb] in Hrun.
    + destruct (Htriv Hrun) as [T1 [T2 T3]].
      refine (conj T1 (conj T2 (conj T3 _))). intros l line _ Hn. discriminate Hn.
    + destruct (install_requirements_spec H url repo instant lines _ _ _ _ Hrun)
        as [_ [I2 [I3 [I4 I5]]]].
      refine (conj (I2 eq_refl) (conj I3 (conj I4 _))).
      intros l line Hl _ Hin Hq. injection Hl as Hl. subst l. apply I5; assumption.
  - destruct (Htriv Hrun) as [T1 [T2 T3]].
    refine (conj T1 (conj T2 (conj T3 _))). intros l line Hl. discriminate Hl.
Qed.

Lemma execute_install_script_eq H url repo files instant no_deps st :
  Scripts.execute_install_script H url repo files instant false no_deps st
  = match Scripts.requirements_step H url repo files instant no_deps st with
    | (st1, Raises e) => (st1, Raises e)
    | (st1, Returns res) =>
        if Scripts.install_py files
           && negb (Text.mem (Scripts.path_join repo "install.py")
                             (Scripts.processed_install st1))
        then
          if res
          then Scripts.try_install_script H url repo
                 [Scripts.sys_executable H; "install.py"] instant
                 (Scripts.mark_processed (Scripts.path_join repo "install.py") st1)
          else (Scripts.mark_processed (Scripts.path_join repo "install.py") st1,
                Returns false)
        else (st1, Returns res)
    end.
Proof. reflexivity. Qed.

Lemma execute_lazy H url repo files instant no_deps st :
  Scripts.execute_install_script H url repo files instant true no_deps st
  = (Scripts.reserve_script repo ["#LAZY-INSTALL-SCRIPT"; Scripts.sys_executable H] st,
     Returns true).
Proof. reflexivity. Qed.

(** What a run of [execute_install_script] that returned leaves behind. *)
Lemma execute_install_script_spec H url repo files instant no_deps st st' b :
  Scripts.execute_install_script H url repo files instant false no_deps st
  = (st', Returns b) ->
  (b = false ->
   exists pre run,
     Scripts.executed st' = Scripts.executed st ++ pre ++ [run]
     /\ Scripts.failed_command H run)
  /\ (Scripts.install_py files = true ->
      Text.mem (Scripts.path_join repo "install.py") (Scripts.processed_install st') = true)
  /\ (forall lines line,
        Scripts.requirements_txt files = Some lines -> no_deps = false ->
        In line lines ->
        Scripts.is_requirement (Scripts.package_name_of H line) = true ->
        Text.mem (Scripts.package_name_of H line) (Scripts.processed_install st') = true).
Proof.
  rewrite execute_install_script_eq.
  destruct (Scripts.requirements_step H url repo files instant no_deps st)
    as [st1 [res|e]] eqn:Hreq;
    [|discriminate].
  destruct (requirements_step_spec H url repo files instant no_deps st st1 res Hreq)
    as [R1 [[l R2] [R3 R4]]].
  set (path := Scripts.path_join repo "install.py") in *.
  destruct (Scripts.install_py files) eqn:Hpy; cbn [andb].
  - destruct (Text.mem path (Scripts.processed_install st1)) eqn:Hin; cbn [negb].
    + intros Heq. injection Heq as Hst Hb. subst st1 res.
      refine (conj R1 (conj (fun _ => Hin) R4)).
    + assert (Hpath : Text.mem path (Scripts.processed_install
                                       (Scripts.mark_processed path st1)) = true).
      { rewrite mem_mark_processed, String.eqb_refl, orb_true_r. reflexivity. }
      assert (Hkeep : forall x, Text.mem x (Scripts.processed_install st1) = true ->
                        Text.mem x (Scripts.processed_install
                                      (Scripts.mark_processed path st1)) = true).
      { intros x Hx. rewrite mem_mark_processed, Hx. reflexivity. }
      destruct res.
      * intros Htry.
        pose proof (try_install_script_processed H url repo
                      [Scripts.sys_executable H; "install.py"] instant
                      (Scripts.mark_processed path st1)) as Hp.
        rewrite Htry in Hp. cbn [fst] in Hp.
        refine (conj _ (conj _ _)).
        -- intros Hb. subst b.
           destruct (try_install_script_false H url repo _ instant _ _ Htry) as [He Hf].
           exists l, ([Scripts.sys_executable H; "install.py"], repo).
           split; [|exact Hf]. rewrite He. cbn [Scripts.executed Scripts.mark_processed].
           rewrite R2, <- app_assoc. reflexivity.
        -- intros _. rewrite Hp. exact Hpath.
        -- intros lines line Hl Hn Hi Hq. rewrite Hp. apply Hkeep.
           apply (R4 lines line); assumption.
      * intros Heq. injection Heq as Hst Hb. subst st' b.
        refine (conj _ (conj (fun _ => Hpath) _)).
        -- intros _. destruct (R1 eq_refl) as [pre [run [He Hf]]].
           exists pre, run. split; [exact He|exact Hf].
        -- intros lines line Hl Hn Hi Hq. apply Hkeep.
           apply (R4 lines line); assumption.
  - intros Heq. injection Heq as Hst Hb. subst st1 res.
    refine (conj R1 (conj _ R4)). discriminate.
Qed.

(** A False result of [execute_install_script] means that the last
    command it ran is one that did not exit with 0: nothing is run
    after a failure, since [res and try_install_script(...)] stops
    calling. The requirements that follow the failing one and
    [install.py] are nevertheless marked as processed. *)
Theorem failure_is_the_last_command_run :
  forall (H : Scripts.Host) (url repo : string) (files : Scripts.RepoFiles)
         (instant lazy_mode no_deps : bool) (st st' : Scripts.State),
    Scripts.execute_install_script H url repo files instant lazy_mode no_deps st
    = (st', Returns false) ->
    (exists pre run,
        Scripts.executed st' = Scripts.executed st ++ pre ++ [run]
        /\ Scripts.failed_command H run)
    /\ (Scripts.install_py files = true ->
        Text.mem (Scripts.path_join repo "install.py")
                 (Scripts.processed_install st') = true)
    /\ (forall lines line,
          Scripts.requirements_txt files = Some lines -> no_deps = false ->
          In line lines ->
          Scripts.is_requirement (Scripts.package_name_of H line) = true ->
          Text.mem (Scripts.package_name_of H line)
                   (Scripts.processed_install st') = true).
Proof.
  intros H url repo files instant lazy_mode no_deps st st' Hrun.
  destruct lazy_mode; [rewrite execute_lazy in Hrun; discriminate|].
  destruct (execute_install_script_spec H url repo files instant no_deps st st' false Hrun)
    as [S1 [S2 S3]].
  exact (conj (S1 eq_refl) (conj S2 S3)).
Qed.

Lemma failure_is_the_last_command_run_witness :
  exists st',
    Scripts.execute_install_script Scripts.sample_host "foo" "custom_nodes/foo"
      (Scripts.mkRepoFiles (Some ["good"; "bad"; "later"]) true) true false false
      (Scripts.mkState [] [] [])
    = (st', Returns false)
    /\ Scripts.executed st'
       = [(["python"; "-m"; "pip"; "install"; "good"], "custom_nodes/foo");
          (["python"; "-m"; "pip"; "install"; "bad"], "custom_nodes/foo")]
    /\ Text.mem "later" (Scripts.processed_install st') = true.
Proof.
  eexists. split; [vm_compute; reflexivity|]. split; [reflexivity|].
  refine (proj2 (proj2 (failure_is_the_last_command_run Scripts.sample_host "foo"
            "custom_nodes/foo"
            (Scripts.mkRepoFiles (Some ["good"; "bad"; "later"]) true)
            true false false (Scripts.mkState [] [] []) _ _))
            ["good"; "bad"; "later"] "later" eq_refl eq_refl _ eq_refl).
  - vm_compute. reflexivity.
  - right. right. left. reflexivity.
Defined.

(** Every requirement and [install.py] are handled once per manager:
    when a run of [execute_install_script] has returned, whatever its
    result, the same run again executes and reserves nothing and
    returns True. *)
Theorem repeated_run_is_a_no_op :
  forall (H : Scripts.Host) (url repo : string) (files : Scripts.RepoFiles)
         (instant no_deps : bool) (st st1 : Scripts.State) (b : bool),
    Scripts.execute_install_script H url repo files instant false no_deps st
    = (st1, Returns b) ->
    Scripts.execute_install_script H url repo files instant false no_deps st1
    = (st1, Returns true).
Proof.
  intros H url repo files instant no_deps st st1 b Hrun.
  destruct (execute_install_script_spec H url repo files instant no_deps st st1 b Hrun)
    as [_ [S2 S3]].
  rewrite execute_install_script_eq.
  assert (Hreq : Scripts.requirements_step H url repo files instant no_deps st1
                 = (st1, Returns true)).
  { unfold Scripts.requirements_step.
    destruct (Scripts.requirements_txt files) as [lines|] eqn:Hl; [|reflexivity].
    destruct no_deps; [reflexivity|]. cbn [negb].
    apply install_requirements_noop. intros line Hi Hq.
    apply (S3 lines line eq_refl eq_refl Hi Hq). }
  rewrite Hreq.
  destruct (Scripts.install_py files); [|reflexivity].
  rewrite (S2 eq_refl). reflexivity.
Qed.

Lemma repeated_run_is_a_no_op_witness :
  exists st1,
    Scripts.execute_install_script Scripts.sample_host "foo" "custom_nodes/foo"
      (Scripts.mkRepoFiles (Some ["good"; "bad"; "later"]) true) true false false
      (Scripts.mkState [] [] [])
    = (st1, Returns false)
    /\ Scripts.execute_install_script Scripts.sample_host "foo" "custom_nodes/foo"
         (Scripts.mkRepoFiles (Some ["good"; "bad"; "later"]) true) true false false st1
       = (st1, Returns true).
Proof.
  eexists. split; [vm_compute; reflexivity|].
  apply (repeated_run_is_a_no_op Scripts.sample_host "foo" "custom_nodes/foo"
           (Scripts.mkRepoFiles (Some ["good"; "bad"; "later"]) true) true false
           (Scripts.mkState [] [] []) _ false).
  vm_compute. reflexivity.
Defined.

Lemma try_install_script_deferred H url repo cmd st :
  (Scripts.platform_is_windows H || Scripts.always_lazy_install H)%bool = true ->
  Scripts.try_install_script H url repo cmd false st
  = (Scripts.reserve_script repo cmd st, Returns true).
Proof.
  intros Hd. unfold Scripts.try_install_script. cbn [negb andb].
  rewrite <- orb_assoc, Hd, orb_true_r. reflexivity.
Qed.

Lemma install_requirements_deferred H url repo lines :
  (Scripts.platform_is_windows H || Scripts.always_lazy_install H)%bool = true ->
  forall st, exists st',
    Scripts.install_requirements H url repo false lines st true = (st', Returns true)
    /\ Scripts.executed st' = Scripts.executed st.
Proof.
  intros Hd. induction lines as [|line rest IH]; intros st.
  - exists st. split; reflexivity.
  - cbn [Scripts.install_requirements].
    destruct (Scripts.is_requirement (Scripts.package_name_of H line)
              && negb (Text.mem (Scripts.package_name_of H line)
                                (Scripts.processed_install st))); [|apply IH].
    destruct (Scripts.is_requirement _).
    + rewrite (try_install_script_deferred H url repo _ _ Hd).
      destruct (IH (Scripts.reserve_script repo
                      (Scripts.make_pip_cmd H
                         ["install";
                          Text.strip (hd EmptyString
                                        (PyStr.split "#" (Scripts.package_name_of H line)))])
                      (Scripts.mark_processed (Scripts.package_name_of H line) st)))
        as [st' [Hr He]].
      exists st'. split; [exact Hr|]. rewrite He. reflexivity.
    + destruct (IH (Scripts.mark_processed (Scripts.package_name_of H line) st))
        as [st' [Hr He]].
      exists st'. split; [exact Hr|]. rewrite He. reflexivity.
Qed.

(** Where commands are deferred to the next start (the lazy mode, and
    without [instant_execution] on Windows or with
    [always_lazy_install]), [execute_install_script] runs nothing: the
    commands go to [install-scripts.txt], and the result is True
    whatever the commands would do. *)
Theorem deferred_commands_report_success :
  forall (H : Scripts.Host) (url repo : string) (files : Scripts.RepoFiles)
         (instant lazy_mode no_deps : bool) (st : Scripts.State),
    lazy_mode = true
    \/ (instant = false
        /\ (Scripts.platform_is_windows H || Scripts.always_lazy_install H)%bool = true) ->
    exists st',
      Scripts.execute_install_script H url repo files instant lazy_mode no_deps st
      = (st', Returns true)
      /\ Scripts.executed st' = Scripts.executed st
      /\ (lazy_mode = true ->
          Scripts.install_scripts st'
          = Scripts.install_scripts st
              ++ [[repo; "#LAZY-INSTALL-SCRIPT"; Scripts.sys_executable H]]
          /\ Scripts.processed_install st' = Scripts.processed_install st).
Proof.
  intros H url repo files instant lazy_mode no_deps st Hd.
  destruct lazy_mode.
  - rewrite execute_lazy. eexists. split; [reflexivity|].
    split; [reflexivity|]. intros _. split; reflexivity.
  - destruct Hd as [Hd|[Hi Hd]]; [discriminate|]. subst instant.
    rewrite execute_install_script_eq.
    assert (Hreq : exists st1,
               Scripts.requirements_step H url repo files false no_deps st
               = (st1, Returns true)
               /\ Scripts.executed st1 = Scripts.executed st).
    { unfold Scripts.requirements_step.
      destruct (Scripts.requirements_txt files) as [lines|];
        [|exists st; split; reflexivity].
      destruct no_deps; [exists st; split; reflexivity|]. cbn [negb].
      apply install_requirements_deferred. exact Hd. }
    destruct Hreq as [st1 [Hr He]]. rewrite Hr.
    destruct (Scripts.install_py files
              && negb (Text.mem (Scripts.path_join repo "install.py")
                                (Scripts.processed_install st1))).
    + rewrite (try_install_script_deferred H url repo _ _ Hd).
      eexists. split; [reflexivity|]. split; [exact He|discriminate].
    + exists st1. split; [reflexivity|]. split; [exact He|discriminate].
Qed.

Lemma deferred_commands_report_success_witness :
  exists st',
    Scripts.execute_install_script
      (Scripts.mkHost (Pip.mkConfig [] [] [] [] StrictVersion.parse) "python" true false
         (fun _ _ => Returns 1%Z) (fun args => ["python"; "-m"; "pip"] ++ args))
      "foo" "custom_nodes/foo" (Scripts.mkRepoFiles (Some ["bad"]) true)
      false false false (Scripts.mkState [] [] [])
    = (st', Returns true)
    /\ Scripts.executed st' = [].
Proof.
  destruct (deferred_commands_report_success
              (Scripts.mkHost (Pip.mkConfig [] [] [] [] StrictVersion.parse) "python"
                 true false
                 (fun _ _ => Returns 1%Z) (fun args => ["python"; "-m"; "pip"] ++ args))
              "foo" "custom_nodes/foo" (Scripts.mkRepoFiles (Some ["bad"]) true)
              false false false (Scripts.mkState [] [] []))
    as [st' [Hr [He _]]]; [right; split; reflexivity|].
  exists st'. split; [exact Hr|exact He].
Defined.

(** With [manager_funcs] as the module defines it, [run_script] returns
    0 or lets [subprocess.check_call] raise: [execute_install_script]
    then never returns False. A failing command leaves it as the
    exception [CalledProcessError]. *)
Theorem default_run_script_never_reports_failure :
  forall (H : Scripts.Host) (check_call : list string -> string -> bool)
         (url repo : string) (files : Scripts.RepoFiles)
         (instant lazy_mode no_deps : bool) (st st' : Scripts.State) (b : bool),
    (forall cmd cwd,
        Scripts.run_script H cmd cwd = Scripts.ManagerFuncs_run_script check_call cmd cwd) ->
    Scripts.execute_install_script H url repo files instant lazy_mode no_deps st
    = (st', Returns b) ->
    b = true.
Proof.
  intros H check_call url repo files instant lazy_mode no_deps st st' b Hdef Hrun.
  destruct lazy_mode.
  - rewrite execute_lazy in Hrun. injection Hrun as _ Hb. symmetry. exact Hb.
  - destruct b; [reflexivity|]. exfalso.
    destruct (execute_install_script_spec H url repo files instant no_deps st st' false Hrun)
      as [S1 _].
    destruct (S1 eq_refl) as [pre [run [_ [code [Hc Hne]]]]].
    rewrite Hdef in Hc. unfold Scripts.ManagerFuncs_run_script in Hc.
    destruct (Scripts.is_lazy_command (fst run)).
    + injection Hc as Hc. apply Hne. symmetry. exact Hc.
    + destruct (check_call (fst run) (snd run)); [|discriminate].
      injection Hc as Hc. apply Hne. symmetry. exact Hc.
Qed.

Lemma default_run_script_never_reports_failure_witness :
  exists st' b,
    Scripts.execute_install_script
      (Scripts.mkHost (Pip.mkConfig [] [] [] [] StrictVersion.parse) "python" false false
         (Scripts.ManagerFuncs_run_script (fun cmd _ => negb (Text.mem "bad" cmd)))
         (fun args => ["python"; "-m"; "pip"] ++ args))
      "foo" "custom_nodes/foo" (Scripts.mkRepoFiles (Some ["good"]) false)
      true false false (Scripts.mkState [] [] [])
    = (st', Returns b)
    /\ b = true.
Proof.
  eexists _, _. split; [vm_compute; reflexivity|].
  apply (default_run_script_never_reports_failure
           (Scripts.mkHost (Pip.mkConfig [] [] [] [] StrictVersion.parse) "python"
              false false
              (Scripts.ManagerFuncs_run_script (fun cmd _ => negb (Text.mem "bad" cmd)))
              (fun args => ["python"; "-m"; "pip"] ++ args))
           (fun cmd _ => negb (Text.mem "bad" cmd))
           "foo" "custom_nodes/foo" (Scripts.mkRepoFiles (Some ["good"]) false)
           true false false (Scripts.mkState [] [] [])
           (Scripts.mkState ["good"] []
              [(["python"; "-m"; "pip"; "install"; "good"], "custom_nodes/foo")])
           true (fun _ _ => eq_refl)).
  vm_compute. reflexivity.
Defined.

(* ================================================================== *)
(** * A switch to a Nightly that is not there *)

Lemma is_enabled_scan_nightly (E : Env) l :
  exists b, is_enabled_scan E (Some "nightly") l = Ok b.
Proof.
  induction l as [|x l IH]; [exists false; reflexivity|].
  cbn [is_enabled_scan]. destruct (pk_is_enabled x); [|exact IH].
  change (String.eqb "nightly" "nightly") with true. cbv iota.
  exists (is_nightly x). reflexivity.
Qed.

Lemma is_disabled_scan_no_nightly (E : Env) l :
  (forall x, In x l -> pk_is_disabled x = true -> is_nightly x = false) ->
  is_disabled_scan E "nightly" l = Ok false.
Proof.
  induction l as [|x l IH]; intros H; [reflexivity|].
  cbn [is_disabled_scan].
  assert (Hrest : is_disabled_scan E "nightly" l = Ok false)
    by (apply IH; intros y Hy; apply H; right; exact Hy).
  destruct (pk_is_disabled x) eqn:Hd; [|exact Hrest].
  change (String.eqb "nightly" "nightly") with true. cbv iota.
  rewrite (H x (or_introl eq_refl) Hd). exact Hrest.
Qed.

Lemma unified_disable_result_true (E : Env) m packname m' r :
  unified_disable E m packname = (m', Ok r) -> result r = true.
Proof.
  unfold unified_disable.
  destruct (disable_scan _) as [[x|] [a|]];
    try (intros H; inversion H; reflexivity).
  destruct (shutil_move _ _ _); intros H; inversion H; reflexivity.
Qed.

Lemma unified_enable_without_nightly (E : Env) m packname :
  (forall x, In x (get_packages_by_name_or_url E m packname) ->
             pk_is_disabled x = true -> is_nightly x = false) ->
  exists r, unified_enable E m packname (Some "nightly") = (m, Ok r)
            /\ action r = "skip" /\ result r = true /\ target_path r = None.
Proof.
  intros H. unfold unified_enable, is_enabled, is_disabled.
  destruct (is_enabled_scan_nightly E (get_packages_by_name_or_url E m packname))
    as [b Hb].
  rewrite Hb. destruct b.
  - eexists. split; [reflexivity|]. repeat split.
  - rewrite (is_disabled_scan_no_nightly E _ H).
    eexists. split; [reflexivity|]. repeat split.
Qed.

(** [switch_version] to 'nightly' goes ahead as soon as any disabled
    instance exists, since [get_inactive_pack] falls back to another
    version. When no disabled instance is a Nightly, the enabled
    instance is moved away all the same, [unified_enable] then answers
    with a skip that has no target path, and the dependency step is
    called on [None]: the switch ends in [TypeError], or, with
    [return_postinstall], in a successful result whose callback will
    raise it. Nothing is enabled afterwards. *)
Theorem switch_to_missing_nightly_disables_only :
  forall (E : Env) (m : Manager) (packname : string) (fl : Flags)
         (fallback : InstalledNodePackage),
    get_inactive_pack E m packname (Some "nightly") = Ok (Some fallback) ->
    (forall x, In x (get_packages_by_name_or_url E m packname) ->
               pk_is_disabled x = true -> is_nightly x = false) ->
    (forall a, get_active_pack E m packname = Some a ->
               exists dr, snd (unified_disable E m (pk_id a)) = Ok dr) ->
    let m1 := match get_active_pack E m packname with
              | Some a => fst (unified_disable E m (pk_id a))
              | None => m
              end in
    switch_version E packname (Some "nightly") fl m
    = (m1,
       if return_postinstall fl
       then Ok (with_postinstall (new_result "switch-version")
                  (ExecuteInstallScript
                     (mkPostinstall (packname ++ "@nightly")%string None
                                    (instant_execution fl) (no_deps fl))))
       else Raise TypeError).
Proof.
  intros E m packname fl fallback Hfb Hno Hdis m1.
  unfold switch_version. change (opt_str_eqb "nightly" (Some "nightly")) with true.
  cbv iota.
  unfold bind at 1. unfold ask at 1. rewrite Hfb.
  unfold bind at 1. unfold ask_pure at 1.
  assert (Hidx : installed_node_packages m1 = installed_node_packages m).
  { unfold m1. destruct (get_active_pack E m packname); [|reflexivity].
    apply unified_disable_index. }
  assert (Hno1 : forall x, In x (get_packages_by_name_or_url E m1 packname) ->
                           pk_is_disabled x = true -> is_nightly x = false).
  { intros x Hx. rewrite (lookup_index_only E m m1 packname Hidx) in Hx.
    apply Hno. exact Hx. }
  destruct (unified_enable_without_nightly E m1 packname Hno1)
    as [r [Hen [_ [Hres Htp]]]].
  assert (Htail : forall m0, m0 = m1 ->
            (enable_result <~
               (fun m : Manager => unified_enable E m packname (Some "nightly"));;
             (if negb (result enable_result)
              then ret (fail (new_result "switch-version")
                          ("Failed to enable Nightly version: "
                             ++ opt_show (msg enable_result)))
              else
                finish_with_postinstall E fl
                  (mkResult (action (new_result "switch-version"))
                     (items (new_result "switch-version"))
                     (result (new_result "switch-version"))
                     (to_path (new_result "switch-version"))
                     (msg (new_result "switch-version"))
                     (target_path enable_result)
                     (target_version (new_result "switch-version"))
                     (postinstall (new_result "switch-version"))
                     (ver (new_result "switch-version")))
                  (mkPostinstall (packname ++ "@nightly") (target_path enable_result)
                     (instant_execution fl) (no_deps fl))
                  ("Failed to execute install script: " ++ packname ++ "@nightly")))
              m0
            = (m1,
               if return_postinstall fl
               then Ok (with_postinstall (new_result "switch-version")
                          (ExecuteInstallScript
                             (mkPostinstall (packname ++ "@nightly")%string None
                                (instant_execution fl) (no_deps fl))))
               else Raise TypeError)).
  { intros m0 Hm0. subst m0. unfold bind at 1. rewrite Hen, Hres. cbn [negb].
    rewrite Htp. unfold finish_with_postinstall.
    destruct (return_postinstall fl); [reflexivity|].
    unfold bind, ask, run_postinstall. reflexivity. }
  destruct (get_active_pack E m packname) as [a|] eqn:Ha.
  - destruct (Hdis a eq_refl) as [dr Hdr].
    unfold bind at 1. unfold bind at 1.
    destruct (unified_disable E m (pk_id a)) as [m' out] eqn:Hd.
    cbn [snd] in Hdr. subst out. unfold ret at 1.
    rewrite (unified_disable_result_true E m (pk_id a) m' dr Hd). cbn [fst negb].
    apply Htail. reflexivity.
  - unfold bind at 1. unfold ret at 1. cbn [fst negb].
    apply Htail. reflexivity.
Qed.

Lemma switch_to_missing_nightly_disables_only_witness :
  exists m1,
    switch_version (Demo.env true) "foo" (Some "nightly") (Demo.flags false)
                   (Demo.fresh (Demo.env true) Sample.release_and_older)
    = (m1, Raise TypeError)
    /\ fs m1 = [Demo.disabled_dir [Demo.release "foo@1_0_0" "foo" "1.0.0" "Foo";
                                   Demo.release "foo@1_0_1" "foo" "1.0.1" "Foo"]].
Proof.
  eexists. split.
  - apply (switch_to_missing_nightly_disables_only (Demo.env true)
             (Demo.fresh (Demo.env true) Sample.release_and_older) "foo"
             (Demo.flags false)
             (mkPkg "foo" [".disabled"; "foo@1_0_0"] true "1.0.0" None)).
    + vm_compute. reflexivity.
    + intros x Hx _. vm_compute in Hx.
      destruct Hx as [Hx|[Hx|[]]]; subst x; reflexivity.
    + intros a Ha. vm_compute in Ha. injection Ha as Ha. subst a.
      eexists. vm_compute. reflexivity.
  - vm_compute. reflexivity.
Defined.

(* ================================================================== *)
(** * Properties of the list of installed packs *)

Lemma mem_add x y l :
  Text.mem x (Installed.add y l) = (Text.mem x l || String.eqb x y)%bool.
Proof.
  unfold Installed.add. destruct (Text.mem y l) eqn:Hy.
  - destruct (String.eqb_spec x y) as [He|He]; [|rewrite orb_false_r; reflexivity].
    subst x. rewrite Hy. reflexivity.
  - unfold Text.mem. rewrite existsb_app. cbn [existsb]. rewrite orb_false_r.
    reflexivity.
Qed.

Lemma mem_in x l : Text.mem x l = true -> In x l.
Proof.
  unfold Text.mem. intros H. apply existsb_exists in H. destruct H as [y [Hy He]].
  apply String.eqb_eq in He. subst y. exact Hy.
Qed.

Section InstalledList.

Variable read_cnr_id : Meta -> option string.
Variable normalize_to_github_id : string -> option string.

Lemma first_pass_gathers l :
  forall seen acc,
    Installed.gathered read_cnr_id normalize_to_github_id seen acc ->
    Installed.gathered read_cnr_id normalize_to_github_id (seen ++ l)
      (fold_left (Installed.first_pass_step read_cnr_id normalize_to_github_id) l acc).
Proof.
  induction l as [|d l IH]; intros seen acc Hacc.
  - rewrite app_nil_r. exact Hacc.
  - cbn [fold_left].
    replace (seen ++ d :: l) with ((seen ++ [d]) ++ l)
      by (rewrite <- app_assoc; reflexivity).
    apply IH. destruct acc as [[res cnr_ids] aux_ids].
    destruct Hacc as [Hen Hids].
    unfold Installed.first_pass_step.
    destruct (is_reserved_name (d_name d)) eqn:Hres.
    { split; [exact Hen|]. intros d0 i Hd0 Hr Hi.
      apply in_app_or in Hd0. destruct Hd0 as [Hd0|[Hd0|[]]].
      - apply (Hids d0 i Hd0 Hr Hi).
      - subst d0. rewrite Hres in Hr. discriminate. }
    destruct (Installed.identify_node_pack_from_path read_cnr_id normalize_to_github_id
                [d_name d] (d_meta d)) as [info|] eqn:Hinfo.
    2:{ split; [exact Hen|]. intros d0 i Hd0 Hr Hi.
        apply in_app_or in Hd0. destruct Hd0 as [Hd0|[Hd0|[]]].
        - apply (Hids d0 i Hd0 Hr Hi).
        - subst d0. rewrite Hinfo in Hi. discriminate. }
    split.
    + intros k e. destruct (String.eqb_spec k (Installed.i_module_name info)) as [He|He].
      * subst k. rewrite dict_get_set_same. intros H. inversion H. reflexivity.
      * rewrite dict_get_set_other by exact He. apply Hen.
    + intros d0 i Hd0 Hr Hi.
      apply in_app_or in Hd0. destruct Hd0 as [Hd0|[Hd0|[]]].
      * destruct (Hids d0 i Hd0 Hr Hi) as [H1 H2]. split.
        -- intros Hn. destruct (Installed.nonempty (Installed.i_cnr_id info));
             [rewrite mem_add, (H1 Hn); reflexivity|exact (H1 Hn)].
        -- intros aux Ha Hn. specialize (H2 aux Ha Hn).
           destruct (Installed.i_aux_id info) as [a|]; [|exact H2].
           destruct (Installed.nonempty a); [rewrite mem_add, H2; reflexivity|exact H2].
      * subst d0. rewrite Hinfo in Hi. injection Hi as Hi. subst i. split.
        -- intros Hn. rewrite Hn, mem_add, String.eqb_refl, orb_true_r. reflexivity.
        -- intros aux Ha Hn. rewrite Ha, Hn, mem_add, String.eqb_refl, orb_true_r.
           reflexivity.
Qed.

Lemma second_pass_keeps cnr_ids aux_ids l :
  forall acc,
    (forall x, In x (fst acc) ->
               Installed.has_enabled_version (fst x) cnr_ids aux_ids = false) ->
    forall x,
      In x (fst (fold_left
                   (Installed.second_pass_step read_cnr_id normalize_to_github_id
                      cnr_ids aux_ids) l acc)) ->
              Installed.has_enabled_version (fst x) cnr_ids aux_ids = false.
Proof.
  induction l as [|d l IH]; intros acc Hacc; [exact Hacc|].
  cbn [fold_left]. apply IH.
  destruct acc as [packages ids]. unfold Installed.second_pass_step.
  destruct (String.eqb (d_name d) "__pycache__"); [exact Hacc|].
  destruct (Installed.identify_node_pack_from_path _ _ _ _) as [info|]; [|exact Hacc].
  destruct (Installed.has_enabled_version info cnr_ids aux_ids) eqn:Hh; [exact Hacc|].
  cbn [fst]. intros x Hx. apply in_app_or in Hx. destruct Hx as [Hx|[Hx|[]]].
  - apply Hacc. exact Hx.
  - subst x. exact Hh.
Qed.

Lemma report_disabled_entries ids l :
  forall res k e,
    PyDict.get k (fold_left (Installed.report_disabled ids) l res) = Some e ->
    PyDict.get k res = Some e
    \/ exists x, In x l /\ e = Installed.entry_of (fst x) false.
Proof.
  induction l as [|x l IH]; intros res k e H; [left; exact H|].
  cbn [fold_left] in H. destruct (IH _ k e H) as [Hres|[y [Hy He]]].
  - unfold Installed.report_disabled in Hres.
    destruct (Installed.has_disabled_cnr (fst x) (snd x) ids); [left; exact Hres|].
    destruct (String.eqb_spec k (Installed.i_module_name (fst x))) as [Hk|Hk].
    + subst k. rewrite dict_get_set_same in Hres. injection Hres as Hres.
      right. exists x. split; [left; reflexivity|symmetry; exact Hres].
    + rewrite dict_get_set_other in Hres by exact Hk. left. exact Hres.
  - right. exists y. split; [right; exact Hy|exact He].
Qed.

(** A pack that [get_installed_nodepacks] reports as disabled has no
    enabled counterpart in the active root: no identified directory
    there has the same registry id or the same repository id, letter
    case aside, nor a repository id that ends in its registry id. *)
Theorem reported_disabled_has_no_enabled_twin :
  forall (t : FS) (name : string) (e : Installed.Entry),
    PyDict.get name
      (Installed.get_installed_nodepacks read_cnr_id normalize_to_github_id t) = Some e ->
    Installed.e_enabled e = false ->
    forall (d : Dir) (i : Installed.Info),
      In d t -> is_reserved_name (d_name d) = false ->
      Installed.identify_node_pack_from_path read_cnr_id normalize_to_github_id
        [d_name d] (d_meta d) = Some i ->
      (Installed.e_cnr_id e <> "" -> Installed.i_cnr_id i <> "" ->
       PyStr.lower (Installed.i_cnr_id i) <> PyStr.lower (Installed.e_cnr_id e))
      /\ (forall a b,
            Installed.e_aux_id e = Some a -> a <> "" ->
            Installed.i_aux_id i = Some b -> b <> "" ->
            PyStr.lower b <> PyStr.lower a)
      /\ (forall b,
            Installed.e_cnr_id e <> "" ->
            Installed.i_aux_id i = Some b -> b <> "" ->
            Installed.aux_matches_cnr (PyStr.lower (Installed.e_cnr_id e))
                                      (PyStr.lower b) = false).
Proof.
  intros t name e Hget Hdis d i Hd Hres Hi.
  unfold Installed.get_installed_nodepacks in Hget.
  pose proof (first_pass_gathers t [] ([], [], [])) as Hg.
  assert (H0 : Installed.gathered read_cnr_id normalize_to_github_id [] ([], [], [])).
  { split; [intros k e0 H; discriminate H|intros d0 i0 []]. }
  specialize (Hg H0). cbn [app] in Hg.
  destruct (fold_left (Installed.first_pass_step read_cnr_id normalize_to_github_id)
              t ([], [], [])) as [[res cnr_ids] aux_ids].
  destruct Hg as [Hen Hids].
  assert (Hne : forall s, s <> "" -> Installed.nonempty s = true).
  { intros s Hs. unfold Installed.nonempty. apply negb_true_iff.
    apply String.eqb_neq. exact Hs. }
  destruct (Hids d i Hd Hres Hi) as [Hcnr Haux].
  destruct (Fs.find ".disabled" t) as [dd|].
  2:{ rewrite (Hen name e Hget) in Hdis. discriminate. }
  pose proof (second_pass_keeps cnr_ids aux_ids (d_children dd) ([], [])) as Hs.
  destruct (fold_left
              (Installed.second_pass_step read_cnr_id normalize_to_github_id
                 cnr_ids aux_ids) (d_children dd) ([], []))
    as [packages ids].
  cbn [fst] in Hs.
  destruct (report_disabled_entries ids packages res name e Hget) as [Hr|[x [Hx He]]].
  { rewrite (Hen name e Hr) in Hdis. discriminate. }
  specialize (Hs (fun y (Hy : In y []) => match Hy with end) x Hx).
  subst e. cbn [Installed.entry_of Installed.e_cnr_id Installed.e_aux_id].
  unfold Installed.has_enabled_version in Hs.
  set (by_cnr := Installed.nonempty (Installed.i_cnr_id (fst x))
                 && Text.mem (PyStr.lower (Installed.i_cnr_id (fst x))) cnr_ids) in *.
  set (by_aux := match Installed.i_aux_id (fst x) with
                 | Some aux => Installed.nonempty aux
                               && Text.mem (PyStr.lower aux) aux_ids
                 | None => false
                 end) in *.
  assert (Hboth : by_cnr = false /\ by_aux = false
                  /\ (Installed.nonempty (Installed.i_cnr_id (fst x)) = true ->
                      existsb (Installed.aux_matches_cnr
                                 (PyStr.lower (Installed.i_cnr_id (fst x)))) aux_ids
                      = false)).
  { destruct (by_cnr || by_aux) eqn:Hf.
    - rewrite andb_false_r in Hs. discriminate Hs.
    - apply orb_false_iff in Hf. destruct Hf as [F1 F2].
      refine (conj F1 (conj F2 _)). intros Hn. rewrite Hn in Hs. exact Hs. }
  destruct Hboth as [F1 [F2 F3]].
  refine (conj _ (conj _ _)).
  - intros Hec Hic Heq. unfold by_cnr in F1.
    rewrite (Hne _ Hec), <- Heq, (Hcnr (Hne _ Hic)) in F1. discriminate.
  - intros a b Ha Hane Hb Hbne Heq. unfold by_aux in F2.
    rewrite Ha, (Hne _ Hane), <- Heq, (Haux b Hb (Hne _ Hbne)) in F2. discriminate.
  - intros b Hec Hb Hbne.
    pose proof (F3 (Hne _ Hec)) as Hex.
    destruct (Installed.aux_matches_cnr (PyStr.lower (Installed.i_cnr_id (fst x)))
                                        (PyStr.lower b)) eqn:Hm; [|reflexivity].
    exfalso.
    assert (Hin : In (PyStr.lower b) aux_ids)
      by (apply mem_in, (Haux b Hb (Hne _ Hbne))).
    assert (Htrue : existsb (Installed.aux_matches_cnr
                               (PyStr.lower (Installed.i_cnr_id (fst x)))) aux_ids = true).
    { apply existsb_exists. exists (PyStr.lower b). split; assumption. }
    rewrite Htrue in Hex. discriminate.
Qed.

End InstalledList.

Lemma reported_disabled_has_no_enabled_twin_witness :
  Installed.get_installed_nodepacks (fun _ => None) (fun _ => Some "owner/Foo")
    Installed.sample_tree
  = [("Foo", Installed.mkEntry "0a1b2c" "" (Some "owner/Foo") true);
     ("bar@1_0_0", Installed.mkEntry "1.0.0" "bar" None false)]
  /\ Installed.aux_matches_cnr "bar" "owner/foo" = false.
Proof.
  split; [vm_compute; reflexivity|].
  destruct (reported_disabled_has_no_enabled_twin (fun _ => None)
              (fun _ => Some "owner/Foo") Installed.sample_tree "bar@1_0_0"
              (Installed.mkEntry "1.0.0" "bar" None false) eq_refl eq_refl
              (MkDir "Foo" (mkMeta (Some "https://github.com/owner/Foo") "0a1b2c"
                              None None) [])
              (Installed.mkInfo "Foo" "0a1b2c" "" (Some "owner/Foo"))
              (or_introl eq_refl) eq_refl eq_refl) as [_ [_ H]].
  apply (H "owner/Foo"); [discriminate|reflexivity|discriminate].
Defined.

(* ================================================================== *)
(** * Disable by URL *)

(** For a URL-like id, [unified_disable] names the slot after the
    directory it moves, in lower case, and not after the id: the
    enabled directory [n] goes to [.disabled/<lower(n)>@<tag>], the tag
    being the version of the release metadata on disk, or else the
    cached version, with every '.' replaced by '_'. *)
Theorem disable_by_url_names_slot_after_directory :
  forall (E : Env) (m : Manager) (packname : string)
         (a : InstalledNodePackage) (n : string) (d : Dir),
    is_url_like packname = true ->
    snd (disable_scan (get_packages_by_name_or_url E m packname)) = Some a ->
    pk_fullpath a = [n] ->
    n <> ".disabled" ->
    Fs.find n (fs m) = Some d ->
    let to_path :=
      ".disabled"
        :: components (PyStr.lower n ++ "@"
                         ++ PyStr.replace "." "_" (slot_version d (pk_version a)))%string in
    exists m',
      unified_disable E m packname
      = (m', Ok (append_item (new_result "disable") (ItemMoved [n] to_path)))
      /\ Fs.lookup [n] (fs m') = None
      /\ Fs.lookup to_path (fs m') = Some (d_rename (List.last to_path "") d).
Proof.
  intros E m packname a n d Hu Hs Hp Hn Hd to_path.
  destruct (unified_disable_moves E m packname _ _ _ Hs Hp Hn Hd) as [Hm [H0 H1]].
  assert (Hdst : disable_to_path E m packname a = to_path).
  { rewrite (disable_to_path_root E m packname a _ Hp).
    unfold to_path, disable_folder_name.
    rewrite Hu, Hp, (disable_installed_version_slot m a _ _ Hp Hd). reflexivity. }
  rewrite Hdst in Hm, H0.
  eexists. split; [exact Hm|].
  unfold to_path in *. split.
  - simpl fs. apply moved_source_is_gone. exact Hn.
  - simpl fs. apply moved_target_is_there; assumption.
Qed.

Lemma disable_by_url_names_slot_after_directory_witness :
  exists m',
    unified_disable (Demo.env true)
      (Demo.fresh (Demo.env true)
         [MkDir "Foo" (mkMeta (Some "https://github.com/owner/Foo") "0a1b2c" None None) []])
      "https://github.com/owner/Foo"
    = (m', Ok (append_item (new_result "disable")
                 (ItemMoved ["Foo"] [".disabled"; "foo@nightly"])))
    /\ Fs.lookup ["Foo"] (fs m') = None.
Proof.
  destruct (disable_by_url_names_slot_after_directory (Demo.env true)
              (Demo.fresh (Demo.env true)
                 [MkDir "Foo" (mkMeta (Some "https://github.com/owner/Foo") "0a1b2c"
                                 None None) []])
              "https://github.com/owner/Foo"
              (mkPkg "https://github.com/owner/Foo" ["Foo"] false "nightly"
                     (Some "https://github.com/owner/Foo"))
              "Foo"
              (MkDir "Foo" (mkMeta (Some "https://github.com/owner/Foo") "0a1b2c"
                              None None) []))
    as [m' [Hr [Hg _]]]; try reflexivity; try discriminate.
  exists m'. split; [exact Hr|exact Hg].
Defined.

(* ================================================================== *)
(** * The invariant: at most one enabled instance of an id *)

(* ------------------------------------------------------------------ *)
(** ** What the active root gains and loses *)

Lemma shrinks_refl (E : Env) t : shrinks E t t.
Proof. intros x H. exact H. Qed.

Lemma shrinks_trans (E : Env) t1 t2 t3 :
  shrinks E t1 t2 -> shrinks E t2 t3 -> shrinks E t1 t3.
Proof. intros H1 H2 x H. apply H1, H2. exact H. Qed.

Lemma shrinks_grows (E : Env) t t' h : shrinks E t t' -> grows_at E t t' h.
Proof. intros H x Hx. left. apply H. exact Hx. Qed.

Lemma grows_shrinks (E : Env) t1 t2 t3 h :
  grows_at E t1 t2 h -> shrinks E t2 t3 -> grows_at E t1 t3 h.
Proof. intros H1 H2 x H. apply H1, H2. exact H. Qed.

Lemma shrinks_then_grows (E : Env) t1 t2 t3 h :
  shrinks E t1 t2 -> grows_at E t2 t3 h -> grows_at E t1 t3 h.
Proof.
  intros H1 H2 x H. destruct (H2 x H) as [H0|H0]; [left; apply H1; exact H0|right; exact H0].
Qed.

Lemma grows_grows (E : Env) t1 t2 t3 h :
  grows_at E t1 t2 h -> grows_at E t2 t3 h -> grows_at E t1 t3 h.
Proof.
  intros H1 H2 x H. destruct (H2 x H) as [H0|H0]; [apply H1; exact H0|right; exact H0].
Qed.

Lemma scan_enabled_of_entries (E : Env) t t' h :
  (forall d', In d' t' -> (exists d, In d t /\ same_entry d' d) \/ d_name d' = h) ->
  grows_at E t t' h.
Proof.
  intros H x Hx. apply scan_enabled_in in Hx. destruct Hx as [d' [Hin [Hr Hx]]].
  destruct (H d' Hin) as [[d [Hd [Hn Hm]]]|Hn].
  - left. apply scan_enabled_in. exists d. rewrite <- Hn, <- Hm.
    repeat split; assumption.
  - right. subst x. rewrite from_fullpath_fullpath, Hn. reflexivity.
Qed.

Lemma shrinks_remove (E : Env) q t : shrinks E t (Fs.remove q t).
Proof.
  intros x Hx. apply scan_enabled_in in Hx. destruct Hx as [d' [Hin [Hr Hx]]].
  destruct (in_remove _ _ _ Hin) as [d [Hd [Hn Hm]]].
  apply scan_enabled_in. exists d. rewrite <- Hn, <- Hm. repeat split; assumption.
Qed.

Lemma in_insert p d t d' :
  In d' (Fs.insert p d t) ->
  (exists d0, In d0 t /\ same_entry d' d0) \/ d_name d' = hd "" p.
Proof.
  destruct p as [|n [|c q]].
  - intros H. left. exists d'. split; [exact H|split; reflexivity].
  - change (Fs.insert [n] d t) with (t ++ [d_rename n d]). intros H.
    apply in_app_or in H. destruct H as [H|[H|[]]].
    + left. exists d'. split; [exact H|split; reflexivity].
    + right. subst d'. destruct d; reflexivity.
  - change (Fs.insert (n :: c :: q) d t)
      with (match Fs.find n t with
            | Some _ => Fs.with_children n (Fs.insert (c :: q) d) t
            | None => t ++ [MkDir n empty_meta (Fs.insert (c :: q) d [])]
            end).
    destruct (Fs.find n t).
    + intros H. left. apply (in_with_children _ _ _ _ H).
    + intros H. apply in_app_or in H. destruct H as [H|[H|[]]].
      * left. exists d'. split; [exact H|split; reflexivity].
      * right. subst d'. reflexivity.
Qed.

Lemma grows_insert (E : Env) p d t : grows_at E t (Fs.insert p d t) (hd "" p).
Proof. apply scan_enabled_of_entries. apply in_insert. Qed.

Lemma scan_enabled_not_reserved (E : Env) t x n :
  In x (scan_enabled E t) -> pk_fullpath x = [n] -> is_reserved_name n = false.
Proof.
  intros Hx Hp. apply scan_enabled_in in Hx. destruct Hx as [d [_ [Hr Hx]]].
  subst x. rewrite from_fullpath_fullpath in Hp. injection Hp as Hp. subst n. exact Hr.
Qed.

Lemma shrinks_insert_inactive (E : Env) q d t :
  shrinks E t (Fs.insert (".disabled" :: q) d t).
Proof.
  intros x Hx. destruct (grows_insert E (".disabled" :: q) d t x Hx) as [H|H]; [exact H|].
  pose proof (scan_enabled_not_reserved E _ _ _ Hx H) as Hr. discriminate Hr.
Qed.

Lemma in_remove_name_neq n t d : In d (Fs.remove_name n t) -> d_name d <> n.
Proof.
  induction t as [|e t IH]; simpl; [tauto|].
  destruct (String.eqb_spec (d_name e) n) as [He|He]; [exact IH|].
  intros [H|H]; [subst e; exact He|apply IH; exact H].
Qed.

(** What a scan finds enabled at a path is in the active root. *)
Lemma scan_enabled_found (E : Env) t x n :
  In x (scan_enabled E t) -> pk_fullpath x = [n] -> Fs.find n t <> None.
Proof.
  intros Hx Hp. apply scan_enabled_in in Hx. destruct Hx as [d [Hin [_ Hx]]].
  subst x. rewrite from_fullpath_fullpath in Hp. injection Hp as Hp.
  apply (find_in _ _ _ Hin Hp).
Qed.

Lemma scan_enabled_path (E : Env) t x :
  In x (scan_enabled E t) -> exists n, pk_fullpath x = [n] /\ is_reserved_name n = false.
Proof.
  intros Hx. apply scan_enabled_in in Hx. destruct Hx as [d [_ [Hr Hx]]].
  exists (d_name d). subst x. rewrite from_fullpath_fullpath. split; [reflexivity|exact Hr].
Qed.

(** [shutil.move] adds one directory to the active root at most. *)
Lemma shutil_move_grows (E : Env) src dst t t' :
  shutil_move src dst t = Ok t' -> exists h, grows_at E t t' h.
Proof.
  unfold shutil_move. destruct (Fs.lookup src t) as [d|]; [|discriminate].
  destruct (Fs.isdir dst t).
  - destruct (Fs.path_eqb src dst).
    + intros H. injection H as H. subst t'. exists "". apply shrinks_grows, shrinks_refl.
    + destruct (Fs.exists_ _ t); [discriminate|].
      destruct (Fs.is_prefix src _); [discriminate|].
      intros H. injection H as H. subst t'. eexists.
      eapply shrinks_then_grows; [apply shrinks_remove|apply grows_insert].
  - destruct (Fs.is_prefix src dst); [discriminate|].
    intros H. injection H as H. subst t'. eexists.
    eapply shrinks_then_grows; [apply shrinks_remove|apply grows_insert].
Qed.

Lemma find_remove_none n q t : Fs.find n t = None -> Fs.find n (Fs.remove q t) = None.
Proof. intros H. exact (lookup_remove_none q [n] t H). Qed.

Lemma find_insert_inactive n q d t :
  n <> ".disabled" -> Fs.find n (Fs.insert (".disabled" :: q) d t) = Fs.find n t.
Proof.
  intros Hn. exact (lookup_insert_other_root ".disabled" q n [] d t (not_eq_sym Hn)).
Qed.

(* ------------------------------------------------------------------ *)
(** ** The enabled instances of an id *)

Lemma reload_index_of_tree (E : Env) m1 m2 :
  fs m1 = fs m2 ->
  installed_node_packages (reload E m1) = installed_node_packages (reload E m2).
Proof.
  intros H. unfold reload. rewrite H. destruct (build_index E (fs m2)). reflexivity.
Qed.

Lemma reload_reload (E : Env) m : reload E (reload E m) = reload E m.
Proof.
  unfold reload at 1. rewrite fs_reload.
  unfold reload. destruct (build_index E (fs m)). reflexivity.
Qed.

Lemma enabled_instances_fresh (E : Env) m0 packname x :
  In x (enabled_instances E (reload E m0) packname) <->
  In x (scan_enabled E (fs m0)) /\ pk_is_enabled x = true
  /\ instance_of E packname (cross_reference E (reload E m0) packname) x = true.
Proof.
  unfold enabled_instances, instance_of. rewrite filter_In, lookup_split, in_app_iff.
  assert (Hk : forall k, In x (Idx.get_list k (installed_node_packages (reload E m0)))
                         /\ pk_is_enabled x = true
                         <-> In x (scan_enabled E (fs m0)) /\ pk_is_enabled x = true
                             /\ indexed_under E k x = true).
  { intros k. rewrite get_list_reload, filter_In. unfold scan. rewrite in_app_iff.
    split.
    - intros [[[H|H] Hi] He].
      + repeat split; assumption.
      + rewrite (scan_disabled_all_disabled E _ _ H) in He. discriminate.
    - intros [H [He Hi]]. repeat split; try assumption. left. exact H. }
  split.
  - intros [[H|H] He].
    + destruct (proj1 (Hk packname) (conj H He)) as [H1 [H2 H3]].
      repeat split; try assumption. rewrite H3. reflexivity.
    + destruct (cross_reference E (reload E m0) packname) as [k|]; [|destruct H].
      destruct (proj1 (Hk k) (conj H He)) as [H1 [H2 H3]].
      repeat split; try assumption. rewrite H3. apply orb_true_r.
  - intros [H [He Hi]]. apply orb_true_iff in Hi. destruct Hi as [Hi|Hi].
    + destruct (proj2 (Hk packname) (conj H (conj He Hi))) as [H1 H2].
      split; [left; exact H1|exact H2].
    + destruct (cross_reference E (reload E m0) packname) as [k|]; [|discriminate].
      destruct (proj2 (Hk k) (conj H (conj He Hi))) as [H1 H2].
      split; [right; exact H1|exact H2].
Qed.

Lemma none_active_at (E : Env) packname K t p :
  none_active E packname K t -> at_most_at E packname K t p.
Proof. intros H x Hx He Hi. rewrite (H x Hx He) in Hi. discriminate. Qed.

Lemma at_most_at_shrinks (E : Env) packname K t t' p :
  at_most_at E packname K t p -> shrinks E t t' -> at_most_at E packname K t' p.
Proof. intros H Hs x Hx. apply H, Hs. exact Hx. Qed.

Lemma none_active_shrinks (E : Env) packname K t t' :
  none_active E packname K t -> shrinks E t t' -> none_active E packname K t'.
Proof. intros H Hs x Hx. apply H, Hs. exact Hx. Qed.

Lemma none_active_grows (E : Env) packname K t t' h :
  none_active E packname K t -> grows_at E t t' h -> at_most_at E packname K t' [h].
Proof.
  intros H Hg x Hx He Hi. destruct (Hg x Hx) as [H0|H0]; [|exact H0].
  rewrite (H x H0 He) in Hi. discriminate.
Qed.

Lemma at_most_at_grows (E : Env) packname K t t' h :
  at_most_at E packname K t [h] -> grows_at E t t' h -> at_most_at E packname K t' [h].
Proof.
  intros H Hg x Hx He Hi. destruct (Hg x Hx) as [H0|H0]; [|exact H0].
  apply H; assumption.
Qed.

(** Once the one directory that held the enabled instances is out of
    the active root, none is left. *)
Lemma at_most_at_gone (E : Env) packname K t t' n :
  at_most_at E packname K t [n] -> shrinks E t t' -> Fs.find n t' = None ->
  none_active E packname K t'.
Proof.
  intros H Hs Hf x Hx He.
  destruct (instance_of E packname K x) eqn:Hi; [|reflexivity].
  exfalso. apply (scan_enabled_found E _ _ _ Hx (H x (Hs x Hx) He Hi)). exact Hf.
Qed.

Lemma single_active_of (E : Env) m' packname K p :
  at_most_at E packname K (fs m') p ->
  cross_reference E (reload E m') packname = None
  \/ cross_reference E (reload E m') packname = K ->
  single_active E (reload E m') packname.
Proof.
  intros H Hk x y Hx Hy.
  apply enabled_instances_fresh in Hx. apply enabled_instances_fresh in Hy.
  destruct Hx as [Hx [Hxe Hxi]]. destruct Hy as [Hy [Hye Hyi]].
  assert (Hw : forall z, instance_of E packname
                           (cross_reference E (reload E m') packname) z = true ->
                         instance_of E packname K z = true).
  { intros z. destruct Hk as [Hk|Hk]; rewrite Hk; [|tauto].
    unfold instance_of. intros Hz. rewrite orb_false_r in Hz. rewrite Hz. reflexivity. }
  rewrite (H x Hx Hxe (Hw x Hxi)), (H y Hy Hye (Hw y Hyi)). reflexivity.
Qed.

Lemma at_most_at_of (E : Env) m0 packname a :
  single_active E (reload E m0) packname ->
  In a (enabled_instances E (reload E m0) packname) ->
  at_most_at E packname (cross_reference E (reload E m0) packname) (fs m0)
             (pk_fullpath a).
Proof.
  intros Hs Ha x Hx He Hi. apply Hs; [|exact Ha].
  apply enabled_instances_fresh. repeat split; assumption.
Qed.

Lemma none_active_of (E : Env) m0 packname :
  enabled_instances E (reload E m0) packname = [] ->
  none_active E packname (cross_reference E (reload E m0) packname) (fs m0).
Proof.
  intros Hn x Hx He.
  destruct (instance_of E packname _ x) eqn:Hi; [|reflexivity].
  assert (H : In x (enabled_instances E (reload E m0) packname))
    by (apply enabled_instances_fresh; repeat split; assumption).
  rewrite Hn in H. destruct H.
Qed.

(** A single-active id has its enabled instances, if any, in one
    directory of the tree. *)
Lemma single_active_at (E : Env) m0 packname :
  single_active E (reload E m0) packname ->
  exists p, at_most_at E packname (cross_reference E (reload E m0) packname) (fs m0) p.
Proof.
  intros Hs. destruct (enabled_instances E (reload E m0) packname) as [|a l] eqn:Ha.
  - exists []. apply none_active_at, none_active_of. exact Ha.
  - exists (pk_fullpath a). apply at_most_at_of; [exact Hs|]. rewrite Ha. left. reflexivity.
Qed.

Lemma index_of_a_scan_reload (E : Env) m : index_of_a_scan E (reload E m).
Proof.
  exists (fs m). unfold reload. destruct (build_index E (fs m)). reflexivity.
Qed.

Lemma index_of_a_scan_same (E : Env) m m' :
  installed_node_packages m' = installed_node_packages m ->
  index_of_a_scan E m -> index_of_a_scan E m'.
Proof. intros H [t Ht]. exists t. rewrite H. exact Ht. Qed.

(** An enabled package of such an index names a directory of the
    active root. *)
Lemma index_enabled_path (E : Env) m packname x :
  index_of_a_scan E m ->
  In x (get_packages_by_name_or_url E m packname) -> pk_is_enabled x = true ->
  exists n, pk_fullpath x = [n] /\ n <> ".disabled".
Proof.
  intros [t Ht] Hx He.
  assert (Hi : installed_node_packages m
               = installed_node_packages (reload E (mkManager t [] [] []))).
  { rewrite Ht. unfold reload. simpl. destruct (build_index E t). reflexivity. }
  rewrite (lookup_index_only E _ m packname Hi) in Hx.
  apply lookup_in_scan in Hx.
  destruct (enabled_in_scan E _ _ Hx He) as [n [d [Hp [Hn _]]]].
  exists n. split; assumption.
Qed.

(* ------------------------------------------------------------------ *)
(** ** What each operation does to the active root *)

Lemma bind_post {A B} (c : M A) (k : A -> M B) (Q : Manager * res B -> Prop) m :
  (forall m1 e, c m = (m1, Raise e) -> Q (m1, Raise e)) ->
  (forall m1 a, c m = (m1, Ok a) -> Q (k a m1)) ->
  Q (bind c k m).
Proof.
  intros Hr Ho. unfold bind. destruct (c m) as [m1 [a|e]] eqn:Hc.
  - apply Ho. reflexivity.
  - apply Hr. reflexivity.
Qed.

(** [unified_disable] puts nothing into the active root, and the
    directory of the instance it selects is not there afterwards, whether
    the move was made or the directory was missing. It never returns a
    failed result. *)
Lemma unified_disable_effect (E : Env) m packname m' out :
  index_of_a_scan E m ->
  unified_disable E m packname = (m', out) ->
  installed_node_packages m' = installed_node_packages m
  /\ shrinks E (fs m) (fs m')
  /\ (forall n, n <> ".disabled" -> Fs.find n (fs m) = None -> Fs.find n (fs m') = None)
  /\ (forall a n, snd (disable_scan (get_packages_by_name_or_url E m packname)) = Some a ->
                  pk_fullpath a = [n] -> Fs.find n (fs m') = None)
  /\ (forall r, out = Ok r -> result r = true)
  /\ (snd (disable_scan (get_packages_by_name_or_url E m packname)) = None -> m' = m).
Proof.
  intros Hi H.
  destruct (snd (disable_scan (get_packages_by_name_or_url E m packname)))
    as [a|] eqn:Hs.
  2:{ pose proof (unified_disable_skip E m packname Hs) as Hm.
      rewrite H in Hm. simpl in Hm. subst m'.
      refine (conj eq_refl (conj (shrinks_refl E _) (conj (fun _ _ Hf => Hf)
               (conj _ (conj _ (fun _ => eq_refl)))))).
      - intros a n Ha. discriminate.
      - unfold unified_disable in H.
        destruct (disable_scan _) as [[x|] [a|]]; simpl in Hs; try discriminate;
          inversion H; subst; intros r Hr; inversion Hr; reflexivity. }
  destruct (disable_selected_enabled _ _ Hs) as [Hin He].
  destruct (index_enabled_path E m packname a Hi Hin He) as [n [Hp Hn]].
  destruct (disable_scan_selected _ _ Hs) as [x Hx].
  pose proof (disable_to_path_root E m packname a n Hp) as Hto.
  set (q := components _) in Hto.
  destruct (Fs.find n (fs m)) as [d|] eqn:Hd.
  - destruct (unified_disable_moves E m packname a n d Hs Hp Hn Hd) as [Hm _].
    rewrite Hto in Hm. rewrite Hm in H. clear Hm.
    set (t0 := if Fs.exists_ (".disabled" :: q) (fs m)
               then Fs.remove (".disabled" :: q) (fs m) else fs m) in *.
    pose proof (f_equal fst H) as H1. pose proof (f_equal snd H) as H2.
    cbn [fst snd] in H1, H2. clear H. subst m' out.
    assert (Hs0 : shrinks E (fs m) t0).
    { unfold t0. destruct (Fs.exists_ _ (fs m)); [apply shrinks_remove|apply shrinks_refl]. }
    refine (conj eq_refl (conj _ (conj _ (conj _ (conj _ _))))).
    + cbn [fs set_fs]. eapply shrinks_trans; [exact Hs0|].
      eapply shrinks_trans; [apply (shrinks_remove E [n])|apply shrinks_insert_inactive].
    + intros n' Hn' Hf. cbn [fs set_fs]. rewrite (find_insert_inactive _ _ _ _ Hn').
      apply find_remove_none. unfold t0.
      destruct (Fs.exists_ _ (fs m)); [apply find_remove_none|]; exact Hf.
    + intros a' n' Ha' Hp'. inversion Ha'; subst a'. rewrite Hp in Hp'.
      injection Hp' as Hp'. subst n'. cbn [fs set_fs].
      apply (moved_source_is_gone n q d t0 Hn).
    + intros r Hr. inversion Hr. reflexivity.
    + intros Hc. discriminate.
  - unfold unified_disable in H. rewrite Hx, Hto in H.
    set (t0 := if Fs.exists_ (".disabled" :: q) (fs m)
               then Fs.remove (".disabled" :: q) (fs m) else fs m) in *.
    assert (Hs0 : shrinks E (fs m) t0).
    { unfold t0. destruct (Fs.exists_ _ (fs m)); [apply shrinks_remove|apply shrinks_refl]. }
    assert (Hf0 : forall n', Fs.find n' (fs m) = None -> Fs.find n' t0 = None).
    { intros n' Hf. unfold t0.
      destruct (Fs.exists_ _ (fs m)); [apply find_remove_none|]; exact Hf. }
    unfold shutil_move in H. rewrite Hp in H.
    change (Fs.lookup [n] t0) with (Fs.find n t0) in H. rewrite (Hf0 n Hd) in H.
    pose proof (f_equal fst H) as H1. pose proof (f_equal snd H) as H2.
    cbn [fst snd] in H1, H2. clear H. subst m' out.
    refine (conj eq_refl (conj Hs0 (conj (fun n' _ Hf => Hf0 n' Hf) (conj _ (conj _ _))))).
    + intros a' n' Ha' Hp'. inversion Ha'; subst a'. rewrite Hp in Hp'.
      injection Hp' as Hp'. subst n'. cbn [fs set_fs]. apply Hf0. exact Hd.
    + intros r Hr. discriminate.
    + intros Hc. discriminate.
Qed.

(** [unified_enable] adds one directory to the active root at most. *)
Lemma unified_enable_grows (E : Env) m packname v m' out :
  unified_enable E m packname v = (m', out) ->
  installed_node_packages m' = installed_node_packages m
  /\ exists h, grows_at E (fs m) (fs m') h.
Proof.
  intros H. destruct (unified_enable_effect E m packname v m' out H) as [Hm|[x [t Hx]]].
  - subst m'. split; [reflexivity|]. exists "". apply shrinks_grows, shrinks_refl.
  - cbv zeta in Hx. destruct Hx as [_ [_ [_ [Hmv Hm]]]]. subst m'.
    split; [reflexivity|]. cbn [fs set_fs]. apply (shutil_move_grows E _ _ _ _ Hmv).
Qed.

(** With the version disabled and not enabled, [unified_enable] does
    not come back with a 'skip'. *)
Lemma unified_enable_no_skip (E : Env) m packname v m' r :
  is_enabled E m packname (Some v) = Ok false ->
  is_disabled E m packname (Some v) = Ok true ->
  unified_enable E m packname (Some v) = (m', Ok r) ->
  action r = "enable".
Proof.
  intros He Hd. unfold unified_enable. rewrite He, Hd.
  destruct (get_inactive_pack E m packname (Some v)) as [[x|]|e].
  - destruct (shutil_move _ _ _); intros H; inversion H; subst; reflexivity.
  - intros H. inversion H; subst. reflexivity.
  - intros H. discriminate.
Qed.

Lemma try_rmtree_all_shrinks (E : Env) title l :
  forall m, shrinks E (fs m) (fs (try_rmtree_all E title l m)).
Proof.
  induction l as [|x l IH]; intros m; [apply shrinks_refl|].
  simpl. eapply shrinks_trans; [|apply IH].
  destruct (try_rmtree_cases E title (pk_fullpath x) m) as [_ [[Hf _]|[Hf _]]];
    rewrite Hf; [apply shrinks_remove|apply shrinks_refl].
Qed.

Lemma rmtree_m_effect (E : Env) p m m' out :
  rmtree_m E p m = (m', out) ->
  installed_node_packages m' = installed_node_packages m
  /\ shrinks E (fs m) (fs m').
Proof.
  unfold rmtree_m.
  destruct (rmtree_cases E p (fs m)) as [[_ [_ Ho]]|[[_ [_ Ho]]|[_ Ho]]]; rewrite Ho;
    intros H; inversion H; subst; (split; [reflexivity|]);
    [apply shrinks_remove|apply shrinks_refl|apply shrinks_refl].
Qed.

Lemma finish_with_postinstall_effect (E : Env) fl r p failure m m' out :
  finish_with_postinstall E fl r p failure m = (m', out) ->
  m' = m /\ (forall r', out = Ok r' -> action r' = action r).
Proof.
  unfold finish_with_postinstall, bind, ask, ret.
  destruct (return_postinstall fl).
  - intros H. inversion H; subst. split; [reflexivity|].
    intros r' Hr. inversion Hr. reflexivity.
  - destruct (run_postinstall E p) as [[|]|e]; cbn [negb]; intros H; inversion H; subst;
      (split; [reflexivity|]); intros r' Hr; inversion Hr; reflexivity.
Qed.

Lemma keeps_to_path_grows (E : Env) (f : Path -> FS -> FS) p t :
  keeps_to_path f -> grows_at E t (f p t) (hd "" p).
Proof. intros H. apply scan_enabled_of_entries. apply H. Qed.

(** [cnr_install] adds the install path to the active root at most. *)
Lemma cnr_install_effect (E : Env) packname v fl m m' out :
  collaborators_confined E ->
  cnr_install E packname v fl m = (m', out) ->
  installed_node_packages m' = installed_node_packages m
  /\ grows_at E (fs m) (fs m') (hd "" (components packname))
  /\ (forall r, out = Ok r -> action r = "install-cnr").
Proof.
  intros [Hx _]. unfold cnr_install.
  assert (Hsame : forall r0, (m, Ok r0) = (m', out) -> action r0 = "install-cnr" ->
            installed_node_packages m' = installed_node_packages m
            /\ grows_at E (fs m) (fs m') (hd "" (components packname))
            /\ (forall r, out = Ok r -> action r = "install-cnr")).
  { intros r0 H Ha. inversion H; subst. split; [reflexivity|].
    split; [apply shrinks_grows, shrinks_refl|].
    intros r Hr. inversion Hr; subst. exact Ha. }
  destruct (PyStr.contains "comfyui-manager" (PyStr.lower packname)).
  { unfold ret. intros H. apply (Hsame _ H). reflexivity. }
  destruct (node_info_available (install_node E packname v)) as [[ni url]|].
  2:{ unfold ret. intros H. apply (Hsame _ H). reflexivity. }
  unfold bind at 1. unfold ask_pure at 1.
  destruct (Fs.isdir (components packname) (fs m)).
  { unfold ret. intros H. apply (Hsame _ H). reflexivity. }
  unfold bind at 1. unfold update_fs at 1. cbn [fs].
  set (t1 := Fs.insert (components packname) (MkDir "" empty_meta []) (fs m)).
  assert (Hg : grows_at E (fs m) (fst (extract_archive E url (components packname) t1))
                        (hd "" (components packname))).
  { eapply grows_grows; [apply grows_insert|].
    apply (keeps_to_path_grows E (fun p t => fst (extract_archive E url p t))).
    apply Hx. }
  destruct (extract_archive E url (components packname) t1) as [t ok].
  cbn [fst] in Hg. destruct ok; cbn [negb].
  - intros H. apply finish_with_postinstall_effect in H. destruct H as [Hm Ha].
    subst m'. split; [reflexivity|]. split; [exact Hg|].
    intros r Hr. rewrite (Ha r Hr). reflexivity.
  - unfold bind. destruct (rmtree_m E (components packname) (set_fs m t))
      as [m1 [u|e]] eqn:Hr; apply rmtree_m_effect in Hr; destruct Hr as [Hi Hs];
      unfold ret; intros H; inversion H; subst;
      (split; [exact Hi|]); (split; [eapply grows_shrinks; [exact Hg|exact Hs]|]);
      intros r Hr; inversion Hr; reflexivity.
Qed.

(** [repo_install] adds the clone path to the active root at most. *)
Lemma repo_install_effect (E : Env) url repo_path fl m m' out :
  collaborators_confined E ->
  repo_install E url repo_path fl m = (m', out) ->
  installed_node_packages m' = installed_node_packages m
  /\ grows_at E (fs m) (fs m') (hd "" repo_path)
  /\ (forall r, out = Ok r -> action r = "install-git").
Proof.
  intros [_ [Hx _]]. unfold repo_install.
  assert (Hsame : forall r0, (m, Ok r0) = (m', out) -> action r0 = "install-git" ->
            installed_node_packages m' = installed_node_packages m
            /\ grows_at E (fs m) (fs m') (hd "" repo_path)
            /\ (forall r, out = Ok r -> action r = "install-git")).
  { intros r0 H Ha. inversion H; subst. split; [reflexivity|].
    split; [apply shrinks_grows, shrinks_refl|].
    intros r Hr. inversion Hr; subst. exact Ha. }
  destruct (PyStr.contains "comfyui-manager" (PyStr.lower url)).
  { unfold ret. intros H. apply (Hsame _ H). reflexivity. }
  destruct (negb (is_valid_url E url)).
  { unfold ret. intros H. apply (Hsame _ H). reflexivity. }
  cbv zeta. set (u := if PyStr.endswith "/" url then PyStr.drop_last 1 url else url).
  unfold bind at 1. unfold update_fs at 1.
  pose proof (keeps_to_path_grows E (fun p t => fst (git_clone E u p t)) repo_path (fs m)
                (Hx u)) as Hg.
  cbv beta in Hg.
  destruct (git_clone E u repo_path (fs m)) as [t cloned]. cbn [fst] in Hg.
  assert (Hdone : forall r0, (set_fs m t, Ok r0) = (m', out) -> action r0 = "install-git" ->
            installed_node_packages m' = installed_node_packages m
            /\ grows_at E (fs m) (fs m') (hd "" repo_path)
            /\ (forall r, out = Ok r -> action r = "install-git")).
  { intros r0 H Ha. inversion H; subst. split; [reflexivity|].
    split; [exact Hg|]. intros r Hr. inversion Hr; subst. exact Ha. }
  destruct cloned as [e|].
  - unfold ret. intros H. apply (Hdone _ H). reflexivity.
  - destruct (return_postinstall fl).
    + unfold ret. intros H. apply (Hdone _ H). reflexivity.
    + destruct (run_postinstall E _) as [[|]|e]; unfold ret; intros H;
        apply (Hdone _ H); reflexivity.
Qed.

(** [repo_update] changes the working copy it is given at most. *)
Lemma repo_update_effect (E : Env) p fl m m' out :
  collaborators_confined E ->
  repo_update E p fl m = (m', out) ->
  installed_node_packages m' = installed_node_packages m
  /\ grows_at E (fs m) (fs m') (hd "" p).
Proof.
  intros [_ [_ [Hc Hp]]]. unfold repo_update.
  unfold bind at 1. unfold ask_pure at 1.
  destruct (Fs.exists_ (p ++ [".git"]) (fs m)); cbn [negb].
  2: { unfold ret. intros H. inversion H; subst.
       split; [reflexivity|apply shrinks_grows, shrinks_refl]. }
  unfold bind at 1. unfold update_fs_res at 1.
  pose proof (keeps_to_path_grows E _ p (fs m) Hc) as Hg. cbv beta in Hg.
  destruct (git_check_update E p (fs m)) as [t [c|e]]; cbn [fst] in Hg.
  2: { intros H. inversion H; subst. split; [reflexivity|exact Hg]. }
  destruct c as [| |b| |url];
    try (unfold ret; intros H; inversion H; subst; split; [reflexivity|exact Hg]).
  unfold bind at 1. unfold update_fs_res at 1. cbn [fs set_fs].
  pose proof (keeps_to_path_grows E _ p t Hp) as Hg2. cbv beta in Hg2.
  destruct (git_pull E p t) as [t2 [[]|e]]; cbn [fst] in Hg2.
  - intros H. apply finish_with_postinstall_effect in H. destruct H as [H _]. subst m'.
    split; [reflexivity|]. cbn [fs set_fs]. apply (grows_grows E _ t); assumption.
  - intros H. inversion H; subst. split; [reflexivity|].
    cbn [fs set_fs]. apply (grows_grows E _ t); assumption.
Qed.

(** [cnr_switch_version_lazy] touches no directory: it writes a line
    for the next start at most. *)
Lemma cnr_switch_version_lazy_effect (E : Env) packname v fl m m' out :
  cnr_switch_version_lazy E packname v fl m = (m', out) ->
  installed_node_packages m' = installed_node_packages m /\ fs m' = fs m.
Proof.
  unfold cnr_switch_version_lazy.
  destruct (node_info_available (install_node E packname v)) as [[ni url]|].
  2: { unfold ret. intros H. inversion H; subst. split; reflexivity. }
  unfold bind at 1. unfold ask_pure at 1.
  destruct (get_active_pack E m packname) as [a|].
  2: { unfold ret. intros H. inversion H; subst. split; reflexivity. }
  destruct (String.eqb (pk_version a) (ni_version ni)).
  { unfold ret. intros H. inversion H; subst. split; reflexivity. }
  cbv zeta. destruct (return_postinstall fl).
  { unfold ret. intros H. inversion H; subst. split; reflexivity. }
  unfold bind, reserve_cnr_switch.
  destruct (startup_script_path_exists E
            || match install_scripts m with [] => false | _ :: _ => true end);
    cbn [negb]; unfold ret; intros H; inversion H; subst; split; reflexivity.
Qed.

(** The loop of [install_by_id] over the packages of the lookup: nothing
    is put into the active root, and the directory [unified_disable]
    selects for the first enabled package is not there afterwards. *)
Lemma disable_enabled_effect (E : Env) l :
  forall m m' out,
    index_of_a_scan E m ->
    disable_enabled E l m = (m', out) ->
    installed_node_packages m' = installed_node_packages m
    /\ shrinks E (fs m) (fs m')
    /\ (forall n, n <> ".disabled" -> Fs.find n (fs m) = None -> Fs.find n (fs m') = None)
    /\ (forall x a n,
          List.find pk_is_enabled l = Some x ->
          snd (disable_scan (get_packages_by_name_or_url E m (pk_id x))) = Some a ->
          pk_fullpath a = [n] -> Fs.find n (fs m') = None)
    /\ (List.find pk_is_enabled l = None -> m' = m).
Proof.
  induction l as [|y l IH]; intros m m' out Hi H.
  - cbn [disable_enabled] in H. unfold ret in H. inversion H; subst.
    refine (conj eq_refl (conj (shrinks_refl E _) (conj (fun _ _ Hf => Hf) (conj _ _)))).
    + intros x a n Hx. discriminate.
    + reflexivity.
  - cbn [disable_enabled] in H. cbn [List.find]. unfold pk_is_enabled at 1 3.
    destruct (pk_disabled y) eqn:Hy; cbn [negb].
    + exact (IH m m' out Hi H).
    + unfold bind in H.
      destruct (unified_disable E m (pk_id y)) as [m1 [r|e]] eqn:Hd;
        destruct (unified_disable_effect E m (pk_id y) m1 _ Hi Hd)
          as [Hi1 [Hs1 [Hk1 [Hg1 _]]]].
      * destruct (IH m1 m' out (index_of_a_scan_same E m m1 Hi1 Hi) H)
          as [Hi2 [Hs2 [Hk2 _]]].
        refine (conj _ (conj _ (conj _ (conj _ _)))).
        -- rewrite Hi2. exact Hi1.
        -- eapply shrinks_trans; eassumption.
        -- intros n Hn Hf. apply (Hk2 n Hn). apply (Hk1 n Hn). exact Hf.
        -- intros x a n Hx Ha Hp. inversion Hx; subst x.
           assert (Hn : n <> ".disabled").
           { destruct (disable_selected_enabled _ _ Ha) as [Hin He].
             destruct (index_enabled_path E m (pk_id y) a Hi Hin He) as [n' [Hp' Hn']].
             rewrite Hp in Hp'. injection Hp' as Hp'. subst n'. exact Hn'. }
           apply (Hk2 n Hn). apply (Hg1 a n Ha Hp).
        -- intros Hc. discriminate.
      * inversion H; subst m' out.
        refine (conj Hi1 (conj Hs1 (conj Hk1 (conj _ _)))).
        -- intros x a n Hx Ha Hp. inversion Hx; subst x. apply (Hg1 a n Ha Hp).
        -- intros Hc. discriminate.
Qed.

(* ------------------------------------------------------------------ *)
(** ** The flows of switch, update and install, from a single-active state *)

Lemma instance_in_own_lookup (E : Env) m0 packname x :
  In x (get_packages_by_name_or_url E (reload E m0) packname) ->
  In x (get_packages_by_name_or_url E (reload E m0) (pk_id x)).
Proof.
  intros H. apply lookup_in_scan in H. rewrite lookup_split. apply in_or_app. left.
  rewrite get_list_reload. apply filter_In. split; [exact H|].
  unfold indexed_under. rewrite String.eqb_refl. reflexivity.
Qed.

Lemma get_active_pack_instance (E : Env) m packname a :
  get_active_pack E m packname = Some a -> In a (enabled_instances E m packname).
Proof.
  unfold get_active_pack, enabled_instances. intros H. apply find_some in H.
  apply filter_In. exact H.
Qed.

Lemma get_active_pack_none (E : Env) m packname :
  get_active_pack E m packname = None -> enabled_instances E m packname = [].
Proof.
  unfold get_active_pack, enabled_instances. intros H.
  apply filter_nil_of. intros x Hx He. apply (find_none _ _ H) in Hx. congruence.
Qed.

Lemma enabled_instances_exists (E : Env) m packname :
  enabled_instances E m packname = [] ->
  existsb pk_is_enabled (get_packages_by_name_or_url E m packname) = false.
Proof.
  unfold enabled_instances.
  induction (get_packages_by_name_or_url E m packname) as [|x l IH]; [reflexivity|].
  simpl. destruct (pk_is_enabled x); [discriminate|exact IH].
Qed.

Lemma disable_scan_selects (l : list InstalledNodePackage) a :
  In a l -> pk_is_enabled a = true -> exists a', snd (disable_scan l) = Some a'.
Proof.
  intros Hin He. rewrite disable_scan_spec. cbn [snd].
  destruct (List.find pk_is_enabled (List.rev l)) as [a'|] eqn:Hf; [exists a'; reflexivity|].
  apply in_rev in Hin. rewrite (find_none _ _ Hf a Hin) in He. discriminate.
Qed.

Section Flows.

Variable E : Env.
Variable m0 : Manager.
Variable packname : string.
Variable K : option string.

Hypothesis K_is : K = cross_reference E (reload E m0) packname.
Hypothesis confined : collaborators_confined E.
Hypothesis every_id_single : forall id, single_active E (reload E m0) id.

Lemma flow_post_start (A : Type) (ok : Manager -> A -> Prop) out :
  (forall a, out = Ok a -> ok (reload E m0) a) ->
  flow_post E packname K A ok (reload E m0, out).
Proof.
  intros H. split; [|split; [apply index_of_a_scan_reload|exact H]].
  cbn [fst]. rewrite fs_reload, K_is. apply single_active_at. apply every_id_single.
Qed.

Lemma flow_post_cleared (A : Type) (ok : Manager -> A -> Prop) m1 out :
  cleared E packname K m1 ->
  (forall a, out = Ok a -> ok m1 a) -> flow_post E packname K A ok (m1, out).
Proof.
  intros [Hn Hi] H. split; [|split; [exact Hi|exact H]].
  exists []. apply none_active_at. exact Hn.
Qed.

(** Disabling by an id among whose enabled instances is the one of
    [packname] clears [packname]. *)
Lemma disable_clears a id m1 out :
  In a (enabled_instances E (reload E m0) packname) ->
  In a (enabled_instances E (reload E m0) id) ->
  unified_disable E (reload E m0) id = (m1, out) ->
  cleared E packname K m1.
Proof.
  intros Ha Hb H.
  destruct (unified_disable_effect E (reload E m0) id m1 out
              (index_of_a_scan_reload E m0) H) as [Hi [Hs [_ [Hg _]]]].
  split; [|apply (index_of_a_scan_same E (reload E m0) m1 Hi);
           apply index_of_a_scan_reload].
  pose proof Hb as Hb'. unfold enabled_instances in Hb'. apply filter_In in Hb'.
  destruct Hb' as [Hin He].
  destruct (disable_scan_selects _ a Hin He) as [a' Hsel].
  destruct (disable_selected_enabled _ _ Hsel) as [Hin' He'].
  assert (Hpath : pk_fullpath a' = pk_fullpath a).
  { apply (every_id_single id); [|exact Hb]. apply filter_In. split; assumption. }
  destruct (index_enabled_path E (reload E m0) id a' (index_of_a_scan_reload E m0) Hin' He')
    as [n [Hp Hn]].
  rewrite fs_reload in Hs.
  apply (at_most_at_gone E packname _ (fs m0) (fs m1) n).
  - rewrite <- Hp, Hpath, K_is. apply at_most_at_of; [apply every_id_single|exact Ha].
  - exact Hs.
  - apply (Hg a' n Hsel Hp).
Qed.

Lemma start_cleared :
  enabled_instances E (reload E m0) packname = [] ->
  cleared E packname K (reload E m0).
Proof.
  intros H. split; [|apply index_of_a_scan_reload].
  rewrite fs_reload, K_is. apply none_active_of. exact H.
Qed.

Lemma cleared_reload m1 : cleared E packname K m1 -> cleared E packname K (reload E m1).
Proof.
  intros [Hn _]. split; [rewrite fs_reload; exact Hn|apply index_of_a_scan_reload].
Qed.

(** [unified_enable] on a cleared state. *)
Lemma enable_after_cleared (ok : Manager -> ManagedResult -> Prop) id v m1 :
  cleared E packname K m1 ->
  (forall m2 r, unified_enable E m1 id v = (m2, Ok r) -> ok m2 r) ->
  flow_post E packname K ManagedResult ok (unified_enable E m1 id v).
Proof.
  intros [Hn Hi] Hok.
  destruct (unified_enable E m1 id v) as [m2 out] eqn:H.
  destruct (unified_enable_grows E m1 id v m2 out H) as [Hi2 [h Hg]].
  split; [|split].
  - exists [h]. cbn [fst]. apply (none_active_grows E packname _ (fs m1) (fs m2) h Hn Hg).
  - cbn [fst]. apply (index_of_a_scan_same E m1 m2 Hi2 Hi).
  - cbn [snd fst]. intros r Hr. subst out. apply (Hok m2 r eq_refl).
Qed.

(** The block "disable the active instance, if any" of the switches. *)
Lemma disable_block_clears m1 out :
  (match get_active_pack E (reload E m0) packname with
   | Some a =>
       disable_result <~ (fun m => unified_disable E m (pk_id a)) ;;
       ret (result disable_result, opt_show (msg disable_result))
   | None => ret (true, "")
   end) (reload E m0) = (m1, out) ->
  cleared E packname K m1.
Proof.
  destruct (get_active_pack E (reload E m0) packname) as [a|] eqn:Ha.
  - apply get_active_pack_instance in Ha.
    assert (Hb : In a (enabled_instances E (reload E m0) (pk_id a))).
    { unfold enabled_instances in *. apply filter_In in Ha. destruct Ha as [Hin He].
      apply filter_In. split; [apply (instance_in_own_lookup E m0 packname a Hin)|exact He]. }
    unfold bind.
    destruct (unified_disable E (reload E m0) (pk_id a)) as [m2 [r|e]] eqn:Hd;
      pose proof (disable_clears a (pk_id a) m2 _ Ha Hb Hd) as Hc;
      unfold ret; intros H; injection H as H1 H2; rewrite <- H1; exact Hc.
  - unfold ret. intros H. injection H as H1 H2. rewrite <- H1. apply start_cleared.
    apply get_active_pack_none. exact Ha.
Qed.

Lemma flow_post_state (A B : Type) (ok1 : Manager -> A -> Prop)
      (ok2 : Manager -> B -> Prop) m1 out1 out2 :
  flow_post E packname K A ok1 (m1, out1) ->
  (forall b, out2 = Ok b -> ok2 m1 b) ->
  flow_post E packname K B ok2 (m1, out2).
Proof.
  intros [H1 [H2 _]] H. split; [exact H1|]. split; [exact H2|exact H].
Qed.

Lemma flow_post_finish (ok : Manager -> ManagedResult -> Prop) fl r p failure m1 :
  flow_post E packname K ManagedResult (fun _ _ => True) (m1, Ok r) ->
  (forall r', action r' = action r -> ok m1 r') ->
  flow_post E packname K ManagedResult ok (finish_with_postinstall E fl r p failure m1).
Proof.
  intros H Hok.
  destruct (finish_with_postinstall E fl r p failure m1) as [m2 out] eqn:Hf.
  apply finish_with_postinstall_effect in Hf. destruct Hf as [Hm Ha]. rewrite Hm.
  apply (flow_post_state _ _ _ _ _ _ _ H). intros r' Hr. apply Hok. apply Ha. exact Hr.
Qed.

(** The tail of the switches: enable the version, then the dependency
    step. *)
Lemma enable_then_finish (ok : Manager -> ManagedResult -> Prop) v m1
      (k : ManagedResult -> M ManagedResult) :
  cleared E packname K m1 ->
  (forall m2 er,
      flow_post E packname K ManagedResult (fun _ _ => True) (m2, Ok er) ->
      flow_post E packname K ManagedResult ok (k er m2)) ->
  flow_post E packname K ManagedResult ok
    ((enable_result <~ (fun m => unified_enable E m packname v) ;; k enable_result) m1).
Proof.
  intros Hc Hk.
  pose proof (enable_after_cleared (fun _ _ => True) packname v m1 Hc (fun _ _ _ => I)) as He.
  apply bind_post.
  - intros m2 e H. rewrite H in He.
    apply (flow_post_state _ _ _ _ _ _ _ He). intros b Hb. discriminate.
  - intros m2 er H. rewrite H in He. apply Hk. exact He.
Qed.

Ltac ask_step :=
  apply bind_post;
  [ let m1 := fresh "m" in let e := fresh "e" in let Hc := fresh "Hc" in
    intros m1 e Hc; unfold ask, ask_pure in Hc;
    try discriminate Hc;
    injection Hc as Hc ?; rewrite <- Hc
  | let m1 := fresh "m" in let a := fresh "a" in let Hc := fresh "Hc" in
    intros m1 a Hc; unfold ask, ask_pure in Hc;
    injection Hc as Hc ?; rewrite <- Hc; clear Hc m1 ].

Lemma switch_nightly_flow fl :
  flow_post E packname K ManagedResult (fun _ r => action r <> "skip")
            (switch_version E packname (Some "nightly") fl (reload E m0)).
Proof.
  unfold switch_version.
  change (opt_str_eqb "nightly" (Some "nightly")) with true. cbv iota.
  ask_step.
  { apply flow_post_start. intros a Ha. discriminate. }
  destruct a as [x|].
  2:{ unfold ret. apply flow_post_start. intros a Ha. inversion Ha. discriminate. }
  ask_step. subst a.
  apply bind_post.
  - intros m1 e Hc. apply disable_block_clears in Hc.
    apply (flow_post_cleared _ _ _ _ Hc). intros a Ha. discriminate.
  - intros m1 dk Hc. apply disable_block_clears in Hc.
    destruct (negb (fst dk)).
    + unfold ret. apply (flow_post_cleared _ _ _ _ Hc).
      intros a Ha. inversion Ha. discriminate.
    + apply (enable_then_finish _ _ _ _ Hc). intros m2 er He.
      destruct (negb (result er)).
      * unfold ret. apply (flow_post_state _ _ _ _ _ _ _ He).
        intros b Hb. inversion Hb. discriminate.
      * apply flow_post_finish.
        -- apply (flow_post_state _ _ _ _ _ _ _ He). intros; exact I.
        -- intros r' Hr. rewrite Hr. discriminate.
Qed.

(** The enabled instances sit at [n] at most, under an index a scan has
    built. *)
Lemma staged_post (A : Type) (ok : Manager -> A -> Prop) n m1 out :
  at_most_at E packname K (fs m1) [n] ->
  index_of_a_scan E m1 ->
  (forall a, out = Ok a -> ok m1 a) ->
  flow_post E packname K A ok (m1, out).
Proof.
  intros H1 H2 H3. split; [exists [n]; exact H1|]. split; assumption.
Qed.

Lemma cnr_switch_flow version_spec fl :
  flow_post E packname K ManagedResult (fun _ r => action r <> "skip")
            (cnr_switch_version_instant E packname version_spec fl (reload E m0)).
Proof.
  unfold cnr_switch_version_instant.
  ask_step. ask_step.
  { apply flow_post_start. intros b Hb. discriminate. }
  match goal with
  | |- context [node_info_available ?n] => destruct (node_info_available n) as [[ni url]|]
  end.
  2:{ unfold ret. apply flow_post_start. intros b Hb. inversion Hb. discriminate. }
  ask_step.
  { apply flow_post_start. intros b Hb. discriminate. }
  match goal with
  | |- context [if ?c then _ else _] => destruct c
  end.
  - (* Case A *)
    ask_step. subst a2.
    apply bind_post.
    + intros m1 e Hc. apply disable_block_clears in Hc.
      apply (flow_post_cleared _ _ _ _ Hc). intros b Hb. discriminate.
    + intros m1 dk Hc. apply disable_block_clears in Hc.
      destruct (negb (fst dk)).
      * unfold ret. apply (flow_post_cleared _ _ _ _ Hc).
        intros b Hb. inversion Hb. discriminate.
      * apply (enable_then_finish _ _ _ _ Hc). intros m2 er He.
        destruct (negb (result er)).
        -- unfold ret. apply (flow_post_state _ _ _ _ _ _ _ He).
           intros b Hb. inversion Hb. discriminate.
        -- apply flow_post_finish.
           ++ apply (flow_post_state _ _ _ _ _ _ _ He). intros; exact I.
           ++ intros r' Hr. rewrite Hr. discriminate.
  - (* Case B *)
    ask_step. subst a2.
    destruct (get_active_pack E (reload E m0) packname) as [act|] eqn:Hact.
    2:{ unfold ret. apply flow_post_start. intros b Hb. inversion Hb. discriminate. }
    pose proof (get_active_pack_instance E _ _ _ Hact) as Hin.
    assert (Hpath : exists n, pk_fullpath act = [n]).
    { unfold enabled_instances in Hin. apply filter_In in Hin. destruct Hin as [Hl He].
      destruct (index_enabled_path E _ _ _ (index_of_a_scan_reload E m0) Hl He)
        as [n [Hp _]]. exists n. exact Hp. }
    destruct Hpath as [n Hp].
    assert (Hat : at_most_at E packname K (fs (reload E m0)) [n]).
    { rewrite fs_reload, <- Hp, K_is. apply at_most_at_of; [apply every_id_single|exact Hin]. }
    ask_step.
    assert (Hstage : forall m1 out,
               (if a2
                then disable_result <~ (fun m => unified_disable E m (pk_id act)) ;;
                     ret (result disable_result, opt_show (msg disable_result))
                else ret (true, "")) (reload E m0) = (m1, out) ->
               at_most_at E packname K (fs m1) [n] /\ index_of_a_scan E m1).
    { intros m1 out. destruct a2.
      - intros Hc.
        assert (Hcl : cleared E packname K m1).
        { apply (disable_block_clears m1 out). rewrite Hact. exact Hc. }
        destruct Hcl as [Hn Hi]. split; [apply none_active_at; exact Hn|exact Hi].
      - unfold ret. intros Hc. injection Hc as G1 G2. rewrite <- G1.
        split; [exact Hat|apply index_of_a_scan_reload]. }
    apply bind_post.
    + intros m1 e Hc. destruct (Hstage _ _ Hc) as [G1 G2].
      apply (staged_post _ _ n _ _ G1 G2). intros b Hb. discriminate.
    + intros m1 dk Hc. destruct (Hstage _ _ Hc) as [G1 G2].
      destruct (negb (fst dk)).
      { unfold ret. apply (staged_post _ _ n _ _ G1 G2).
        intros b Hb. inversion Hb. discriminate. }
      rewrite Hp.
      assert (Hx : forall m2 extracted,
                 update_fs (extract_archive E url [n]) m1 = (m2, Ok extracted) ->
                 at_most_at E packname K (fs m2) [n] /\ index_of_a_scan E m2).
      { intros m2 ex. unfold update_fs.
        pose proof (keeps_to_path_grows E (fun p t => fst (extract_archive E url p t))
                      [n] (fs m1) (proj1 confined url)) as Hg.
        cbv beta in Hg. cbn [hd] in Hg.
        destruct (extract_archive E url [n] (fs m1)) as [t ok].
        intros Hu. injection Hu as G3 G4. rewrite <- G3. cbn [fs set_fs fst] in *.
        split; [apply (at_most_at_grows E packname K (fs m1) t n G1 Hg)|].
        apply (index_of_a_scan_same E m1 _ eq_refl G2). }
      apply bind_post.
      { intros m2 e Hc2. unfold update_fs in Hc2.
        destruct (extract_archive E url [n] (fs m1)); discriminate Hc2. }
      intros m2 ex Hc2. destruct (Hx _ _ Hc2) as [G3 G4].
      destruct (negb ex).
      * apply bind_post.
        { intros m3 e Hc3. unfold ask in Hc3. injection Hc3 as G5 G6. rewrite <- G5.
          apply (staged_post _ _ n _ _ G3 G4). intros b Hb. discriminate. }
        intros m3 empty Hc3. unfold ask in Hc3. injection Hc3 as G5 G6. rewrite <- G5.
        apply bind_post.
        { intros m4 e Hc4. destruct empty; [|unfold ret in Hc4; discriminate Hc4].
          apply rmtree_m_effect in Hc4. destruct Hc4 as [Hi Hs].
          apply (staged_post _ _ n).
          - apply (at_most_at_shrinks E packname K _ _ _ G3 Hs).
          - apply (index_of_a_scan_same E m2 m4 Hi G4).
          - intros b Hb. discriminate. }
        intros m4 u Hc4. unfold ret.
        assert (G7 : at_most_at E packname K (fs m4) [n] /\ index_of_a_scan E m4).
        { destruct empty.
          - apply rmtree_m_effect in Hc4. destruct Hc4 as [Hi Hs]. split.
            + apply (at_most_at_shrinks E packname K _ _ _ G3 Hs).
            + apply (index_of_a_scan_same E m2 m4 Hi G4).
          - unfold ret in Hc4. injection Hc4 as G8 G9. rewrite <- G8. split; assumption. }
        destruct G7 as [G8 G9]. apply (staged_post _ _ n _ _ G8 G9).
        intros b Hb. inversion Hb. discriminate.
      * apply flow_post_finish.
        -- apply (staged_post _ _ n _ _ G3 G4). intros; exact I.
        -- intros r' Hr. rewrite Hr. discriminate.
Qed.

Lemma switch_version_flow mode fl :
  flow_post E packname K ManagedResult (fun _ r => action r <> "skip")
            (switch_version E packname mode fl (reload E m0)).
Proof.
  destruct (opt_str_eqb "nightly" mode) eqn:Hm.
  - destruct mode as [s|]; [|discriminate]. unfold opt_str_eqb in Hm.
    apply String.eqb_eq in Hm. subst s. apply switch_nightly_flow.
  - unfold switch_version. rewrite Hm. apply cnr_switch_flow.
Qed.

Lemma is_enabled_none_eq m id :
  is_enabled E m id None = Ok (existsb pk_is_enabled (get_packages_by_name_or_url E m id)).
Proof.
  unfold is_enabled.
  induction (get_packages_by_name_or_url E m id) as [|x l IH]; [reflexivity|].
  simpl. destruct (pk_is_enabled x); [reflexivity|exact IH].
Qed.

Lemma existsb_enabled_instance m id :
  existsb pk_is_enabled (get_packages_by_name_or_url E m id) = true ->
  exists a, In a (enabled_instances E m id).
Proof.
  intros H. apply existsb_exists in H. destruct H as [a [Hin He]].
  exists a. apply filter_In. split; assumption.
Qed.

Lemma existsb_enabled_none m id :
  existsb pk_is_enabled (get_packages_by_name_or_url E m id) = false ->
  enabled_instances E m id = [].
Proof.
  intros H. apply filter_nil_of. intros x Hx He.
  assert (Ht : existsb pk_is_enabled (get_packages_by_name_or_url E m id) = true)
    by (apply existsb_exists; exists x; split; assumption).
  congruence.
Qed.

(** A 'skip' of [unified_enable] for a version that is disabled says
    that the version is enabled. *)
Lemma unified_enable_skip_case m id v m' r :
  is_disabled E m id (Some v) = Ok true ->
  unified_enable E m id (Some v) = (m', Ok r) ->
  action r = "skip" ->
  m' = m /\ is_enabled E m id (Some v) = Ok true.
Proof.
  intros Hd. unfold unified_enable. rewrite Hd.
  destruct (is_enabled E m id (Some v)) as [[|]|e].
  - intros H _. inversion H. split; reflexivity.
  - destruct (get_inactive_pack E m id (Some v)) as [[x|]|e].
    + destruct (shutil_move _ _ _); intros H Ha; inversion H; subst; discriminate Ha.
    + intros H Ha. inversion H; subst. discriminate Ha.
    + intros H. discriminate.
  - intros H. discriminate.
Qed.

(** The block "disable the id if an instance is enabled" of the
    install. *)
Lemma disable_if_enabled_clears m1 out :
  (if existsb pk_is_enabled (get_packages_by_name_or_url E (reload E m0) packname)
   then _ <~ (fun m => unified_disable E m packname) ;; ret tt
   else ret tt) (reload E m0) = (m1, out) ->
  cleared E packname K m1.
Proof.
  destruct (existsb pk_is_enabled _) eqn:Hx.
  - destruct (existsb_enabled_instance _ _ Hx) as [a Ha]. unfold bind.
    destruct (unified_disable E (reload E m0) packname) as [m2 [r|e]] eqn:Hd;
      pose proof (disable_clears a packname m2 _ Ha Ha Hd) as Hc;
      unfold ret; intros H; injection H as H1 H2; rewrite <- H1; exact Hc.
  - unfold ret. intros H. injection H as H1 H2. rewrite <- H1.
    apply start_cleared. apply existsb_enabled_none. exact Hx.
Qed.

(** The loop over the packages of the lookup clears the id, whether it
    gets to its end or an exception stops it. *)
Lemma loop_clears m1 out :
  disable_enabled E (get_packages_by_name_or_url E (reload E m0) packname) (reload E m0)
  = (m1, out) ->
  cleared E packname K m1.
Proof.
  intros H.
  destruct (disable_enabled_effect E _ _ _ _ (index_of_a_scan_reload E m0) H)
    as [Hi [Hs [_ [Hg Hn]]]].
  destruct (List.find pk_is_enabled (get_packages_by_name_or_url E (reload E m0) packname))
    as [x|] eqn:Hf.
  - split; [|apply (index_of_a_scan_same E (reload E m0) m1 Hi);
             apply index_of_a_scan_reload].
    pose proof (get_active_pack_instance E (reload E m0) packname x Hf) as Ha.
    pose proof Ha as Ha'. unfold enabled_instances in Ha'. apply filter_In in Ha'.
    destruct Ha' as [Hin He].
    pose proof (instance_in_own_lookup E m0 packname x Hin) as Hown.
    destruct (disable_scan_selects _ x Hown He) as [a' Hsel].
    destruct (disable_selected_enabled _ _ Hsel) as [Hin' He'].
    assert (Hpath : pk_fullpath a' = pk_fullpath x).
    { apply (every_id_single (pk_id x)); apply filter_In; split; assumption. }
    destruct (index_enabled_path E (reload E m0) (pk_id x) a'
                (index_of_a_scan_reload E m0) Hin' He') as [n [Hp _]].
    rewrite fs_reload in Hs.
    apply (at_most_at_gone E packname _ (fs m0) (fs m1) n).
    + rewrite <- Hp, Hpath, K_is. apply at_most_at_of; [apply every_id_single|exact Ha].
    + exact Hs.
    + apply (Hg x a' n eq_refl Hsel Hp).
  - rewrite (Hn eq_refl). apply start_cleared.
    apply (get_active_pack_none E (reload E m0) packname Hf).
Qed.

Lemma cnr_install_after_cleared pn v fl m1 :
  cleared E packname K m1 ->
  flow_post E packname K ManagedResult (fun _ r => action r <> "skip")
            (cnr_install E pn v fl m1).
Proof.
  intros [Hn Hi].
  destruct (cnr_install E pn v fl m1) as [m2 out] eqn:H.
  destruct (cnr_install_effect E pn v fl m1 m2 out confined H) as [Hi2 [Hg Ha]].
  split; [|split].
  - eexists. cbn [fst]. apply (none_active_grows E packname K _ _ _ Hn Hg).
  - apply (index_of_a_scan_same E m1 m2 Hi2 Hi).
  - cbn [fst snd]. intros r Hr. rewrite (Ha r Hr). discriminate.
Qed.

Lemma repo_install_after_cleared url p fl m1 :
  cleared E packname K m1 ->
  flow_post E packname K ManagedResult (fun _ r => action r = "install-git")
            (repo_install E url p fl m1).
Proof.
  intros [Hn Hi].
  destruct (repo_install E url p fl m1) as [m2 out] eqn:H.
  destruct (repo_install_effect E url p fl m1 m2 out confined H) as [Hi2 [Hg Ha]].
  split; [|split].
  - eexists. cbn [fst]. apply (none_active_grows E packname K _ _ _ Hn Hg).
  - apply (index_of_a_scan_same E m1 m2 Hi2 Hi).
  - cbn [fst snd]. exact Ha.
Qed.

Lemma flow_post_weaken (A : Type) (ok1 ok2 : Manager -> A -> Prop) p :
  flow_post E packname K A ok1 p ->
  (forall m a, ok1 m a -> ok2 m a) ->
  flow_post E packname K A ok2 p.
Proof.
  intros [H1 [H2 H3]] H. split; [exact H1|]. split; [exact H2|].
  intros a Ha. apply H, H3. exact Ha.
Qed.

Lemma reload_fixed m1 : reload E (reload E m1) = reload E m1.
Proof. apply reload_reload. Qed.

(** [install_by_id] from the point where neither a skip nor a switch
    was chosen. *)
Lemma install_rest_flow pn vs fl (disabled_target : bool) :
  (forall v, vs = Some v -> is_enabled E (reload E m0) packname (Some v) = Ok false) ->
  (disabled_target = true ->
   get_active_pack E (reload E m0) packname = None
   /\ forall v, vs = Some v -> is_disabled E (reload E m0) packname (Some v) = Ok true) ->
  flow_post E packname K ManagedResult
    (fun m' r => forall v, vs = Some v -> action r = "skip" -> result r = true ->
                 is_enabled E (reload E m') packname (Some v) = Ok true)
    ((if disabled_target then
        enabled <~ ask (fun m => is_enabled E m packname None) ;;
        _ <~ (if (enabled : bool)
              then _ <~ (fun m => unified_disable E m packname) ;; ret tt
              else ret tt) ;;
        (fun m => unified_enable E m packname vs)
      else if opt_str_eqb "nightly" vs then
        match get_nodepack E pn with
        | None =>
            ret (fail (new_result "fail")
                   ("'" ++ pn
                      ++ "' is not a node pack registered in the registry.")%string)
        | Some pack_info =>
            match pi_repository pack_info with
            | None =>
                ret (fail (new_result "fail")
                       ("No nightly version available for installation for '"
                          ++ pn ++ "'.")%string)
            | Some repo_url =>
                _ <~ reload_m E ;;
                enabled <~ ask (fun m => is_enabled E m packname None) ;;
                _ <~ (if (enabled : bool)
                      then _ <~ (fun m => unified_disable E m packname) ;;
                           ret tt
                      else ret tt) ;;
                r <~ repo_install E repo_url (components pn) fl ;;
                if negb (result r) then ret r
                else ret (with_target_version r vs)
            end
        end
      else
        _ <~ reload_m E ;;
        enabled_packages <~
          ask_pure (fun m => get_packages_by_name_or_url E m packname) ;;
        _ <~ disable_enabled E enabled_packages ;;
        _ <~ (match enabled_packages with
              | [] => ret tt
              | _ :: _ => reload_m E
              end) ;;
        disabled_result <~
          ask (fun m => is_disabled E m packname vs) ;;
        if (disabled_result : bool)
        then (fun m => unified_enable E m packname vs)
        else cnr_install E pn vs fl) (reload E m0)).
Proof.
  intros Hen Hdt. destruct disabled_target.
  - (* the version is disabled and nothing is enabled *)
    destruct (Hdt eq_refl) as [Hact Hdis].
    pose proof (get_active_pack_none E _ _ Hact) as Hnone.
    unfold bind at 1. unfold ask at 1. rewrite is_enabled_none_eq.
    rewrite (enabled_instances_exists E _ _ Hnone).
    unfold bind at 1. unfold ret at 1.
    apply (enable_after_cleared _ packname vs _ (start_cleared Hnone)).
    intros m2 r Hr v Hv Ha _. subst vs.
    rewrite (unified_enable_no_skip E _ _ _ _ _ (Hen v eq_refl) (Hdis v eq_refl) Hr) in Ha.
    discriminate.
  - destruct (opt_str_eqb "nightly" vs).
    + (* nightly *)
      destruct (get_nodepack E pn) as [pack_info|].
      2:{ unfold ret. apply flow_post_start. intros b Hb v Hv Ha. inversion Hb; subst b.
          discriminate Ha. }
      destruct (pi_repository pack_info) as [repo_url|].
      2:{ unfold ret. apply flow_post_start. intros b Hb v Hv Ha. inversion Hb; subst b.
          discriminate Ha. }
      unfold bind at 1. unfold reload_m at 1. rewrite reload_reload.
      unfold bind at 1. unfold ask at 1. rewrite is_enabled_none_eq.
      apply bind_post.
      * intros m1 e Hc. apply disable_if_enabled_clears in Hc.
        apply (flow_post_cleared _ _ _ _ Hc). intros b Hb. discriminate.
      * intros m1 u Hc. apply disable_if_enabled_clears in Hc.
        pose proof (repo_install_after_cleared repo_url (components pn) fl m1 Hc) as Hr.
        apply bind_post.
        -- intros m2 e Hc2. rewrite Hc2 in Hr.
           apply (flow_post_state _ _ _ _ _ _ _ Hr). intros b Hb. discriminate.
        -- intros m2 r Hc2. rewrite Hc2 in Hr.
           assert (Ha : action r = "install-git").
           { destruct Hr as [_ [_ Hr]]. apply Hr. reflexivity. }
           destruct (negb (result r)); unfold ret;
             apply (flow_post_state _ _ _ _ _ _ _ Hr); intros b Hb v Hv Hs;
               inversion Hb; subst b; cbn in Hs; rewrite Ha in Hs; discriminate Hs.
    + (* a release *)
      unfold bind at 1. unfold reload_m at 1. rewrite reload_reload.
      unfold bind at 1. unfold ask_pure at 1.
      assert (Htail : forall m2,
                 cleared E packname K m2 -> reload E m2 = m2 ->
                 flow_post E packname K ManagedResult
                   (fun m' r => forall v, vs = Some v -> action r = "skip" ->
                                result r = true ->
                                is_enabled E (reload E m') packname (Some v) = Ok true)
                   ((disabled_result <~
                       ask (fun m => is_disabled E m packname vs) ;;
                     if (disabled_result : bool)
                     then (fun m => unified_enable E m packname vs)
                     else cnr_install E pn vs fl) m2)).
      { intros m2 Hc Hfresh. apply bind_post.
        - intros m3 e Hc3. unfold ask in Hc3. injection Hc3 as G1 G2. rewrite <- G1.
          apply (flow_post_cleared _ _ _ _ Hc). intros b Hb. discriminate.
        - intros m3 dr Hc3. unfold ask in Hc3. injection Hc3 as G1 G2. rewrite <- G1.
          destruct dr.
          + apply (enable_after_cleared _ packname vs _ Hc).
            intros m4 r Hr v Hv Ha _. subst vs.
            destruct (unified_enable_skip_case _ _ _ _ _ G2 Hr Ha) as [Hm He].
            rewrite Hm, Hfresh. exact He.
          + apply (flow_post_weaken _ _ _ _ (cnr_install_after_cleared pn vs fl m2 Hc)).
            intros m r Ha v Hv Hs. contradiction. }
      apply bind_post.
      * intros m1 e Hc. apply loop_clears in Hc.
        apply (flow_post_cleared _ _ _ _ Hc). intros b Hb. discriminate.
      * intros m1 u Hc.
        destruct (get_packages_by_name_or_url E (reload E m0) packname) as [|x l] eqn:Hl.
        -- cbn [disable_enabled] in Hc. unfold ret in Hc. injection Hc as G1 G2.
           rewrite <- G1. unfold bind at 1. unfold ret at 1.
           apply Htail; [|apply reload_reload].
           apply start_cleared. unfold enabled_instances. rewrite Hl. reflexivity.
        -- rewrite <- Hl in Hc. apply loop_clears in Hc.
           unfold bind at 1. unfold reload_m at 1.
           apply Htail; [apply cleared_reload; exact Hc|apply reload_reload].
Qed.

(** [install_by_id] for a name that is not URL-like, with a version or
    without one (the name then being in its normalized form): whatever
    way it takes and however it ends, the enabled instances of the
    normalized id sit in one directory at most; and a successful 'skip'
    for a version says that the version is enabled. *)
Lemma install_resolved_flow pn vs hash fl :
  normalize_package_name E pn = packname ->
  (vs = None -> pn = packname) ->
  flow_post E packname K ManagedResult
    (fun m' r => forall v, vs = Some v -> action r = "skip" -> result r = true ->
                 is_enabled E (reload E m') packname (Some v) = Ok true)
    (install_by_id_resolved E pn vs hash fl (reload E m0)).
Proof.
  intros Hnorm Hplain. unfold install_by_id_resolved. rewrite Hnorm.
  match goal with |- context [bind _ ?k] => set (rest := k) end.
  assert (Hrest : forall vs',
             flow_post E packname K ManagedResult
               (fun m' r => forall v, vs' = Some v -> action r = "skip" ->
                            result r = true ->
                            is_enabled E (reload E m') packname (Some v) = Ok true)
               (rest (inr vs') (reload E m0))).
  { intros vs'. unfold rest.
    unfold bind at 1. unfold reload_m at 1. rewrite reload_reload.
    ask_step.
    { apply flow_post_start. intros b Hb. discriminate. }
    destruct a.
    { unfold ret. apply flow_post_start. intros b Hb v Hv _ _. rewrite reload_reload.
      subst vs'. assumption. }
    ask_step. subst a.
    destruct (get_active_pack E (reload E m0) packname) as [act|] eqn:Hact.
    - ask_step.
      { apply flow_post_start. intros b Hb. discriminate. }
      unfold bind at 1. unfold ret at 1.
      destruct a as [tgt|].
      + apply (flow_post_weaken _ _ _ _ (switch_version_flow vs' fl)).
        intros m r Ha v Hv Hs. contradiction.
      + apply (install_rest_flow pn vs' fl false).
        * intros v Hv. subst vs'. assumption.
        * intros Hc. discriminate.
    - unfold bind at 1. unfold ret at 1.
      ask_step.
      { apply flow_post_start. intros b Hb. discriminate. }
      apply (install_rest_flow pn vs' fl a).
      + intros v Hv. subst vs'. assumption.
      + intros Ha. subst a. split; [exact Hact|].
        intros v Hv. subst vs'. assumption. }
  destruct vs as [v|].
  - unfold bind at 1. unfold ret at 1. apply Hrest.
  - rewrite (Hplain eq_refl).
    assert (Hnov : forall (m' : Manager) (r : ManagedResult) (v : string),
               @None string = Some v -> action r = "skip" -> result r = true ->
               is_enabled E (reload E m') packname (Some v) = Ok true)
      by (intros; discriminate).
    apply bind_post.
    + (* the first part raises: nothing has changed, or enable has *)
      intros m1 e.
      unfold bind at 1. unfold ask at 1. rewrite is_enabled_none_eq.
      destruct (existsb pk_is_enabled
                  (get_packages_by_name_or_url E (reload E m0) packname)) eqn:Hx.
      { unfold ret. intros H. discriminate. }
      unfold bind at 1. unfold ask at 1.
      destruct (is_disabled E (reload E m0) packname None) as [[|]|e'].
      * unfold bind at 1.
        pose proof (enable_after_cleared (fun _ _ => True) packname None _
                      (start_cleared (existsb_enabled_none _ _ Hx))
                      (fun _ _ _ => I)) as He.
        destruct (unified_enable E (reload E m0) packname None) as [m2 [r|e2]].
        -- unfold ret. intros H. discriminate.
        -- intros H. injection H as G1 G2. rewrite <- G1.
           apply (flow_post_state _ _ _ _ _ _ _ He). intros b Hb. discriminate.
      * unfold bind at 1. unfold ask at 1.
        destruct (resolve_unspecified_version E (reload E m0) packname None) as [w|e2].
        -- unfold ret. intros H. discriminate.
        -- intros H. injection H as G1 G2. rewrite <- G1.
           apply flow_post_start. intros b Hb. discriminate.
      * intros H. injection H as G1 G2. rewrite <- G1.
        apply flow_post_start. intros b Hb. discriminate.
    + intros m1 early.
      unfold bind at 1. unfold ask at 1. rewrite is_enabled_none_eq.
      destruct (existsb pk_is_enabled
                  (get_packages_by_name_or_url E (reload E m0) packname)) eqn:Hx.
      { unfold ret. intros H. injection H as G1 G2. rewrite <- G1, <- G2.
        unfold rest. unfold ret. apply flow_post_start. intros b Hb. apply Hnov. }
      unfold bind at 1. unfold ask at 1.
      destruct (is_disabled E (reload E m0) packname None) as [[|]|e'].
      * unfold bind at 1.
        pose proof (enable_after_cleared (fun _ _ => True) packname None _
                      (start_cleared (existsb_enabled_none _ _ Hx))
                      (fun _ _ _ => I)) as He.
        destruct (unified_enable E (reload E m0) packname None) as [m2 [r|e2]].
        -- unfold ret. intros H. injection H as G1 G2. rewrite <- G1, <- G2.
           unfold rest. unfold ret.
           apply (flow_post_state _ _ _ _ _ _ _ He). intros b Hb. apply Hnov.
        -- intros H. discriminate.
      * unfold bind at 1. unfold ask at 1.
        destruct (resolve_unspecified_version E (reload E m0) packname None) as [w|e2].
        -- unfold ret. intros H. injection H as G1 G2. rewrite <- G1, <- G2.
           apply (flow_post_weaken _ _ _ _ (Hrest w)). intros m r _. apply Hnov.
        -- intros H. discriminate.
      * intros H. discriminate.
Qed.

(** [unified_update]: a Nightly is pulled where it is, a Release goes
    through the switch to the latest version or has it reserved for the
    next start. *)
Lemma unified_update_flow fl :
  flow_post E packname K ManagedResult (fun _ _ => True)
            (unified_update E packname fl (reload E m0)).
Proof.
  unfold unified_update.
  ask_step. subst a.
  destruct (get_active_pack E (reload E m0) packname) as [a|] eqn:Ha.
  2: { apply flow_post_start. intros; exact I. }
  pose proof (get_active_pack_instance E _ _ _ Ha) as Hin.
  destruct (is_nightly a).
  - apply bind_post.
    + intros m1 e Hc.
      destruct (repo_update_effect E _ fl _ m1 _ confined Hc) as [Hi Hg].
      pose proof (at_most_at_of E m0 packname a (every_id_single packname) Hin) as Hat.
      rewrite <- K_is in Hat.
      assert (Hp : exists n, pk_fullpath a = [n]).
      { unfold enabled_instances in Hin. apply filter_In in Hin. destruct Hin as [Hl He].
        destruct (index_enabled_path E _ packname a (index_of_a_scan_reload E m0) Hl He)
          as [n [Hn _]].
        exists n. exact Hn. }
      destruct Hp as [n Hn]. rewrite Hn in Hat, Hg. cbn [hd] in Hg.
      rewrite fs_reload in Hg.
      split; [exists [n]; cbn [fst]; apply (at_most_at_grows E _ _ (fs m0)); assumption|].
      split; [cbn [fst]; apply (index_of_a_scan_same E (reload E m0));
              [exact Hi|apply index_of_a_scan_reload]|].
      intros r Hr. discriminate.
    + intros m1 r Hc.
      destruct (repo_update_effect E _ fl _ m1 _ confined Hc) as [Hi Hg].
      pose proof (at_most_at_of E m0 packname a (every_id_single packname) Hin) as Hat.
      rewrite <- K_is in Hat.
      assert (Hp : exists n, pk_fullpath a = [n]).
      { unfold enabled_instances in Hin. apply filter_In in Hin. destruct Hin as [Hl He].
        destruct (index_enabled_path E _ packname a (index_of_a_scan_reload E m0) Hl He)
          as [n [Hn _]].
        exists n. exact Hn. }
      destruct Hp as [n Hn]. rewrite Hn in Hat, Hg. cbn [hd] in Hg.
      rewrite fs_reload in Hg.
      unfold ret.
      split; [exists [n]; cbn [fst]; apply (at_most_at_grows E _ _ (fs m0)); assumption|].
      split; [cbn [fst]; apply (index_of_a_scan_same E (reload E m0));
              [exact Hi|apply index_of_a_scan_reload]|].
      intros; exact I.
  - apply bind_post.
    + intros m1 e Hc. unfold cnr_switch_version in Hc.
      destruct (instant_execution fl).
      * pose proof (cnr_switch_flow None fl) as Hf. rewrite Hc in Hf.
        apply (flow_post_state _ _ _ _ _ _ _ Hf). intros; exact I.
      * destruct (cnr_switch_version_lazy_effect E _ _ _ _ _ _ Hc) as [Hi Hfs].
        destruct (flow_post_start ManagedResult (fun _ _ => True) (Raise e)
                    (fun _ _ => I)) as [[q Hq] _].
        cbn [fst] in Hq. rewrite fs_reload in Hq.
        split; [exists q; cbn [fst]; rewrite Hfs, fs_reload; exact Hq|].
        split; [cbn [fst]; apply (index_of_a_scan_same E (reload E m0));
                [exact Hi|apply index_of_a_scan_reload]|].
        intros; exact I.
    + intros m1 r Hc. unfold cnr_switch_version in Hc. unfold ret.
      destruct (instant_execution fl).
      * pose proof (cnr_switch_flow None fl) as Hf. rewrite Hc in Hf.
        apply (flow_post_state _ _ _ _ _ _ _ Hf). intros; exact I.
      * destruct (cnr_switch_version_lazy_effect E _ _ _ _ _ _ Hc) as [Hi Hfs].
        destruct (flow_post_start ManagedResult (fun _ _ => True) (Raise OutOfFuel)
                    (fun _ _ => I)) as [[q Hq] _].
        cbn [fst] in Hq. rewrite fs_reload in Hq.
        split; [exists q; cbn [fst]; rewrite Hfs, fs_reload; exact Hq|].
        split; [cbn [fst]; apply (index_of_a_scan_same E (reload E m0));
                [exact Hi|apply index_of_a_scan_reload]|].
        intros; exact I.
Qed.

End Flows.

(* ------------------------------------------------------------------ *)
(** ** The operations, one by one *)

Lemma first_enabled (l : list InstalledNodePackage) x :
  In x (filter pk_is_enabled l) ->
  exists y, find pk_is_enabled l = Some y /\ In y (filter pk_is_enabled l).
Proof.
  intros H. apply filter_In in H. destruct H as [Hin He].
  destruct (find pk_is_enabled l) as [y|] eqn:Hf.
  - exists y. split; [reflexivity|]. apply find_some in Hf. apply filter_In. exact Hf.
  - rewrite (find_none _ _ Hf x Hin) in He. discriminate.
Qed.

Lemma is_enabled_scan_first (E : Env) v l y :
  find pk_is_enabled l = Some y ->
  is_enabled_scan E (Some v) l
  = if String.eqb v "nightly" then Ok (is_nightly y)
    else if is_from_cnr y then sv_eq E (pk_version y) v else Ok false.
Proof.
  induction l as [|x l IH]; simpl; [discriminate|].
  destruct (pk_is_enabled x).
  - intros H. inversion H; subst. reflexivity.
  - exact IH.
Qed.

(** [is_enabled] looks at the first enabled instance only; under the
    invariant that is the instance of the one directory there is. *)
Lemma is_enabled_of_version (E : Env) m id v x :
  single_active E m id ->
  In x (enabled_instances E m id) ->
  (forall y, In y (enabled_instances E m id) -> pk_fullpath y = pk_fullpath x ->
             has_version E y v) ->
  is_enabled E m id (Some v) = Ok true.
Proof.
  intros Hs Hx Hv. unfold is_enabled.
  destruct (first_enabled _ _ Hx) as [y [Hf Hy]].
  rewrite (is_enabled_scan_first E v _ y Hf).
  pose proof (Hv y Hy (Hs y x Hy Hx)) as H. unfold has_version in H.
  destruct (String.eqb v "nightly").
  - rewrite H. reflexivity.
  - destruct H as [H1 H2]. rewrite H1. exact H2.
Qed.

(** An operation that leaves the state alone keeps the invariant. *)
Lemma kept_when_unchanged (E : Env) m0 m' id :
  single_active E (reload E m0) id -> m' = reload E m0 ->
  single_active E (reload E m') id.
Proof. intros H ->. rewrite reload_reload. exact H. Qed.

(** An operation that adds nothing to the active root keeps the
    invariant of every id. *)
Lemma kept_when_shrinking (E : Env) m0 m' id :
  single_active E (reload E m0) id ->
  shrinks E (fs m0) (fs m') ->
  cross_reference E (reload E m') id = None
  \/ cross_reference E (reload E m') id = cross_reference E (reload E m0) id ->
  single_active E (reload E m') id.
Proof.
  intros Hs Hsh Hk. destruct (single_active_at E m0 id Hs) as [p Hp].
  apply (single_active_of E m' id (cross_reference E (reload E m0) id) p); [|exact Hk].
  apply (at_most_at_shrinks E id _ (fs m0)); assumption.
Qed.

Lemma kept_by_flow (E : Env) m0 id (ok : Manager -> ManagedResult -> Prop) p :
  flow_post E id (cross_reference E (reload E m0) id) ManagedResult ok p ->
  cross_reference E (reload E (fst p)) id = None
  \/ cross_reference E (reload E (fst p)) id = cross_reference E (reload E m0) id ->
  single_active E (reload E (fst p)) id.
Proof.
  intros [[q Hq] _] Hk.
  apply (single_active_of E (fst p) id (cross_reference E (reload E m0) id) q);
    assumption.
Qed.

Lemma unified_disable_shrinks (E : Env) m0 packname :
  shrinks E (fs m0) (fs (fst (unified_disable E (reload E m0) packname))).
Proof.
  destruct (unified_disable E (reload E m0) packname) as [m' out] eqn:H.
  destruct (unified_disable_effect E _ packname m' out (index_of_a_scan_reload E m0) H)
    as [_ [Hs _]].
  rewrite fs_reload in Hs. exact Hs.
Qed.

Lemma unified_uninstall_shrinks (E : Env) m0 packname :
  shrinks E (fs m0) (fs (fst (unified_uninstall E (reload E m0) packname))).
Proof.
  rewrite after_uninstall.
  pose proof (try_rmtree_all_shrinks E packname
                (get_packages_by_name_or_url E (reload E m0) packname) (reload E m0)) as H.
  rewrite fs_reload in H. exact H.
Qed.

(** After [unified_disable] no instance of the id is enabled. *)
Lemma disabled_none_enabled (E : Env) m0 packname :
  (forall id, single_active E (reload E m0) id) ->
  let after := reload E (fst (unified_disable E (reload E m0) packname)) in
  cross_reference E after packname = None
  \/ cross_reference E after packname = cross_reference E (reload E m0) packname ->
  enabled_instances E after packname = [].
Proof.
  intros Hall after Hk. subst after.
  destruct (unified_disable E (reload E m0) packname) as [m' out] eqn:H.
  cbn [fst] in *.
  assert (Hc : cleared E packname (cross_reference E (reload E m0) packname) m').
  { destruct (enabled_instances E (reload E m0) packname) as [|a l] eqn:Ha.
    - pose proof (start_cleared E m0 packname _ eq_refl Ha) as Hc.
      destruct (unified_disable_effect E _ packname m' out
                  (index_of_a_scan_reload E m0) H) as [Hi [Hs _]].
      destruct Hc as [Hn Hx]. split.
      + apply (none_active_shrinks E packname _ _ _ Hn Hs).
      + apply (index_of_a_scan_same E (reload E m0)); assumption.
    - apply (disable_clears E m0 packname _ eq_refl Hall a packname m' out);
        try exact H; rewrite Ha; left; reflexivity. }
  destruct Hc as [Hn _].
  apply filter_nil_of. intros x Hx He.
  assert (Hin : In x (enabled_instances E (reload E m') packname))
    by (apply filter_In; split; assumption).
  apply enabled_instances_fresh in Hin. destruct Hin as [H1 [H2 H3]].
  pose proof (Hn x H1 H2) as H4.
  destruct Hk as [Hk|Hk]; rewrite Hk in H3.
  - unfold instance_of in H3, H4. rewrite orb_false_r in H3.
    rewrite H3 in H4. discriminate.
  - rewrite H3 in H4. discriminate.
Qed.

Lemma unified_enable_kept (E : Env) m0 packname version_spec :
  (forall id, single_active E (reload E m0) id) ->
  in_scope E (reload E m0) packname (OpEnable version_spec) ->
  let after := reload E (fst (unified_enable E (reload E m0) packname version_spec)) in
  cross_reference E after packname = None
  \/ cross_reference E after packname = cross_reference E (reload E m0) packname ->
  single_active E after packname.
Proof.
  intros Hall Hsc after Hk. subst after.
  assert (Hclear : enabled_instances E (reload E m0) packname = [] ->
                   single_active E
                     (reload E (fst (unified_enable E (reload E m0) packname version_spec)))
                     packname).
  { intros Hn.
    apply (kept_by_flow E m0 packname (fun _ _ => True)); [|exact Hk].
    apply enable_after_cleared; [|tauto].
    apply (start_cleared E m0 packname _ eq_refl Hn). }
  destruct Hsc as [Hn|Hsc]; [apply Hclear; exact Hn|].
  destruct version_spec as [v|].
  - apply (kept_when_unchanged E m0); [apply Hall|].
    unfold unified_enable.
    destruct (is_enabled E (reload E m0) packname (Some v)) as [[|]|e];
      [reflexivity|contradiction|reflexivity].
  - destruct (is_url_like packname) eqn:Hu.
    + destruct Hsc as [Hsc|Hsc]; [discriminate|].
      apply (kept_when_unchanged E m0); [apply Hall|].
      unfold unified_enable, resolve_unspecified_version. rewrite Hu.
      destruct (is_enabled E (reload E m0) packname (Some "nightly")) as [[|]|e];
        [reflexivity|contradiction|reflexivity].
    + destruct (existsb pk_is_enabled
                  (get_packages_by_name_or_url E (reload E m0) packname)) eqn:He.
      * apply (kept_when_unchanged E m0); [apply Hall|].
        apply enable_unversioned_keeps; assumption.
      * apply Hclear. apply existsb_enabled_none. exact He.
Qed.

Lemma install_by_id_flow (E : Env) m0 fuel packname vs fl :
  collaborators_confined E ->
  (forall id, single_active E (reload E m0) id) ->
  PyStr.contains "@" packname = false ->
  is_url_like packname = false ->
  (vs = None -> normalize_package_name E packname = packname) ->
  let id := normalize_package_name E packname in
  flow_post E id (cross_reference E (reload E m0) id) ManagedResult
    (fun m' r => forall v, vs = Some v -> action r = "skip" -> result r = true ->
                 is_enabled E (reload E m') id (Some v) = Ok true)
    (install_by_id E (S fuel) packname vs fl (reload E m0)).
Proof.
  intros Hc Hall Hat Hu Hn id. rewrite (install_by_id_plain E fuel packname _ fl _ Hat Hu).
  destruct (PyStr.contains "comfyui-manager" (PyStr.lower packname)).
  - apply (flow_post_start E m0 id _ eq_refl Hall).
    intros a Ha. inversion Ha; subst. intros v _ _ Hr. discriminate.
  - apply (install_resolved_flow E m0 id _ eq_refl Hc Hall); [reflexivity|].
    intros Hv. symmetry. apply Hn. exact Hv.
Qed.

(* ------------------------------------------------------------------ *)
(** ** The invariant *)


(** An active root whose enabled directories all have one path holds
    the invariant for every id. *)
Lemma single_active_of_scan (E : Env) m0 :
  (forall x y, In x (scan_enabled E (fs m0)) -> In y (scan_enabled E (fs m0)) ->
               pk_fullpath x = pk_fullpath y) ->
  forall id, single_active E (reload E m0) id.
Proof.
  intros H id x y Hx Hy.
  apply enabled_instances_fresh in Hx. apply enabled_instances_fresh in Hy.
  apply H; tauto.
Qed.

(** The collaborators of the examples keep to their path. *)
Lemma demo_collaborators_confined deps refused :
  collaborators_confined (Demo.env_with deps refused).
Proof.
  assert (Hsame : forall (p : Path) (t : FS) d',
             In d' t -> (exists d, In d t /\ same_entry d' d) \/ d_name d' = hd "" p).
  { intros p t d' H. left. exists d'. split; [exact H|split; reflexivity]. }
  split; [|split; [|split]].
  - intros url p t d' H. cbn [Demo.env_with extract_archive fst] in H.
    unfold Demo.extract in H. cbn [fst] in H.
    destruct (in_insert _ _ _ _ H) as [[d0 [Hd0 [Hn Hm]]]|Hn]; [|right; exact Hn].
    destruct (in_remove _ _ _ Hd0) as [d [Hd [Hn' Hm']]].
    left. exists d. split; [exact Hd|]. split; congruence.
  - intros url p t d' H. apply Hsame. exact H.
  - intros p t d' H. apply Hsame. exact H.
  - intros p t d' H. apply Hsame. exact H.
Qed.



(** Why the install of the statement takes a plain name: for a URL the
    registry does not know, [install_by_id] clones into the directory
    named after the URL and disables nothing. A clone of
    [https://github.com/owner/Foo] is enabled in [Foo-dev]; the install
    of that URL succeeds with a second one in [Foo]. *)
Lemma install_by_url_adds_second_clone :
  let E := Demo.env_cloning in
  let url := "https://github.com/owner/Foo" in
  let m := Demo.fresh E [Demo.clone "Foo-dev" url] in
  let run := install_by_id E 1 url None (Demo.flags false) m in
  (exists r, snd run = Ok r /\ result r = true /\ action r = "install-git")
  /\ map pk_fullpath (enabled_instances E m url) = [["Foo-dev"]]
  /\ map pk_fullpath (enabled_instances E (reload E (fst run)) url)
     = [["Foo-dev"]; ["Foo"]].
Proof.
  cbv zeta. split; [|split]; [|vm_compute; reflexivity|vm_compute; reflexivity].
  eexists. split; [vm_compute; reflexivity|]. split; reflexivity.
Qed.

(* ------------------------------------------------------------------ *)
(** ** install on what is installed *)



